(* ===== verification/_CoqProject ===== *)
-Q . S2P
Prelude.v
Tracks.v
ProxyProtocol.v
Nanopb.v
ConfigCache.v
Zephyr.v
UartMeshtastic.v
ProtoHandler.v
RouteTrace.v
UpstreamSession.v
Phase0Report.v
BleGatt.v
BleReplay.v
Router.v
World.v
Main.v
System.v
Calls.v
UartDma.v
Tasks.v
Threads.v
Locks.v
WorkQueue.v
BootThread.v
Schedule.v
Receiver.v
Told.v
Forgotten.v
GattTable.v
ProxySpec.v
PhoneMap.v
Refine.v
Spans.v
ProxyRuns.v
StaleWait.v
Sending.v
Fetch.v
Downlink.v
Deliver.v
