(* ===== verification/Prelude.v ===== *)
(** * Verification of the Meshtastic BLE proxy

    The firmware under src/src/ puts one Meshtastic node, on a serial line,
    behind a Bluetooth GATT server, so that several phones can use the node at
    once.  This library models all of its C files and proves what they promise.
    This file is the documentation of the library and its prelude: record
    updates, C integers, memory accesses, the monad and its lenses, and the
    lemmas and tactics that the components share.

    ** The program

    - [uart_meshtastic.c] frames and deframes the node's serial protocol
      (0x94 0xc3, length, payload).  Bytes the driver received pass through a
      ring buffer and a work item; outgoing payloads wait in a message queue.
    - [proto_handler.c] decodes FromRadio and ToRadio messages just far enough
      to route them and encodes the replies and heartbeats of the proxy.
    - [upstream_session.c] runs the proxy's own config session with the node:
      it asks for the config once, stores the answer, then keeps the session
      alive with heartbeats and serves the phones that wait for the config.
    - [config_cache.c] stores that answer as packed frames.
    - [ble_gatt.c] keeps a slot for each phone (state, packet queue, replay
      cursor), answers the reads and writes of the GATT characteristics, and
      replays the cached config to a phone that asks for it.
    - [proxy_protocol.c] is a header inside the mesh packets that names the
      phone a packet is from and the one it is for.
    - [router.c] decides for each frame of the node whether it goes to the
      session, to one phone, to all phones or nowhere.
    - [main.c] starts the modules and registers their callbacks:
      [on_fromradio_uart] takes frames of the node, [on_toradio_ble] writes of
      a phone.

    The modules interact by calls and callbacks only; all state is in static
    variables.

    ** The model

    The C memory a function works on is a [list Z] of bytes, an unsigned integer
    of [w] bits a [Z] whose wrap-around is written out ([u8], [u16], [u32]), a
    struct a [Record], an enum an [Inductive].  Code with effects runs in the
    monad [M W] below: a function of the state [W] that gives a result, the new
    state and the trace of its calls to the kernel ([io]), or [None] where the
    C code would access memory outside an object.  So a theorem that a run is
    [Some] says that the code returns and stays within its objects.

    Each file with static variables has a record of them ([cache], [uart],
    [upstream], [ble]).  A component that calls others is written over any [W]
    with a [Lens] to each part it uses, the parts being disjoint
    ([Disjoint_lens]); World instantiates [W] with the record of all of them.
    A function pointer that another module registers is a parameter of the
    definitions that call it, and a flag in the state says that it was
    registered.

    The components, one file each; operations carry the names of the C
    functions:

    - ProxyProtocol: [proxy_protocol.c].
    - Nanopb: interface to the generated protobuf code.
    - ProtoHandler: [proto_handler.c].
    - RouteTrace: what the ROUTE lines of [route_trace.h] read and print.
    - Zephyr: interfaces to the kernel's ring buffer and message queue and to
      the attribute reads of the Bluetooth stack.
    - ConfigCache: [config_cache.c], as a bounded log of frames.
    - UartMeshtastic: [uart_meshtastic.c], with a reference deframer and the
      transmitter as a step relation.
    - UpstreamSession: [upstream_session.c]; Phase0Report: its dump of the
      burst counters.
    - BleGatt, BleReplay: the functions of [ble_gatt.c]; the second file holds
      the theorems on what a phone reads.
    - Router: [router.c], and [route_of], its specification.
    - World, Main: all static variables; [main.c].

    Two files of general use: Tracks proves what the runs of an operation do to
    a part of the state from the shape of its code; Calls says which calls of
    the kernel each module makes.

    The whole program, one handler at a time:

    - System: every handler as an event that runs to its end; the invariant
      [sys_ok] and what each event keeps ([kept], [live_kept]).
    - ProxySpec: the abstract proxy.  Its state is a map from phones to what
      each has still to read, the log of the config, the bytes heard and the
      payloads to send; no slots, rings, cursors or buffers.
    - PhoneMap, Refine: the map from the variables to that state, and a
      simulation lemma for each event.
    - ProxyRuns, Downlink, StaleWait: what follows for whole runs, first on the
      abstract proxy, then for the program.
    - UartDma: the two receive buffers as memory that the program shares with
      the UART driver.

    The whole program, interleaved:

    - Tasks: handlers with cuts, where other threads may run, and a
      rely-guarantee judgement [ok] for them.
    - Threads: the handlers of the work queue and the boot as tasks, which are
      the handlers when nothing interrupts them.
    - Locks: how every section uses the slots' mutexes.
    - WorkQueue, BootThread: the judgement [ok] for these tasks.
    - Schedule: configurations of the threads, the steps [cstep], all
      interleavings from power-on ([creachable]), and the theorems on them.
    - Told: notifications and connection references along a schedule.
    - Forgotten: a phone that asks while the threads are still booting.
    - Receiver: the bytes the receiver takes, the frame it has in hand and what
      is left to do for one it handed over, through the sections of the work
      queue.
    - Spans: schedules with a log of what is seen of them, and of what the router
      can look up at each step.
    - Sending, Fetch, Deliver: along a schedule, what goes to the node; the
      config session; what a phone sees ([sees], its part of the abstract
      proxy), and its packet queue.
    - GattTable: the service definition, its UUIDs and indices, the connection
      callbacks and the advertising data.

    ** What the theorems show

    - The program as one object, any events in any order after a boot, handlers
      one at a time: what is seen of it, the answers to the phones and the
      frames on the line, is a run of the abstract proxy ([proxy_refines]).
      So the session state and the cache are a function of the bytes heard
      ([config_exact]); what a receiver decodes from the line is what was to be
      sent, each payload once and in order ([uplink_exact]); and the packets for
      a phone go through a mailbox, a bounded queue that its reads empty from
      the front ([downlink_exact]).  The bytes heard are those of the line,
      however the driver uses its buffers ([dma_exact]).
    - Every interleaving of the threads, from power-on and through the boot
      (Schedule): no section of a thread and no handler makes an access out of
      bounds or gets stuck, and the invariants of all modules hold
      ([threads_safe]).  What holds of the handlers one at a time holds here
      too, for each part of the abstract proxy by itself: session and cache are
      a function of the frames of the line ([threads_config]), the payloads sent
      go out once and in order ([threads_uplink]), and once the session is LIVE
      a phone sees its part of the abstract proxy, wherever its requests cut
      into the receiver and a broadcast: it is answered as there, and gets the
      frames that are for all or for itself when they are routed, and no others
      ([threads_phone]), so its packets go
      through the same mailbox ([threads_downlink]).  A phone whose replay was
      armed reads exactly its own segment of the cached burst and its own closing
      frame, whatever runs in between ([threads_replay_isolated]); a phone
      that waits in the session's queue once [main] is in its loop is served
      when the config is there ([threads_no_phone_forgotten]); no
      phone can restart the node's config session ([threads_own_session]); a
      replay runs only on a published cache ([threads_replay_ready]); mutexes
      are not held across a switch nor across a call of the trace, so there is
      no deadlock ([threads_locks]);
      a phone is notified of each value of its counter, once
      ([threads_notified]); references to connections are balanced
      ([threads_refs]); every thread can finish and the ring be emptied
      ([threads_finish]).  The tasks are the handlers, cut ([tasks_are_handlers]).
    - What a phone sees (GattTable): every request the stack lets through has a
      callback, which returns ([gatt_requests_served]); attribute indices,
      permissions, callbacks and advertising data fit together
      ([gatt_layout]).
    - The callbacks (Main, Router): each frame of the node goes where [route_of]
      says and nowhere else, each write of a phone is served, parked, answered
      or forwarded as its kind asks for; [main] boots or returns the first
      error.
    - The session (UpstreamSession): its state machine on every frame, the
      choice of nonces, the keepalive, the waiting phones, the counters and
      their dump (Phase0Report).
    - The cache (ConfigCache): storing a frame refines appending to a bounded
      log; the readers and the segments are exact.
    - The phones (BleGatt, BleReplay): each operation on all its branches; reads
      deliver a replay or the packet queue exactly, in order, once, for any
      chunk size of the long reads.
    - The serial line (UartMeshtastic): the receiver computes the reference
      deframer however the bytes are split; accepted payloads are transmitted
      in order, once, and the transmitter drains.
    - The formats (ProxyProtocol, ProtoHandler): round trips, what each parser
      accepts, and what the encoders write, set and return for a buffer of any
      size ([proto_encoders_exact]).

    Three theorems are about faults.  A phone that asks while [main] is still
    booting is dropped from the waiting phones when the session starts, and is
    not served on any schedule unless it asks again
    ([early_phone_forgotten]).  A phone that waits for the config and
    disconnects stays in the waiting array, so that whichever phone has the
    same connection object when the burst is complete is replayed to, also
    without asking ([stale_waiting_phone_replayed]).  [proxy_id_to_str] reads
    past the end of every identifier ([proxy_id_to_str_overreads]); only
    [proxy_header_to_str] calls it, which no module calls.

    ** Fuel

    Loops whose bound is not structural take fuel, and running out of it is
    [None], never a result; the theorems above prove that this does not
    happen.  [skip_loop] has [skip_fuel], one more than the frames of a full
    cache, since each turn advances the cursor; [rx_loop] one more than the
    bytes the ring buffer holds, since each turn takes one; [serve_loop],
    [t_serve_loop] and [pending_search] one more than the six entries of the
    waiting array; [read_more] two more than the bytes of a packet; [deframe]
    the length of the stream.  The receiver of Schedule has no fuel: bytes may
    arrive while it runs, and [threads_finish] gives it a schedule on which it
    empties its ring.

    ** What is not modelled

    - Log lines other than the ROUTE lines and the dump of the counters: output
      only.
    - Zephyr, its Bluetooth stack and the generated Meshtastic protobufs: not in
      the repository.  The ring buffer, the message queue, the attribute reads,
      the attribute layout, the UART driver and the codec are type classes with
      their documented behaviour ([RingBufOk], [MsgQOk], [GattReadOk],
      [GattServerOk], [DmaDriverOk], [NanopbOk]) and an instance each that the
      concrete examples run on; every other kernel call is an entry of the
      trace, and what it answers is an argument.
    - Preemption in the refinement of the whole proxy: [proxy_refines] is about
      handlers that run one at a time.  Under preemption a broadcast reaches the
      phones one after the other, so the refinement is proved of the session,
      the uplink and each phone by itself (Fetch, Sending, Deliver), not of all
      of them at once; with it there are the theorems of Schedule, Told and
      GattTable.
    - Stack use and time: priorities and deadlines are not modelled, any order
      of the threads is allowed. *)

From stdpp Require Import prelude.

Local Open Scope Z_scope.

Declare Scope proxy_scope.
Delimit Scope proxy_scope with proxy.

(** ** Record updates

    [r <| f := v |>] is [r] with field [f] replaced.  A record opts in with an
    [Eta] instance (its eta-expansion); the setter of each field is derived
    from it by abstracting the field out of the expansion. *)

Class Eta (R : Type) := eta : R -> R.
Class Setter {R T : Type} (f : R -> T) := set : T -> R -> R.
Arguments set {R T} f {_} v r.

Ltac derive_setter f :=
  match goal with
  | |- @Setter ?R ?T _ =>
      let inst := constr:(ltac:(typeclasses eauto) : Eta R) in
      let e := eval hnf in inst in
      exact (fun (v : T) (r : R) =>
        ltac:(let body := eval cbv beta in (e r) in
              match eval pattern (f r) in body with
              | ?g _ => let res := eval cbv beta in (g v) in exact res
              end))
  end.

#[export] Hint Extern 0 (Setter ?f) => derive_setter f : typeclass_instances.

Notation "r <| f := v |>" := (set f v r)
  (at level 1, left associativity, format "r  <| f  :=  v |>") : proxy_scope.
Open Scope proxy_scope.

(** ** C integers

    Every C integer is a [Z]; arithmetic that the machine wraps is wrapped
    explicitly with [u8], [u16] or [u32]. *)

Definition wrap (w x : Z) : Z := x mod 2 ^ w.
Definition u8 (x : Z) : Z := wrap 8 x.
Definition u16 (x : Z) : Z := wrap 16 x.
Definition u32 (x : Z) : Z := wrap 32 x.

Definition fits (w x : Z) : Prop := 0 <= x < 2 ^ w.
#[export] Instance fits_dec w x : Decision (fits w x).
Proof. unfold fits. apply _. Defined.

Definition bytes_ok (l : list Z) : Prop := Forall (fits 8) l.
#[export] Instance bytes_ok_dec l : Decision (bytes_ok l).
Proof. unfold bytes_ok. apply _. Defined.

Lemma wrap_fits w x : 0 <= w -> fits w (wrap w x).
Proof. intros. unfold fits, wrap. apply Z.mod_pos_bound. lia. Qed.

Lemma wrap_id w x : fits w x -> wrap w x = x.
Proof. intros [??]. unfold wrap. by apply Z.mod_small. Qed.

Lemma u8_id x : 0 <= x < 256 -> u8 x = x.
Proof. intros. by apply wrap_id. Qed.
Lemma u16_id x : 0 <= x < 65536 -> u16 x = x.
Proof. intros. by apply wrap_id. Qed.
Lemma u32_id x : 0 <= x < 4294967296 -> u32 x = x.
Proof. intros. by apply wrap_id. Qed.
Lemma u8_fits x : fits 8 (u8 x).
Proof. by apply wrap_fits. Qed.
Lemma u16_fits x : fits 16 (u16 x).
Proof. by apply wrap_fits. Qed.
Lemma u32_fits x : fits 32 (u32 x).
Proof. by apply wrap_fits. Qed.

(** [(uint16_t)hi << 8 | lo] on bytes is [256 * hi + lo]. *)
Lemma lor_shiftl_8 hi lo :
  fits 8 lo -> Z.lor (Z.shiftl hi 8) lo = 256 * hi + lo.
Proof.
  intros [??].
  assert (Z.land (Z.shiftl hi 8) lo = 0) as Hl.
  { apply Z.bits_inj'. intros n Hn. rewrite Z.land_spec, Z.bits_0.
    destruct (decide (n < 8)); [by rewrite Z.shiftl_spec_low|].
    destruct (decide (lo = 0)) as [->|]; [by rewrite Z.bits_0, andb_false_r|].
    rewrite (Z.bits_above_log2 lo), andb_false_r; [done|lia|].
    apply Z.log2_lt_pow2; [lia|]. eapply Z.lt_le_trans; [done|].
    apply Z.pow_le_mono_r; lia. }
  rewrite <- Z.lxor_lor, <- Z.add_nocarry_lxor by done.
  rewrite Z.shiftl_mul_pow2 by lia. lia.
Qed.

Lemma bytes_of_u16 n :
  fits 16 n -> fits 8 (Z.shiftr n 8) /\ fits 8 (Z.land n 255)
               /\ 256 * Z.shiftr n 8 + Z.land n 255 = n.
Proof.
  intros [??]. change 255 with (Z.ones 8).
  rewrite Z.shiftr_div_pow2, Z.land_ones by lia.
  pose proof (Z.div_mod n (2 ^ 8) ltac:(lia)) as E.
  pose proof (Z.mod_pos_bound n (2 ^ 8) ltac:(lia)).
  unfold fits. repeat split; try lia.
Qed.

(** A 32-bit integer in memory, little-endian. *)
Definition le32 (x : Z) : list Z :=
  [x mod 256; x / 256 mod 256; x / 65536 mod 256; x / 16777216 mod 256].
Definition un_le32 (l : list Z) : Z :=
  match l with
  | [a; b; c; d] => a + 256 * b + 65536 * c + 16777216 * d
  | _ => 0
  end.

Lemma un_le32_le32 x : fits 32 x -> un_le32 (le32 x) = x.
Proof.
  intros [??]. unfold un_le32, le32. change (2 ^ 32) with 4294967296 in *.
  pose proof (Z.div_mod x 256 ltac:(lia)).
  pose proof (Z.div_mod (x / 256) 256 ltac:(lia)) as E1.
  pose proof (Z.div_mod (x / 65536) 256 ltac:(lia)) as E2.
  rewrite (Zdiv.Zdiv_Zdiv x 256 256) in E1 by lia.
  rewrite (Zdiv.Zdiv_Zdiv x 65536 256) in E2 by lia.
  change (256 * 256) with 65536 in *. change (65536 * 256) with 16777216 in *.
  rewrite (Z.mod_small (x / 16777216)).
  - lia.
  - split; [apply Z.div_pos; lia|apply Z.div_lt_upper_bound; lia].
Qed.

Lemma bytes_ok_le32 x : bytes_ok (le32 x).
Proof.
  unfold le32. repeat apply Forall_cons_2; [..|apply Forall_nil_2];
    apply Z.mod_pos_bound; lia.
Qed.

(** Closed side conditions, by computation. *)
Ltac by_eval :=
  solve [ done | lia | apply (bool_decide_unpack _); vm_compute; exact I
        | vm_compute; done | split_and!; vm_compute; done ].

(** ** Memory objects

    A C array is the list of its cells.  Access outside the object is
    undefined behaviour, [None]; a (pointer, length) argument pair is the list
    of the bytes it delimits. *)

Definition zlen {A} (l : list A) : Z := Z.of_nat (length l).

Definition mem_get {A} (buf : list A) (i : Z) : option A :=
  if decide (0 <= i) then buf !! Z.to_nat i else None.

Definition mem_set {A} (buf : list A) (i : Z) (x : A) : option (list A) :=
  if decide (0 <= i < zlen buf) then Some (<[Z.to_nat i := x]> buf) else None.

Definition mem_read {A} (buf : list A) (off len : Z) : option (list A) :=
  if decide (0 <= off /\ 0 <= len /\ off + len <= zlen buf)
  then Some (take (Z.to_nat len) (drop (Z.to_nat off) buf)) else None.

(** The bytes [src] stored over [buf] from [off] on. *)
Definition splice {A} (buf : list A) (off : Z) (src : list A) : list A :=
  take (Z.to_nat off) buf ++ src ++ drop (Z.to_nat (off + zlen src)) buf.

Definition mem_write {A} (buf : list A) (off : Z) (src : list A) : option (list A) :=
  if decide (0 <= off /\ off + zlen src <= zlen buf)
  then Some (splice buf off src) else None.

Section Memory.
Context {A : Type}.
Implicit Types (buf src l : list A).

Lemma zlen_nonneg l : 0 <= zlen l.
Proof. unfold zlen. lia. Qed.
Lemma zlen_nil : zlen (@nil A) = 0.
Proof. done. Qed.
Lemma zlen_cons x l : zlen (x :: l) = 1 + zlen l.
Proof. unfold zlen. simpl length. lia. Qed.
Lemma zlen_app l1 l2 : zlen (l1 ++ l2) = zlen l1 + zlen l2.
Proof. unfold zlen. rewrite length_app. lia. Qed.
Lemma zlen_replicate n (x : A) : zlen (replicate n x) = Z.of_nat n.
Proof. unfold zlen. by rewrite length_replicate. Qed.
Lemma zlen_take n l : 0 <= n <= zlen l -> zlen (take (Z.to_nat n) l) = n.
Proof. unfold zlen. intros. rewrite length_take. lia. Qed.
Lemma zlen_insert i x l : zlen (<[i:=x]> l) = zlen l.
Proof. unfold zlen. by rewrite length_insert. Qed.

Lemma mem_get_Some buf i :
  0 <= i < zlen buf -> exists x, mem_get buf i = Some x /\ buf !! Z.to_nat i = Some x.
Proof.
  unfold mem_get, zlen. intros. rewrite decide_True by lia.
  destruct (lookup_lt_is_Some_2 buf (Z.to_nat i)) as [x Hx]; [lia|]. eauto.
Qed.
Lemma mem_get_inv buf i x : mem_get buf i = Some x -> 0 <= i < zlen buf.
Proof.
  unfold mem_get, zlen. case_decide; [|done]. intros ?%lookup_lt_Some. lia.
Qed.
Lemma mem_get_None buf i : zlen buf <= i -> mem_get buf i = None.
Proof.
  unfold mem_get, zlen. intros. case_decide; [|done]. apply lookup_ge_None. lia.
Qed.

Lemma mem_set_ok buf i x :
  0 <= i < zlen buf -> mem_set buf i x = Some (<[Z.to_nat i := x]> buf).
Proof. intros. unfold mem_set. by rewrite decide_True. Qed.

Lemma mem_read_ok buf off len :
  0 <= off -> 0 <= len -> off + len <= zlen buf ->
  mem_read buf off len = Some (take (Z.to_nat len) (drop (Z.to_nat off) buf)).
Proof. intros. unfold mem_read. by rewrite decide_True. Qed.

Lemma mem_read_len buf off len l : mem_read buf off len = Some l -> zlen l = len.
Proof.
  unfold mem_read, zlen. case_decide; [|done]. intros [= <-].
  rewrite length_take, length_drop. lia.
Qed.

Lemma mem_read_0 buf n :
  0 <= n <= zlen buf -> mem_read buf 0 n = Some (take (Z.to_nat n) buf).
Proof. intros. by rewrite mem_read_ok, drop_0 by lia. Qed.

Lemma mem_read_zero buf off : 0 <= off <= zlen buf -> mem_read buf off 0 = Some [].
Proof. intros. by rewrite mem_read_ok by lia. Qed.

Lemma mem_write_ok buf off src :
  0 <= off -> off + zlen src <= zlen buf ->
  mem_write buf off src = Some (splice buf off src).
Proof. intros. unfold mem_write. by rewrite decide_True. Qed.

Lemma zlen_splice buf off src :
  0 <= off -> off + zlen src <= zlen buf -> zlen (splice buf off src) = zlen buf.
Proof.
  unfold splice, zlen. intros.
  rewrite !length_app, length_take, length_drop. lia.
Qed.

Lemma splice_read_same buf off src :
  0 <= off -> off + zlen src <= zlen buf ->
  mem_read (splice buf off src) off (zlen src) = Some src.
Proof.
  intros. rewrite mem_read_ok; rewrite ?zlen_splice; try done; [|apply zlen_nonneg].
  f_equal. unfold splice, zlen in *.
  rewrite drop_app_length' by (rewrite length_take; lia).
  by rewrite take_app_length' by lia.
Qed.

Lemma splice_take buf off src :
  0 <= off <= zlen buf -> take (Z.to_nat off) (splice buf off src) = take (Z.to_nat off) buf.
Proof.
  unfold splice, zlen. intros. rewrite take_app_le by (rewrite length_take; lia).
  by rewrite take_take, Nat.min_id.
Qed.

(** A write at [off] leaves every earlier range as it was. *)
Lemma splice_read_before buf off src o n :
  0 <= o -> 0 <= n -> o + n <= off -> off + zlen src <= zlen buf ->
  mem_read (splice buf off src) o n = mem_read buf o n.
Proof.
  intros. pose proof (zlen_nonneg src).
  rewrite !mem_read_ok; rewrite ?zlen_splice; try lia. f_equal.
  assert (forall l : list A, take (Z.to_nat n) (drop (Z.to_nat o) l)
           = take (Z.to_nat n) (drop (Z.to_nat o) (take (Z.to_nat off) l))) as E.
  { intros l. by rewrite !take_drop_commute, take_take, Nat.min_l by lia. }
  rewrite (E (splice _ _ _)), (E buf), splice_take by lia. done.
Qed.

(** A write at [off] leaves every range after it as it was. *)
Lemma splice_drop buf off src :
  0 <= off -> off + zlen src <= zlen buf ->
  drop (Z.to_nat (off + zlen src)) (splice buf off src)
  = drop (Z.to_nat (off + zlen src)) buf.
Proof.
  unfold splice, zlen. intros. rewrite app_assoc.
  by rewrite drop_app_length' by (rewrite length_app, length_take; lia).
Qed.

Lemma splice_whole buf off src : zlen src = zlen buf -> off = 0 -> splice buf off src = src.
Proof.
  unfold splice, zlen. intros E ->. rewrite Z.add_0_l. simpl.
  by rewrite drop_ge, app_nil_r by lia.
Qed.

Lemma splice_0 buf src : splice buf 0 src = src ++ drop (length src) buf.
Proof. unfold splice, zlen. simpl. f_equal. f_equal. lia. Qed.
End Memory.

Create Rewrite HintDb zlen.
#[export] Hint Rewrite @zlen_cons @zlen_app @zlen_nil @zlen_replicate @zlen_insert : zlen.

(** Linear arithmetic over lengths of lists. *)
Ltac zlia := autorewrite with zlen in *; lia.

Lemma bytes_ok_splice buf off src :
  bytes_ok buf -> bytes_ok src -> bytes_ok (splice buf off src).
Proof.
  intros. unfold bytes_ok, splice.
  repeat apply Forall_app_2; auto using Forall_take, Forall_drop.
Qed.

Lemma bytes_ok_mem_read buf off len l :
  bytes_ok buf -> mem_read buf off len = Some l -> bytes_ok l.
Proof.
  unfold mem_read. case_decide; [|done]. intros ? [= <-].
  by apply Forall_take, Forall_drop.
Qed.

(** ** Return codes and the calls that leave the program

    [errno] lists the error numbers the source returns or tests; [EOTHER] is
    any other number a kernel call may return. *)

Inductive errno := ENOENT | ENOMEM | EINVAL | ENODEV | EMSGSIZE | EALREADY | EOTHER (n : Z).
Inductive rc := rc_ok | rc_err (e : errno).
#[export] Instance errno_eq_dec : EqDecision errno.
Proof. solve_decision. Defined.
#[export] Instance rc_eq_dec : EqDecision rc.
Proof. solve_decision. Defined.

(** The value prj.conf gives [CONFIG_BT_MAX_CONN]. *)
Definition CONFIG_BT_MAX_CONN : Z := 6.

(** [struct bt_conn *] is an address; connections are compared by address. *)
Abbreviation bt_conn := Z (only parsing).
Abbreviation NULL := 0 (only parsing).

(** The LEDs: led0, led1 blink for BLE traffic, led2, led3 for UART traffic. *)
Inductive led := led0 | led1 | led2 | led3.

(** The two LED blinkers ([led_blink_dwork] of ble_gatt.c and of uart_meshtastic.c). *)
Inductive blinker := ble_blinker | uart_blinker.

(** The kernel, Bluetooth and driver calls that the trace records, those with an
    effect outside the modelled state.  The others are not in the trace: a call
    that copies or computes is a function ([bt_gatt_attr_read] of [GattRead],
    which [fromradio_read] calls under the slot's mutex), the ring and the message
    queue are values of the state with their functions ([RingBuf], [MsgQ]), what
    a device or the random generator answers is an argument, and log lines are
    left out. *)
Inductive io :=
  | IoMutexInit (slot : nat)
  | IoLock (slot : nat)
  | IoUnlock (slot : nat)
  | IoConnRef (c : bt_conn)
  | IoConnUnref (c : bt_conn)
  | IoDisconnect (c : bt_conn)
  | IoAdvStart
  | IoBtEnable
  | IoNotify (c : bt_conn) (fromnum : Z)
  | IoSubmitRx
  | IoSubmitTx
  | IoKeepaliveInit
  | IoKeepalive (ms : Z)
  | IoBlink (b : blinker) (ms : Z)
  | IoGpioConfigure (l : led)
  | IoGpioToggle (l : led)
  | IoGpioSet (l : led) (v : Z)
  | IoUartCallbackSet
  | IoUartRxEnable (buf : Z) (len : Z) (timeout_us : Z)
  | IoUartRxBufRsp (buf : Z) (len : Z)
  | IoUartTx (frame : list Z) (timeout_us : Z).
#[export] Instance led_eq_dec : EqDecision led.
Proof. solve_decision. Defined.
#[export] Instance blinker_eq_dec : EqDecision blinker.
Proof. solve_decision. Defined.
#[export] Instance io_eq_dec : EqDecision io.
Proof. intros x y. unfold Decision. decide equality; apply (decide (_ = _)). Defined.

(** ** The state monad of the model

    [M S A] runs from a state and yields a result, the new state and the
    calls made, in order; [None] is undefined behaviour. *)

Definition M (S A : Type) : Type := S -> option (A * S * list io).

Definition ret {S A} (a : A) : M S A := fun s => Some (a, s, []).
Definition bind {S A B} (m : M S A) (k : A -> M S B) : M S B := fun s =>
  match m s with
  | Some (a, s', t1) =>
      match k a s' with
      | Some (b, s'', t2) => Some (b, s'', t1 ++ t2)
      | None => None
      end
  | None => None
  end.
Definition gets {S A} (f : S -> A) : M S A := fun s => Some (f s, s, []).
Definition modify {S} (f : S -> S) : M S unit := fun s => Some (tt, f s, []).
Definition emit {S} (e : io) : M S unit := fun s => Some (tt, s, [e]).
(** A memory access: [None] is undefined behaviour. *)
Definition oget {S A} (o : option A) : M S A := fun s => (fun a => (a, s, [])) <$> o.

Notation "x <- m ;; k" := (bind m (fun x => k))
  (at level 100, m at next level, right associativity) : proxy_scope.
Notation "m ;;; k" := (bind m (fun _ => k))
  (at level 100, right associativity) : proxy_scope.

(** [for (x in l) f(x)] *)
Fixpoint mfor {S A} (f : A -> M S unit) (l : list A) : M S unit :=
  match l with
  | [] => ret tt
  | x :: l => f x ;;; mfor f l
  end.

(** [wp m Q s]: from [s], [m] has no undefined behaviour and ends in [Q]. *)
Definition wp {S A} (m : M S A) (Q : A -> S -> list io -> Prop) (s : S) : Prop :=
  match m s with
  | Some (a, s', t) => Q a s' t
  | None => False
  end.

Section Wp.
Context {S : Type}.
Implicit Types (s : S).

Lemma wp_ret {A} (a : A) Q s : Q a s [] -> wp (ret a) Q s.
Proof. done. Qed.

Lemma wp_bind {A B} (m : M S A) (k : A -> M S B) Q s :
  wp m (fun a s' t1 => wp (k a) (fun b s'' t2 => Q b s'' (t1 ++ t2)) s') s ->
  wp (bind m k) Q s.
Proof.
  unfold wp, bind. destruct (m s) as [[[a s'] t1]|]; [|done].
  by destruct (k a s') as [[[b s''] t2]|].
Qed.

Lemma wp_gets {A} (f : S -> A) Q s : Q (f s) s [] -> wp (gets f) Q s.
Proof. done. Qed.
Lemma wp_modify (f : S -> S) Q s : Q tt (f s) [] -> wp (modify f) Q s.
Proof. done. Qed.
Lemma wp_emit e Q s : Q tt s [e] -> wp (emit e) Q s.
Proof. done. Qed.
Lemma wp_oget {A} (o : option A) a Q s : o = Some a -> Q a s [] -> wp (oget o) Q s.
Proof. intros ->. done. Qed.

Lemma wp_mono {A} (m : M S A) (P Q : A -> S -> list io -> Prop) s :
  wp m P s -> (forall a s' t, P a s' t -> Q a s' t) -> wp m Q s.
Proof. unfold wp. destruct (m s) as [[[a s'] t]|]; eauto. Qed.

Lemma wp_run {A} (m : M S A) Q s a s' t : m s = Some (a, s', t) -> Q a s' t -> wp m Q s.
Proof. unfold wp. by intros ->. Qed.

Lemma wp_inv {A} (m : M S A) Q s :
  wp m Q s -> exists a s' t, m s = Some (a, s', t) /\ Q a s' t.
Proof. unfold wp. destruct (m s) as [[[a s'] t]|]; [eauto|done]. Qed.

Lemma wp_and {A} (m : M S A) P Q s :
  wp m P s -> wp m Q s -> wp m (fun a s' t => P a s' t /\ Q a s' t) s.
Proof. unfold wp. by destruct (m s) as [[[a s'] t]|]. Qed.

(** Loop rule: [I] holds after every iteration. *)
Lemma wp_mfor {A} (f : A -> M S unit) (I : list A -> S -> list io -> Prop) l s :
  I [] s [] ->
  (forall done_ x rest s' t, l = done_ ++ x :: rest -> I done_ s' t ->
     wp (f x) (fun _ s'' t' => I (done_ ++ [x]) s'' (t ++ t')) s') ->
  wp (mfor f l) (fun _ s' t => I l s' t) s.
Proof.
  intros H0 Hstep.
  enough (forall todo done_ s' t, l = done_ ++ todo -> I done_ s' t ->
            wp (mfor f todo) (fun _ s'' t' => I l s'' (t ++ t')) s') as H
    by (eapply wp_mono; [exact (H l [] s [] eq_refl H0)|done]).
  induction todo as [|x todo IH]; intros done_ s' t -> HI; simpl.
  - apply wp_ret. by rewrite !app_nil_r in *.
  - apply wp_bind. eapply wp_mono; [by eapply Hstep|].
    intros [] s'' t' HI'. simpl in *.
    eapply wp_mono; [apply (IH (done_ ++ [x])); [by rewrite <- app_assoc|exact HI']|].
    intros [] s3 t3. by rewrite app_assoc.
Qed.
End Wp.

(** One symbolic step of a program under [wp]. *)
Ltac wp_step :=
  lazymatch goal with
  | |- wp (bind _ _) _ _ => apply wp_bind
  | |- wp (ret _) _ _ => apply wp_ret
  | |- wp (gets _) _ _ => apply wp_gets
  | |- wp (modify _) _ _ => apply wp_modify
  | |- wp (emit _) _ _ => apply wp_emit
  | |- wp (oget _) _ _ => eapply wp_oget
  | |- wp (if ?b then _ else _) _ _ => destruct b eqn:?
  | |- wp (let _ := _ in _) _ _ => cbv zeta
  | |- wp ((fun _ => _) _) _ _ => cbv beta
  end.
Ltac wp_steps := repeat (wp_step; cbv beta).

(** Equations for running a program on a state. *)
Section Run.
Context {S : Type}.

Lemma run_ret {A B} (a : A) (k : A -> M S B) s : bind (ret a) k s = k a s.
Proof. unfold bind, ret. by destruct (k a s) as [[[b s'] t]|]. Qed.
Lemma run_gets {A B} (f : S -> A) (k : A -> M S B) s : bind (gets f) k s = k (f s) s.
Proof. unfold bind, gets. by destruct (k (f s) s) as [[[b s'] t]|]. Qed.
Lemma run_modify {B} f (k : unit -> M S B) s : bind (modify f) k s = k tt (f s).
Proof. unfold bind, modify. by destruct (k tt (f s)) as [[[b s'] t]|]. Qed.
Lemma run_oget {A B} (a : A) (k : A -> M S B) s : bind (oget (Some a)) k s = k a s.
Proof. unfold bind, oget. simpl. by destruct (k a s) as [[[b s'] t]|]. Qed.
Lemma run_assoc {A B C} (m : M S A) (k : A -> M S B) (h : B -> M S C) s :
  bind (bind m k) h s = bind m (fun a => bind (k a) h) s.
Proof.
  unfold bind. destruct (m s) as [[[a s1] t1]|]; [|done].
  destruct (k a s1) as [[[b s2] t2]|]; [|done].
  destruct (h b s2) as [[[c s3] t3]|]; [|done]. by rewrite app_assoc.
Qed.
Lemma run_bind {A B} (m : M S A) (k : A -> M S B) s a s' t :
  m s = Some (a, s', t) ->
  bind m k s = (fun r => (r.1.1, r.1.2, t ++ r.2)) <$> k a s'.
Proof. unfold bind. intros ->. by destruct (k a s') as [[[b s''] t']|]. Qed.
End Run.

Create Rewrite HintDb run.
#[export] Hint Rewrite @run_ret @run_gets @run_modify @run_oget @run_assoc : run.

(** ** Lenses

    A component owns its static variables, a record [S]; the program's state
    [W] holds the records of all components.  [zoom] runs an operation of a
    component inside the whole program. *)

Class Lens (W S : Type) := {
  lget : W -> S;
  lset : S -> W -> W;
  lget_lset : forall s w, lget (lset s w) = s;
  lset_lget : forall w, lset (lget w) w = w;
  lset_lset : forall s s' w, lset s (lset s' w) = lset s w;
}.

(** Two components with disjoint variables. *)
Class Disjoint_lens {W S T} (L1 : Lens W S) (L2 : Lens W T) : Prop := {
  lget_lset_ne : forall s w, lget (Lens := L2) (lset (Lens := L1) s w) = lget (Lens := L2) w;
  lget_lset_ne' : forall t w, lget (Lens := L1) (lset (Lens := L2) t w) = lget (Lens := L1) w;
  lset_comm : forall s t w, lset (Lens := L1) s (lset (Lens := L2) t w)
                       = lset (Lens := L2) t (lset (Lens := L1) s w);
}.

Lemma Disjoint_lens_sym {W S T} (L1 : Lens W S) (L2 : Lens W T) :
  Disjoint_lens L1 L2 -> Disjoint_lens L2 L1.
Proof. intros [H1 H2 H3]. split; auto. Qed.
#[export] Hint Immediate Disjoint_lens_sym : typeclass_instances.

(** Reading back what was stored, in the same or in another component. *)
Ltac lens_simpl :=
  repeat first [rewrite lget_lset | rewrite lset_lset | rewrite lget_lset_ne].

Definition zoom {W S A} `{!Lens W S} (m : M S A) : M W A := fun w =>
  match m (lget w) with
  | Some (a, s', t) => Some (a, lset s' w, t)
  | None => None
  end.

Lemma wp_zoom {W S A} `{!Lens W S} (m : M S A) (Q : A -> W -> list io -> Prop) w :
  wp m (fun a s' t => Q a (lset s' w) t) (lget w) -> wp (zoom m) Q w.
Proof. unfold wp, zoom. by destruct (m (lget w)) as [[[a s'] t]|]. Qed.

Section RunZoom.
Context {W S : Type} `{L : !Lens W S}.

Lemma run_zoom_gets {A B} (f : S -> A) (k : A -> M W B) w :
  bind (zoom (gets f)) k w = k (f (lget w)) w.
Proof.
  unfold bind, zoom, gets. rewrite lset_lget. by destruct (k _ w) as [[[b w'] t]|].
Qed.
Lemma run_zoom_modify {B} f (k : unit -> M W B) w :
  bind (zoom (modify f)) k w = k tt (lset (f (lget w)) w).
Proof. unfold bind, zoom, modify. by destruct (k _ _) as [[[b w'] t]|]. Qed.
Lemma run_zoom {A B} (m : M S A) (k : A -> M W B) w a s' t :
  m (lget w) = Some (a, s', t) ->
  bind (zoom m) k w = (fun r => (r.1.1, r.1.2, t ++ r.2)) <$> k a (lset s' w).
Proof. intros E. apply run_bind. unfold zoom. by rewrite E. Qed.
Lemma zoom_modify_eq f w : zoom (modify f) w = Some (tt, lset (f (lget w)) w, []).
Proof. done. Qed.
Lemma zoom_eq {A} (m : M S A) w a s' t :
  m (lget w) = Some (a, s', t) -> zoom m w = Some (a, lset s' w, t).
Proof. unfold zoom. by intros ->. Qed.
End RunZoom.
#[export] Hint Rewrite @run_zoom_gets @run_zoom_modify : run.

Lemma run_emit {S B} e (k : unit -> M S B) s :
  bind (emit e) k s = (fun r => (r.1.1, r.1.2, e :: r.2)) <$> k tt s.
Proof. unfold bind, emit. by destruct (k tt s) as [[[b s'] t]|]. Qed.
#[export] Hint Rewrite @run_emit : run.

(** [frames L m]: [m] leaves the variables of component [L] alone. *)
Definition frames {W T A} (L : Lens W T) (m : M W A) : Prop :=
  forall w a w' t, m w = Some (a, w', t) -> lget (Lens := L) w' = lget w.

(** [emits P m]: every call [m] makes satisfies [P]. *)
Definition emits {S A} (P : io -> Prop) (m : M S A) : Prop :=
  forall s a s' t, m s = Some (a, s', t) -> Forall P t.

Create HintDb frame.
Create HintDb emits.

Section Frames.
Context {W T : Type} (L : Lens W T).

Lemma frames_ret {A} (a : A) : frames L (ret a).
Proof. by intros w ??? [= <- <- <-]. Qed.
Lemma frames_gets {A} (f : W -> A) : frames L (gets f).
Proof. by intros w ??? [= <- <- <-]. Qed.
Lemma frames_emit e : frames L (emit e).
Proof. by intros w ??? [= <- <- <-]. Qed.
Lemma frames_oget {A} (o : option A) : frames L (oget o).
Proof. by intros w ???; destruct o; intros [= <- <- <-]. Qed.
Lemma frames_bind {A B} (m : M W A) (k : A -> M W B) :
  frames L m -> (forall a, frames L (k a)) -> frames L (bind m k).
Proof.
  unfold bind. intros Hm Hk w b w' t.
  destruct (m w) as [[[a w1] t1]|] eqn:E1; [|done].
  destruct (k a w1) as [[[b' w2] t2]|] eqn:E2; [|done].
  intros [= <- <- <-]. apply Hm in E1. apply Hk in E2. congruence.
Qed.
Lemma frames_zoom {S A} (L' : Lens W S) `{!Disjoint_lens L' L} (m : M S A) :
  frames L (zoom m).
Proof.
  unfold zoom. intros w a w' t. destruct (m (lget w)) as [[[b s] u]|]; [|done].
  intros [= <- <- <-]. apply lget_lset_ne.
Qed.
Lemma frames_mfor {A} (f : A -> M W unit) l :
  (forall x, frames L (f x)) -> frames L (mfor f l).
Proof.
  intros Hf. induction l; simpl; [apply frames_ret|].
  by apply frames_bind.
Qed.
Lemma wp_frames {A} (m : M W A) (Q : A -> W -> list io -> Prop) w :
  frames L m ->
  wp m Q w -> wp m (fun a w' t => Q a w' t /\ lget w' = lget w) w.
Proof.
  unfold wp. intros Hf. destruct (m w) as [[[a w'] t]|] eqn:E; [|done].
  intros. split; [done|by eapply Hf].
Qed.
End Frames.
#[export] Hint Resolve frames_ret frames_gets frames_emit frames_oget frames_bind
  frames_zoom frames_mfor : frame.

Section Emits.
Context {S : Type} (P : io -> Prop).

Lemma emits_ret {A} (a : A) : emits P (@ret S A a).
Proof. by intros s ??? [= <- <- <-]. Qed.
Lemma emits_gets {A} (f : S -> A) : emits P (gets f).
Proof. by intros s ??? [= <- <- <-]. Qed.
Lemma emits_modify (f : S -> S) : emits P (modify f).
Proof. by intros s ??? [= <- <- <-]. Qed.
Lemma emits_oget {A} (o : option A) : emits P (@oget S A o).
Proof. by intros s ???; destruct o; intros [= <- <- <-]. Qed.
Lemma emits_emit e : P e -> emits P (@emit S e).
Proof. intros HP s ??? [= <- <- <-]. by constructor. Qed.
Lemma emits_bind {A B} (m : M S A) (k : A -> M S B) :
  emits P m -> (forall a, emits P (k a)) -> emits P (bind m k).
Proof.
  unfold bind. intros Hm Hk w b w' t.
  destruct (m w) as [[[a w1] t1]|] eqn:E1; [|done].
  destruct (k a w1) as [[[b' w2] t2]|] eqn:E2; [|done].
  intros [= <- <- <-]. apply Forall_app_2; [by eapply Hm|by eapply Hk].
Qed.
Lemma emits_mfor {A} (f : A -> M S unit) l :
  (forall x, emits P (f x)) -> emits P (mfor f l).
Proof.
  intros Hf. induction l; simpl; [apply emits_ret|]. by apply emits_bind.
Qed.
Lemma emits_zoom {W A} `{!Lens W S} (m : M S A) : emits P m -> emits P (zoom (W := W) m).
Proof.
  unfold zoom. intros Hm w a w' t. destruct (m (lget w)) as [[[b s] u]|] eqn:E; [|done].
  intros [= <- <- <-]. by eapply Hm.
Qed.
Lemma wp_emits {A} (m : M S A) (Q : A -> S -> list io -> Prop) s :
  emits P m -> wp m Q s -> wp m (fun a s' t => Q a s' t /\ Forall P t) s.
Proof.
  unfold wp. intros Hf. destruct (m s) as [[[a w'] t]|] eqn:E; [|done].
  intros. split; [done|by eapply Hf].
Qed.
End Emits.
#[export] Hint Resolve emits_ret emits_gets emits_modify emits_oget emits_emit
  emits_bind emits_mfor emits_zoom : emits.

(** [natural L m]: [m] neither reads nor writes the variables of [L]; running
    it after [L] was set is running it before. *)
Definition natural {W T A} (L : Lens W T) (m : M W A) : Prop :=
  forall t w, m (lset t w) = (fun r => (r.1.1, lset t r.1.2, r.2)) <$> m w.

Create HintDb natural.

Section Natural.
Context {W T : Type} (L : Lens W T).

Lemma natural_ret {A} (a : A) : natural L (ret a).
Proof. done. Qed.
Lemma natural_gets {A} (f : W -> A) : (forall t w, f (lset t w) = f w) -> natural L (gets f).
Proof. intros Hf t w. unfold gets. simpl. by rewrite Hf. Qed.
Lemma natural_emit e : natural L (emit e).
Proof. done. Qed.
Lemma natural_oget {A} (o : option A) : natural L (oget o).
Proof. intros t w. by destruct o. Qed.
Lemma natural_bind {A B} (m : M W A) (k : A -> M W B) :
  natural L m -> (forall a, natural L (k a)) -> natural L (bind m k).
Proof.
  intros Hm Hk t w. unfold bind. rewrite Hm.
  destruct (m w) as [[[a w1] t1]|]; [|done]. simpl. rewrite Hk.
  by destruct (k a w1) as [[[b w2] t2]|].
Qed.
Lemma natural_zoom {S A} (L' : Lens W S) `{!Disjoint_lens L' L} (m : M S A) :
  natural L (zoom m).
Proof.
  intros t w. unfold zoom. rewrite lget_lset_ne'.
  destruct (m (lget w)) as [[[b s] u]|]; [|done]. simpl. by rewrite lset_comm.
Qed.
Lemma natural_mfor {A} (f : A -> M W unit) l :
  (forall x, natural L (f x)) -> natural L (mfor f l).
Proof. intros Hf. induction l; simpl; [done|]. by apply natural_bind. Qed.
Lemma natural_if {A} (b : bool) (m1 m2 : M W A) :
  natural L m1 -> natural L m2 -> natural L (if b then m1 else m2).
Proof. by destruct b. Qed.

Lemma natural_set {A} (m : M W A) u w a w' t :
  natural L m -> m w = Some (a, w', t) -> m (lset u w) = Some (a, lset u w', t).
Proof. intros Hm E. by rewrite Hm, E. Qed.

Lemma natural_frames {A} (m : M W A) w a w' t :
  natural L m -> m w = Some (a, w', t) -> lget w' = lget w.
Proof.
  intros Hm E. pose proof (natural_set m (lget w) _ _ _ _ Hm E) as E'.
  rewrite lset_lget, E in E'. injection E' as ->. by rewrite lget_lset.
Qed.
End Natural.

(** A loop inside a component is a loop of the program. *)
Lemma mfor_zoom {W S X} `{L : !Lens W S} (f : X -> M S unit) l (w : W) :
  mfor (fun x => zoom (f x)) l w = zoom (mfor f l) w.
Proof.
  revert w. induction l as [|x l IH]; intros w; simpl.
  - unfold ret, zoom. by rewrite lset_lget.
  - unfold bind. change (zoom (f x) w) with
      (match f x (lget w) with Some (a, s', t) => Some (a, lset s' w, t) | None => None end).
    unfold zoom at 2. simpl. unfold bind.
    destruct (f x (lget w)) as [[[[] s1] t1]|]; [|done].
    rewrite IH. unfold zoom. rewrite lget_lset.
    destruct (mfor f l s1) as [[[[] s2] t2]|]; [|done]. by rewrite lset_lset.
Qed.

Lemma mfor_app_inv {S X} (f : X -> M S unit) l1 l2 w w2 t :
  mfor f (l1 ++ l2) w = Some (tt, w2, t) ->
  exists w1 t1 t2, mfor f l1 w = Some (tt, w1, t1) /\ mfor f l2 w1 = Some (tt, w2, t2)
                   /\ t = t1 ++ t2.
Proof.
  revert w t. induction l1 as [|x l1 IH]; intros w t; simpl.
  - intros E. exists w, [], t. eauto.
  - unfold bind. destruct (f x w) as [[[[] w1] t1]|] eqn:E; [|done].
    destruct (mfor f (l1 ++ l2) w1) as [[[[] w3] t3]|] eqn:E3; [|done].
    intros [= -> <-]. apply IH in E3 as (w4 & t4 & t5 & E4 & E5 & ->).
    exists w4, (t1 ++ t4), t5. rewrite E4. by rewrite app_assoc.
Qed.
#[export] Hint Resolve natural_ret natural_gets natural_emit natural_oget natural_bind
  natural_zoom natural_mfor natural_if : natural.
