(* ===== verification/Tracks.v ===== *)
(** * Tracks: what the runs of an operation do to a part of the state

    [tracks get R m]: every run of [m] takes the part [get] of the state along
    [R], together with the calls it makes.  For a relation that composes along
    traces there is a rule for each construct of the monad, so that such a
    property of a handler follows from the shape of its code. *)

From stdpp Require Import prelude.
From S2P Require Import Prelude.

Class Tracking {X : Type} (R : X -> list io -> X -> Prop) : Prop := {
  tr_nil x : R x [] x;
  tr_app x t y t' z : R x t y -> R y t' z -> R x (t ++ t') z;
}.

Definition tracks {S X A : Type} (get : S -> X) (R : X -> list io -> X -> Prop) (m : M S A) : Prop :=
  forall s a s' t, m s = Some (a, s', t) -> R (get s) t (get s').

Lemma bind_inv {S A B} (m : M S A) (k : A -> M S B) s b s' t :
  bind m k s = Some (b, s', t) ->
  exists a s1 t1 t2, m s = Some (a, s1, t1) /\ k a s1 = Some (b, s', t2) /\ t = t1 ++ t2.
Proof.
  unfold bind. destruct (m s) as [[[a s1] t1]|] eqn:E; [|done].
  destruct (k a s1) as [[[b' s2] t2]|] eqn:E2; [|done]. intros [= <- <- <-]. by eauto 10.
Qed.

Section Rules.
Context {S X : Type} (get : S -> X) (R : X -> list io -> X -> Prop) `{!Tracking R}.

Lemma tracks_ret {A} (a : A) : tracks get R (ret a).
Proof. intros s ? ? ? [= _ <- <-]. apply tr_nil. Qed.
Lemma tracks_gets {A} (f : S -> A) : tracks get R (gets f).
Proof. intros s ? ? ? [= _ <- <-]. apply tr_nil. Qed.
Lemma tracks_oget {A} (x : option A) : tracks get R (oget x).
Proof. intros s ? ? ?. destruct x; [|done]. intros [= _ <- <-]. apply tr_nil. Qed.
Lemma tracks_emit e : (forall x, R x [e] x) -> tracks get R (emit e).
Proof. intros He s ? ? ? [= _ <- <-]. apply He. Qed.
Lemma tracks_modify (f : S -> S) : (forall s, R (get s) [] (get (f s))) -> tracks get R (modify f).
Proof. intros Hf s ? ? ? [= _ <- <-]. apply Hf. Qed.
Lemma tracks_same (f : S -> S) : (forall s, get (f s) = get s) -> tracks get R (modify f).
Proof. intros Hf. apply tracks_modify. intros s. rewrite Hf. apply tr_nil. Qed.
Lemma tracks_bind {A B} (m : M S A) (k : A -> M S B) :
  tracks get R m -> (forall a, tracks get R (k a)) -> tracks get R (bind m k).
Proof.
  intros Hm Hk s b s' t E. apply bind_inv in E as (a & s1 & t1 & t2 & E1 & E2 & ->).
  eapply tr_app; [by eapply Hm|by eapply Hk].
Qed.
Lemma tracks_mfor {A} (f : A -> M S unit) l : (forall x, tracks get R (f x)) -> tracks get R (mfor f l).
Proof. intros Hf. induction l; simpl; [apply tracks_ret|]. by apply tracks_bind. Qed.
End Rules.

Section Zoom.
Context {W S X : Type} (R : X -> list io -> X -> Prop).

(** The part belongs to the component that runs. *)
Lemma tracks_zoom {A} `{!Lens W S} (get : S -> X) (m : M S A) :
  tracks get R m -> tracks (fun w : W => get (lget w)) R (zoom m).
Proof.
  intros Hm w a w' t. unfold zoom. destruct (m (lget w)) as [[[b s] u]|] eqn:E; [|done].
  intros [= _ <- <-]. rewrite lget_lset. by eapply Hm.
Qed.

(** It belongs to another one, and the calls do not matter to it. *)
Lemma tracks_other {A T} (L : Lens W T) (L' : Lens W S) `{!Disjoint_lens L L'} (get : S -> X) (P : io -> Prop)
    (m : M T A) :
  emits P m -> (forall x t, Forall P t -> R x t x) -> tracks (fun w : W => get (lget w)) R (zoom m).
Proof.
  intros Hm HR w a w' t E. pose proof (emits_zoom P m Hm _ _ _ _ E) as Ht.
  rewrite (frames_zoom L' L m _ _ _ _ E). by apply HR.
Qed.
End Zoom.

Create HintDb tracks.

(** Follows the shape of the code; calls, updates and what is known already are
    left to the hints. *)
Ltac tracks_step :=
  match goal with
  | |- tracks _ _ (ret _) => apply tracks_ret; apply _
  | |- tracks _ _ (gets _) => apply tracks_gets; apply _
  | |- tracks _ _ (oget _) => apply tracks_oget; apply _
  | |- tracks _ _ (mfor _ _) => apply tracks_mfor; [apply _|intros ?]
  | |- tracks _ _ _ => solve [eauto with tracks nocore]
  | |- tracks _ _ (bind _ _) => apply tracks_bind; [apply _| |intros ?]
  | |- tracks _ _ (match ?x with _ => _ end) => destruct x
  end.
Ltac tracks := repeat tracks_step.
