(* ===== verification/ProxyProtocol.v ===== *)
(** * ProxyProtocol: the application-layer proxy header (src/src/proxy_protocol.c)

    The header is [VERSION | SRC_ID | DST_ID | content].  Every function is a
    pure function of the memory it is given: the outer [option] is [None] when
    the C code would access memory outside an object; a pointer result into the
    payload is its offset. *)

From stdpp Require Import prelude.
From S2P Require Import Prelude.

Local Open Scope Z_scope.

Definition PROXY_PORTNUM : Z := 256.
Definition PROXY_PRACTICAL_MAX : Z := 200.
Definition PROXY_VERSION : Z := 1.
Definition PROXY_ID_SIZE : Z := 4.
Definition PROXY_HEADER_SIZE : Z := 1 + PROXY_ID_SIZE + PROXY_ID_SIZE.
Definition PROXY_CONTENT_MAX : Z := PROXY_PRACTICAL_MAX - PROXY_HEADER_SIZE.
Definition PROXY_OFF_VERSION : Z := 0.
Definition PROXY_OFF_SRC : Z := 1.
Definition PROXY_OFF_DST : Z := PROXY_OFF_SRC + PROXY_ID_SIZE.
Definition PROXY_OFF_CONTENT : Z := PROXY_HEADER_SIZE.
Definition PROXY_ID_STR_SIZE : Z := 37.
Definition PROXY_HEADER_STR_SIZE : Z := 128.

(** [proxy_id_t]: four bytes. *)
Record proxy_id := mk_proxy_id { id_bytes : list Z }.
#[export] Instance proxy_id_eq_dec : EqDecision proxy_id.
Proof. solve_decision. Defined.

(** [struct proxy_header]; [content] is the offset in the parsed payload. *)
Record proxy_header := mk_proxy_header {
  hdr_src : proxy_id;
  hdr_dst : proxy_id;
  content : Z;
  content_len : Z;
}.

(** [Some None] is [return false]; [out] is written only on success. *)
Definition proxy_header_parse (payload : list Z) (len : Z) : option (option proxy_header) :=
  if decide (len < PROXY_HEADER_SIZE) then Some None
  else
    v ← mem_get payload PROXY_OFF_VERSION;
    if decide (v ≠ PROXY_VERSION) then Some None
    else
      src ← mem_read payload PROXY_OFF_SRC PROXY_ID_SIZE;
      dst ← mem_read payload PROXY_OFF_DST PROXY_ID_SIZE;
      Some (Some (mk_proxy_header (mk_proxy_id src) (mk_proxy_id dst)
                    PROXY_OFF_CONTENT (u16 (len - PROXY_HEADER_SIZE)))).

(** The result is the returned length and [dst_buf] after the call;
    [content = None] is the NULL pointer. *)
Definition proxy_header_build (src dst : proxy_id) (content : option (list Z))
    (content_len : Z) (dst_buf : list Z) (dst_buf_size : Z) : option (Z * list Z) :=
  if decide (PROXY_CONTENT_MAX < content_len) then Some (0, dst_buf)
  else
    let total := u16 (PROXY_HEADER_SIZE + content_len) in
    if decide (dst_buf_size < total) then Some (0, dst_buf)
    else
      b1 ← mem_set dst_buf PROXY_OFF_VERSION PROXY_VERSION;
      s ← mem_read (id_bytes src) 0 PROXY_ID_SIZE;
      b2 ← mem_write b1 PROXY_OFF_SRC s;
      d ← mem_read (id_bytes dst) 0 PROXY_ID_SIZE;
      b3 ← mem_write b2 PROXY_OFF_DST d;
      match content with
      | Some c =>
          if decide (0 < content_len) then
            cs ← mem_read c 0 content_len;
            b4 ← mem_write b3 PROXY_OFF_CONTENT cs;
            Some (total, b4)
          else Some (total, b3)
      | None => Some (total, b3)
      end.

(** [memcmp(a, b, PROXY_ID_SIZE) == 0] *)
Definition proxy_id_equal (a b : proxy_id) : option bool :=
  x ← mem_read (id_bytes a) 0 PROXY_ID_SIZE;
  y ← mem_read (id_bytes b) 0 PROXY_ID_SIZE;
  Some (bool_decide (x = y)).

(** [for (i = i0; i < PROXY_ID_SIZE; i++) if (bytes[i] != 0) return false;
     return true;], [n] iterations left. *)
Fixpoint proxy_id_is_zero_from (id : proxy_id) (n : nat) (i : Z) : option bool :=
  match n with
  | O => Some true
  | S n =>
      b ← mem_get (id_bytes id) i;
      if decide (b ≠ 0) then Some false else proxy_id_is_zero_from id n (i + 1)
  end.
Definition proxy_id_is_zero (id : proxy_id) : option bool :=
  proxy_id_is_zero_from id (Z.to_nat PROXY_ID_SIZE) 0.

(** A C string is the list of its characters before the terminator;
    [str = None] is NULL.  [memset] makes the id all zero first. *)
Definition proxy_id_from_str (str : option (list Z)) : option proxy_id :=
  let zeros := replicate (Z.to_nat PROXY_ID_SIZE) 0 in
  match str with
  | None => Some (mk_proxy_id zeros)
  | Some s =>
      let len := if decide (PROXY_ID_SIZE < zlen s) then PROXY_ID_SIZE else zlen s in
      cs ← mem_read s 0 len;
      b ← mem_write zeros 0 cs;
      Some (mk_proxy_id b)
  end.

(** [%02x] of a byte, as character codes. *)
Definition hex_digit (d : Z) : Z := if decide (d < 10) then 48 + d else 87 + d.
Definition fmt_02x (b : Z) : list Z := [hex_digit (b / 16); hex_digit (b mod 16)].

(** [snprintf(out, out_size, ...)] of a formatted text: at most [out_size - 1]
    characters are stored, then the terminator. *)
Definition snprintf (out_size : Z) (text : list Z) : list Z :=
  take (Z.to_nat (out_size - 1)) text.

Definition str_null : list Z := [40; 110; 117; 108; 108; 41].  (* "(null)" *)
Definition dash : list Z := [45].

(** The sixteen arguments [b[0]] .. [b[15]] of the renderer, all of them read
    before [snprintf] runs; then the 8-4-4-4-12 grouping. *)
Definition uuid_text (b : list Z) : option (list Z) :=
  bs ← mapM (fun i => mem_get b i)
         [0; 1; 2; 3; 4; 5; 6; 7; 8; 9; 10; 11; 12; 13; 14; 15];
  let hex i n := mjoin (fmt_02x <$> take n (drop i bs)) in
  Some (hex 0%nat 4%nat ++ dash ++ hex 4%nat 2%nat ++ dash ++ hex 6%nat 2%nat
        ++ dash ++ hex 8%nat 2%nat ++ dash ++ hex 10%nat 6%nat).

(** The string stored in [out] ([Some None]: nothing stored, [out] NULL or of
    size 0); [id = None] is NULL. *)
Definition proxy_id_to_str (id : option proxy_id) (out_null : bool) (out_size : Z)
    : option (option (list Z)) :=
  if out_null || bool_decide (out_size = 0) then Some None
  else match id with
       | None => Some (Some (snprintf out_size str_null))
       | Some id => t ← uuid_text (id_bytes id); Some (Some (snprintf out_size t))
       end.

(** [%u] of a number below [10 ^ fuel]. *)
Fixpoint fmt_u (fuel : nat) (n : Z) : list Z :=
  match fuel with
  | O => []
  | S fuel => if decide (n < 10) then [48 + n] else fmt_u fuel (n / 10) ++ [48 + n mod 10]
  end.

(** "[v", "][src=", "][dst=", "][content=" and " B]" as character codes. *)
Definition str_v : list Z := [91; 118].
Definition str_src : list Z := [93; 91; 115; 114; 99; 61].
Definition str_dst : list Z := [93; 91; 100; 115; 116; 61].
Definition str_content : list Z := [93; 91; 99; 111; 110; 116; 101; 110; 116; 61].
Definition str_B : list Z := [32; 66; 93].

Definition proxy_header_to_str (hdr : option proxy_header) (out_null : bool) (out_size : Z)
    : option (option (list Z)) :=
  if out_null || bool_decide (out_size = 0) then Some None
  else match hdr with
       | None => Some (Some (snprintf out_size str_null))
       | Some hdr =>
           src ← proxy_id_to_str (Some (hdr_src hdr)) false PROXY_ID_STR_SIZE;
           dst ← proxy_id_to_str (Some (hdr_dst hdr)) false PROXY_ID_STR_SIZE;
           Some (Some (snprintf out_size
             (str_v ++ fmt_02x PROXY_VERSION ++ str_src ++ default [] src
              ++ str_dst ++ default [] dst
              ++ str_content ++ fmt_u 10 (content_len hdr) ++ str_B)))
       end.

(** ** Specification *)

(** A [proxy_id_t] object: exactly four bytes. *)
Definition id_ok (id : proxy_id) : Prop :=
  zlen (id_bytes id) = PROXY_ID_SIZE /\ bytes_ok (id_bytes id).
#[export] Instance id_ok_dec id : Decision (id_ok id).
Proof. unfold id_ok. apply _. Defined.

(** The wire form of a message. *)
Definition wire (src dst : proxy_id) (body : list Z) : list Z :=
  PROXY_VERSION :: id_bytes src ++ id_bytes dst ++ body.

Lemma id_ok_shape id : id_ok id -> exists a b c d, id = mk_proxy_id [a; b; c; d].
Proof.
  destruct id as [l]. unfold id_ok, zlen, PROXY_ID_SIZE. simpl. intros [Hl _].
  do 4 (destruct l as [|? l]; [simpl in Hl; lia|]).
  destruct l; [eauto|simpl in Hl; lia].
Qed.

Lemma zlen_shape9 {A} (l : list A) :
  9 <= zlen l -> exists x0 x1 x2 x3 x4 x5 x6 x7 x8 r,
    l = x0 :: x1 :: x2 :: x3 :: x4 :: x5 :: x6 :: x7 :: x8 :: r.
Proof.
  unfold zlen. intros H.
  do 9 (destruct l as [|? l]; [simpl in H; lia|]). by repeat eexists.
Qed.

(** Side conditions of memory accesses at constant offsets. *)
Ltac off_lia :=
  unfold PROXY_CONTENT_MAX, PROXY_PRACTICAL_MAX, PROXY_OFF_CONTENT, PROXY_OFF_DST,
    PROXY_OFF_SRC, PROXY_OFF_VERSION, PROXY_HEADER_SIZE, PROXY_ID_SIZE in *;
  simpl in *; autorewrite with zlen in *; simpl in *; lia.

Lemma build_ok src dst c n buf size :
  id_ok src -> id_ok dst -> 0 <= n <= PROXY_CONTENT_MAX ->
  match c with Some c => n <= zlen c | None => True end ->
  PROXY_HEADER_SIZE + n <= size <= zlen buf ->
  proxy_header_build src dst c n buf size
  = Some (PROXY_HEADER_SIZE + n,
          wire src dst (match c with
                        | Some c => take (Z.to_nat n) c
                        | None => take (Z.to_nat n) (drop 9 buf)
                        end) ++ drop (Z.to_nat (PROXY_HEADER_SIZE + n)) buf).
Proof.
  intros (a&b&c1&d&->)%id_ok_shape (e&f&g&h&->)%id_ok_shape Hn Hc Hs.
  destruct (zlen_shape9 buf) as (x0&x1&x2&x3&x4&x5&x6&x7&x8&r&->); [off_lia|].
  pose proof (zlen_nonneg r).
  unfold proxy_header_build.
  rewrite decide_False by lia. rewrite u16_id by off_lia. cbv zeta.
  rewrite decide_False by off_lia.
  rewrite mem_set_ok by off_lia. simpl.
  rewrite mem_write_ok by off_lia. unfold splice at 1. simpl.
  rewrite mem_write_ok by off_lia. unfold splice at 1. simpl.
  replace (Z.to_nat (PROXY_HEADER_SIZE + n)) with (9 + Z.to_nat n)%nat by off_lia. simpl.
  destruct c as [c|].
  - case_decide.
    + rewrite (mem_read_0 c) by lia. simpl. rewrite drop_0.
      assert (zlen (take (Z.to_nat n) c) = n) as Hl by (apply zlen_take; lia).
      rewrite mem_write_ok by (rewrite ?Hl; off_lia). simpl.
      unfold splice. rewrite Hl.
      replace (Z.to_nat (PROXY_OFF_CONTENT + n)) with (9 + Z.to_nat n)%nat by off_lia.
      done.
    + replace n with 0 by lia. done.
  - do 11 f_equal. by rewrite drop_0, take_drop.
Qed.

Lemma parse_wire src dst body tl len :
  id_ok src -> id_ok dst -> len = PROXY_HEADER_SIZE + zlen body -> len < 65536 ->
  proxy_header_parse (wire src dst body ++ tl) len
  = Some (Some (mk_proxy_header src dst PROXY_OFF_CONTENT (zlen body))).
Proof.
  intros (a&b&c1&d&->)%id_ok_shape (e&f&g&h&->)%id_ok_shape -> Hb.
  pose proof (zlen_nonneg body). pose proof (zlen_nonneg tl).
  unfold proxy_header_parse, wire. simpl.
  rewrite decide_False by off_lia. simpl.
  rewrite mem_read_ok by off_lia. simpl.
  rewrite mem_read_ok by off_lia. simpl.
  rewrite u16_id by off_lia. do 3 f_equal. lia.
Qed.

Lemma zlen_wire src dst body :
  id_ok src -> id_ok dst -> zlen (wire src dst body) = PROXY_HEADER_SIZE + zlen body.
Proof.
  intros (a&b&c1&d&->)%id_ok_shape (e&f&g&h&->)%id_ok_shape. unfold wire. off_lia.
Qed.

Lemma read_content src dst body tl :
  id_ok src -> id_ok dst ->
  mem_read (wire src dst body ++ tl) PROXY_OFF_CONTENT (zlen body) = Some body.
Proof.
  intros (a&b&c1&d&->)%id_ok_shape (e&f&g&h&->)%id_ok_shape.
  pose proof (zlen_nonneg body). pose proof (zlen_nonneg tl).
  rewrite mem_read_ok by (unfold wire; off_lia). unfold wire. simpl. f_equal.
  rewrite drop_0. apply take_app_length'. unfold zlen. lia.
Qed.

(** What [proxy_header_parse] computes, read off the payload. *)
Lemma parse_shape payload len :
  0 <= len <= zlen payload -> len < 65536 -> bytes_ok payload ->
  PROXY_HEADER_SIZE <= len -> mem_get payload 0 = Some PROXY_VERSION ->
  exists src dst body tl,
    id_ok src /\ id_ok dst /\ payload = wire src dst body ++ tl
    /\ zlen body = len - PROXY_HEADER_SIZE /\ bytes_ok body.
Proof.
  intros Hl Hl2 Hb Hh Hv.
  destruct (zlen_shape9 payload) as (x0&x1&x2&x3&x4&x5&x6&x7&x8&r&->); [off_lia|].
  unfold mem_get in Hv. simpl in Hv. injection Hv as ->.
  unfold bytes_ok in Hb. rewrite !Forall_cons in Hb. destruct_and!.
  exists (mk_proxy_id [x1; x2; x3; x4]), (mk_proxy_id [x5; x6; x7; x8]).
  exists (take (Z.to_nat (len - 9)) r), (drop (Z.to_nat (len - 9)) r).
  assert (0 <= len - 9 <= zlen r) by off_lia.
  split_and!.
  - split; [done|]. by repeat apply Forall_cons_2.
  - split; [done|]. by repeat apply Forall_cons_2.
  - unfold wire. simpl. by rewrite take_drop.
  - rewrite zlen_take by done. off_lia.
  - by apply Forall_take.
Qed.

Lemma parse_reject payload len :
  0 <= len <= zlen payload ->
  len < PROXY_HEADER_SIZE \/ mem_get payload 0 <> Some PROXY_VERSION ->
  proxy_header_parse payload len = Some None.
Proof.
  intros Hl Hv. unfold proxy_header_parse. case_decide; [done|].
  destruct (mem_get_Some payload 0) as (x & E & _); [off_lia|].
  unfold PROXY_OFF_VERSION. rewrite E in *. simpl.
  rewrite decide_True; [done|]. destruct Hv; [lia|congruence].
Qed.

Lemma zlen4 {A} (l : list A) : zlen l = 4 -> exists a b c d, l = [a; b; c; d].
Proof.
  unfold zlen. intros Hl.
  do 4 (destruct l as [|? l]; [simpl in Hl; lia|]).
  destruct l; [eauto|simpl in Hl; lia].
Qed.

Lemma id_equal_ok a b : id_ok a -> id_ok b -> proxy_id_equal a b = Some (bool_decide (a = b)).
Proof.
  intros (a0&a1&a2&a3&->)%id_ok_shape (b0&b1&b2&b3&->)%id_ok_shape.
  unfold proxy_id_equal. simpl. f_equal. apply bool_decide_ext.
  split; [congruence|]. by intros [= -> -> -> ->].
Qed.

Definition zero_id : proxy_id := mk_proxy_id [0; 0; 0; 0].

Lemma id_is_zero_ok a : id_ok a -> proxy_id_is_zero a = Some (bool_decide (a = zero_id)).
Proof.
  intros (a0&a1&a2&a3&->)%id_ok_shape. unfold proxy_id_is_zero, zero_id. simpl.
  repeat (case_decide; [by rewrite bool_decide_false by congruence|simpl]).
  rewrite bool_decide_true; [done|]. do 2 f_equal; [|do 2 f_equal]; try lia.
  repeat f_equal; lia.
Qed.

(** ** Properties *)

(** C33. Round trip of the proxy header: for any two four-byte ids and any
    content of at most [PROXY_CONTENT_MAX] bytes, [proxy_header_build] into a
    large enough buffer succeeds, [proxy_header_parse] of the bytes it wrote
    gives back both ids and a pointer and length that read exactly the
    content, and the rest of the buffer is untouched. *)
Theorem proxy_header_roundtrip src dst c buf size :
  id_ok src -> id_ok dst -> zlen c <= PROXY_CONTENT_MAX ->
  PROXY_HEADER_SIZE + zlen c <= size <= zlen buf ->
  exists total buf' hdr,
    proxy_header_build src dst (Some c) (zlen c) buf size = Some (total, buf')
    /\ total = PROXY_HEADER_SIZE + zlen c
    /\ proxy_header_parse buf' total = Some (Some hdr)
    /\ hdr_src hdr = src /\ hdr_dst hdr = dst
    /\ mem_read buf' (content hdr) (content_len hdr) = Some c
    /\ zlen buf' = zlen buf
    /\ drop (Z.to_nat total) buf' = drop (Z.to_nat total) buf.
Proof.
  intros Hs Hd Hc Hb. pose proof (zlen_nonneg c).
  eexists _, _, (mk_proxy_header src dst PROXY_OFF_CONTENT (zlen c)).
  split; [apply build_ok; try done; lia|]. split; [done|].
  rewrite (take_ge c) by (unfold zlen; lia).
  split; [apply parse_wire; try done; off_lia|].
  cbn [hdr_src hdr_dst ProxyProtocol.content ProxyProtocol.content_len].
  split_and!; try done.
  - by apply read_content.
  - rewrite zlen_app, zlen_wire by done.
    unfold zlen, PROXY_HEADER_SIZE, PROXY_ID_SIZE in *. rewrite length_drop. lia.
  - rewrite drop_app_length'; [done|].
    pose proof (zlen_wire src dst c Hs Hd) as E. unfold zlen in *. lia.
Qed.

Lemma proxy_header_roundtrip_witness :
  exists total buf' hdr,
    proxy_header_build (mk_proxy_id [1; 2; 3; 4]) (mk_proxy_id [5; 6; 7; 8])
      (Some [104; 105]) 2 (replicate 16 0) 12 = Some (total, buf')
    /\ total = 11 /\ proxy_header_parse buf' total = Some (Some hdr)
    /\ hdr_src hdr = mk_proxy_id [1; 2; 3; 4] /\ hdr_dst hdr = mk_proxy_id [5; 6; 7; 8]
    /\ mem_read buf' (content hdr) (content_len hdr) = Some [104; 105]
    /\ zlen buf' = 16 /\ drop (Z.to_nat total) buf' = drop (Z.to_nat total) (replicate 16 0).
Proof.
  apply (proxy_header_roundtrip (mk_proxy_id [1; 2; 3; 4]) (mk_proxy_id [5; 6; 7; 8])
           [104; 105] (replicate 16 0) 12); by_eval.
Defined.

(** [proxy_header_parse] is total and exact on any received payload: it
    never reads outside the payload, succeeds exactly when the payload has at
    least nine bytes and starts with the version byte, and on success
    re-encoding the parsed ids and content gives the payload back. *)
Theorem proxy_header_parse_exact payload len :
  bytes_ok payload -> 0 <= len <= zlen payload -> len < 65536 ->
  exists r, proxy_header_parse payload len = Some r
    /\ (is_Some r <-> PROXY_HEADER_SIZE <= len /\ mem_get payload 0 = Some PROXY_VERSION)
    /\ (forall h, r = Some h -> exists c,
           mem_read payload (content h) (content_len h) = Some c
           /\ content_len h = len - PROXY_HEADER_SIZE
           /\ take (Z.to_nat len) payload = wire (hdr_src h) (hdr_dst h) c).
Proof.
  intros Hb Hl Hl2.
  destruct (decide (PROXY_HEADER_SIZE <= len /\ mem_get payload 0 = Some PROXY_VERSION))
    as [[Hh Hv]|Hn].
  - destruct (parse_shape payload len) as (src & dst & body & tl & Hs & Hd & -> & Hbd & _);
      try done.
    rewrite parse_wire by (done || lia). eexists; split; [done|]. split.
    + split; [done|eauto].
    + intros h [= <-]. exists body.
      cbn [hdr_src hdr_dst ProxyProtocol.content ProxyProtocol.content_len]. split; [by apply read_content|].
      split; [done|]. rewrite take_app_length'; [done|].
      pose proof (zlen_wire src dst body Hs Hd) as E. unfold zlen in *. lia.
  - rewrite parse_reject; [|done|].
    + eexists; split; [done|]. split; [|done].
      split; [by intros []|]. intros. exfalso. tauto.
    + destruct (decide (len < PROXY_HEADER_SIZE)); [by left|right].
      intros E. apply Hn. split; [lia|done].
Qed.

Lemma proxy_header_parse_exact_witness :
  exists r, proxy_header_parse [1; 9; 9; 9; 9; 7; 7; 7; 7; 65] 10 = Some r
    /\ (is_Some r <-> PROXY_HEADER_SIZE <= 10
         /\ mem_get [1; 9; 9; 9; 9; 7; 7; 7; 7; 65] 0 = Some PROXY_VERSION)
    /\ (forall h, r = Some h -> exists c,
           mem_read [1; 9; 9; 9; 9; 7; 7; 7; 7; 65] (content h) (content_len h) = Some c
           /\ content_len h = 10 - PROXY_HEADER_SIZE
           /\ take (Z.to_nat 10) [1; 9; 9; 9; 9; 7; 7; 7; 7; 65]
              = wire (hdr_src h) (hdr_dst h) c).
Proof.
  apply (proxy_header_parse_exact [1; 9; 9; 9; 9; 7; 7; 7; 7; 65] 10); by_eval.
Defined.

(** [proxy_header_build] refuses exactly the calls it documents: it
    returns 0, with the buffer untouched, if the content is longer than
    [PROXY_CONTENT_MAX] or the buffer size is too small; otherwise it returns
    the full length, at most [PROXY_PRACTICAL_MAX], and a NULL content leaves
    the content bytes of the buffer as they were. *)
Theorem proxy_header_build_total src dst c n buf size :
  id_ok src -> id_ok dst -> 0 <= n < 65536 -> size <= zlen buf ->
  match c with Some c => n <= zlen c | None => True end ->
  exists r buf', proxy_header_build src dst c n buf size = Some (r, buf')
    /\ zlen buf' = zlen buf
    /\ (PROXY_CONTENT_MAX < n \/ size < PROXY_HEADER_SIZE + n -> r = 0 /\ buf' = buf)
    /\ (n <= PROXY_CONTENT_MAX -> PROXY_HEADER_SIZE + n <= size ->
        r = PROXY_HEADER_SIZE + n /\ r <= PROXY_PRACTICAL_MAX
        /\ mem_get buf' PROXY_OFF_VERSION = Some PROXY_VERSION
        /\ (c = None -> drop (Z.to_nat PROXY_OFF_CONTENT) buf'
                        = drop (Z.to_nat PROXY_OFF_CONTENT) buf)).
Proof.
  intros Hs Hd Hn Hb Hc.
  destruct (decide (n <= PROXY_CONTENT_MAX /\ PROXY_HEADER_SIZE + n <= size)) as [[Hn' Hsz]|Hno].
  - eexists _, _. split; [apply build_ok; try done; lia|].
    set (body := match c with Some c => _ | None => _ end).
    assert (zlen body = n) as Hbody.
    { subst body. destruct c; [apply zlen_take; lia|]. unfold zlen in *.
      rewrite length_take, length_drop. off_lia. }
    split_and!.
    + rewrite zlen_app, zlen_wire, Hbody by done. unfold zlen in *.
      rewrite length_drop. off_lia.
    + lia.
    + intros _ _. split_and!; [done|off_lia|done|]. intros ->. simpl in body.
      destruct Hs as [Hs _], Hd as [Hd _].
      apply zlen4 in Hs as (a&b&c1&d&Es). apply zlen4 in Hd as (e&f&g&h&Ed).
      unfold wire. rewrite Es, Ed. simpl. rewrite drop_0. subst body.
      replace (Z.to_nat (PROXY_HEADER_SIZE + n)) with (9 + Z.to_nat n)%nat by off_lia.
      rewrite <- (drop_drop buf (Z.to_nat n) 9). by rewrite take_drop.
  - exists 0, buf. unfold proxy_header_build. split.
    + case_decide; [done|]. rewrite u16_id by off_lia. cbv zeta.
      by rewrite decide_True by lia.
    + split; [done|]. split; [done|]. lia.
Qed.

Lemma proxy_header_build_total_witness :
  exists r buf', proxy_header_build zero_id zero_id None 3 (replicate 10 7) 10 = Some (r, buf')
    /\ zlen buf' = 10
    /\ (PROXY_CONTENT_MAX < 3 \/ 10 < PROXY_HEADER_SIZE + 3 -> r = 0 /\ buf' = replicate 10 7)
    /\ (3 <= PROXY_CONTENT_MAX -> PROXY_HEADER_SIZE + 3 <= 10 ->
        r = PROXY_HEADER_SIZE + 3 /\ r <= PROXY_PRACTICAL_MAX
        /\ mem_get buf' PROXY_OFF_VERSION = Some PROXY_VERSION
        /\ (@None (list Z) = None -> drop (Z.to_nat PROXY_OFF_CONTENT) buf'
                        = drop (Z.to_nat PROXY_OFF_CONTENT) (replicate 10 7))).
Proof.
  apply (proxy_header_build_total zero_id zero_id None 3 (replicate 10 7) 10); by_eval.
Defined.

(** [proxy_id_from_str] keeps the first [PROXY_ID_SIZE] characters of the
    string and pads a shorter one with zeros: a four-character string is kept
    whole, and two strings with the same first four characters give the same
    id.  NULL gives the zero id. *)
Theorem proxy_id_from_str_spec s :
  proxy_id_from_str s
  = Some (mk_proxy_id (take 4 (default [] s ++ [0; 0; 0; 0]))).
Proof.
  destruct s as [s|]; [|done]. unfold proxy_id_from_str, PROXY_ID_SIZE. simpl default.
  set (len := if decide (4 < zlen s) then 4 else zlen s).
  pose proof (zlen_nonneg s).
  assert (0 <= len <= zlen s /\ len <= 4) as [Hl1 Hl2] by (subst len; case_decide; lia).
  cbv zeta. rewrite mem_read_0 by lia. simpl. change (Pos.to_nat 4) with 4%nat.
  rewrite mem_write_ok by (rewrite ?zlen_take by lia; zlia). simpl. f_equal. f_equal.
  rewrite splice_0. rewrite take_app. unfold len, zlen in *. case_decide.
  - replace (4 - length s)%nat with 0%nat by lia. simpl.
    change (Pos.to_nat 4) with 4%nat. f_equal. apply drop_ge. rewrite length_take.
    simpl length. lia.
  - rewrite Nat2Z.id, (take_ge s (length s)), (take_ge s 4) by lia. f_equal.
    destruct s as [|? [|? [|? [|? [|]]]]]; simpl in *; done || lia.
Qed.

(** C40. The UUID renderers [proxy_id_to_str] and [proxy_header_to_str] read
    sixteen bytes of a four-byte [proxy_id_t]: every call with a non-NULL id
    and a usable output buffer is an out-of-bounds read, whatever the id. *)
Theorem proxy_id_to_str_overreads id hdr out_size :
  id_ok id -> id_ok (hdr_src hdr) -> out_size <> 0 ->
  proxy_id_to_str (Some id) false out_size = None
  /\ proxy_header_to_str (Some hdr) false out_size = None.
Proof.
  intros (a&b&c&d&->)%id_ok_shape Hs Hn. apply id_ok_shape in Hs as (e&f&g&h&E).
  unfold proxy_header_to_str, proxy_id_to_str. simpl.
  rewrite bool_decide_false by done. simpl. rewrite E. done.
Qed.

Lemma proxy_id_to_str_overreads_witness :
  proxy_id_to_str (Some (mk_proxy_id [1; 2; 3; 4])) false PROXY_ID_STR_SIZE = None
  /\ proxy_header_to_str (Some (mk_proxy_header zero_id zero_id 9 5)) false
       PROXY_ID_STR_SIZE = None.
Proof.
  apply (proxy_id_to_str_overreads (mk_proxy_id [1; 2; 3; 4])
           (mk_proxy_header zero_id zero_id 9 5) PROXY_ID_STR_SIZE); by_eval.
Defined.
