(* ===== verification/Nanopb.v ===== *)
(** * Nanopb: interface to the generated Meshtastic protobuf code

    The build generates meshtastic/mesh.pb.h and links nanopb; neither is part
    of the repository.  [Nanopb] is what the source uses of them: the oneof tag
    constants, the decoders and the encoders, over the fields of the generated
    structs that the source reads or writes.  [NanopbOk] is their documented
    behaviour.  [demo_nanopb] is a small concrete codec with that behaviour, on
    which the examples of the development run. *)

From stdpp Require Import prelude.
From S2P Require Import Prelude.

Local Open Scope Z_scope.

(** ** Fields of the generated structs *)

(** [meshtastic_Data]: [payload_arr] is the whole [payload.bytes] array. *)
Record pb_data := mk_data { d_portnum : Z; d_payload_bytes : list Z; d_payload_size : Z }.
Record pb_mesh_packet := mk_mesh_packet {
  mp_from : Z; mp_to : Z; mp_which : Z; mp_decoded : pb_data }.
Record pb_queue_status := mk_queue_status {
  qs_res : Z; qs_free : Z; qs_maxlen : Z; qs_mesh_packet_id : Z }.
Record pb_from_radio := mk_from_radio {
  fr_which : Z;
  fr_packet : pb_mesh_packet;
  fr_config_complete_id : Z;
  fr_queueStatus : pb_queue_status }.
Record pb_to_radio := mk_to_radio {
  tr_which : Z;
  tr_packet : pb_mesh_packet;
  tr_want_config_id : Z;
  tr_heartbeat_nonce : Z }.

#[export] Instance eta_from_radio : Eta pb_from_radio := fun r =>
  mk_from_radio (fr_which r) (fr_packet r) (fr_config_complete_id r) (fr_queueStatus r).
#[export] Instance eta_to_radio : Eta pb_to_radio := fun r =>
  mk_to_radio (tr_which r) (tr_packet r) (tr_want_config_id r) (tr_heartbeat_nonce r).

Definition data_init_zero : pb_data := mk_data 0 [] 0.
Definition mesh_packet_init_zero : pb_mesh_packet := mk_mesh_packet 0 0 0 data_init_zero.
Definition queue_status_init_zero : pb_queue_status := mk_queue_status 0 0 0 0.
Definition from_radio_init_zero : pb_from_radio :=
  mk_from_radio 0 mesh_packet_init_zero 0 queue_status_init_zero.
Definition to_radio_init_zero : pb_to_radio := mk_to_radio 0 mesh_packet_init_zero 0 0.

(** ** Streams

    An encoder makes a sequence of writes on its stream.  A buffer stream refuses
    a write that does not fit as a whole (a submessage counts as one write), and
    the encoder stops there: what it yields are its success and the bytes written
    until then ([stream.bytes_written] is their number). *)

Fixpoint pb_write_all (ws : list (list Z)) (n : Z) : bool * list Z :=
  match ws with
  | [] => (true, [])
  | w :: ws =>
      if decide (zlen w <= n) then
        let '(ok, bs) := pb_write_all ws (n - zlen w) in (ok, w ++ bs)
      else (false, [])
  end.

(** The writes [k] first ones of [ws] fit into [n] bytes, and no more. *)
Definition fitting (ws : list (list Z)) (n : Z) (k : nat) : Prop :=
  (k <= length ws)%nat /\ zlen (mjoin (take k ws)) <= n
  /\ ((k < length ws)%nat -> n < zlen (mjoin (take (S k) ws))).

Lemma mjoin_take_drop (k : nat) (ws : list (list Z)) : mjoin (take k ws) ++ mjoin (drop k ws) = mjoin ws.
Proof.
  revert k. induction ws as [|w ws IH]; intros [|k]; try done.
  change ((w ++ mjoin (take k ws)) ++ mjoin (drop k ws) = w ++ mjoin ws). by rewrite <- app_assoc, IH.
Qed.

Lemma pb_write_all_fitting ws n :
  0 <= n -> exists k, fitting ws n k /\ pb_write_all ws n = (bool_decide (k = length ws), mjoin (take k ws)).
Proof.
  revert n. induction ws as [|w ws IH]; intros n Hn; simpl; [exists 0%nat; split; [by split; [|split; [|simpl; lia]]|done]|].
  case_decide as Hw.
  - destruct (IH (n - zlen w)) as (k & (Hk & Hf & Hs) & ->); [lia|]. exists (S k). split.
    + split; [simpl; lia|]. change (mjoin (take (S k) (w :: ws))) with (w ++ mjoin (take k ws)).
      change (mjoin (take (S (S k)) (w :: ws))) with (w ++ mjoin (take (S k) ws)). rewrite !zlen_app. simpl.
      split; [lia|]. intros Hlt. assert (k < length ws)%nat as Hlt' by lia. specialize (Hs Hlt'). lia.
    + f_equal. apply bool_decide_ext. lia.
  - exists 0%nat. split; [|done]. split; [lia|]. split; [simpl; rewrite zlen_nil; lia|]. intros _. simpl.
    rewrite app_nil_r. lia.
Qed.

(** ** The interface

    An encoder gets the size of its buffer and yields its success and the
    bytes it wrote; [pb_writes_FromRadio] and [pb_writes_ToRadio] are the writes
    it makes on its stream. *)
Class Nanopb := {
  FromRadio_packet_tag : Z;
  FromRadio_my_info_tag : Z;
  FromRadio_node_info_tag : Z;
  FromRadio_config_tag : Z;
  FromRadio_config_complete_id_tag : Z;
  FromRadio_moduleConfig_tag : Z;
  FromRadio_channel_tag : Z;
  FromRadio_queueStatus_tag : Z;
  FromRadio_metadata_tag : Z;
  FromRadio_fileInfo_tag : Z;
  FromRadio_deviceuiConfig_tag : Z;
  ToRadio_packet_tag : Z;
  ToRadio_want_config_id_tag : Z;
  ToRadio_heartbeat_tag : Z;
  MeshPacket_decoded_tag : Z;
  ToRadio_size : Z;
  pb_decode_FromRadio : list Z -> option pb_from_radio;
  pb_decode_ToRadio : list Z -> option pb_to_radio;
  pb_encode_FromRadio : pb_from_radio -> Z -> bool * list Z;
  pb_encode_ToRadio : pb_to_radio -> Z -> bool * list Z;
  pb_writes_FromRadio : pb_from_radio -> list (list Z);
  pb_writes_ToRadio : pb_to_radio -> list (list Z);
}.

Section Messages.
Context `{Nanopb}.

Definition msg_config_complete (nonce : Z) : pb_from_radio :=
  from_radio_init_zero <| fr_which := FromRadio_config_complete_id_tag |>
                       <| fr_config_complete_id := nonce |>.
Definition msg_queue_status : pb_from_radio :=
  from_radio_init_zero <| fr_which := FromRadio_queueStatus_tag |>
                       <| fr_queueStatus := mk_queue_status 0 16 16 0 |>.
Definition msg_heartbeat (nonce : Z) : pb_to_radio :=
  to_radio_init_zero <| tr_which := ToRadio_heartbeat_tag |>
                     <| tr_heartbeat_nonce := nonce |>.
Definition msg_want_config (nonce : Z) : pb_to_radio :=
  to_radio_init_zero <| tr_which := ToRadio_want_config_id_tag |>
                     <| tr_want_config_id := nonce |>.

Definition data_ok (d : pb_data) : Prop :=
  bytes_ok (d_payload_bytes d) /\ 0 <= d_payload_size d <= zlen (d_payload_bytes d)
  /\ d_payload_size d < 65536.

(** The encoder [enc] makes the writes [ws] on its stream, of some bytes, at most
    [size]. *)
Definition encodes (enc : Z -> bool * list Z) (ws : list (list Z)) (size : Z) : Prop :=
  (forall n, 0 <= n -> enc n = pb_write_all ws n)
  /\ bytes_ok (mjoin ws) /\ 0 < zlen (mjoin ws) <= size.
End Messages.

(** Documented behaviour: the tags of a oneof are distinct; a decoded payload
    lies inside its array; the control messages the source builds are encoded as
    a sequence of writes on the stream, of at most 16 bytes, and decode to
    themselves; a ToRadio message is at most [ToRadio_size] bytes. *)
Class NanopbOk `{Nanopb} : Prop := {
  FromRadio_tags_NoDup :
    NoDup [FromRadio_packet_tag; FromRadio_my_info_tag; FromRadio_node_info_tag;
           FromRadio_config_tag; FromRadio_config_complete_id_tag;
           FromRadio_moduleConfig_tag; FromRadio_channel_tag; FromRadio_queueStatus_tag;
           FromRadio_metadata_tag; FromRadio_fileInfo_tag; FromRadio_deviceuiConfig_tag];
  ToRadio_tags_NoDup :
    NoDup [ToRadio_packet_tag; ToRadio_want_config_id_tag; ToRadio_heartbeat_tag];
  ToRadio_size_le : 0 < ToRadio_size < 65536;
  pb_decode_FromRadio_payload buf m :
    pb_decode_FromRadio buf = Some m ->
    mp_which (fr_packet m) = MeshPacket_decoded_tag -> data_ok (mp_decoded (fr_packet m));
  pb_decode_ToRadio_payload buf m :
    pb_decode_ToRadio buf = Some m ->
    mp_which (tr_packet m) = MeshPacket_decoded_tag -> data_ok (mp_decoded (tr_packet m));
  pb_decode_FromRadio_nonce buf m :
    pb_decode_FromRadio buf = Some m -> fits 32 (fr_config_complete_id m);
  pb_decode_ToRadio_nonce buf m :
    pb_decode_ToRadio buf = Some m -> fits 32 (tr_want_config_id m);
  pb_encode_config_complete nonce :
    fits 32 nonce ->
    encodes (pb_encode_FromRadio (msg_config_complete nonce)) (pb_writes_FromRadio (msg_config_complete nonce)) 16;
  pb_encode_queue_status :
    encodes (pb_encode_FromRadio msg_queue_status) (pb_writes_FromRadio msg_queue_status) 16;
  pb_encode_heartbeat nonce :
    fits 32 nonce ->
    encodes (pb_encode_ToRadio (msg_heartbeat nonce)) (pb_writes_ToRadio (msg_heartbeat nonce)) 16;
  pb_encode_want_config nonce :
    fits 32 nonce ->
    encodes (pb_encode_ToRadio (msg_want_config nonce)) (pb_writes_ToRadio (msg_want_config nonce))
      (16 `min` ToRadio_size);
  pb_decode_encode_config_complete nonce :
    fits 32 nonce ->
    pb_decode_FromRadio (mjoin (pb_writes_FromRadio (msg_config_complete nonce))) = Some (msg_config_complete nonce);
  pb_decode_encode_queue_status :
    pb_decode_FromRadio (mjoin (pb_writes_FromRadio msg_queue_status)) = Some msg_queue_status;
  pb_decode_encode_heartbeat nonce :
    fits 32 nonce ->
    pb_decode_ToRadio (mjoin (pb_writes_ToRadio (msg_heartbeat nonce))) = Some (msg_heartbeat nonce);
  pb_decode_encode_want_config nonce :
    fits 32 nonce ->
    pb_decode_ToRadio (mjoin (pb_writes_ToRadio (msg_want_config nonce))) = Some (msg_want_config nonce);
}.

(** The tag pairs that clients separate. *)
Ltac tags_ne H i j :=
  let E := fresh in intros E;
  assert (i = j :> nat) by (eapply NoDup_lookup; [exact H|reflexivity|simpl; by rewrite E]);
  discriminate.

Section Tags.
Context `{NanopbOk}.

Lemma tag_cc_packet : FromRadio_config_complete_id_tag <> FromRadio_packet_tag.
Proof. tags_ne FromRadio_tags_NoDup 4%nat 0%nat. Qed.
Lemma tag_qs_packet : FromRadio_queueStatus_tag <> FromRadio_packet_tag.
Proof. tags_ne FromRadio_tags_NoDup 7%nat 0%nat. Qed.
Lemma tag_ni_packet : FromRadio_node_info_tag <> FromRadio_packet_tag.
Proof. tags_ne FromRadio_tags_NoDup 2%nat 0%nat. Qed.
Lemma tag_ni_cc : FromRadio_node_info_tag <> FromRadio_config_complete_id_tag.
Proof. tags_ne FromRadio_tags_NoDup 2%nat 4%nat. Qed.
Lemma tag_ni_qs : FromRadio_node_info_tag <> FromRadio_queueStatus_tag.
Proof. tags_ne FromRadio_tags_NoDup 2%nat 7%nat. Qed.
Lemma tag_cc_qs : FromRadio_config_complete_id_tag <> FromRadio_queueStatus_tag.
Proof. tags_ne FromRadio_tags_NoDup 4%nat 7%nat. Qed.
Lemma tag_hb_wc : ToRadio_heartbeat_tag <> ToRadio_want_config_id_tag.
Proof. tags_ne ToRadio_tags_NoDup 2%nat 1%nat. Qed.
Lemma tag_tp_wc : ToRadio_packet_tag <> ToRadio_want_config_id_tag.
Proof. tags_ne ToRadio_tags_NoDup 0%nat 1%nat. Qed.
Lemma tag_tp_hb : ToRadio_packet_tag <> ToRadio_heartbeat_tag.
Proof. tags_ne ToRadio_tags_NoDup 0%nat 2%nat. Qed.
End Tags.
#[export] Hint Resolve tag_cc_packet tag_qs_packet tag_ni_packet tag_ni_cc tag_ni_qs
  tag_cc_qs tag_hb_wc tag_tp_wc tag_tp_hb : core.

(** ** A concrete codec

    A message is its tag byte followed by its fields: nonces as four
    little-endian bytes, a packet as one byte each of from, to and variant, two
    of portnum, then the payload. *)

Definition demo_packet (l : list Z) : option pb_mesh_packet :=
  match l with
  | f :: t :: w :: lo :: hi :: p =>
      if bool_decide (bytes_ok p /\ zlen p < 65536)
      then Some (mk_mesh_packet f t w (mk_data (lo + 256 * hi) p (zlen p))) else None
  | _ => None
  end.

Definition demo_decode_FromRadio (l : list Z) : option pb_from_radio :=
  match l with
  | [] => Some from_radio_init_zero
  | t :: r =>
      if decide (t = 2) then
        p ← demo_packet r;
        Some (from_radio_init_zero <| fr_which := 2 |> <| fr_packet := p |>)
      else if decide (t = 7) then
        Some (from_radio_init_zero <| fr_which := 7 |>
                <| fr_config_complete_id := u32 (un_le32 r) |>)
      else if decide (t = 11) then
        match r with
        | [a; b; c; d] => Some (from_radio_init_zero <| fr_which := 11 |>
                                  <| fr_queueStatus := mk_queue_status a b c d |>)
        | _ => None
        end
      else if decide (0 < t < 18) then Some (from_radio_init_zero <| fr_which := t |>)
      else None
  end.

Definition demo_decode_ToRadio (l : list Z) : option pb_to_radio :=
  match l with
  | [] => Some to_radio_init_zero
  | t :: r =>
      if decide (t = 1) then
        p ← demo_packet r;
        Some (to_radio_init_zero <| tr_which := 1 |> <| tr_packet := p |>)
      else if decide (t = 3) then
        Some (to_radio_init_zero <| tr_which := 3 |> <| tr_want_config_id := u32 (un_le32 r) |>)
      else if decide (t = 7) then
        Some (to_radio_init_zero <| tr_which := 7 |> <| tr_heartbeat_nonce := u32 (un_le32 r) |>)
      else if decide (0 < t < 8) then Some (to_radio_init_zero <| tr_which := t |>)
      else None
  end.

Definition demo_writes_FromRadio (m : pb_from_radio) : list (list Z) :=
  if decide (fr_which m = 11) then
    let q := fr_queueStatus m in
    [[11]; [u8 (qs_res q)]; [u8 (qs_free q)]; [u8 (qs_maxlen q)]; [u8 (qs_mesh_packet_id q)]]
  else [[u8 (fr_which m)]; le32 (fr_config_complete_id m)].

Definition demo_writes_ToRadio (m : pb_to_radio) : list (list Z) :=
  [[u8 (tr_which m)];
   le32 (if decide (tr_which m = 7) then tr_heartbeat_nonce m else tr_want_config_id m)].

Definition demo_nanopb : Nanopb := {|
  FromRadio_packet_tag := 2;
  FromRadio_my_info_tag := 3;
  FromRadio_node_info_tag := 4;
  FromRadio_config_tag := 5;
  FromRadio_config_complete_id_tag := 7;
  FromRadio_moduleConfig_tag := 9;
  FromRadio_channel_tag := 10;
  FromRadio_queueStatus_tag := 11;
  FromRadio_metadata_tag := 13;
  FromRadio_fileInfo_tag := 15;
  FromRadio_deviceuiConfig_tag := 17;
  ToRadio_packet_tag := 1;
  ToRadio_want_config_id_tag := 3;
  ToRadio_heartbeat_tag := 7;
  MeshPacket_decoded_tag := 4;
  ToRadio_size := 512;
  pb_decode_FromRadio := demo_decode_FromRadio;
  pb_decode_ToRadio := demo_decode_ToRadio;
  pb_encode_FromRadio m := pb_write_all (demo_writes_FromRadio m);
  pb_encode_ToRadio m := pb_write_all (demo_writes_ToRadio m);
  pb_writes_FromRadio := demo_writes_FromRadio;
  pb_writes_ToRadio := demo_writes_ToRadio;
|}.

Lemma demo_packet_ok l p : demo_packet l = Some p -> data_ok (mp_decoded p).
Proof.
  unfold demo_packet. repeat (destruct l as [|? l]; [done|]).
  case_bool_decide as Hb; [|done]. intros [= <-]. destruct Hb as [??].
  split; [done|]. pose proof (zlen_nonneg l). simpl. lia.
Qed.

Lemma data_zero_ok : data_ok data_init_zero.
Proof. split; [apply Forall_nil_2|]. vm_compute. intuition done. Qed.

Lemma fits_0 w : 0 <= w -> fits w 0.
Proof. intros. split; [done|]. apply Z.pow_pos_nonneg; lia. Qed.

(** What the demo decoders yield. *)
Lemma demo_decode_FromRadio_ok buf m :
  demo_decode_FromRadio buf = Some m ->
  data_ok (mp_decoded (fr_packet m)) /\ fits 32 (fr_config_complete_id m).
Proof.
  unfold demo_decode_FromRadio. destruct buf as [|t r]; [intros [= <-]|].
  { split; [apply data_zero_ok|by apply fits_0]. }
  repeat case_decide.
  - intros (p & Hp & [= <-])%bind_Some. split; [by eapply demo_packet_ok|by apply fits_0].
  - intros [= <-]. split; [apply data_zero_ok|apply u32_fits].
  - do 5 (destruct r as [|? r]; try done). intros [= <-].
    split; [apply data_zero_ok|by apply fits_0].
  - intros [= <-]. split; [apply data_zero_ok|by apply fits_0].
  - done.
Qed.

Lemma demo_decode_ToRadio_ok buf m :
  demo_decode_ToRadio buf = Some m ->
  data_ok (mp_decoded (tr_packet m)) /\ fits 32 (tr_want_config_id m).
Proof.
  unfold demo_decode_ToRadio. destruct buf as [|t r]; [intros [= <-]|].
  { split; [apply data_zero_ok|by apply fits_0]. }
  repeat case_decide.
  - intros (p & Hp & [= <-])%bind_Some. split; [by eapply demo_packet_ok|by apply fits_0].
  - intros [= <-]. split; [apply data_zero_ok|apply u32_fits].
  - intros [= <-]. split; [apply data_zero_ok|by apply fits_0].
  - intros [= <-]. split; [apply data_zero_ok|by apply fits_0].
  - done.
Qed.

(** A tag and a nonce. *)
Lemma demo_encodes t nonce size :
  fits 8 t -> 16 <= size -> encodes (pb_write_all [[t]; le32 nonce]) [[t]; le32 nonce] size.
Proof.
  intros Ht Hs. split; [done|]. simpl. split; [|unfold zlen; simpl; lia].
  apply Forall_cons_2; [exact Ht|apply bytes_ok_le32].
Qed.

Lemma demo_nonce {A} (f : Z -> A) nonce :
  fits 32 nonce -> Some (f (u32 (un_le32 (le32 nonce)))) = Some (f nonce).
Proof. intros Hf. rewrite un_le32_le32 by done. unfold u32. by rewrite wrap_id. Qed.

#[local] Instance demo_nanopb_ok : NanopbOk (H := demo_nanopb).
Proof.
  split.
  - by_eval.
  - by_eval.
  - by_eval.
  - intros buf m Hm _. by apply demo_decode_FromRadio_ok in Hm as [].
  - intros buf m Hm _. by apply demo_decode_ToRadio_ok in Hm as [].
  - intros buf m Hm. by apply demo_decode_FromRadio_ok in Hm as [].
  - intros buf m Hm. by apply demo_decode_ToRadio_ok in Hm as [].
  - intros nonce _. by apply (demo_encodes 7 nonce 16).
  - split; [done|]. by_eval.
  - intros nonce _. by apply (demo_encodes 7 nonce 16).
  - intros nonce _. by apply (demo_encodes 3 nonce 16).
  - intros nonce Hf. exact (demo_nonce (@msg_config_complete demo_nanopb) nonce Hf).
  - done.
  - intros nonce Hf. exact (demo_nonce (@msg_heartbeat demo_nanopb) nonce Hf).
  - intros nonce Hf. exact (demo_nonce (@msg_want_config demo_nanopb) nonce Hf).
Qed.
