(* ===== verification/ConfigCache.v ===== *)
(** * ConfigCache: the packed store of the node's config burst
    (src/src/config_cache.c)

    [cache] is the module's static variables; one definition per function.
    Writers run in [M cache]; readers are functions of the cache whose outer
    [option] is [None] on an out-of-bounds access.  A [const uint8_t *] into
    the arena is its offset; an index entry is passed by value ([None] is
    NULL). *)

From stdpp Require Import prelude.
From S2P Require Import Prelude Nanopb.

Local Open Scope Z_scope.

Definition CONFIG_CACHE_ARENA_BYTES : Z := 4096.
Definition CONFIG_CACHE_MAX_FRAMES : Z := 128.
Definition MESH_NONCE_ONLY_CONFIG : Z := 69420.
Definition MESH_NONCE_ONLY_NODES : Z := 69421.

Record cache_frame_ref := mk_ref { offset : Z; len : Z; variant : Z }.

Record cache := mk_cache {
  s_arena : list Z;
  s_index : list cache_frame_ref;
  s_used : Z;
  s_count : Z;
  s_ready : Z;
  s_queuestatus_idx : Z;
  s_own_nodeinfo_idx : Z;
}.
#[export] Instance eta_cache : Eta cache := fun c =>
  mk_cache (s_arena c) (s_index c) (s_used c) (s_count c) (s_ready c)
    (s_queuestatus_idx c) (s_own_nodeinfo_idx c).

(** The static initializers: zeroed storage, both indices -1. *)
Definition cache_init : cache :=
  mk_cache (replicate (Z.to_nat CONFIG_CACHE_ARENA_BYTES) 0)
    (replicate (Z.to_nat CONFIG_CACHE_MAX_FRAMES) (mk_ref 0 0 0)) 0 0 0 (-1) (-1).

Section Operations.
Context `{Nanopb}.

Definition cache_begin : M cache unit :=
  modify (fun c => c <| s_ready := 0 |>) ;;;
  modify (fun c => c <| s_used := 0 |> <| s_count := 0 |>
                     <| s_queuestatus_idx := -1 |> <| s_own_nodeinfo_idx := -1 |>).

Definition cache_add_frame (raw : list Z) (v : Z) : M cache rc :=
  c <- gets id ;;
  if decide (CONFIG_CACHE_MAX_FRAMES <= s_count c) then ret (rc_err ENOMEM)
  else if decide (CONFIG_CACHE_ARENA_BYTES < u32 (s_used c + zlen raw))
  then ret (rc_err ENOMEM)
  else
    arena <- oget (mem_write (s_arena c) (s_used c) raw) ;;
    index <- oget (mem_set (s_index c) (s_count c) (mk_ref (s_used c) (zlen raw) v)) ;;
    modify (fun c => c <| s_arena := arena |> <| s_index := index |>) ;;;
    (if decide (v = FromRadio_queueStatus_tag)
     then modify (fun c => c <| s_queuestatus_idx := s_count c |>) else ret tt) ;;;
    (if decide (v = FromRadio_node_info_tag /\ s_own_nodeinfo_idx c < 0)
     then modify (fun c => c <| s_own_nodeinfo_idx := s_count c |>) else ret tt) ;;;
    modify (fun c => c <| s_used := u16 (s_used c + zlen raw) |>
                       <| s_count := u16 (s_count c + 1) |>) ;;;
    ret rc_ok.

Definition cache_mark_ready : M cache unit := modify (fun c => c <| s_ready := 1 |>).

Definition cache_is_ready (c : cache) : bool := bool_decide (s_ready c <> 0).

Definition cache_frame_at (idx : Z) (c : cache) : option (option cache_frame_ref) :=
  if decide (s_count c <= idx) then Some None
  else r ← mem_get (s_index c) idx; Some (Some r).

(** [&s_arena[ref->offset]]; reading through it is [arena_read]. *)
Definition cache_frame_bytes (ref : option cache_frame_ref) : option Z := offset <$> ref.
Definition arena_read (c : cache) (ptr n : Z) : option (list Z) := mem_read (s_arena c) ptr n.

Definition cache_frame_count (c : cache) : Z := s_count c.

(** [Some None] is [return false]; else the pointer and length stored. *)
Definition cache_get_queuestatus (c : cache) : option (option (Z * Z)) :=
  if decide (s_queuestatus_idx c < 0) then Some None
  else r ← mem_get (s_index c) (s_queuestatus_idx c); Some (Some (offset r, len r)).

Definition cache_frame_in_segment (idx nonce : Z) (c : cache) : option bool :=
  if decide (s_count c <= idx) then Some false
  else
    r ← mem_get (s_index c) idx;
    if decide (variant r = FromRadio_config_complete_id_tag) then Some false
    else
      let is_nodeinfo := bool_decide (variant r = FromRadio_node_info_tag) in
      if decide (nonce = MESH_NONCE_ONLY_NODES) then Some is_nodeinfo
      else if decide (nonce = MESH_NONCE_ONLY_CONFIG) then
        Some (if is_nodeinfo && bool_decide (idx <> s_own_nodeinfo_idx c) then false else true)
      else Some true.
End Operations.

(** ** Abstract specification: a bounded log of frames *)

(** A frame as the node sent it: its variant and its bytes. *)
Abbreviation frame := (Z * list Z)%type.

Definition total_bytes (fs : list frame) : Z := foldr (fun f n => zlen f.2 + n) 0 fs.

(** Appending to the log: refused when it is full, in frames or in bytes. *)
Definition add_spec (fs : list frame) (v : Z) (raw : list Z) : rc * list frame :=
  if decide (CONFIG_CACHE_MAX_FRAMES <= zlen fs
             \/ CONFIG_CACHE_ARENA_BYTES < total_bytes fs + zlen raw)
  then (rc_err ENOMEM, fs) else (rc_ok, fs ++ [(v, raw)]).

Section Segments.
Context `{Nanopb}.

(** Every frame but the terminator, and of the node_info frames only the
    first; [seen] is whether it has passed. *)
Fixpoint only_config (seen : bool) (fs : list frame) : list frame :=
  match fs with
  | [] => []
  | f :: fs =>
      if decide (f.1 = FromRadio_config_complete_id_tag) then only_config seen fs
      else if decide (f.1 = FromRadio_node_info_tag)
      then (if seen then [] else [f]) ++ only_config true fs
      else f :: only_config seen fs
  end.

(** The part of the burst a phone that sent [nonce] is to receive. *)
Definition segment (nonce : Z) (fs : list frame) : list frame :=
  if decide (nonce = MESH_NONCE_ONLY_NODES)
  then filter (fun f => f.1 = FromRadio_node_info_tag) fs
  else if decide (nonce = MESH_NONCE_ONLY_CONFIG) then only_config false fs
  else filter (fun f => f.1 <> FromRadio_config_complete_id_tag) fs.
End Segments.

(** ** Representation *)

Definition slice (arena : list Z) (r : cache_frame_ref) : list Z :=
  take (Z.to_nat (len r)) (drop (Z.to_nat (offset r)) arena).

Definition refs (c : cache) : list cache_frame_ref := take (Z.to_nat (s_count c)) (s_index c).

(** The log a cache holds. *)
Definition frames_of (c : cache) : list frame :=
  (fun r => (variant r, slice (s_arena c) r)) <$> refs c.

(** The entries cover the arena back to back from [lo] to [hi]. *)
Fixpoint packed (rs : list cache_frame_ref) (lo hi : Z) : Prop :=
  match rs with
  | [] => lo = hi
  | r :: rs => offset r = lo /\ 0 <= len r /\ packed rs (lo + len r) hi
  end.

Section Invariant.
Context `{Nanopb}.

(** [i] is the last frame of variant [v] in the log, or -1. *)
Definition last_of (fs : list frame) (v i : Z) : Prop :=
  (i = -1 /\ forall f, f ∈ fs -> f.1 <> v)
  \/ exists fs1 f fs2, fs = fs1 ++ f :: fs2 /\ i = zlen fs1 /\ f.1 = v
                     /\ forall g, g ∈ fs2 -> g.1 <> v.
(** [i] is the first frame of variant [v] in the log, or -1. *)
Definition first_of (fs : list frame) (v i : Z) : Prop :=
  (i = -1 /\ forall f, f ∈ fs -> f.1 <> v)
  \/ exists fs1 f fs2, fs = fs1 ++ f :: fs2 /\ i = zlen fs1 /\ f.1 = v
                     /\ forall g, g ∈ fs1 -> g.1 <> v.

Record cache_wf (c : cache) : Prop := {
  wf_arena : zlen (s_arena c) = CONFIG_CACHE_ARENA_BYTES;
  wf_bytes : bytes_ok (s_arena c);
  wf_index : zlen (s_index c) = CONFIG_CACHE_MAX_FRAMES;
  wf_count : 0 <= s_count c <= CONFIG_CACHE_MAX_FRAMES;
  wf_used : 0 <= s_used c <= CONFIG_CACHE_ARENA_BYTES;
  wf_packed : packed (refs c) 0 (s_used c);
  wf_qs : last_of (frames_of c) FromRadio_queueStatus_tag (s_queuestatus_idx c);
  wf_own : first_of (frames_of c) FromRadio_node_info_tag (s_own_nodeinfo_idx c);
}.
End Invariant.

(** ** Lemmas *)

Lemma packed_app rs1 rs2 lo hi :
  packed (rs1 ++ rs2) lo hi <-> exists mid, packed rs1 lo mid /\ packed rs2 mid hi.
Proof.
  revert lo. induction rs1 as [|r rs1 IH]; intros lo; simpl.
  - split; [eauto|]. by intros (? & -> & ?).
  - rewrite IH. split.
    + intros (? & ? & mid & ? & ?). eauto.
    + intros (mid & (? & ? & ?) & ?). eauto.
Qed.

Lemma packed_le rs lo hi : packed rs lo hi -> lo <= hi.
Proof.
  revert lo. induction rs as [|r rs IH]; intros lo; simpl; [lia|].
  intros (_ & ? & ?%IH). lia.
Qed.

Lemma packed_in rs lo hi r :
  packed rs lo hi -> r ∈ rs -> lo <= offset r /\ 0 <= len r /\ offset r + len r <= hi.
Proof.
  revert lo. induction rs as [|r' rs IH]; intros lo; [set_solver|].
  intros (E & Hl & Hp) [->|Hr]%elem_of_cons.
  - apply packed_le in Hp. lia.
  - destruct (IH _ Hp Hr). lia.
Qed.

Lemma packed_total rs lo hi arena :
  packed rs lo hi -> 0 <= lo -> hi <= zlen arena ->
  total_bytes ((fun r => (variant r, slice arena r)) <$> rs) = hi - lo.
Proof.
  revert lo. induction rs as [|r rs IH]; intros lo Hp Hlo Hhi; [simpl in *; lia|].
  destruct Hp as (E & Hl & Hp). pose proof (packed_le _ _ _ Hp).
  change (zlen (slice arena r) + total_bytes ((fun r => (variant r, slice arena r)) <$> rs)
          = hi - lo).
  rewrite (IH _ Hp) by lia. unfold slice, zlen in *.
  rewrite length_take, length_drop. lia.
Qed.

(** Rewriting the arena from [hi] on leaves the packed entries alone. *)
Lemma slice_splice arena raw r lo hi rs :
  packed rs lo hi -> 0 <= lo -> r ∈ rs -> hi + zlen raw <= zlen arena ->
  slice (splice arena hi raw) r = slice arena r.
Proof.
  intros Hp Hlo Hr Hfit. destruct (packed_in _ _ _ _ Hp Hr) as (? & ? & ?).
  pose proof (splice_read_before arena hi raw (offset r) (len r)) as E.
  pose proof (zlen_nonneg raw).
  rewrite !mem_read_ok in E; rewrite ?zlen_splice; try lia.
  unfold slice. apply (inj Some). apply E; lia.
Qed.

Ltac cache_lia := unfold CONFIG_CACHE_ARENA_BYTES, CONFIG_CACHE_MAX_FRAMES in *; lia.

Section Log.
Context `{NanopbOk}.
Implicit Types c : cache.

Lemma length_refs c : cache_wf c -> length (refs c) = Z.to_nat (s_count c).
Proof.
  intros W. unfold refs. rewrite length_take.
  destruct (wf_count _ W). pose proof (wf_index _ W). unfold zlen in *. lia.
Qed.

Lemma zlen_frames c : cache_wf c -> zlen (frames_of c) = s_count c.
Proof.
  intros W. unfold zlen, frames_of. rewrite length_fmap, length_refs by done.
  destruct (wf_count _ W). lia.
Qed.

Lemma total_frames c : cache_wf c -> total_bytes (frames_of c) = s_used c.
Proof.
  intros W. unfold frames_of. rewrite (packed_total _ 0 (s_used c)); [lia| |lia|].
  - apply W.
  - rewrite (wf_arena _ W). apply W.
Qed.

Lemma refs_lookup c idx r :
  cache_wf c -> refs c !! Z.to_nat idx = Some r -> 0 <= idx ->
  idx < s_count c /\ mem_get (s_index c) idx = Some r.
Proof.
  intros W Hr Hi. pose proof (lookup_lt_Some _ _ _ Hr) as Hl.
  rewrite length_refs in Hl by done. split; [lia|].
  unfold refs in Hr. rewrite lookup_take_Some in Hr. unfold mem_get.
  rewrite decide_True by done. apply Hr.
Qed.

(** Reading the entry of a stored frame. *)
Lemma index_get c idx :
  cache_wf c -> 0 <= idx < s_count c ->
  exists r, mem_get (s_index c) idx = Some r /\ refs c !! Z.to_nat idx = Some r
    /\ frames_of c !! Z.to_nat idx = Some (variant r, slice (s_arena c) r)
    /\ 0 <= offset r /\ 0 <= len r /\ offset r + len r <= s_used c.
Proof.
  intros W Hi. destruct (mem_get_Some (s_index c) idx) as (r & E & El).
  { rewrite (wf_index _ W). pose proof (wf_count _ W). lia. }
  assert (refs c !! Z.to_nat idx = Some r) as Er.
  { unfold refs. rewrite lookup_take_Some. split; [done|lia]. }
  exists r. split; [done|]. split; [done|]. split.
  - unfold frames_of. by rewrite list_lookup_fmap, Er.
  - pose proof (packed_in _ _ _ r (wf_packed _ W)) as Hp.
    destruct Hp; [by eapply list_elem_of_lookup_2|]. done.
Qed.

(** Resolving an entry to its bytes. *)
Lemma arena_slice c r :
  cache_wf c -> 0 <= offset r -> 0 <= len r -> offset r + len r <= s_used c ->
  arena_read c (offset r) (len r) = Some (slice (s_arena c) r).
Proof.
  intros W ???. unfold arena_read. pose proof (wf_used _ W). pose proof (wf_arena _ W).
  by rewrite mem_read_ok by lia.
Qed.

Lemma bytes_ok_slice c r : cache_wf c -> bytes_ok (slice (s_arena c) r).
Proof. intros W. apply Forall_take, Forall_drop, W. Qed.

Lemma bytes_ok_frames c f : cache_wf c -> f ∈ frames_of c -> bytes_ok f.2.
Proof.
  intros W (r & -> & _)%list_elem_of_fmap. by apply bytes_ok_slice.
Qed.

Lemma last_of_snoc fs v i f :
  last_of fs v i -> last_of (fs ++ [f]) v (if decide (f.1 = v) then zlen fs else i).
Proof.
  intros Hl. case_decide as Hv.
  - right. exists fs, f, []. split; [done|]. split; [done|]. split; [done|set_solver].
  - destruct Hl as [[-> Hn]|(fs1 & g & fs2 & -> & -> & Hg & Hn)].
    + left. split; [done|]. intros g. rewrite elem_of_app, list_elem_of_singleton.
      intros [?| ->]; auto.
    + right. exists fs1, g, (fs2 ++ [f]). rewrite <- app_assoc. split_and!; try done.
      intros h. rewrite elem_of_app, list_elem_of_singleton. intros [?| ->]; auto.
Qed.

Lemma first_of_snoc fs v i f :
  first_of fs v i ->
  first_of (fs ++ [f]) v (if decide (f.1 = v /\ i < 0) then zlen fs else i).
Proof.
  intros [[-> Hn]|(fs1 & g & fs2 & -> & -> & Hg & Hn)].
  - case_decide as Hv.
    + right. exists fs, f, []. split_and!; [done|done|apply Hv|done].
    + left. split; [done|]. intros g. rewrite elem_of_app, list_elem_of_singleton.
      intros [?| ->]; [auto|]. intros ?. apply Hv. split; [done|lia].
  - rewrite decide_False by (pose proof (zlen_nonneg fs1); lia).
    right. exists fs1, g, (fs2 ++ [f]). by rewrite <- app_assoc.
Qed.

Lemma cache_init_wf : cache_wf cache_init.
Proof.
  split; try by_eval.
  - left. split; [done|]. vm_compute. set_solver.
  - left. split; [done|]. vm_compute. set_solver.
Qed.

Lemma cache_begin_eq c :
  cache_begin c = Some (tt, mk_cache (s_arena c) (s_index c) 0 0 0 (-1) (-1), []).
Proof. done. Qed.

Lemma cache_begin_wf c :
  cache_wf c -> cache_wf (mk_cache (s_arena c) (s_index c) 0 0 0 (-1) (-1)).
Proof.
  intros W. split; simpl; try apply W; try by_eval; try (vm_compute; done).
  - left. split; [done|]. unfold frames_of. simpl. set_solver.
  - left. split; [done|]. unfold frames_of. simpl. set_solver.
Qed.

(** The state after a frame was accepted. *)
Definition cache_push (c : cache) (v : Z) (raw : list Z) : cache :=
  mk_cache (splice (s_arena c) (s_used c) raw)
    (<[Z.to_nat (s_count c) := mk_ref (s_used c) (zlen raw) v]> (s_index c))
    (s_used c + zlen raw) (s_count c + 1) (s_ready c)
    (if decide (v = FromRadio_queueStatus_tag) then s_count c else s_queuestatus_idx c)
    (if decide (v = FromRadio_node_info_tag /\ s_own_nodeinfo_idx c < 0)
     then s_count c else s_own_nodeinfo_idx c).

Definition fits_cache (c : cache) (raw : list Z) : Prop :=
  s_count c < CONFIG_CACHE_MAX_FRAMES /\ s_used c + zlen raw <= CONFIG_CACHE_ARENA_BYTES.

Lemma cache_add_ok c raw v :
  cache_wf c -> zlen raw < 65536 -> fits_cache c raw ->
  cache_add_frame raw v c = Some (rc_ok, cache_push c v raw, []).
Proof.
  intros W Hraw [Hc Hu]. pose proof (wf_used _ W). pose proof (wf_count _ W).
  pose proof (zlen_nonneg raw).
  unfold cache_add_frame, bind at 1, gets, id.
  rewrite decide_False, decide_False by (rewrite ?u32_id; cache_lia).
  unfold bind at 1. unfold oget at 1.
  rewrite mem_write_ok by (rewrite ?(wf_arena _ W); cache_lia). simpl.
  unfold bind at 1. unfold oget at 1.
  rewrite mem_set_ok by (rewrite ?(wf_index _ W); cache_lia). simpl.
  unfold cache_push, bind, modify, ret. simpl.
  repeat case_decide; simpl; rewrite !u16_id by cache_lia; done.
Qed.

Lemma cache_add_full c raw v :
  cache_wf c -> zlen raw < 65536 -> ~ fits_cache c raw ->
  cache_add_frame raw v c = Some (rc_err ENOMEM, c, []).
Proof.
  intros W Hraw Hn. pose proof (wf_used _ W). pose proof (zlen_nonneg raw).
  unfold cache_add_frame, bind at 1, gets, id. case_decide; [done|].
  rewrite decide_True; [done|]. rewrite u32_id by cache_lia. unfold fits_cache in Hn. cache_lia.
Qed.

Lemma refs_push c v raw :
  cache_wf c -> s_count c < CONFIG_CACHE_MAX_FRAMES ->
  refs (cache_push c v raw) = refs c ++ [mk_ref (s_used c) (zlen raw) v].
Proof.
  intros W Hc. pose proof (wf_count _ W). pose proof (wf_index _ W).
  unfold refs. simpl. replace (Z.to_nat (s_count c + 1)) with (S (Z.to_nat (s_count c))) by lia.
  erewrite take_S_r by (apply list_lookup_insert_eq; unfold zlen in *; lia).
  by rewrite take_insert_ge by lia.
Qed.

Lemma slice_push c v raw :
  cache_wf c -> fits_cache c raw ->
  slice (s_arena (cache_push c v raw)) (mk_ref (s_used c) (zlen raw) v) = raw.
Proof.
  intros W [_ Hu]. pose proof (wf_arena _ W). pose proof (wf_used _ W).
  pose proof (splice_read_same (s_arena c) (s_used c) raw ltac:(lia) ltac:(lia)) as E.
  rewrite mem_read_ok in E; rewrite ?zlen_splice; try lia; [|apply zlen_nonneg].
  unfold slice. simpl. congruence.
Qed.

Lemma frames_push c v raw :
  cache_wf c -> fits_cache c raw ->
  frames_of (cache_push c v raw) = frames_of c ++ [(v, raw)].
Proof.
  intros W Hf. pose proof (wf_arena _ W). unfold frames_of.
  rewrite refs_push by (try done; apply Hf). rewrite fmap_app. f_equal.
  - apply list_fmap_ext. intros i r Hi%list_elem_of_lookup_2. f_equal. simpl.
    destruct Hf as [_ Hu].
    apply (slice_splice _ _ _ 0 _ (refs c)); [apply W|done|done|lia].
  - simpl. f_equal. f_equal. by apply slice_push.
Qed.

Lemma cache_push_wf c v raw :
  cache_wf c -> bytes_ok raw -> fits_cache c raw -> cache_wf (cache_push c v raw).
Proof.
  intros W Hb Hf. pose proof (wf_used _ W). pose proof (wf_count _ W).
  pose proof (zlen_nonneg raw). pose proof Hf as [Hf1 Hf2]. pose proof (wf_arena _ W).
  split.
  - simpl. rewrite zlen_splice; lia.
  - apply bytes_ok_splice; [apply W|done].
  - simpl. rewrite zlen_insert. apply W.
  - simpl. lia.
  - simpl. lia.
  - rewrite refs_push by done. apply packed_app. exists (s_used c).
    split; [apply W|]. simpl. split_and!; lia.
  - rewrite frames_push by done. simpl s_queuestatus_idx.
    pose proof (last_of_snoc _ _ _ (v, raw) (wf_qs _ W)) as E.
    by rewrite zlen_frames in E.
  - rewrite frames_push by done. simpl s_own_nodeinfo_idx.
    pose proof (first_of_snoc _ _ _ (v, raw) (wf_own _ W)) as E.
    by rewrite zlen_frames in E.
Qed.

Lemma fits_cache_spec c raw :
  cache_wf c ->
  fits_cache c raw <-> ~ (CONFIG_CACHE_MAX_FRAMES <= zlen (frames_of c)
           \/ CONFIG_CACHE_ARENA_BYTES < total_bytes (frames_of c) + zlen raw).
Proof. intros W. rewrite zlen_frames, total_frames by done. unfold fits_cache. lia. Qed.

Lemma cache_add_log c raw v :
  cache_wf c -> bytes_ok raw -> zlen raw < 65536 ->
  exists c', cache_add_frame raw v c = Some ((add_spec (frames_of c) v raw).1, c', [])
    /\ cache_wf c' /\ frames_of c' = (add_spec (frames_of c) v raw).2
    /\ s_ready c' = s_ready c
    /\ ((add_spec (frames_of c) v raw).1 <> rc_ok -> c' = c).
Proof.
  intros W Hb Hl. unfold add_spec. case_decide as Hd.
  - exists c. split; [|done]. apply cache_add_full; [done|done|].
    rewrite fits_cache_spec by done. tauto.
  - assert (fits_cache c raw) as Hf by by rewrite fits_cache_spec.
    exists (cache_push c v raw).
    split; [by apply cache_add_ok|]. split; [by apply cache_push_wf|].
    split; [by apply frames_push|done].
Qed.
End Log.

(** ** Segments: the frames a replay serves *)

Section Replay.
Context `{NanopbOk}.
Implicit Types c : cache.

(** What [cache_frame_in_segment] answers for frame [i]. *)
Definition seg_test (nonce own : Z) (i : Z) (f : frame) : bool :=
  negb (bool_decide (f.1 = FromRadio_config_complete_id_tag))
  && (if decide (nonce = MESH_NONCE_ONLY_NODES)
      then bool_decide (f.1 = FromRadio_node_info_tag)
      else if decide (nonce = MESH_NONCE_ONLY_CONFIG)
      then negb (bool_decide (f.1 = FromRadio_node_info_tag)) || bool_decide (i = own)
      else true).

Lemma in_segment_ok c idx nonce :
  cache_wf c -> 0 <= idx ->
  cache_frame_in_segment idx nonce c
  = Some (match frames_of c !! Z.to_nat idx with
          | Some f => seg_test nonce (s_own_nodeinfo_idx c) idx f
          | None => false
          end).
Proof.
  intros W Hi. unfold cache_frame_in_segment. case_decide as Hc.
  - rewrite lookup_ge_None_2; [done|]. pose proof (zlen_frames c W). unfold zlen in *. lia.
  - destruct (index_get c idx W) as (r & -> & _ & -> & _); [lia|]. simpl.
    unfold seg_test. simpl.
    destruct (decide (variant r = FromRadio_config_complete_id_tag)) as [E|E].
    + by rewrite bool_decide_true.
    + rewrite (bool_decide_false _ E). simpl.
      case_decide; [done|]. case_decide; [|done]. f_equal.
      repeat case_bool_decide; done.
Qed.

(** Frames passing a positional test, [k] being the position of the head. *)
Fixpoint walk (q : Z -> frame -> bool) (k : Z) (fs : list frame) : list frame :=
  match fs with
  | [] => []
  | f :: fs => (if q k f then [f] else []) ++ walk q (k + 1) fs
  end.

Lemma walk_filter (P : frame -> Prop) `{!forall f, Decision (P f)} q k fs :
  (forall i f, q i f = bool_decide (P f)) -> walk q k fs = filter P fs.
Proof.
  intros E. revert k. induction fs as [|f fs IH]; intros k; [done|].
  rewrite filter_cons. simpl. rewrite E, IH. case_decide.
  - by rewrite bool_decide_true.
  - by rewrite bool_decide_false.
Qed.

Lemma only_config_seen own k fs :
  own < k ->
  walk (seg_test MESH_NONCE_ONLY_CONFIG own) k fs = only_config true fs.
Proof.
  revert k. induction fs as [|f fs IH]; intros k Hk; [done|]. simpl.
  rewrite IH by lia. unfold seg_test. simpl.
  repeat case_decide; repeat case_bool_decide; simplify_eq; try done; lia.
Qed.

Lemma only_config_walk own k fs :
  (own < 0 /\ (forall f, f ∈ fs -> f.1 <> FromRadio_node_info_tag))
  \/ first_of fs FromRadio_node_info_tag (own - k) /\ k <= own ->
  0 <= k ->
  walk (seg_test MESH_NONCE_ONLY_CONFIG own) k fs = only_config false fs.
Proof.
  revert k. induction fs as [|f fs IH]; intros k Ho Hk; [done|]. simpl.
  destruct (decide (f.1 = FromRadio_node_info_tag)) as [Hni|Hni].
  - assert (own = k) as ->.
    { destruct Ho as [[_ Hn]|[[[? Hn]|(fs1 & g & fs2 & E & E2 & ? & Hn)] ?]].
      - destruct (Hn f); [set_solver|done].
      - destruct (Hn f); [set_solver|done].
      - destruct fs1 as [|h fs1]; [unfold zlen in E2; simpl in E2; lia|].
        simplify_eq/=. destruct (Hn h); [set_solver|done]. }
    rewrite only_config_seen by lia. unfold seg_test. simpl.
    rewrite bool_decide_false by (rewrite Hni; auto). simpl.
    rewrite decide_False by (rewrite Hni; auto).
    rewrite bool_decide_true by done. by rewrite bool_decide_true.
  - rewrite IH; [|  |lia].
    + unfold seg_test. simpl. rewrite (bool_decide_false _ Hni). simpl.
      by repeat (case_decide || case_bool_decide).
    + destruct Ho as [[? Hn]|[[[? Hn]|(fs1 & g & fs2 & E & E2 & ? & Hn)] ?]].
      * left. split; [done|]. intros g Hg. apply Hn. set_solver.
      * lia.
      * right. destruct fs1 as [|h fs1]; simplify_eq/=.
        rewrite zlen_cons in E2. pose proof (zlen_nonneg fs1). split; [|lia].
        right. exists fs1, g, fs2. split_and!; [done|lia|done|].
        intros h' Hh'. apply Hn. set_solver.
Qed.

Lemma walk_in q k fs f : f ∈ walk q k fs -> f ∈ fs.
Proof.
  revert k. induction fs as [|g fs IH]; intros k; simpl; [done|].
  rewrite elem_of_app, elem_of_cons. intros [Hf|Hf]; [|right; by eapply IH].
  destruct (q k g); [apply list_elem_of_singleton in Hf; by left|by apply not_elem_of_nil in Hf].
Qed.

(** The frames a phone is served, counted off one by one, are its segment. *)
Lemma walk_segment c nonce :
  cache_wf c ->
  walk (seg_test nonce (s_own_nodeinfo_idx c)) 0 (frames_of c)
  = segment nonce (frames_of c).
Proof.
  intros W. unfold segment. repeat case_decide; subst.
  - apply walk_filter. intros i f. unfold seg_test. simpl.
    repeat case_bool_decide; try done. exfalso. by eapply tag_ni_cc; congruence.
  - apply only_config_walk; [|done]. rewrite Z.sub_0_r.
    pose proof (wf_own _ W) as [[-> Ho]|Ho].
    + left. split; [done|]. done.
    + right. split; [by right|]. destruct Ho as (fs1 & ? & ? & ? & -> & ?).
      apply zlen_nonneg.
  - apply walk_filter. intros i f. unfold seg_test.
    rewrite decide_False, decide_False by done. rewrite andb_true_r.
    repeat case_bool_decide; tauto.
Qed.

Lemma walk_nil q k fs :
  walk q k fs = [] -> forall i f, fs !! i = Some f -> q (k + Z.of_nat i) f = false.
Proof.
  revert k. induction fs as [|g fs IH]; intros k E i f Hf; [done|]. simpl in E.
  destruct (q k g) eqn:Eq; [done|]. destruct i; simplify_eq/=.
  - by rewrite Z.add_0_r.
  - rewrite <- (IH (k + 1) E i f Hf). f_equal. lia.
Qed.

Lemma walk_cons q k fs f rest :
  walk q k fs = f :: rest ->
  exists i, fs !! i = Some f /\ q (k + Z.of_nat i) f = true
    /\ (forall j g, (j < i)%nat -> fs !! j = Some g -> q (k + Z.of_nat j) g = false)
    /\ walk q (k + Z.of_nat i + 1) (drop (S i) fs) = rest.
Proof.
  revert k. induction fs as [|g fs IH]; intros k E; [done|]. simpl in E.
  destruct (q k g) eqn:Eq; simplify_eq/=.
  - exists 0%nat. rewrite Z.add_0_r. split_and!; try done; lia.
  - destruct (IH _ E) as (i & Hi & Hq & Hj & Hw). exists (S i).
    replace (k + Z.of_nat (S i)) with (k + 1 + Z.of_nat i) by lia. split_and!; try done.
    intros j h Hlt Hh. destruct j; simplify_eq/=; [by rewrite Z.add_0_r|].
    rewrite <- (Hj j h) by (done || lia). f_equal. lia.
Qed.
End Replay.

(** ** Properties *)

Section Properties.
Context `{NanopbOk}.

(** C29. [cache_add_frame] refines appending to a bounded log: from any
    well-formed cache it makes no out-of-bounds access and no call, returns
    success exactly when the log has room for the frame (128 frames, 4096
    bytes in all), appends the frame when it does, changes nothing when it
    does not, and keeps the cache well-formed. *)
Theorem cache_add_frame_refines c raw v :
  cache_wf c -> bytes_ok raw -> zlen raw < 65536 ->
  exists c', cache_add_frame raw v c = Some ((add_spec (frames_of c) v raw).1, c', [])
    /\ cache_wf c' /\ frames_of c' = (add_spec (frames_of c) v raw).2
    /\ s_ready c' = s_ready c
    /\ ((add_spec (frames_of c) v raw).1 <> rc_ok -> c' = c).
Proof.
  apply cache_add_log.
Qed.

(** The readers see the log: [cache_frame_at] is NULL exactly past the
    last frame, otherwise it gives the entry of the frame, and the bytes at
    [cache_frame_bytes] are the frame's; [cache_get_queuestatus] finds the
    last queueStatus frame, if there is one.  No read leaves the arena or
    the index. *)
Theorem cache_readers_exact c idx :
  cache_wf c -> 0 <= idx ->
  cache_frame_count c = zlen (frames_of c)
  /\ match frames_of c !! Z.to_nat idx with
     | Some f => exists r, cache_frame_at idx c = Some (Some r) /\ variant r = f.1
                 /\ exists p, cache_frame_bytes (Some r) = Some p
                 /\ arena_read c p (len r) = Some f.2
     | None => cache_frame_at idx c = Some None
     end
  /\ match cache_get_queuestatus c with
     | Some None => forall f, f ∈ frames_of c -> f.1 <> FromRadio_queueStatus_tag
     | Some (Some (p, n)) => exists fs1 f fs2,
         frames_of c = fs1 ++ f :: fs2 /\ f.1 = FromRadio_queueStatus_tag
         /\ (forall g, g ∈ fs2 -> g.1 <> FromRadio_queueStatus_tag)
         /\ arena_read c p n = Some f.2
     | None => False
     end.
Proof.
  intros W Hi. split; [by rewrite zlen_frames|]. split.
  - unfold cache_frame_at. case_decide as Hc.
    + rewrite lookup_ge_None_2; [done|]. pose proof (zlen_frames c W). unfold zlen in *. lia.
    + destruct (index_get c idx W) as (r & -> & _ & -> & ? & ? & ?); [lia|].
      exists r. split_and!; try done. eexists; split; [done|]. by apply arena_slice.
  - unfold cache_get_queuestatus.
    destruct (wf_qs _ W) as [[-> Hn]|(fs1 & f & fs2 & E & E2 & Hf & Hn)]; [exact Hn|].
    pose proof (zlen_nonneg fs1). rewrite decide_False by lia.
    pose proof (zlen_frames c W) as Hz. rewrite E, zlen_app, zlen_cons in Hz.
    pose proof (zlen_nonneg fs2).
    destruct (index_get c (s_queuestatus_idx c) W) as (r & -> & _ & Hr & ? & ? & ?); [lia|].
    simpl. exists fs1, f, fs2. split_and!; try done.
    rewrite E, E2 in Hr. unfold zlen in Hr. rewrite Nat2Z.id, list_lookup_middle in Hr by done.
    injection Hr as ->. by apply arena_slice.
Qed.

(** C30. The frames for which [cache_frame_in_segment] answers true, in burst
    order, are exactly the segment of the phone's nonce: for 69421 the
    node_info frames, for 69420 everything but the node_info frames after
    the first, for any other nonce the whole burst; the cached
    config_complete_id frames are never among them. *)
Theorem cache_segment_exact c nonce :
  cache_wf c ->
  let test i := cache_frame_in_segment i nonce c in
  (forall i, 0 <= i -> is_Some (test i))
  /\ walk (fun i _ => default false (test i)) 0 (frames_of c) = segment nonce (frames_of c)
  /\ forall f, f ∈ segment nonce (frames_of c) ->
       f ∈ frames_of c /\ f.1 <> FromRadio_config_complete_id_tag.
Proof.
  intros W test. split; [|split].
  - intros i Hi. subst test. simpl. rewrite in_segment_ok by done. eauto.
  - rewrite <- walk_segment by done.
    enough (forall fs1 fs2, frames_of c = fs1 ++ fs2 ->
              walk (fun i _ => default false (test i)) (zlen fs1) fs2
              = walk (seg_test nonce (s_own_nodeinfo_idx c)) (zlen fs1) fs2) as E
      by exact (E [] (frames_of c) eq_refl).
    intros fs1 fs2. revert fs1. induction fs2 as [|f fs2 IH]; intros fs1 E; [done|]. simpl.
    specialize (IH (fs1 ++ [f])). rewrite zlen_app, <- app_assoc in IH.
    change (zlen [f]) with 1 in IH.
    rewrite IH by done. unfold test at 1.
    rewrite in_segment_ok by (done || apply zlen_nonneg). unfold zlen at 1.
    by rewrite Nat2Z.id, E, list_lookup_middle.
  - rewrite <- walk_segment by done. intros f Hf.
    enough (forall k fs, f ∈ walk (seg_test nonce (s_own_nodeinfo_idx c)) k fs ->
              f ∈ fs /\ f.1 <> FromRadio_config_complete_id_tag) as E by eauto.
    intros k fs. revert k. induction fs as [|g fs IH]; intros k; simpl; [by intros ?%elem_of_nil|].
    rewrite elem_of_app, elem_of_cons. intros [Hg|[]%IH]; [|auto].
    destruct (seg_test _ _ _ g) eqn:Eq; [|by apply elem_of_nil in Hg].
    apply list_elem_of_singleton in Hg as ->. split; [auto|].
    unfold seg_test in Eq. case_bool_decide; [done|done].
Qed.
End Properties.

(** ** Instances at a small burst of the demo codec *)

#[local] Existing Instances demo_nanopb demo_nanopb_ok.

(** my_info, the own node_info, another node's, a queueStatus and a terminator. *)
Definition demo_burst : list frame :=
  [(3, [3; 1]); (4, [4; 1]); (4, [4; 2; 2]); (11, [11; 0; 1; 1; 0]); (7, [7; 9; 0; 0; 0])].

Definition demo_cache : cache :=
  (foldl (fun c f => cache_push c f.1 f.2) cache_init demo_burst) <| s_ready := 1 |>.

Lemma cache_wf_ready c x : cache_wf c -> cache_wf (c <| s_ready := x |>).
Proof. intros W. destruct W. by split. Qed.

Lemma demo_cache_wf : cache_wf demo_cache.
Proof.
  apply cache_wf_ready.
  repeat (apply cache_push_wf; [|by_eval|split; by_eval]). apply cache_init_wf.
Qed.

Lemma demo_frames : frames_of demo_cache = demo_burst.
Proof. vm_compute. done. Qed.

Lemma cache_add_frame_refines_witness :
  exists c', cache_add_frame [5; 5; 5] 5 demo_cache
             = Some ((add_spec (frames_of demo_cache) 5 [5; 5; 5]).1, c', [])
    /\ cache_wf c' /\ frames_of c' = (add_spec (frames_of demo_cache) 5 [5; 5; 5]).2
    /\ s_ready c' = s_ready demo_cache
    /\ ((add_spec (frames_of demo_cache) 5 [5; 5; 5]).1 <> rc_ok -> c' = demo_cache).
Proof.
  apply (cache_add_frame_refines demo_cache [5; 5; 5] 5); [apply demo_cache_wf|by_eval|by_eval].
Defined.

Lemma cache_readers_exact_witness :
  cache_frame_count demo_cache = zlen (frames_of demo_cache)
  /\ match frames_of demo_cache !! Z.to_nat 2 with
     | Some f => exists r, cache_frame_at 2 demo_cache = Some (Some r) /\ variant r = f.1
                 /\ exists p, cache_frame_bytes (Some r) = Some p
                 /\ arena_read demo_cache p (len r) = Some f.2
     | None => cache_frame_at 2 demo_cache = Some None
     end
  /\ match cache_get_queuestatus demo_cache with
     | Some None => forall f, f ∈ frames_of demo_cache -> f.1 <> FromRadio_queueStatus_tag
     | Some (Some (p, n)) => exists fs1 f fs2,
         frames_of demo_cache = fs1 ++ f :: fs2 /\ f.1 = FromRadio_queueStatus_tag
         /\ (forall g, g ∈ fs2 -> g.1 <> FromRadio_queueStatus_tag)
         /\ arena_read demo_cache p n = Some f.2
     | None => False
     end.
Proof. apply (cache_readers_exact demo_cache 2); [apply demo_cache_wf|lia]. Defined.

Lemma cache_segment_exact_witness :
  let test i := cache_frame_in_segment i MESH_NONCE_ONLY_CONFIG demo_cache in
  (forall i, 0 <= i -> is_Some (test i))
  /\ walk (fun i _ => default false (test i)) 0 (frames_of demo_cache)
     = segment MESH_NONCE_ONLY_CONFIG (frames_of demo_cache)
  /\ forall f, f ∈ segment MESH_NONCE_ONLY_CONFIG (frames_of demo_cache) ->
       f ∈ frames_of demo_cache /\ f.1 <> FromRadio_config_complete_id_tag.
Proof. apply (cache_segment_exact demo_cache MESH_NONCE_ONLY_CONFIG), demo_cache_wf. Defined.

(** The segments of the demo burst. *)
Example demo_only_nodes :
  segment MESH_NONCE_ONLY_NODES demo_burst = [(4, [4; 1]); (4, [4; 2; 2])].
Proof. reflexivity. Qed.
Example demo_only_config :
  segment MESH_NONCE_ONLY_CONFIG demo_burst = [(3, [3; 1]); (4, [4; 1]); (11, [11; 0; 1; 1; 0])].
Proof. reflexivity. Qed.
