(* ===== verification/Zephyr.v ===== *)
(** * Zephyr: interfaces to the kernel and Bluetooth services the source calls

    Ring buffer, message queue and ATT attribute reads belong to Zephyr and are
    parameters of the development.  Each class lists the operations used and
    each [...Ok] class their documented behaviour; a list-based instance of
    each serves the examples. *)

From stdpp Require Import prelude.
From S2P Require Import Prelude.

Local Open Scope Z_scope.

(** ** Ring buffer (zephyr/sys/ring_buffer.h), of [cap] bytes

    [ring_buf_put] stores as many leading bytes as there is room for;
    [ring_buf_get1] is [ring_buf_get(rb, &byte, 1)], [None] for a return of 0. *)
Class RingBuf (cap : Z) := {
  ring_buf : Type;
  ring_buf_empty : ring_buf;
  ring_buf_put : ring_buf -> list Z -> ring_buf;
  ring_buf_get1 : ring_buf -> option (Z * ring_buf);
}.

Class RingBufOk (cap : Z) `{!RingBuf cap} := {
  rb_contents : ring_buf -> list Z;
  rb_empty_ok : rb_contents ring_buf_empty = [];
  rb_put_ok rb l :
    rb_contents (ring_buf_put rb l)
    = rb_contents rb ++ take (Z.to_nat (cap - zlen (rb_contents rb))) l;
  rb_get_ok rb :
    match ring_buf_get1 rb with
    | Some (b, rb') => rb_contents rb = b :: rb_contents rb'
    | None => rb_contents rb = []
    end;
}.

(** ** Message queue ([k_msgq]) of [depth] entries, never waiting ([K_NO_WAIT])

    [None] is a nonzero return: full for put, empty for get. *)
Class MsgQ (E : Type) (depth : Z) := {
  k_msgq : Type;
  k_msgq_empty : k_msgq;
  k_msgq_put : k_msgq -> E -> option k_msgq;
  k_msgq_get : k_msgq -> option (E * k_msgq);
}.

Class MsgQOk (E : Type) (depth : Z) `{!MsgQ E depth} := {
  mq_contents : k_msgq -> list E;
  mq_empty_ok : mq_contents k_msgq_empty = [];
  mq_put_ok q e :
    match k_msgq_put q e with
    | Some q' => zlen (mq_contents q) < depth /\ mq_contents q' = mq_contents q ++ [e]
    | None => depth <= zlen (mq_contents q)
    end;
  mq_get_ok q :
    match k_msgq_get q with
    | Some (e, q') => mq_contents q = e :: mq_contents q'
    | None => mq_contents q = []
    end;
}.

(** ** ATT

    [att_res] is the [ssize_t] of a GATT callback: a [BT_GATT_ERR] or a
    result. *)
Inductive att_err :=
  | BT_ATT_ERR_UNLIKELY | BT_ATT_ERR_INVALID_OFFSET | BT_ATT_ERR_INVALID_ATTRIBUTE_LEN.
Inductive att_res (A : Type) := att_ok (a : A) | att_error (e : att_err).
Arguments att_ok {A} a.
Arguments att_error {A} e.

(** [bt_gatt_attr_read(conn, attr, buf, len, offset, value, value_len)]: the
    bytes copied to [buf]. *)
Class GattRead := {
  bt_gatt_attr_read : forall (len offset : Z) (value : list Z), att_res (list Z);
}.

Class GattReadOk `{GattRead} : Prop := {
  gatt_read_ok len offset value :
    0 <= len -> 0 <= offset ->
    bt_gatt_attr_read len offset value
    = if decide (zlen value < offset) then att_error BT_ATT_ERR_INVALID_OFFSET
      else att_ok (take (Z.to_nat len) (drop (Z.to_nat offset) value));
}.

(** ** List-based instances *)

#[local] Instance list_ring cap : RingBuf cap := {|
  ring_buf := list Z;
  ring_buf_empty := [];
  ring_buf_put rb l := rb ++ take (Z.to_nat (cap - zlen rb)) l;
  ring_buf_get1 rb := match rb with [] => None | b :: r => Some (b, r) end;
|}.
#[local] Instance list_ring_ok cap : RingBufOk cap.
Proof.
  refine {| rb_contents := (fun l => l) : ring_buf (cap := cap) -> list Z |}; try done.
  by intros [].
Defined.

#[local] Instance list_msgq E depth : MsgQ E depth := {|
  k_msgq := list E;
  k_msgq_empty := [];
  k_msgq_put q e := if decide (zlen q < depth) then Some (q ++ [e]) else None;
  k_msgq_get q := match q with [] => None | e :: r => Some (e, r) end;
|}.
#[local] Instance list_msgq_ok E depth : MsgQOk E depth.
Proof.
  refine {| mq_contents := (fun l => l) : k_msgq (E := E) (depth := depth) -> list E |};
    try done.
  - intros q e. simpl. case_decide; [done|lia].
  - by intros [].
Defined.

#[local] Instance list_gatt_read : GattRead := {|
  bt_gatt_attr_read len offset value :=
    if decide (zlen value < offset) then att_error BT_ATT_ERR_INVALID_OFFSET
    else att_ok (take (Z.to_nat len) (drop (Z.to_nat offset) value));
|}.
#[local] Instance list_gatt_read_ok : GattReadOk.
Proof. by split. Qed.
