(* ===== verification/UartMeshtastic.v ===== *)
(** * UartMeshtastic: the serial link to the node (src/src/uart_meshtastic.c)

    [uart] is the module's static variables.  Received bytes go from the ring
    buffer through the framing state machine to [fromradio_cb], which may run
    anywhere in the program [W]; outgoing payloads go through the message
    queue to [uart_tx], one at a time. *)

From stdpp Require Import prelude.
From S2P Require Import Prelude Zephyr.

Local Open Scope Z_scope.

Definition MESHTASTIC_MAX_PAYLOAD : Z := 512.
Definition MESHTASTIC_MAGIC1 : Z := 148.  (* 0x94 *)
Definition MESHTASTIC_MAGIC2 : Z := 195.  (* 0xC3 *)
Definition UART_DMA_BUF_SIZE : Z := 256.
Definition RING_BUF_SIZE : Z := 1024.
Definition UART_RX_TIMEOUT_US : Z := 2000.
Definition TX_QUEUE_DEPTH : Z := 4.
Definition UART_BITS_PER_BYTE : Z := 10.
Definition UART_BAUD : Z := 115200.
Definition UART_US_PER_BYTE : Z := (UART_BITS_PER_BYTE * 1000000) / UART_BAUD.
Definition TX_TIMEOUT_US : Z := (MESHTASTIC_MAX_PAYLOAD + 4) * UART_US_PER_BYTE * 2.
Definition LED_BLINK_PERIOD_MS : Z := 120.

(** [struct tx_entry]: of [payload] only the bytes [memcpy] initialized exist. *)
Record tx_entry := mk_tx_entry { te_payload : list Z; te_len : Z }.

Inductive rx_state :=
  | RX_WAIT_MAGIC1 | RX_WAIT_MAGIC2 | RX_WAIT_LEN_HI | RX_WAIT_LEN_LO | RX_WAIT_PAYLOAD.

#[export] Instance rx_state_eq_dec : EqDecision rx_state.
Proof. solve_decision. Defined.

(** The anonymous struct [rx_sm]. *)
Record rx_machine := mk_rx {
  rx_st : rx_state;
  expected_len : Z;
  received_len : Z;
  rx_payload : list Z;
}.
#[export] Instance eta_rx : Eta rx_machine := fun r =>
  mk_rx (rx_st r) (expected_len r) (received_len r) (rx_payload r).

(** Bytes of a frame as sent on the wire. *)
Definition frame_of (p : list Z) : list Z :=
  [MESHTASTIC_MAGIC1; MESHTASTIC_MAGIC2; Z.shiftr (zlen p) 8; Z.land (zlen p) 255] ++ p.

Section Uart.
Context `{!RingBuf RING_BUF_SIZE, !MsgQ tx_entry TX_QUEUE_DEPTH}.

Record uart := mk_uart {
  tx_msgq : k_msgq (E := tx_entry) (depth := TX_QUEUE_DEPTH);
  tx_frame_buf : list Z;
  tx_in_progress : bool;
  active_buf : Z;
  rx_ring_buf : ring_buf (cap := RING_BUF_SIZE);
  fromradio_cb_set : bool;
  uart_rx_active : Z;
  uart_tx_active : Z;
  rx_sm : rx_machine;
}.
#[export] Instance eta_uart : Eta uart := fun u =>
  mk_uart (tx_msgq u) (tx_frame_buf u) (tx_in_progress u) (active_buf u) (rx_ring_buf u)
    (fromradio_cb_set u) (uart_rx_active u) (uart_tx_active u) (rx_sm u).

(** Zeroed storage. *)
Definition uart_boot : uart :=
  mk_uart k_msgq_empty (replicate 516 0) false 0 ring_buf_empty false 0 0
    (mk_rx RX_WAIT_MAGIC1 0 0 (replicate (Z.to_nat MESHTASTIC_MAX_PAYLOAD) 0)).

(** ** LEDs *)

(** [led_blink_tick]: the new [*active] is 0. *)
Definition led_blink_tick (l : led) (active : Z) : io :=
  if decide (active <> 0) then IoGpioToggle l else IoGpioSet l 0.

Definition led_blink_work : M uart unit :=
  u <- gets id ;;
  modify (fun u => u <| uart_rx_active := 0 |>) ;;;
  emit (led_blink_tick led2 (uart_rx_active u)) ;;;
  modify (fun u => u <| uart_tx_active := 0 |>) ;;;
  emit (led_blink_tick led3 (uart_tx_active u)) ;;;
  emit (IoBlink uart_blinker LED_BLINK_PERIOD_MS).

(** ** Transmission *)

Definition uart_meshtastic_tx (payload : list Z) : M uart rc :=
  if decide (MESHTASTIC_MAX_PAYLOAD < zlen payload) then ret (rc_err EMSGSIZE)
  else
    u <- gets id ;;
    match k_msgq_put (tx_msgq u) (mk_tx_entry payload (zlen payload)) with
    | None => ret (rc_err ENOMEM)
    | Some q =>
        modify (fun u => u <| tx_msgq := q |>) ;;;
        emit IoSubmitTx ;;;
        ret rc_ok
    end.

(** [tx_err] is what [uart_tx] returns if it is called. *)
Definition tx_work_handler (tx_err : rc) : M uart unit :=
  u <- gets id ;;
  if tx_in_progress u then ret tt
  else
    match k_msgq_get (tx_msgq u) with
    | None => ret tt
    | Some (entry, q) =>
        modify (fun u => u <| tx_msgq := q |>) ;;;
        b0 <- oget (mem_set (tx_frame_buf u) 0 MESHTASTIC_MAGIC1) ;;
        b1 <- oget (mem_set b0 1 MESHTASTIC_MAGIC2) ;;
        b2 <- oget (mem_set b1 2 (u8 (Z.shiftr (te_len entry) 8))) ;;
        b3 <- oget (mem_set b2 3 (u8 (Z.land (te_len entry) 255))) ;;
        p <- oget (mem_read (te_payload entry) 0 (te_len entry)) ;;
        b4 <- oget (mem_write b3 4 p) ;;
        modify (fun u => u <| tx_frame_buf := b4 |> <| tx_in_progress := true |>) ;;;
        f <- oget (mem_read b4 0 (te_len entry + 4)) ;;
        emit (IoUartTx f TX_TIMEOUT_US) ;;;
        (if decide (tx_err <> rc_ok) then
           modify (fun u => u <| tx_in_progress := false |>) ;;;
           emit IoSubmitTx
         else ret tt)
    end.

(** ** Driver events *)

Inductive uart_event :=
  | UART_RX_RDY (data : list Z)
  | UART_RX_BUF_REQUEST
  | UART_RX_BUF_RELEASED
  | UART_RX_STOPPED
  | UART_RX_DISABLED
  | UART_TX_DONE
  | UART_TX_ABORTED.

Definition uart_cb (evt : uart_event) : M uart unit :=
  match evt with
  | UART_RX_RDY data =>
      modify (fun u => u <| rx_ring_buf := ring_buf_put (rx_ring_buf u) data |>) ;;;
      modify (fun u => u <| uart_rx_active := 1 |>) ;;;
      emit IoSubmitRx
  | UART_RX_BUF_REQUEST =>
      modify (fun u => u <| active_buf := Z.lxor (active_buf u) 1 |>) ;;;
      u <- gets id ;;
      emit (IoUartRxBufRsp (active_buf u) UART_DMA_BUF_SIZE)
  | UART_RX_BUF_RELEASED => ret tt
  | UART_RX_STOPPED => ret tt
  | UART_RX_DISABLED =>
      modify (fun u => u <| active_buf := 0 |>) ;;;
      emit (IoUartRxEnable 0 UART_DMA_BUF_SIZE UART_RX_TIMEOUT_US)
  | UART_TX_DONE =>
      modify (fun u => u <| tx_in_progress := false |>) ;;;
      modify (fun u => u <| uart_tx_active := 1 |>) ;;;
      emit IoSubmitTx
  | UART_TX_ABORTED =>
      modify (fun u => u <| tx_in_progress := false |>) ;;;
      emit IoSubmitTx
  end.

(** ** Initialization

    What the devices answer: LEDs ready, UART ready, the results of
    [uart_callback_set] and [uart_rx_enable]. *)
Record uart_init_env := {
  ui_leds_ready : bool;
  ui_device_ready : bool;
  ui_callback_set : rc;
  ui_rx_enable : rc;
}.

Definition uart_meshtastic_init (env : uart_init_env) : M uart rc :=
  modify (fun u => u <| fromradio_cb_set := true |>) ;;;
  modify (fun u => u <| rx_sm := (rx_sm u) <| rx_st := RX_WAIT_MAGIC1 |> |>) ;;;
  modify (fun u => u <| tx_in_progress := false |>) ;;;
  (if ui_leds_ready env then
     emit (IoGpioConfigure led2) ;;;
     emit (IoGpioConfigure led3) ;;;
     emit (IoBlink uart_blinker LED_BLINK_PERIOD_MS)
   else ret tt) ;;;
  if negb (ui_device_ready env) then ret (rc_err ENODEV)
  else
    emit IoUartCallbackSet ;;;
    if decide (ui_callback_set env <> rc_ok) then ret (ui_callback_set env)
    else
      modify (fun u => u <| active_buf := 0 |>) ;;;
      emit (IoUartRxEnable 0 UART_DMA_BUF_SIZE UART_RX_TIMEOUT_US) ;;;
      if decide (ui_rx_enable env <> rc_ok) then ret (ui_rx_enable env)
      else ret rc_ok.

(** ** Reception *)

Section Rx.
Context {W : Type} `{!Lens W uart}.
(** The function registered by [uart_meshtastic_init]. *)
Context (fromradio_cb : list Z -> M W unit).

Definition put_rx (sm : rx_machine) : M W unit := zoom (modify (fun u => u <| rx_sm := sm |>)).

Definition rx_process_byte (byte : Z) : M W unit :=
  u <- zoom (gets id) ;;
  let sm := rx_sm u in
  match rx_st sm with
  | RX_WAIT_MAGIC1 =>
      if decide (byte = MESHTASTIC_MAGIC1)
      then put_rx (sm <| rx_st := RX_WAIT_MAGIC2 |>) else ret tt
  | RX_WAIT_MAGIC2 =>
      if decide (byte = MESHTASTIC_MAGIC2)
      then put_rx (sm <| rx_st := RX_WAIT_LEN_HI |>)
      else put_rx (sm <| rx_st := if decide (byte = MESHTASTIC_MAGIC1)
                                  then RX_WAIT_MAGIC2 else RX_WAIT_MAGIC1 |>)
  | RX_WAIT_LEN_HI =>
      put_rx (sm <| expected_len := u16 (Z.shiftl byte 8) |> <| rx_st := RX_WAIT_LEN_LO |>)
  | RX_WAIT_LEN_LO =>
      let el := Z.lor (expected_len sm) byte in
      if decide (el = 0 \/ MESHTASTIC_MAX_PAYLOAD < el)
      then put_rx (sm <| expected_len := el |> <| rx_st := RX_WAIT_MAGIC1 |>)
      else put_rx (sm <| expected_len := el |> <| received_len := 0 |>
                      <| rx_st := RX_WAIT_PAYLOAD |>)
  | RX_WAIT_PAYLOAD =>
      p <- oget (mem_set (rx_payload sm) (received_len sm) byte) ;;
      let n := u16 (received_len sm + 1) in
      put_rx (sm <| rx_payload := p |> <| received_len := n |>) ;;;
      if decide (n = expected_len sm) then
        (if fromradio_cb_set u
         then d <- oget (mem_read p 0 n) ;; fromradio_cb d
         else ret tt) ;;;
        zoom (modify (fun u => u <| rx_sm := (rx_sm u) <| rx_st := RX_WAIT_MAGIC1 |> |>))
      else ret tt
  end.

(** [while (ring_buf_get(...) == 1) rx_process_byte(byte);] *)
Fixpoint rx_loop (fuel : nat) : M W unit :=
  match fuel with
  | O => oget None
  | S fuel =>
      u <- zoom (gets id) ;;
      match ring_buf_get1 (rx_ring_buf u) with
      | None => ret tt
      | Some (byte, rb) =>
          zoom (modify (fun u => u <| rx_ring_buf := rb |>)) ;;;
          rx_process_byte byte ;;;
          rx_loop fuel
      end
  end.

(** The fuel is the number of bytes the ring buffer can hold, plus one. *)
Definition rx_work_handler : M W unit := rx_loop (S (Z.to_nat RING_BUF_SIZE)).
End Rx.
End Uart.

(** ** Reference definition of the framing

    The payloads of the complete frames of a byte stream: scan for the two
    magic bytes, read the big-endian length, skip frames of a bad length. *)

Definition bad_len (n : Z) : bool := bool_decide (n = 0 \/ MESHTASTIC_MAX_PAYLOAD < n).

Fixpoint deframe_n (fuel : nat) (bs : list Z) : list (list Z) :=
  match fuel, bs with
  | S fuel, b :: r =>
      if decide (b = MESHTASTIC_MAGIC1) then
        match r with
        | [] => []
        | b2 :: r2 =>
            if decide (b2 = MESHTASTIC_MAGIC2) then
              match r2 with
              | hi :: lo :: r3 =>
                  let n := 256 * hi + lo in
                  if bad_len n then deframe_n fuel r3
                  else if decide (zlen r3 < n) then []
                  else take (Z.to_nat n) r3 :: deframe_n fuel (drop (Z.to_nat n) r3)
              | _ => []
              end
            else deframe_n fuel r
        end
      else deframe_n fuel r
  | _, _ => []
  end.
(** Each step consumes a byte, so the length of the stream is fuel enough. *)
Definition deframe (bs : list Z) : list (list Z) := deframe_n (length bs) bs.

Lemma deframe_fuel n m bs :
  (length bs <= n)%nat -> (length bs <= m)%nat -> deframe_n n bs = deframe_n m bs.
Proof.
  revert m bs. induction n as [|n IH]; intros m bs Hn Hm.
  { destruct bs; [|simpl in Hn; lia]. by destruct m. }
  destruct bs as [|b r]; [by destruct m|]. destruct m as [|m]; [simpl in Hm; lia|].
  simpl in *. case_decide; [|apply IH; lia].
  destruct r as [|b2 r2]; [done|]. case_decide; [|apply IH; simpl in *; lia].
  destruct r2 as [|hi [|lo r3]]; try done. simpl in *.
  case_match; [apply IH; lia|]. case_decide; [done|]. f_equal.
  apply IH; rewrite length_drop; lia.
Qed.

Lemma deframe_n_S n b r :
  deframe_n (S n) (b :: r)
  = if decide (b = MESHTASTIC_MAGIC1) then
      match r with
      | [] => []
      | b2 :: r2 =>
          if decide (b2 = MESHTASTIC_MAGIC2) then
            match r2 with
            | hi :: lo :: r3 =>
                if bad_len (256 * hi + lo) then deframe_n n r3
                else if decide (zlen r3 < 256 * hi + lo) then []
                else take (Z.to_nat (256 * hi + lo)) r3
                     :: deframe_n n (drop (Z.to_nat (256 * hi + lo)) r3)
            | _ => []
            end
          else deframe_n n r
      end
    else deframe_n n r.
Proof. done. Qed.

Lemma deframe_header hi lo r :
  deframe (MESHTASTIC_MAGIC1 :: MESHTASTIC_MAGIC2 :: hi :: lo :: r)
  = if bad_len (256 * hi + lo) then deframe r
    else if decide (zlen r < 256 * hi + lo) then []
    else take (Z.to_nat (256 * hi + lo)) r :: deframe (drop (Z.to_nat (256 * hi + lo)) r).
Proof.
  unfold deframe at 1. simpl length. rewrite deframe_n_S, !(decide_True (P := _ = _)) by done.
  case_match; [apply deframe_fuel; lia|]. case_decide; [done|]. f_equal.
  apply deframe_fuel; rewrite ?length_drop; lia.
Qed.

(** The equations of [deframe]. *)
Lemma deframe_skip b r : b <> MESHTASTIC_MAGIC1 -> deframe (b :: r) = deframe r.
Proof. intros. unfold deframe. simpl. by rewrite decide_False. Qed.

Lemma deframe_resync b2 r :
  b2 <> MESHTASTIC_MAGIC2 -> deframe (MESHTASTIC_MAGIC1 :: b2 :: r) = deframe (b2 :: r).
Proof. intros. unfold deframe. simpl length. rewrite deframe_n_S, decide_True by done. by rewrite decide_False. Qed.

(** ** The state machine, as a function

    [rx_step] is [rx_process_byte] without the callback: the next machine and
    the payload delivered, if any. *)

Definition rx_step (sm : rx_machine) (b : Z) : option (rx_machine * option (list Z)) :=
  match rx_st sm with
  | RX_WAIT_MAGIC1 =>
      Some (if decide (b = MESHTASTIC_MAGIC1) then sm <| rx_st := RX_WAIT_MAGIC2 |> else sm, None)
  | RX_WAIT_MAGIC2 =>
      Some (sm <| rx_st := if decide (b = MESHTASTIC_MAGIC2) then RX_WAIT_LEN_HI
                           else if decide (b = MESHTASTIC_MAGIC1) then RX_WAIT_MAGIC2
                           else RX_WAIT_MAGIC1 |>, None)
  | RX_WAIT_LEN_HI =>
      Some (sm <| expected_len := u16 (Z.shiftl b 8) |> <| rx_st := RX_WAIT_LEN_LO |>, None)
  | RX_WAIT_LEN_LO =>
      let el := Z.lor (expected_len sm) b in
      Some (if bad_len el then sm <| expected_len := el |> <| rx_st := RX_WAIT_MAGIC1 |>
            else sm <| expected_len := el |> <| received_len := 0 |>
                    <| rx_st := RX_WAIT_PAYLOAD |>, None)
  | RX_WAIT_PAYLOAD =>
      p ← mem_set (rx_payload sm) (received_len sm) b;
      let n := u16 (received_len sm + 1) in
      let sm' := sm <| rx_payload := p |> <| received_len := n |> in
      if decide (n = expected_len sm)
      then d ← mem_read p 0 n; Some (sm' <| rx_st := RX_WAIT_MAGIC1 |>, Some d)
      else Some (sm', None)
  end.

Fixpoint rx_run (sm : rx_machine) (bs : list Z) : option (rx_machine * list (list Z)) :=
  match bs with
  | [] => Some (sm, [])
  | b :: bs =>
      r ← rx_step sm b;
      s ← rx_run r.1 bs;
      Some (s.1, option_list r.2 ++ s.2)
  end.

(** Invariant of the machine: the payload buffer has its size; a payload in
    progress is shorter than announced and fits; the high length byte is known
    while the low one is awaited. *)
Record rx_ok (sm : rx_machine) : Prop := {
  rx_buf : zlen (rx_payload sm) = MESHTASTIC_MAX_PAYLOAD;
  rx_lo : rx_st sm = RX_WAIT_LEN_LO -> exists hi, fits 8 hi /\ expected_len sm = Z.shiftl hi 8;
  rx_pl : rx_st sm = RX_WAIT_PAYLOAD ->
    0 <= received_len sm < expected_len sm /\ expected_len sm <= MESHTASTIC_MAX_PAYLOAD;
}.

Definition rx_idle (sm : rx_machine) : Prop := rx_ok sm /\ rx_st sm = RX_WAIT_MAGIC1.

Lemma rx_ok_other sm st :
  rx_ok sm -> st <> RX_WAIT_LEN_LO -> st <> RX_WAIT_PAYLOAD -> rx_ok (sm <| rx_st := st |>).
Proof. intros [Hb _ _] ??. by split. Qed.

Lemma u16_shiftl_8 b : fits 8 b -> u16 (Z.shiftl b 8) = Z.shiftl b 8.
Proof.
  intros [??]. apply u16_id. rewrite Z.shiftl_mul_pow2 by lia.
  change (2 ^ 8) with 256 in *. lia.
Qed.

(** No byte sequence drives the machine out of its buffer. *)
Lemma rx_step_ok sm b :
  rx_ok sm -> fits 8 b -> exists sm' d, rx_step sm b = Some (sm', d) /\ rx_ok sm'.
Proof.
  intros W Hb. unfold rx_step. destruct (rx_st sm) eqn:Est.
  - eexists _, _. split; [done|]. case_decide; [by apply rx_ok_other|done].
  - eexists _, _. split; [done|]. repeat case_decide; by apply rx_ok_other.
  - eexists _, _. split; [done|]. split; simpl; [apply W| |done].
    intros _. exists b. split; [done|]. by apply u16_shiftl_8.
  - eexists _, _. split; [done|].
    destruct (rx_lo _ W Est) as (hi & Hhi & ->). rewrite lor_shiftl_8 by done.
    destruct (bad_len _) eqn:Eb; split; simpl; try done; try apply W.
    intros _. unfold bad_len in Eb. apply bool_decide_eq_false in Eb.
    destruct Hhi, Hb. lia.
  - destruct (rx_pl _ W Est) as [Hr He]. pose proof (rx_buf _ W) as Hbuf.
    unfold MESHTASTIC_MAX_PAYLOAD in *.
    rewrite mem_set_ok by lia. simpl. rewrite u16_id by lia.
    case_decide as Hn.
    + rewrite mem_read_0 by (rewrite zlen_insert; lia). simpl.
      eexists _, _. split; [done|]. split; simpl; try done. by rewrite zlen_insert.
    + eexists _, _. split; [done|]. split; simpl; [by rewrite zlen_insert| |].
      * congruence.
      * intros _. unfold MESHTASTIC_MAX_PAYLOAD. lia.
Qed.

Lemma rx_run_app sm bs1 bs2 :
  rx_run sm (bs1 ++ bs2)
  = (r ← rx_run sm bs1; s ← rx_run r.1 bs2; Some (s.1, r.2 ++ s.2)).
Proof.
  revert sm. induction bs1 as [|b bs1 IH]; intros sm; simpl.
  - by destruct (rx_run sm bs2) as [[]|].
  - destruct (rx_step sm b) as [[sm1 d]|]; [|done]. simpl. rewrite IH.
    destruct (rx_run sm1 bs1) as [[sm2 ds]|]; [|done]. simpl.
    destruct (rx_run sm2 bs2) as [[]|]; [|done]. simpl. by rewrite app_assoc.
Qed.

Lemma rx_run_ok sm bs :
  rx_ok sm -> bytes_ok bs -> exists sm' ds, rx_run sm bs = Some (sm', ds) /\ rx_ok sm'.
Proof.
  revert sm. induction bs as [|b bs IH]; intros sm W Hb; [simpl; eauto|].
  apply Forall_cons in Hb as [Hb Hbs].
  destruct (rx_step_ok sm b W Hb) as (sm1 & d & E & W1).
  destruct (IH sm1 W1 Hbs) as (sm2 & ds & E2 & W2).
  simpl. rewrite E. simpl. rewrite E2. simpl. eauto.
Qed.

(** Filling the payload buffer. *)
Lemma rx_step_payload sm b :
  rx_ok sm -> rx_st sm = RX_WAIT_PAYLOAD ->
  let k := received_len sm in
  let p := <[Z.to_nat k := b]> (rx_payload sm) in
  take (Z.to_nat (k + 1)) p = take (Z.to_nat k) (rx_payload sm) ++ [b] /\
  rx_step sm b
  = Some (sm <| rx_payload := p |> <| received_len := k + 1 |>
             <| rx_st := if decide (k + 1 = expected_len sm) then RX_WAIT_MAGIC1
                         else RX_WAIT_PAYLOAD |>,
          if decide (k + 1 = expected_len sm)
          then Some (take (Z.to_nat k) (rx_payload sm) ++ [b]) else None).
Proof.
  intros W Est k p. destruct (rx_pl _ W Est) as [Hr He]. pose proof (rx_buf _ W) as Hbuf.
  assert (take (Z.to_nat (k + 1)) p = take (Z.to_nat k) (rx_payload sm) ++ [b]) as Ht.
  { subst p k. replace (Z.to_nat (received_len sm + 1)) with (S (Z.to_nat (received_len sm)))
      by lia.
    erewrite take_S_r by (apply list_lookup_insert_eq; unfold zlen in *; lia).
    by rewrite take_insert_ge by lia. }
  split; [done|]. unfold rx_step. rewrite Est. subst k.
  unfold MESHTASTIC_MAX_PAYLOAD in *.
  rewrite mem_set_ok by lia. simpl. rewrite u16_id by lia. fold p.
  case_decide.
  - rewrite mem_read_0 by (subst p; rewrite zlen_insert; lia). simpl. by rewrite Ht.
  - f_equal. f_equal. destruct sm. simpl in *. by subst.
Qed.

Lemma rx_run_payload sm r :
  rx_ok sm -> rx_st sm = RX_WAIT_PAYLOAD -> zlen r = expected_len sm - received_len sm ->
  exists sm', rx_idle sm'
    /\ rx_run sm r = Some (sm', [take (Z.to_nat (received_len sm)) (rx_payload sm) ++ r]).
Proof.
  revert sm. induction r as [|b r IH]; intros sm W Est Hr.
  { destruct (rx_pl _ W Est). rewrite zlen_nil in Hr. lia. }
  destruct (rx_step_payload sm b W Est) as [Ht Hs]. cbv zeta in Ht, Hs.
  destruct (rx_pl _ W Est) as [Hk He]. rewrite zlen_cons in Hr.
  simpl. rewrite Hs. simpl. case_decide as Hd.
  - assert (r = []) as -> by (apply length_zero_iff_nil; unfold zlen in Hr; lia).
    eexists. split; [|done]. split; [|done]. split; simpl; try done.
    rewrite zlen_insert. apply W.
  - edestruct (IH (sm <| rx_payload := <[Z.to_nat (received_len sm):=b]> (rx_payload sm) |>
                      <| received_len := received_len sm + 1 |>
                      <| rx_st := RX_WAIT_PAYLOAD |>)) as (sm' & Hi & E).
    + split; simpl; [by rewrite zlen_insert; apply W|done|]. intros _. lia.
    + done.
    + simpl. lia.
    + exists sm'. split; [done|]. rewrite E. simpl. rewrite Ht. by rewrite <- app_assoc.
Qed.

Lemma rx_run_partial sm r :
  rx_ok sm -> rx_st sm = RX_WAIT_PAYLOAD -> zlen r < expected_len sm - received_len sm ->
  exists sm', rx_run sm r = Some (sm', []).
Proof.
  revert sm. induction r as [|b r IH]; intros sm W Est Hr; [simpl; eauto|].
  destruct (rx_step_payload sm b W Est) as [Ht Hs]. cbv zeta in Ht, Hs.
  destruct (rx_pl _ W Est) as [Hk He]. rewrite zlen_cons in Hr. pose proof (zlen_nonneg r).
  simpl. rewrite Hs. simpl. rewrite !decide_False by lia. simpl.
  edestruct (IH (sm <| rx_payload := <[Z.to_nat (received_len sm):=b]> (rx_payload sm) |>
                      <| received_len := received_len sm + 1 |>
                      <| rx_st := RX_WAIT_PAYLOAD |>)) as (sm' & E).
  - split; simpl; [by rewrite zlen_insert; apply W|done|]. intros _. lia.
  - done.
  - simpl. lia.
  - exists sm'. by rewrite E.
Qed.

Lemma rx_step_magic1 sm :
  rx_idle sm -> rx_step sm MESHTASTIC_MAGIC1 = Some (sm <| rx_st := RX_WAIT_MAGIC2 |>, None).
Proof. intros [_ Est]. unfold rx_step. by rewrite Est. Qed.
Lemma rx_step_noise sm b :
  rx_idle sm -> b <> MESHTASTIC_MAGIC1 -> rx_step sm b = Some (sm, None).
Proof. intros [_ Est] Hb. unfold rx_step. by rewrite Est, decide_False. Qed.
Lemma rx_run_cons sm b bs :
  rx_run sm (b :: bs)
  = (r ← rx_step sm b; s ← rx_run r.1 bs; Some (s.1, option_list r.2 ++ s.2)).
Proof. done. Qed.
Lemma rx_run_quiet sm b sm' bs :
  rx_step sm b = Some (sm', None) -> rx_run sm (b :: bs) = rx_run sm' bs.
Proof.
  intros E. rewrite rx_run_cons, E. simpl. by destruct (rx_run sm' bs) as [[]|].
Qed.

(** The state after a frame header. *)
Lemma rx_run_header sm hi lo r :
  rx_idle sm -> fits 8 hi -> fits 8 lo ->
  exists sm', rx_ok sm' /\ rx_st sm' = (if bad_len (256 * hi + lo) then RX_WAIT_MAGIC1
                                       else RX_WAIT_PAYLOAD)
    /\ (bad_len (256 * hi + lo) = false ->
        expected_len sm' = 256 * hi + lo /\ received_len sm' = 0)
    /\ rx_run sm (MESHTASTIC_MAGIC1 :: MESHTASTIC_MAGIC2 :: hi :: lo :: r) = rx_run sm' r.
Proof.
  intros Hsm Hhi Hlo. pose proof Hsm as [W Est].
  erewrite rx_run_quiet by by apply rx_step_magic1.
  do 3 (erewrite rx_run_quiet by done).
  cbv zeta. simpl. rewrite u16_shiftl_8, lor_shiftl_8 by done.
  eexists. split; [|split; [|split; [|done]]].
  - destruct (bad_len _) eqn:Eb; split; simpl; try done; try apply W.
    intros _. unfold bad_len in Eb. apply bool_decide_eq_false in Eb.
    destruct Hhi, Hlo. lia.
  - by destruct (bad_len _).
  - by intros ->.
Qed.

(** No second magic byte: the machine waits for the frame again. *)
Lemma rx_run_resync sm b r :
  rx_idle sm -> b <> MESHTASTIC_MAGIC2 -> rx_run sm (MESHTASTIC_MAGIC1 :: b :: r) = rx_run sm (b :: r).
Proof.
  intros Hsm Hb. erewrite rx_run_quiet by by apply rx_step_magic1.
  erewrite rx_run_quiet by done. rewrite (decide_False (P := b = _)) by done. case_decide as Hb1; subst.
  - symmetry. by erewrite rx_run_quiet by by apply rx_step_magic1.
  - symmetry. erewrite rx_run_quiet by by apply rx_step_noise.
    destruct Hsm as [_ Est]. destruct sm. simpl in Est. by subst.
Qed.

(** A payload that is all there. *)
Lemma rx_run_body sm r :
  rx_ok sm -> rx_st sm = RX_WAIT_PAYLOAD -> received_len sm = 0 -> expected_len sm <= zlen r ->
  exists sm', rx_idle sm' /\ rx_run sm r
    = '(sm2, ds) ← rx_run sm' (drop (Z.to_nat (expected_len sm)) r); Some (sm2, take (Z.to_nat (expected_len sm)) r :: ds).
Proof.
  intros W Est Hk Hl. destruct (rx_pl _ W Est) as [Hpos _].
  destruct (rx_run_payload sm (take (Z.to_nat (expected_len sm)) r) W Est) as (sm' & Hi & E).
  { rewrite zlen_take by lia. lia. }
  exists sm'. split; [done|]. rewrite <- (take_drop (Z.to_nat (expected_len sm)) r) at 1.
  rewrite rx_run_app, E, Hk. simpl. by destruct (rx_run sm' _) as [[]|].
Qed.

Lemma rx_run_deframe bs sm :
  rx_idle sm -> bytes_ok bs -> exists sm', rx_run sm bs = Some (sm', deframe bs).
Proof.
  remember (length bs) as n eqn:En. revert bs sm En.
  induction (lt_wf n) as [n _ IH]; intros bs sm -> Hsm Hb.
  destruct bs as [|b r]; [simpl; eauto|]. apply Forall_cons in Hb as [Hb Hr].
  destruct (decide (b = MESHTASTIC_MAGIC1)) as [->|Hm].
  2: { destruct (IH (length r)) with (bs := r) (sm := sm) as (sm' & E); try done; [simpl; lia|].
       exists sm'. rewrite deframe_skip by done.
       by erewrite rx_run_quiet by by apply rx_step_noise. }
  destruct r as [|b2 r2].
  { erewrite rx_run_quiet by by apply rx_step_magic1. simpl. eauto. }
  apply Forall_cons in Hr as [Hb2 Hr2].
  destruct (decide (b2 = MESHTASTIC_MAGIC2)) as [->|Hm2].
  2: { destruct (IH (length (b2 :: r2))) with (bs := b2 :: r2) (sm := sm) as (sm' & E);
         try done; [simpl; lia|by constructor|].
       exists sm'. by rewrite deframe_resync, rx_run_resync. }
  destruct r2 as [|hi [|lo r3]].
  { erewrite rx_run_quiet by by apply rx_step_magic1. simpl. eauto. }
  { erewrite rx_run_quiet by by apply rx_step_magic1. simpl. eauto. }
  apply Forall_cons in Hr2 as [Hhi Hr2]. apply Forall_cons in Hr2 as [Hlo Hr3].
  destruct (rx_run_header sm hi lo r3 Hsm Hhi Hlo) as (sm1 & W1 & Est1 & Hlen & ->).
  destruct (bad_len (256 * hi + lo)) eqn:Eb.
  { rewrite deframe_header, Eb. apply (IH (length r3)); try done. simpl. lia. }
  destruct (Hlen eq_refl) as [He Hk]. destruct (rx_pl _ W1 Est1) as [Hpos _].
  destruct (decide (zlen r3 < 256 * hi + lo)) as [Hs|Hs].
  { rewrite deframe_header, Eb, decide_True by done. apply rx_run_partial; try done. lia. }
  rewrite deframe_header, Eb, decide_False by done.
  destruct (rx_run_body sm1 r3 W1 Est1 Hk) as (sm2 & Hi2 & ->); [lia|]. rewrite He.
  destruct (IH (length (drop (Z.to_nat (256 * hi + lo)) r3)))
    with (bs := drop (Z.to_nat (256 * hi + lo)) r3) (sm := sm2) as (sm' & E); try done.
  { rewrite length_drop. simpl. lia. }
  { by apply Forall_drop. }
  exists sm'. by rewrite E.
Qed.

(** ** Running the handlers *)

(** A receiver sees driver events (bytes arriving) and runs of the work item. *)
Inductive rx_event := RxReady (data : list Z) | RxWork.

(** What reaches the state machine: the bytes that found room in the ring
    buffer, once a run of the work item took them; and the bytes left in the
    ring. *)
Fixpoint rx_stream (ring : list Z) (evs : list rx_event) : list Z * list Z :=
  match evs with
  | [] => ([], ring)
  | RxReady data :: evs =>
      rx_stream (ring ++ take (Z.to_nat (RING_BUF_SIZE - zlen ring)) data) evs
  | RxWork :: evs => let '(p, r) := rx_stream [] evs in (ring ++ p, r)
  end.

Lemma rx_stream_bytes ring evs :
  bytes_ok ring -> Forall (fun e => match e with RxReady d => bytes_ok d | _ => True end) evs ->
  bytes_ok (rx_stream ring evs).1.
Proof.
  revert ring. induction evs as [|[d|] evs IH]; intros ring Hr He; simpl; [by apply Forall_nil_2| |];
    apply Forall_cons in He as [Hd He].
  - apply IH; [|done]. apply Forall_app_2; [done|]. by apply Forall_take.
  - specialize (IH [] (Forall_nil_2 _) He). destruct (rx_stream [] evs) as [p r]. simpl in *.
    by apply Forall_app_2.
Qed.

Section Handlers.
Context `{!RingBuf RING_BUF_SIZE, !RingBufOk RING_BUF_SIZE}.
Context `{!MsgQ tx_entry TX_QUEUE_DEPTH}.
Context {W : Type} `{L : !Lens W uart}.
Context (fromradio_cb : list Z -> M W unit).
Context (Hcb : forall d, natural L (fromradio_cb d)).

Definition rx_session (evs : list rx_event) : M W unit :=
  mfor (fun e => match e with
                 | RxReady data => zoom (uart_cb (UART_RX_RDY data))
                 | RxWork => rx_work_handler fromradio_cb
                 end) evs.

Lemma rx_session_cons e evs :
  rx_session (e :: evs)
  = (match e with
     | RxReady data => zoom (uart_cb (UART_RX_RDY data))
     | RxWork => rx_work_handler fromradio_cb
     end ;;; rx_session evs).
Proof. done. Qed.

(** One byte: the machine steps; a completed payload goes to the callback. *)
Lemma rx_process_byte_eq w b sm' d w1 t :
  fromradio_cb_set (lget w) = true \/ rx_st (rx_sm (lget w)) <> RX_WAIT_PAYLOAD ->
  rx_step (rx_sm (lget w)) b = Some (sm', d) ->
  mfor fromradio_cb (option_list d) w = Some (tt, w1, t) ->
  rx_process_byte fromradio_cb b w = Some (tt, lset ((lget w) <| rx_sm := sm' |>) w1, t).
Proof.
  intros Hset Hstep Hd.
  assert (rx_st (rx_sm (lget w)) = RX_WAIT_PAYLOAD -> fromradio_cb_set (lget w) = true) as Hset'
    by by destruct Hset. clear Hset.
  assert (forall u : uart, u <| rx_sm := rx_sm u |> = u) as Hid by by intros [].
  unfold rx_step in Hstep. unfold rx_process_byte, put_rx.
  unfold bind at 1, zoom at 1, gets at 1, id. rewrite lset_lget.
  destruct (rx_st (rx_sm (lget w))) eqn:Est.
  - injection Hstep as <- <-. injection Hd as <- <-.
    case_decide; [done|]. by rewrite Hid, lset_lget.
  - injection Hstep as <- <-. injection Hd as <- <-. by case_decide.
  - injection Hstep as <- <-. by injection Hd as <- <-.
  - cbv zeta in *. injection Hstep as <- <-. injection Hd as <- <-.
    unfold bad_len. case_bool_decide; case_decide; done.
  - apply bind_Some in Hstep as (p & Hp & Hstep). cbv zeta in *. rewrite Hp.
    unfold bind, oget, zoom, modify. simpl.
    case_decide.
    + apply bind_Some in Hstep as (dd & Hdd & [= <- <-]). rewrite Hdd, (Hset' eq_refl). simpl in *.
      unfold bind in Hd. destruct (fromradio_cb dd w) as [[[[] w2] t2]|] eqn:E; [|done].
      simpl in Hd. injection Hd as <- <-.
      rewrite (natural_set _ _ _ _ _ _ _ (Hcb dd) E). simpl.
      by rewrite lget_lset, lset_lset, !app_nil_r.
    + injection Hstep as <- <-. by injection Hd as <- <-.
Qed.

(** The loop of [rx_work_handler] empties the ring. *)
Lemma rx_loop_eq fuel w sm' ds w1 t :
  fromradio_cb_set (lget w) = true ->
  (length (rb_contents (rx_ring_buf (lget w))) < fuel)%nat ->
  rx_run (rx_sm (lget w)) (rb_contents (rx_ring_buf (lget w))) = Some (sm', ds) ->
  mfor fromradio_cb ds w = Some (tt, w1, t) ->
  exists rb, rb_contents rb = []
    /\ rx_loop fromradio_cb fuel w
       = Some (tt, lset ((lget w) <| rx_ring_buf := rb |> <| rx_sm := sm' |>) w1, t).
Proof.
  revert w sm' ds w1 t. induction fuel as [|fuel IH]; intros w sm' ds w1 t Hset Hf Hrun Hcbs;
    [lia|]. simpl rx_loop.
  unfold bind at 1, zoom at 1, gets at 1, id. rewrite lset_lget.
  pose proof (rb_get_ok (rx_ring_buf (lget w))) as Hg.
  destruct (ring_buf_get1 _) as [[b rb]|].
  - rewrite Hg in Hf, Hrun. simpl in Hf, Hrun.
    apply bind_Some in Hrun as ([sm1 d] & Hs & Hrun).
    apply bind_Some in Hrun as ([sm2 ds2] & Hr & [= <- <-]). simpl in Hcbs.
    apply mfor_app_inv in Hcbs as (w2 & t2 & t3 & E2 & E3 & ->).
    set (u1 := (lget w) <| rx_ring_buf := rb |>).
    set (u2 := u1 <| rx_sm := sm1 |>).
    assert (rx_process_byte fromradio_cb b (lset u1 w) = Some (tt, lset u2 w2, t2)) as Eb.
    { erewrite (rx_process_byte_eq (lset u1 w) b sm1 d (lset u1 w2) t2).
      - by rewrite lget_lset, lset_lset.
      - left. by rewrite lget_lset.
      - by rewrite lget_lset.
      - apply natural_set; [by apply natural_mfor|done]. }
    destruct (IH (lset u2 w2) sm2 ds2 (lset u2 w1) t3) as (rb' & Hrb & E).
    { by rewrite lget_lset. }
    { rewrite lget_lset. simpl. lia. }
    { by rewrite lget_lset. }
    { apply natural_set; [by apply natural_mfor|done]. }
    exists rb'. split; [done|].
    unfold bind, zoom, modify. cbn [fst snd]. fold u1. rewrite Eb, E.
    by rewrite lget_lset, lset_lset.
  - rewrite Hg in Hrun. injection Hrun as <- <-. injection Hcbs as <- <-.
    exists (rx_ring_buf (lget w)). split; [done|]. unfold ret. repeat f_equal.
    symmetry. replace (_ <| rx_sm := _ |>) with (lget w) by by destruct (lget w).
    by rewrite lset_lget.
Qed.

(** A whole session, from any machine state. *)
Lemma rx_session_eq evs w sm' ds w1 t :
  fromradio_cb_set (lget w) = true ->
  zlen (rb_contents (rx_ring_buf (lget w))) <= RING_BUF_SIZE ->
  rx_run (rx_sm (lget w)) (rx_stream (rb_contents (rx_ring_buf (lget w))) evs).1
    = Some (sm', ds) ->
  mfor fromradio_cb ds w = Some (tt, w1, t) ->
  exists u t', rx_session evs w = Some (tt, lset u w1, t')
    /\ rx_sm u = sm'
    /\ rb_contents (rx_ring_buf u) = (rx_stream (rb_contents (rx_ring_buf (lget w))) evs).2
    /\ filter (.≠ IoSubmitRx) t' = filter (.≠ IoSubmitRx) t.
Proof.
  revert w sm' ds w1 t. induction evs as [|[data|] evs IH]; intros w sm' ds w1 t Hset Hcap Hrun Hcbs.
  - injection Hrun as <- <-. injection Hcbs as <- <-.
    exists (lget w), []. by rewrite lset_lget.
  - rewrite rx_session_cons. unfold uart_cb, bind, zoom, modify, emit. cbn [fst snd app].
    set (u1 := _ <| uart_rx_active := 1 |>).
    assert (rb_contents (rx_ring_buf u1) = rb_contents (rx_ring_buf (lget w))
      ++ take (Z.to_nat (RING_BUF_SIZE - zlen (rb_contents (rx_ring_buf (lget w))))) data) as Hr
      by apply rb_put_ok.
    destruct (IH (lset u1 w) sm' ds (lset u1 w1) t) as (u & t' & E & Hsm & Hu & Ht).
    + by rewrite lget_lset.
    + rewrite lget_lset, Hr. unfold RING_BUF_SIZE, zlen in *.
      rewrite length_app, length_take. lia.
    + by rewrite lget_lset, Hr.
    + apply natural_set; [by apply natural_mfor|done].
    + exists u, (IoSubmitRx :: t'). rewrite E, lset_lset. split_and!; try done.
      by rewrite Hu, lget_lset, Hr.
  - simpl in Hrun. destruct (rx_stream [] evs) as [p r] eqn:Es. simpl in Hrun.
    rewrite rx_run_app in Hrun.
    apply bind_Some in Hrun as ([sm1 d1] & Hr1 & Hrun).
    apply bind_Some in Hrun as ([sm2 d2] & Hr2 & [= <- <-]). simpl in Hcbs, Hr2.
    apply mfor_app_inv in Hcbs as (w2 & t2 & t3 & E2 & E3 & ->).
    edestruct (rx_loop_eq (S (Z.to_nat RING_BUF_SIZE)) w) as (rb & Hrb & E); try done.
    { unfold zlen in *. lia. }
    set (u1 := _ <| rx_sm := sm1 |>) in E.
    destruct (IH (lset u1 w2) sm2 d2 (lset u1 w1) t3) as (u & t' & E' & Hsm & Hu & Ht).
    + by rewrite lget_lset.
    + rewrite lget_lset. simpl. rewrite Hrb. done.
    + rewrite lget_lset. simpl. by rewrite Hrb, Es.
    + apply natural_set; [by apply natural_mfor|done].
    + exists u, (t2 ++ t'). rewrite rx_session_cons. unfold bind, rx_work_handler. rewrite E, E', lset_lset. split_and!; try done.
      * rewrite Hu, lget_lset. simpl. by rewrite Hrb, Es.
      * by rewrite !filter_app, Ht.
Qed.

(** C27: from an idle receiver, whatever bytes arrive and however they are
    split into driver events and work items, every payload [deframe] finds in
    the accepted stream is handed to the callback, once and in order, and
    nothing else is; bytes not yet processed stay in the ring. *)
Theorem rx_session_deframes evs w w1 t :
  fromradio_cb_set (lget w) = true ->
  rx_idle (rx_sm (lget w)) ->
  rb_contents (rx_ring_buf (lget w)) = [] ->
  Forall (fun e => match e with RxReady d => bytes_ok d | RxWork => True end) evs ->
  mfor fromradio_cb (deframe (rx_stream [] evs).1) w = Some (tt, w1, t) ->
  exists u t', rx_session evs w = Some (tt, lset u w1, t')
    /\ rb_contents (rx_ring_buf u) = (rx_stream [] evs).2
    /\ filter (.≠ IoSubmitRx) t' = filter (.≠ IoSubmitRx) t.
Proof.
  intros Hset Hi Hr Hb Hcbs.
  destruct (rx_run_deframe (rx_stream [] evs).1 (rx_sm (lget w))) as (sm' & Hrun); [done| |].
  { by apply rx_stream_bytes; [apply Forall_nil_2|]. }
  edestruct (rx_session_eq evs w) as (u & t' & E & _ & Hu & Ht); rewrite ?Hr; eauto.
  { done. }
  exists u, t'. by rewrite Hu, Hr.
Qed.
End Handlers.

(** ** Framing round trip *)

Lemma frame_fields n :
  0 <= n <= MESHTASTIC_MAX_PAYLOAD ->
  u8 (Z.shiftr n 8) = Z.shiftr n 8 /\ u8 (Z.land n 255) = Z.land n 255
  /\ 256 * Z.shiftr n 8 + Z.land n 255 = n.
Proof.
  unfold MESHTASTIC_MAX_PAYLOAD. intros Hn.
  destruct (bytes_of_u16 n) as (? & ? & ?); [unfold fits; lia|].
  split_and!; by apply wrap_id || done.
Qed.

Lemma deframe_frame p r :
  0 < zlen p <= MESHTASTIC_MAX_PAYLOAD -> deframe (frame_of p ++ r) = p :: deframe r.
Proof.
  intros Hp. destruct (frame_fields (zlen p)) as (_ & _ & E); [lia|].
  unfold frame_of. rewrite <- app_assoc. simpl app at 1. rewrite deframe_header, E.
  unfold bad_len. rewrite bool_decide_eq_false_2 by lia.
  rewrite decide_False by (rewrite zlen_app; pose proof (zlen_nonneg r); lia).
  unfold zlen. rewrite Nat2Z.id, take_app_length, drop_app_length. done.
Qed.

Lemma deframe_noise n r :
  Forall (.≠ MESHTASTIC_MAGIC1) n -> deframe (n ++ r) = deframe r.
Proof. induction 1; [done|]. simpl app. by rewrite deframe_skip. Qed.

(** Framing round trip and resynchronisation: frames of 1 to 512 payload
    bytes, with any line noise free of the first magic byte before, between and
    after them, deframe to exactly their payloads. *)
Theorem deframe_frames (nps : list (list Z * list Z)) noise :
  Forall (fun np => Forall (.≠ MESHTASTIC_MAGIC1) np.1
                    /\ 0 < zlen np.2 <= MESHTASTIC_MAX_PAYLOAD) nps ->
  Forall (.≠ MESHTASTIC_MAGIC1) noise ->
  deframe (concat ((fun np => np.1 ++ frame_of np.2) <$> nps) ++ noise) = nps.*2.
Proof.
  intros Hn Hnoise. induction Hn as [|[n p] nps [Hn Hp] _ IH].
  - pose proof (deframe_noise noise [] Hnoise) as E. by rewrite app_nil_r in E.
  - rewrite !fmap_cons. cbn [concat fst snd] in *.
    rewrite <- !app_assoc, deframe_noise, deframe_frame by done. by rewrite IH.
Qed.

(** ** The transmitter as a transition system

    [tx_sys] is the module with its surroundings: whether [tx_work] is
    pending, and the frame the UART is sending ([None]: idle); and two
    histories, the payloads [uart_meshtastic_tx] accepted and the frames handed
    to [uart_tx]. *)

Section TxSystem.
Context `{!RingBuf RING_BUF_SIZE, !MsgQ tx_entry TX_QUEUE_DEPTH}.

Record tx_sys := mk_tx_sys {
  ts_uart : uart;
  ts_work : bool;
  ts_line : option (list Z);
  ts_accepted : list (list Z);
  ts_started : list (list Z);
}.

Definition submits_tx (t : list io) : bool := bool_decide (IoSubmitTx ∈ t).
Definition uart_frames (t : list io) : list (list Z) :=
  omap (fun e => match e with IoUartTx f _ => Some f | _ => None end) t.

Inductive tx_event :=
  | TxCall (payload : list Z)   (* any thread calls uart_meshtastic_tx *)
  | TxRun (tx_err : rc)         (* the kernel runs the pending work item *)
  | TxDone                      (* the driver finished the frame *)
  | TxAborted.                  (* the driver gave up on the frame *)

Definition tx_enabled (s : tx_sys) (e : tx_event) : Prop :=
  match e with
  | TxCall _ => True
  | TxRun _ => ts_work s = true
  | TxDone | TxAborted => is_Some (ts_line s)
  end.

(** [None] is undefined behaviour in the handler. *)
Definition tx_step (e : tx_event) (s : tx_sys) : option tx_sys :=
  match e with
  | TxCall p =>
      '(r, u, t) ← uart_meshtastic_tx p (ts_uart s);
      Some (mk_tx_sys u (ts_work s || submits_tx t) (ts_line s)
              (if decide (r = rc_ok) then ts_accepted s ++ [p] else ts_accepted s)
              (ts_started s))
  | TxRun err =>
      '(_, u, t) ← tx_work_handler err (ts_uart s);
      Some (mk_tx_sys u (submits_tx t)
              (if decide (err = rc_ok)
               then match last (uart_frames t) with Some f => Some f | None => ts_line s end
               else ts_line s)
              (ts_accepted s) (ts_started s ++ uart_frames t))
  | TxDone | TxAborted =>
      '(_, u, t) ← uart_cb (match e with TxDone => UART_TX_DONE | _ => UART_TX_ABORTED end)
                     (ts_uart s);
      Some (mk_tx_sys u (ts_work s || submits_tx t) None (ts_accepted s) (ts_started s))
  end.

Inductive tx_reachable : tx_sys -> Prop :=
  | tx_reach_init : tx_reachable (mk_tx_sys uart_boot false None [] [])
  | tx_reach_step s e s' :
      tx_reachable s -> tx_enabled s e -> tx_step e s = Some s' -> tx_reachable s'.

(** A sequence of events the surroundings cause without a new call. *)
Inductive tx_quiet_path : tx_sys -> list tx_event -> tx_sys -> Prop :=
  | tx_path_nil s : tx_quiet_path s [] s
  | tx_path_cons s e s' evs s'' :
      (forall p, e <> TxCall p) -> tx_enabled s e -> tx_step e s = Some s' ->
      tx_quiet_path s' evs s'' -> tx_quiet_path s (e :: evs) s''.
End TxSystem.

Lemma frame_buffer (buf p : list Z) :
  zlen buf = 516 -> zlen p <= MESHTASTIC_MAX_PAYLOAD ->
  exists b0 b1 b2 b3 b4,
    mem_set buf 0 MESHTASTIC_MAGIC1 = Some b0 /\ mem_set b0 1 MESHTASTIC_MAGIC2 = Some b1
    /\ mem_set b1 2 (u8 (Z.shiftr (zlen p) 8)) = Some b2
    /\ mem_set b2 3 (u8 (Z.land (zlen p) 255)) = Some b3
    /\ mem_write b3 4 p = Some b4 /\ zlen b4 = 516
    /\ mem_read b4 0 (zlen p + 4) = Some (frame_of p).
Proof.
  intros Hb Hp. pose proof (zlen_nonneg p).
  destruct (frame_fields (zlen p)) as (-> & -> & _); [lia|].
  destruct buf as [|x0 [|x1 [|x2 [|x3 r]]]]; try (by zlia).
  unfold MESHTASTIC_MAX_PAYLOAD in *. rewrite !zlen_cons in Hb.
  do 5 eexists. do 4 (split; [apply mem_set_ok; rewrite ?zlen_insert, !zlen_cons; lia|]).
  simpl. split; [apply mem_write_ok; rewrite ?zlen_cons; lia|].
  rewrite zlen_splice by (rewrite ?zlen_cons; lia).
  split; [rewrite !zlen_cons; lia|].
  rewrite mem_read_0 by (rewrite zlen_splice, !zlen_cons; rewrite ?zlen_cons; lia).
  unfold splice, frame_of. change (Z.to_nat 4) with 4%nat. f_equal.
  replace (Z.to_nat (zlen p + 4)) with (4 + length p)%nat by (unfold zlen; lia).
  simpl. by rewrite take_app_length.
Qed.

Section TxProofs.
Context `{!RingBuf RING_BUF_SIZE, !MsgQ tx_entry TX_QUEUE_DEPTH}.
Context `{!MsgQOk tx_entry TX_QUEUE_DEPTH}.

Definition entry_ok (e : tx_entry) : Prop :=
  te_len e = zlen (te_payload e) /\ te_len e <= MESHTASTIC_MAX_PAYLOAD.

Record uart_tx_ok (u : uart) : Prop := {
  to_buf : zlen (tx_frame_buf u) = 516;
  to_queue : Forall entry_ok (mq_contents (tx_msgq u));
  to_depth : zlen (mq_contents (tx_msgq u)) <= TX_QUEUE_DEPTH;
}.

Lemma uart_boot_tx_ok : uart_tx_ok uart_boot.
Proof. split; simpl; rewrite ?mq_empty_ok; [done|apply Forall_nil_2|done]. Qed.

(** Queueing a payload: refused if too long or if four are waiting. *)
Lemma uart_meshtastic_tx_eq p u :
  uart_tx_ok u ->
  if decide (MESHTASTIC_MAX_PAYLOAD < zlen p)
  then uart_meshtastic_tx p u = Some (rc_err EMSGSIZE, u, [])
  else if decide (TX_QUEUE_DEPTH <= zlen (mq_contents (tx_msgq u)))
  then uart_meshtastic_tx p u = Some (rc_err ENOMEM, u, [])
  else exists q, mq_contents q = mq_contents (tx_msgq u) ++ [mk_tx_entry p (zlen p)]
    /\ uart_tx_ok (u <| tx_msgq := q |>)
    /\ uart_meshtastic_tx p u = Some (rc_ok, u <| tx_msgq := q |>, [IoSubmitTx]).
Proof.
  intros [Hb Hq Hd]. unfold uart_meshtastic_tx. case_decide; [done|].
  unfold bind, gets, id. pose proof (mq_put_ok (tx_msgq u) (mk_tx_entry p (zlen p))) as Hput.
  destruct (k_msgq_put _ _) as [q|]; simpl.
  - destruct Hput as [Hlt Hc]. rewrite decide_False by lia. exists q. split_and!; try done.
    split; simpl; rewrite ?Hc; [done| |].
    + apply Forall_app_2; [done|]. repeat constructor; simpl. lia.
    + rewrite zlen_app, zlen_cons, zlen_nil. unfold TX_QUEUE_DEPTH in *. lia.
  - by rewrite decide_True.
Qed.

(** A run of the work item. *)
Lemma tx_work_handler_eq err u :
  uart_tx_ok u ->
  if tx_in_progress u then tx_work_handler err u = Some (tt, u, [])
  else match mq_contents (tx_msgq u) with
    | [] => tx_work_handler err u = Some (tt, u, [])
    | e :: es => exists u',
        tx_work_handler err u
        = Some (tt, u', IoUartTx (frame_of (te_payload e)) TX_TIMEOUT_US
                        :: (if decide (err = rc_ok) then [] else [IoSubmitTx]))
        /\ uart_tx_ok u' /\ mq_contents (tx_msgq u') = es
        /\ tx_in_progress u' = bool_decide (err = rc_ok)
        /\ rx_sm u' = rx_sm u /\ rx_ring_buf u' = rx_ring_buf u
        /\ fromradio_cb_set u' = fromradio_cb_set u
    end.
Proof.
  intros [Hb Hq Hd]. unfold tx_work_handler. rewrite !run_gets. unfold id.
  destruct (tx_in_progress u) eqn:Ep; [done|].
  pose proof (mq_get_ok (tx_msgq u)) as Hg.
  destruct (k_msgq_get _) as [[e q]|]; [|by rewrite Hg].
  rewrite Hg in Hq, Hd |- *. apply Forall_cons in Hq as [[He Hl] Hq].
  destruct (frame_buffer (tx_frame_buf u) (te_payload e))
    as (b0 & b1 & b2 & b3 & b4 & E0 & E1 & E2 & E3 & E4 & Hb4 & Ef); [done|lia|].
  pose proof (zlen_nonneg (te_payload e)).
  assert (mem_read (te_payload e) 0 (zlen (te_payload e)) = Some (te_payload e)) as Ep'.
  { rewrite mem_read_0 by lia. unfold zlen. by rewrite Nat2Z.id, firstn_all. }
  rewrite !run_modify, He.
  rewrite E0, run_oget, E1, run_oget, E2, run_oget, E3, run_oget, Ep', run_oget, E4, run_oget,
    run_modify, Ef, run_oget.
  unfold bind, emit, modify, ret.
  pose proof (zlen_cons e (mq_contents q)). unfold TX_QUEUE_DEPTH in *.
  destruct (decide (err = rc_ok)) as [->|Herr].
  - rewrite decide_False by (by intros []). eexists. split; [done|]. split_and!; try done.
    split; simpl; [done|done|]. unfold TX_QUEUE_DEPTH. lia.
  - rewrite decide_True by done. eexists. split; [done|]. split_and!; try done.
    + split; simpl; [done|done|]. unfold TX_QUEUE_DEPTH. lia.
    + symmetry. by apply bool_decide_eq_false.
Qed.

(** A run of the work item takes at most the first entry, and leaves the
    receiver alone. *)
Lemma tx_work_handler_frame err u :
  uart_tx_ok u ->
  exists u' t, tx_work_handler err u = Some (tt, u', t) /\ uart_tx_ok u'
    /\ (mq_contents (tx_msgq u') = mq_contents (tx_msgq u)
        \/ exists e, mq_contents (tx_msgq u) = e :: mq_contents (tx_msgq u'))
    /\ rx_sm u' = rx_sm u /\ rx_ring_buf u' = rx_ring_buf u
    /\ fromradio_cb_set u' = fromradio_cb_set u.
Proof.
  intros Hu. pose proof (tx_work_handler_eq err u Hu) as E.
  destruct (tx_in_progress u); [exists u, []; split_and!; auto|].
  destruct (mq_contents (tx_msgq u)) as [|e es] eqn:Hq; [exists u, []; split_and!; auto|].
  destruct E as (u' & E & Hu' & Hq' & _ & Hrx). eexists u', _. split; [exact E|].
  split; [done|]. split; [right; exists e; by rewrite Hq'|done].
Qed.

(** Invariant of the transmitter. *)
Record tx_inv (s : tx_sys) : Prop := {
  ti_ok : uart_tx_ok (ts_uart s);
  ti_fifo : frame_of <$> ts_accepted s
            = ts_started s
              ++ ((fun e => frame_of (te_payload e)) <$> mq_contents (tx_msgq (ts_uart s)));
  ti_line : tx_in_progress (ts_uart s) = bool_decide (is_Some (ts_line s));
  ti_line_frame : forall f, ts_line s = Some f -> last (ts_started s) = Some f;
  ti_wake : mq_contents (tx_msgq (ts_uart s)) <> [] ->
            ts_work s = true \/ is_Some (ts_line s);
}.

Lemma tx_inv_step s e :
  tx_inv s -> tx_enabled s e -> exists s', tx_step e s = Some s' /\ tx_inv s'.
Proof.
  intros [Hok Hf Hl Hlf Hw] He. destruct e as [p|err| |]; simpl in *.
  - pose proof (uart_meshtastic_tx_eq p (ts_uart s) Hok) as E.
    case_decide; [|case_decide]; [rewrite E; simpl; eexists; split; [done|]; split; simpl;
      rewrite ?orb_false_r; done ..|].
    destruct E as (q & Hq & Hok' & ->). simpl. eexists. split; [done|]. split; simpl; try done.
    + rewrite Hq, !fmap_app, Hf. by rewrite app_assoc.
    + intros _. left. by rewrite orb_true_r.
  - pose proof (tx_work_handler_eq err (ts_uart s) Hok) as E.
    destruct (tx_in_progress (ts_uart s)) eqn:Ep.
    { rewrite E. simpl. eexists. split; [done|]. split; simpl; try done.
      - by rewrite app_nil_r.
      - rewrite Ep, Hl. by destruct (decide (err = rc_ok)).
      - rewrite app_nil_r. by destruct (decide (err = rc_ok)).
      - intros _. right. symmetry in Hl. apply bool_decide_eq_true in Hl. by case_decide. }
    destruct (mq_contents (tx_msgq (ts_uart s))) as [|e es] eqn:Eq.
    { rewrite E. simpl. eexists. split; [done|]. split; simpl; try done.
      - simpl in Hf. by rewrite Eq, Hf, !app_nil_r.
      - rewrite Ep, Hl. by destruct (decide (err = rc_ok)).
      - rewrite app_nil_r. by destruct (decide (err = rc_ok)). }
    destruct E as (u' & -> & Hok' & Hes & Hp' & _). simpl. eexists. split; [done|].
    symmetry in Hl. apply bool_decide_eq_false in Hl.
    assert (ts_line s = None) as Hn by (by apply eq_None_not_Some).
    split; simpl; try done.
    + rewrite Hf, Hes. case_decide; simpl; by rewrite <- app_assoc.
    + rewrite Hp'. case_decide; subst; simpl; by rewrite ?Hn.
    + case_decide; simpl; [|by rewrite Hn]. intros f [= <-]. by rewrite last_snoc.
    + intros _. case_decide; simpl; [by right|by left].
  - eexists. split; [done|]. split; simpl; try done; [by destruct Hok|].
    intros _. left. by rewrite orb_true_r.
  - eexists. split; [done|]. split; simpl; try done; [by destruct Hok|].
    intros _. left. by rewrite orb_true_r.
Qed.

Lemma tx_inv_reachable s : tx_reachable s -> tx_inv s.
Proof.
  induction 1 as [|s e s' _ IH He Hs].
  - split; simpl; rewrite ?mq_empty_ok; try done. apply uart_boot_tx_ok.
  - destruct (tx_inv_step s e IH He) as (? & E & ?). congruence.
Qed.

(** Work left to do: every event but a call strictly lowers it. *)
Definition tx_measure (s : tx_sys) : Z :=
  3 * zlen (mq_contents (tx_msgq (ts_uart s)))
  + (if decide (is_Some (ts_line s)) then 2 else 0) + (if ts_work s then 1 else 0).

Lemma tx_measure_step s e s' :
  tx_inv s -> (forall p, e <> TxCall p) -> tx_enabled s e -> tx_step e s = Some s' ->
  tx_measure s' < tx_measure s /\ ts_accepted s' = ts_accepted s.
Proof.
  intros [Hok Hf Hl Hlf Hw] Hc He. unfold tx_measure. destruct e as [p|err| |]; simpl in *.
  - by destruct (Hc p).
  - rewrite He. pose proof (tx_work_handler_eq err (ts_uart s) Hok) as E.
    destruct (tx_in_progress (ts_uart s)) eqn:Ep.
    { rewrite E. simpl. intros [= <-]. simpl. split; [|done].
      destruct (decide (err = rc_ok)); lia. }
    destruct (mq_contents (tx_msgq (ts_uart s))) as [|e es] eqn:Eq.
    { rewrite E. simpl. intros [= <-]. simpl. rewrite Eq. split; [|done].
      destruct (decide (err = rc_ok)); lia. }
    destruct E as (u' & -> & Hok' & Hes & Hp' & _). simpl. intros [= <-]. simpl.
    rewrite Hes, zlen_cons. split; [|done].
    destruct (decide (err = rc_ok)); simpl; repeat case_decide; simpl; lia.
  - intros [= <-]. simpl. rewrite (decide_True (P := is_Some _)) by done.
    split; [|done]. rewrite orb_true_r.
    destruct (ts_work s); lia.
  - intros [= <-]. simpl. rewrite (decide_True (P := is_Some _)) by done.
    split; [|done]. rewrite orb_true_r.
    destruct (ts_work s); lia.
Qed.

Lemma tx_quiet_path_ok s evs s' :
  tx_quiet_path s evs s' -> tx_inv s ->
  tx_inv s' /\ zlen evs + tx_measure s' <= tx_measure s /\ ts_accepted s' = ts_accepted s.
Proof.
  induction 1 as [s|s e s1 evs s' Hc He Hs _ IH]; intros Hi.
  - rewrite zlen_nil. split_and!; [done|lia|done].
  - destruct (tx_inv_step s e Hi He) as (s1' & E & Hi1).
    rewrite Hs in E. injection E as <-.
    destruct (tx_measure_step s e s1 Hi Hc He Hs) as [Hm Ha].
    destruct (IH Hi1) as (? & ? & Ha'). rewrite zlen_cons, Ha', Ha. split_and!; [done|lia|done].
Qed.

(** C28: whatever calls, work item runs, driver errors, completions and
    aborts occur and in whatever order, no handler has undefined behaviour;
    the frames handed to the UART followed by those waiting are the frames of
    the accepted payloads, each once, in the order of acceptance; at most
    four wait; [tx_in_progress] says exactly whether the UART is sending, so
    no frame is started over another; and a waiting payload is never
    forgotten: the work item is pending or the UART is busy. *)
Theorem tx_fifo s :
  tx_reachable s ->
  frame_of <$> ts_accepted s
    = ts_started s
      ++ ((fun e => frame_of (te_payload e)) <$> mq_contents (tx_msgq (ts_uart s)))
  /\ zlen (mq_contents (tx_msgq (ts_uart s))) <= TX_QUEUE_DEPTH
  /\ (tx_in_progress (ts_uart s) = true <-> is_Some (ts_line s))
  /\ (forall f, ts_line s = Some f -> last (ts_started s) = Some f)
  /\ (mq_contents (tx_msgq (ts_uart s)) <> [] -> ts_work s = true \/ is_Some (ts_line s))
  /\ (forall e, tx_enabled s e -> is_Some (tx_step e s)).
Proof.
  intros Hr%tx_inv_reachable. destruct (Hr) as [[] Hf Hl Hlf Hw]. split_and!; try done.
  - rewrite Hl. apply bool_decide_eq_true.
  - intros e He. destruct (tx_inv_step s e Hr He) as (s' & -> & _). eauto.
Qed.

(** C34: the transmitter drains: without new calls, at most [3 * 4 + 3]
    further events occur, however work items, driver errors, completions and
    aborts interleave; and once none can occur, every accepted payload has
    been handed to the UART. *)
Theorem tx_drains s evs s' :
  tx_reachable s -> tx_quiet_path s evs s' ->
  zlen evs <= 3 * TX_QUEUE_DEPTH + 3
  /\ ((forall e, tx_enabled s' e -> exists p, e = TxCall p) ->
      frame_of <$> ts_accepted s = ts_started s').
Proof.
  intros Hr%tx_inv_reachable Hp. destruct (tx_quiet_path_ok s evs s' Hp Hr) as (Hi' & Hm & Ha).
  pose proof (to_depth _ (ti_ok _ Hr)). split.
  - unfold tx_measure in Hm. pose proof (zlen_nonneg (mq_contents (tx_msgq (ts_uart s')))).
    repeat case_decide; destruct (ts_work s), (ts_work s'); lia.
  - intros Hq. destruct Hi' as [_ Hf _ _ Hw].
    destruct (mq_contents (tx_msgq (ts_uart s'))) as [|e es]; [by rewrite <- Ha, Hf, app_nil_r|].
    destruct Hw as [Hw|Hw]; [done| |].
    + by destruct (Hq (TxRun rc_ok) Hw).
    + by destruct (Hq TxDone Hw).
Qed.
End TxProofs.

(** ** The properties at concrete inputs *)

Section Examples.
#[local] Existing Instances list_ring list_ring_ok.
#[local] Existing Instances list_msgq list_msgq_ok.

(** A program with one more variable: the payloads seen by the callback. *)
#[local] Instance demo_uart_lens : Lens (uart * list (list Z)) uart.
Proof.
  refine {| lget w := w.1; lset u w := (u, w.2) |}; by intros; try destruct w.
Defined.
Definition demo_log (d : list Z) : M (uart * list (list Z)) unit :=
  modify (fun w => (w.1, w.2 ++ [d])).
Definition demo_world : uart * list (list Z) := (uart_boot <| fromradio_cb_set := true |>, []).

Lemma demo_log_natural d : natural demo_uart_lens (demo_log d).
Proof. by intros u w. Qed.

(** Noise, a frame split over two events, a bad length, a frame. *)
Definition demo_events : list rx_event :=
  [RxReady [0; 148; 148; 195; 0]; RxWork; RxReady [2; 7; 8; 148; 195; 2; 1];
   RxReady (frame_of [9]); RxWork; RxReady [1]].

Lemma rx_session_deframes_witness :
  exists u t', rx_session demo_log demo_events demo_world
    = Some (tt, (u, [[7; 8]; [9]]), t')
    /\ rb_contents (rx_ring_buf u) = [1].
Proof.
  destruct (rx_session_deframes demo_log demo_log_natural demo_events demo_world
              (demo_world.1, [[7; 8]; [9]]) []) as (u & t' & E & Hr & _).
  - reflexivity.
  - split; [split; by_eval|by_eval].
  - reflexivity.
  - repeat (apply Forall_cons_2; [simpl; by_eval|]). apply Forall_nil_2.
  - vm_compute. reflexivity.
  - exists u, t'. split; [exact E|exact Hr].
Defined.

Lemma deframe_frames_witness :
  deframe (concat ((fun np => np.1 ++ frame_of np.2) <$> [([], [1]); ([0; 195], [2; 3])]) ++ [9])
  = [[1]; [2; 3]].
Proof.
  apply (deframe_frames [([], [1]); ([0; 195], [2; 3])] [9]).
  - repeat constructor; by_eval.
  - repeat constructor; by_eval.
Defined.

(** Two payloads accepted; the first being sent, the second waiting. *)
Definition demo_tx : option tx_sys :=
  s ← tx_step (TxCall [1; 2]) (mk_tx_sys uart_boot false None [] []);
  s ← tx_step (TxCall [3]) s;
  tx_step (TxRun rc_ok) s.
Definition demo_tx_state : tx_sys :=
  mk_tx_sys (uart_boot <| tx_msgq := [mk_tx_entry [3] 1] |>
               <| tx_frame_buf := frame_of [1; 2] ++ replicate 510 0 |>
               <| tx_in_progress := true |>) false (Some (frame_of [1; 2]))
    [[1; 2]; [3]] [frame_of [1; 2]].

Lemma demo_tx_reachable : tx_reachable demo_tx_state.
Proof.
  assert (demo_tx = Some demo_tx_state) as E by (vm_compute; reflexivity).
  unfold demo_tx in E. apply bind_Some in E as (s1 & E1 & E).
  apply bind_Some in E as (s2 & E2 & E3).
  refine (tx_reach_step s2 (TxRun rc_ok) _ _ _ E3).
  - refine (tx_reach_step s1 (TxCall [3]) _ _ I E2).
    exact (tx_reach_step _ (TxCall [1; 2]) _ tx_reach_init I E1).
  - vm_compute in E1. injection E1 as <-. vm_compute in E2. by injection E2 as <-.
Qed.

Lemma tx_fifo_witness :
  [frame_of [1; 2]; frame_of [3]] = ts_started demo_tx_state ++ [frame_of [3]].
Proof. exact (proj1 (tx_fifo demo_tx_state demo_tx_reachable)). Defined.

Definition demo_tx_end : tx_sys :=
  mk_tx_sys (uart_boot <| tx_frame_buf := frame_of [3] ++ [2] ++ replicate 510 0 |>
               <| uart_tx_active := 1 |>) false None
    [[1; 2]; [3]] [frame_of [1; 2]; frame_of [3]].

Lemma demo_tx_path :
  tx_quiet_path demo_tx_state [TxDone; TxRun rc_ok; TxDone; TxRun rc_ok] demo_tx_end.
Proof.
  eapply tx_path_cons; [done|vm_compute; eauto|vm_compute; reflexivity|].
  eapply tx_path_cons; [done|vm_compute; eauto|vm_compute; reflexivity|].
  eapply tx_path_cons; [done|vm_compute; eauto|vm_compute; reflexivity|].
  eapply tx_path_cons; [done|vm_compute; eauto|vm_compute; reflexivity|].
  apply tx_path_nil.
Qed.

Lemma tx_drains_witness :
  [frame_of [1; 2]; frame_of [3]] = ts_started demo_tx_end.
Proof.
  apply (proj2 (tx_drains demo_tx_state _ demo_tx_end demo_tx_reachable demo_tx_path)).
  intros [p|err| |]; simpl; [eauto|done|by intros []|by intros []].
Defined.
End Examples.
