(* ===== verification/ProtoHandler.v ===== *)
(** * ProtoHandler: decoding and encoding of protobuf messages
    (src/src/proto_handler.c)

    A decoder yields its return code and the struct it filled; a pointer to the
    decoded payload bytes is the array it points to ([[]] is NULL).  The static
    [s_fromradio] and [s_toradio] are cleared before each use, so they carry
    nothing from one call to the next but that array. *)

From stdpp Require Import prelude.
From S2P Require Import Prelude Nanopb.

Local Open Scope Z_scope.

(** [struct fromradio_info] *)
Record fromradio_info := mk_fromradio_info {
  which_variant : Z;
  packet_from : Z;
  packet_to : Z;
  is_decoded : bool;
  portnum : Z;
  payload_bytes : list Z;
  payload_len : Z;
}.
#[export] Instance eta_fromradio_info : Eta fromradio_info := fun i =>
  mk_fromradio_info (which_variant i) (packet_from i) (packet_to i) (is_decoded i)
    (portnum i) (payload_bytes i) (payload_len i).

(** [struct toradio_info] *)
Record toradio_info := mk_toradio_info {
  has_want_config : bool;
  want_config_id : Z;
  has_heartbeat : bool;
  is_packet : bool;
  ti_portnum : Z;
  ti_payload_bytes : list Z;
  ti_payload_len : Z;
}.
#[export] Instance eta_toradio_info : Eta toradio_info := fun i =>
  mk_toradio_info (has_want_config i) (want_config_id i) (has_heartbeat i) (is_packet i)
    (ti_portnum i) (ti_payload_bytes i) (ti_payload_len i).

(** [memset(out, 0, sizeof *out)] *)
Definition fromradio_info_zero : fromradio_info := mk_fromradio_info 0 0 0 false 0 [] 0.
Definition toradio_info_zero : toradio_info := mk_toradio_info false 0 false false 0 [] 0.

Section Operations.
Context `{Nanopb}.

Definition proto_decode_fromradio (buf : list Z) : rc * fromradio_info :=
  let out := fromradio_info_zero in
  match pb_decode_FromRadio buf with
  | None => (rc_err EINVAL, out)
  | Some fr =>
      let out := out <| which_variant := fr_which fr |> in
      if decide (fr_which fr <> FromRadio_packet_tag) then (rc_ok, out)
      else
        let p := fr_packet fr in
        let out := out <| packet_from := mp_from p |> <| packet_to := mp_to p |> in
        if decide (mp_which p <> MeshPacket_decoded_tag)
        then (rc_ok, out <| is_decoded := false |>)
        else
          (rc_ok, out <| is_decoded := true |>
                      <| portnum := d_portnum (mp_decoded p) |>
                      <| payload_bytes := d_payload_bytes (mp_decoded p) |>
                      <| payload_len := u16 (d_payload_size (mp_decoded p)) |>)
  end.

Definition proto_decode_toradio (buf : list Z) : rc * toradio_info :=
  let out := toradio_info_zero in
  match pb_decode_ToRadio buf with
  | None => (rc_err EINVAL, out)
  | Some tr =>
      let v := tr_which tr in
      if decide (v = ToRadio_want_config_id_tag) then
        (rc_ok, out <| has_want_config := true |> <| want_config_id := tr_want_config_id tr |>)
      else if decide (v = ToRadio_heartbeat_tag) then
        (rc_ok, out <| has_heartbeat := true |>)
      else
        let p := tr_packet tr in
        if decide (v = ToRadio_packet_tag /\ mp_which p = MeshPacket_decoded_tag) then
          (rc_ok, out <| is_packet := true |>
                      <| ti_portnum := d_portnum (mp_decoded p) |>
                      <| ti_payload_bytes := d_payload_bytes (mp_decoded p) |>
                      <| ti_payload_len := u16 (d_payload_size (mp_decoded p)) |>)
        else (rc_ok, out)
  end.

(** The end the three encoders share: [r] is what [pb_encode] did on a stream
    over [out_buf]; the results are the return code, [out_buf] and
    [*out_len]. *)
Definition encode_result (r : bool * list Z) (out_buf : list Z) (buf_size out_len : Z)
    : option (rc * list Z * Z) :=
  let bytes_written := zlen r.2 in
  out_buf' ← mem_write out_buf 0 r.2;
  Some (if negb r.1 then
          if decide (buf_size <= bytes_written)
          then (rc_err ENOMEM, out_buf', out_len)
          else (rc_err EINVAL, out_buf', out_len)
        else (rc_ok, out_buf', u16 bytes_written)).

Definition proto_encode_config_complete (nonce : Z) (out_buf : list Z) (buf_size out_len : Z)
    : option (rc * list Z * Z) :=
  let fr := from_radio_init_zero <| fr_which := FromRadio_config_complete_id_tag |>
                                 <| fr_config_complete_id := nonce |> in
  encode_result (pb_encode_FromRadio fr buf_size) out_buf buf_size out_len.

Definition proto_encode_heartbeat (nonce : Z) (out_buf : list Z) (buf_size out_len : Z)
    : option (rc * list Z * Z) :=
  let tr := to_radio_init_zero <| tr_which := ToRadio_heartbeat_tag |>
                               <| tr_heartbeat_nonce := nonce |> in
  encode_result (pb_encode_ToRadio tr buf_size) out_buf buf_size out_len.

Definition proto_encode_queue_status (out_buf : list Z) (buf_size out_len : Z)
    : option (rc * list Z * Z) :=
  let fr := from_radio_init_zero <| fr_which := FromRadio_queueStatus_tag |>
                                 <| fr_queueStatus := mk_queue_status 0 16 16 0 |> in
  encode_result (pb_encode_FromRadio fr buf_size) out_buf buf_size out_len.
End Operations.

(** ** Lemmas *)

Section Lemmas.
Context `{NanopbOk}.

(** What is left of the buffer and of [*out_len] by an encoder that makes the
    writes [ws], of which [k] fit. *)
Lemma encode_result_eq enc ws size out_buf n out_len :
  encodes enc ws size -> zlen out_buf = n -> n < 65536 ->
  exists k, fitting ws n k
    /\ encode_result (enc n) out_buf n out_len
       = Some (if decide (k = length ws) then rc_ok
               else if decide (zlen (mjoin (take k ws)) = n) then rc_err ENOMEM else rc_err EINVAL,
               mjoin (take k ws) ++ drop (length (mjoin (take k ws))) out_buf,
               if decide (k = length ws) then zlen (mjoin ws) else out_len).
Proof.
  intros (Henc & _) Hz Hn. pose proof (zlen_nonneg out_buf).
  destruct (pb_write_all_fitting ws n ltac:(lia)) as (k & Hk & E). exists k. split; [done|].
  destruct Hk as (Hk & Hf & _). rewrite Henc, E by lia. unfold encode_result. simpl.
  pose proof (zlen_nonneg (mjoin (take k ws))). rewrite mem_write_ok by lia. simpl. rewrite splice_0.
  case_decide as Hkl; [rewrite bool_decide_eq_true_2 by done|rewrite bool_decide_eq_false_2 by done]; simpl.
  - rewrite u16_id by lia. by rewrite Hkl, firstn_all.
  - case_decide; [rewrite decide_True by lia|rewrite decide_False by lia]; done.
Qed.

(** What the decoders leave in [*out]. *)
Lemma decode_fromradio_payload buf i :
  proto_decode_fromradio buf = (rc_ok, i) ->
  bytes_ok (payload_bytes i) /\ 0 <= payload_len i <= zlen (payload_bytes i)
  /\ payload_len i < 65536.
Proof.
  unfold proto_decode_fromradio. destruct (pb_decode_FromRadio buf) as [fr|] eqn:E; [|done].
  case_decide; [intros [= <-]; split; [apply Forall_nil_2|done]|].
  case_decide; [intros [= <-]; split; [apply Forall_nil_2|done]|].
  destruct (decide (mp_which (fr_packet fr) = MeshPacket_decoded_tag)) as [Hd|]; [|done].
  intros [= <-]. simpl. destruct (pb_decode_FromRadio_payload _ _ E Hd) as (? & ? & ?).
  rewrite u16_id by lia. split_and!; [done|lia..].
Qed.

Lemma decode_toradio_nonce buf i :
  proto_decode_toradio buf = (rc_ok, i) -> fits 32 (want_config_id i).
Proof.
  unfold proto_decode_toradio. destruct (pb_decode_ToRadio buf) as [tr|] eqn:E; [|done].
  apply pb_decode_ToRadio_nonce in E. pose proof (fits_0 32 ltac:(lia)).
  repeat case_decide; intros [= <-]; done.
Qed.
End Lemmas.

(** ** What a frame is, seen by the router and by the node *)

Inductive radio_frame :=
  | RfMalformed
  | RfMeta (variant : Z)                         (* not a packet *)
  | RfEncrypted                                  (* a packet that cannot be inspected *)
  | RfData (portnum : Z) (payload : list Z).     (* a decoded packet *)

Inductive phone_frame := PfMalformed | PfWantConfig (nonce : Z) | PfHeartbeat | PfOther.
#[export] Instance radio_frame_eq_dec : EqDecision radio_frame.
Proof. solve_decision. Defined.
#[export] Instance phone_frame_eq_dec : EqDecision phone_frame.
Proof. solve_decision. Defined.

(** The valid bytes of a decoded payload. *)
Definition data_payload (d : pb_data) : list Z :=
  take (Z.to_nat (d_payload_size d)) (d_payload_bytes d).

Section Classify.
Context `{Nanopb}.

Definition classify_fromradio (buf : list Z) : radio_frame :=
  match pb_decode_FromRadio buf with
  | None => RfMalformed
  | Some fr =>
      if decide (fr_which fr = FromRadio_packet_tag) then
        if decide (mp_which (fr_packet fr) = MeshPacket_decoded_tag)
        then RfData (d_portnum (mp_decoded (fr_packet fr)))
               (data_payload (mp_decoded (fr_packet fr)))
        else RfEncrypted
      else RfMeta (fr_which fr)
  end.

Definition classify_toradio (buf : list Z) : phone_frame :=
  match pb_decode_ToRadio buf with
  | None => PfMalformed
  | Some tr =>
      if decide (tr_which tr = ToRadio_want_config_id_tag) then PfWantConfig (tr_want_config_id tr)
      else if decide (tr_which tr = ToRadio_heartbeat_tag) then PfHeartbeat
      else PfOther
  end.
End Classify.

Section Properties.
Context `{NanopbOk}.

Lemma decode_fromradio_classified buf :
  match classify_fromradio buf with
  | RfMalformed => proto_decode_fromradio buf = (rc_err EINVAL, fromradio_info_zero)
  | RfMeta v => v <> FromRadio_packet_tag
      /\ proto_decode_fromradio buf = (rc_ok, fromradio_info_zero <| which_variant := v |>)
  | RfEncrypted => exists i, proto_decode_fromradio buf = (rc_ok, i)
      /\ which_variant i = FromRadio_packet_tag /\ is_decoded i = false
      /\ portnum i = 0 /\ payload_bytes i = [] /\ payload_len i = 0
  | RfData pn p => exists i, proto_decode_fromradio buf = (rc_ok, i)
      /\ which_variant i = FromRadio_packet_tag /\ is_decoded i = true /\ portnum i = pn
      /\ mem_read (payload_bytes i) 0 (payload_len i) = Some p /\ payload_len i = zlen p
      /\ bytes_ok p
  end.
Proof.
  unfold classify_fromradio, proto_decode_fromradio.
  destruct (pb_decode_FromRadio buf) as [fr|] eqn:E; [|done].
  destruct (decide (fr_which fr = FromRadio_packet_tag)) as [Hp|Hp].
  2: { rewrite (decide_True (P := _ <> _)) by done. done. }
  rewrite (decide_False (P := fr_which fr <> _)) by (by intros []).
  destruct (decide (mp_which (fr_packet fr) = MeshPacket_decoded_tag)) as [Hd|Hd].
  2: { rewrite (decide_True (P := _ <> _)) by done. eexists. split; [done|]. by rewrite Hp. }
  rewrite (decide_False (P := _ <> _)) by (by intros []).
  eexists. split; [done|]. rewrite Hp.
  destruct (pb_decode_FromRadio_payload _ _ E Hd) as (Hb & Hs & Hl).
  cbn. rewrite u16_id by lia. rewrite mem_read_0 by lia.
  split_and!; try done; unfold data_payload; [by rewrite zlen_take|by apply Forall_take].
Qed.

(** Every received frame is classified exactly, and the routing info
    filled for it carries nothing else: a decode failure or a non-packet leaves
    every other field zero, an encrypted packet exposes no payload, and the
    payload exposed for a decoded packet lies inside the decoded array. *)
Theorem proto_decode_fromradio_exact buf r i :
  proto_decode_fromradio buf = (r, i) ->
  match classify_fromradio buf with
  | RfMalformed => r = rc_err EINVAL /\ i = fromradio_info_zero
  | RfMeta v => r = rc_ok /\ v <> FromRadio_packet_tag
                /\ i = fromradio_info_zero <| which_variant := v |>
  | RfEncrypted => r = rc_ok /\ which_variant i = FromRadio_packet_tag
                   /\ is_decoded i = false /\ payload_bytes i = [] /\ payload_len i = 0
  | RfData pn p => r = rc_ok /\ which_variant i = FromRadio_packet_tag
                   /\ is_decoded i = true /\ portnum i = pn
                   /\ mem_read (payload_bytes i) 0 (payload_len i) = Some p /\ bytes_ok p
  end.
Proof.
  intros E. pose proof (decode_fromradio_classified buf) as Hc.
  destruct (classify_fromradio buf); [rewrite E in Hc; by simplify_eq| | |].
  - destruct Hc as [Hv Hc]. rewrite E in Hc. by simplify_eq.
  - destruct Hc as (i' & Hc & Hv). rewrite E in Hc. simplify_eq. by destruct_and!.
  - destruct Hc as (i' & Hc & Hv). rewrite E in Hc. simplify_eq. by destruct_and!.
Qed.

Lemma decode_toradio_classified buf :
  match classify_toradio buf with
  | PfMalformed => proto_decode_toradio buf = (rc_err EINVAL, toradio_info_zero)
  | PfWantConfig n => fits 32 n /\ proto_decode_toradio buf
      = (rc_ok, toradio_info_zero <| has_want_config := true |> <| want_config_id := n |>)
  | PfHeartbeat =>
      proto_decode_toradio buf = (rc_ok, toradio_info_zero <| has_heartbeat := true |>)
  | PfOther => exists i, proto_decode_toradio buf = (rc_ok, i)
      /\ has_want_config i = false /\ has_heartbeat i = false /\ want_config_id i = 0
      /\ if is_packet i
         then exists p, mem_read (ti_payload_bytes i) 0 (ti_payload_len i) = Some p /\ bytes_ok p
         else ti_payload_len i = 0
  end.
Proof.
  unfold classify_toradio, proto_decode_toradio.
  destruct (pb_decode_ToRadio buf) as [tr|] eqn:E; [|done].
  case_decide. { split; [|done]. by eapply pb_decode_ToRadio_nonce. }
  case_decide; [done|].
  destruct (decide (tr_which tr = ToRadio_packet_tag
                    /\ mp_which (tr_packet tr) = MeshPacket_decoded_tag)) as [[Hp Hd]|Hp].
  2: { eexists. split; [done|]. done. }
  destruct (pb_decode_ToRadio_payload _ _ E Hd) as (Hb & Hs & Hl).
  eexists. split; [done|]. cbn. split_and!; try done.
  rewrite u16_id by lia. rewrite mem_read_0 by lia.
  eexists. split; [done|]. by apply Forall_take.
Qed.

(** The payload of a packet lies inside the decoded array. *)
Lemma proto_decode_toradio_payload buf r i :
  proto_decode_toradio buf = (r, i) -> is_packet i = true ->
  exists p, mem_read (ti_payload_bytes i) 0 (ti_payload_len i) = Some p.
Proof.
  intros E Hi. pose proof (decode_toradio_classified buf) as Hc.
  destruct (classify_toradio buf).
  - rewrite E in Hc. by simplify_eq.
  - destruct Hc as [_ Hc]. rewrite E in Hc. by simplify_eq.
  - rewrite E in Hc. by simplify_eq.
  - destruct Hc as (i' & Hc & _ & _ & _ & Hp). rewrite E in Hc. simplify_eq. rewrite Hi in Hp.
    destruct Hp as (p & Hp & _). eauto.
Qed.

(** What a phone writes is classified exactly: at most one of the flags
    want_config, heartbeat and packet is set, the nonce is the one the phone
    sent, and the payload exposed for a packet lies inside the decoded array. *)
Theorem proto_decode_toradio_exact buf r i :
  proto_decode_toradio buf = (r, i) ->
  match classify_toradio buf with
  | PfMalformed => r = rc_err EINVAL /\ i = toradio_info_zero
  | PfWantConfig n => r = rc_ok /\ has_want_config i = true /\ has_heartbeat i = false
                      /\ is_packet i = false /\ want_config_id i = n /\ fits 32 n
  | PfHeartbeat => r = rc_ok /\ has_want_config i = false /\ has_heartbeat i = true
                   /\ is_packet i = false
  | PfOther => r = rc_ok /\ has_want_config i = false /\ has_heartbeat i = false
      /\ (is_packet i = true ->
          exists p, mem_read (ti_payload_bytes i) 0 (ti_payload_len i) = Some p /\ bytes_ok p)
  end.
Proof.
  intros E. pose proof (decode_toradio_classified buf) as Hc.
  destruct (classify_toradio buf).
  - rewrite E in Hc. by simplify_eq.
  - destruct Hc as [Hn Hc]. rewrite E in Hc. by simplify_eq.
  - rewrite E in Hc. by simplify_eq.
  - destruct Hc as (i' & Hc & Hw & Hh & _ & Hp). rewrite E in Hc. simplify_eq. split_and!; try done.
    intros Hi. by rewrite Hi in Hp.
Qed.

(** What an encoder of the message [m], which makes the writes [ws], does on any
    buffer: the longest run of writes that fits replaces the front of it.  If it
    is all of them, [*out_len] gets their length and they decode to the message.
    Otherwise the result is [-ENOMEM] if these writes happen to fill the buffer
    to its last byte, else [-EINVAL], and [*out_len] is left alone.  The message
    has some bytes, at most 16. *)
Definition encoder_exact {X} (decode : list Z -> option X) (m : X) (ws : list (list Z))
    (enc : list Z -> Z -> Z -> option (rc * list Z * Z)) : Prop :=
  0 < zlen (mjoin ws) <= 16 /\ bytes_ok (mjoin ws) /\ decode (mjoin ws) = Some m
  /\ forall out_buf n out_len, zlen out_buf = n -> n < 65536 ->
     exists k, fitting ws n k
       /\ let written := mjoin (take k ws) in
          let b := written ++ drop (length written) out_buf in
          enc out_buf n out_len
          = Some (if decide (k = length ws) then (rc_ok, b, zlen (mjoin ws))
                  else if decide (zlen written = n) then (rc_err ENOMEM, b, out_len)
                  else (rc_err EINVAL, b, out_len)).

Lemma encoder_exact_of {X} (decode : list Z -> option X) (m : X) (enc : Z -> bool * list Z) ws :
  encodes enc ws 16 -> decode (mjoin ws) = Some m ->
  encoder_exact decode m ws (fun out_buf n out_len => encode_result (enc n) out_buf n out_len).
Proof.
  intros He Hd. pose proof He as (_ & Hb & Hz). split; [done|]. split; [done|]. split; [done|].
  intros out_buf n out_len Hzo Hn. destruct (encode_result_eq enc ws 16 out_buf n out_len He Hzo Hn) as (k & Hk & E).
  exists k. split; [done|]. cbv zeta. rewrite E. repeat case_decide; done.
Qed.

Lemma encode_cc_exact nonce :
  fits 32 nonce ->
  encoder_exact pb_decode_FromRadio (msg_config_complete nonce) (pb_writes_FromRadio (msg_config_complete nonce))
    (proto_encode_config_complete nonce).
Proof.
  intros Hf. apply (encoder_exact_of _ _ (pb_encode_FromRadio (msg_config_complete nonce)));
    [by apply pb_encode_config_complete|by apply pb_decode_encode_config_complete].
Qed.
Lemma encode_hb_exact nonce :
  fits 32 nonce ->
  encoder_exact pb_decode_ToRadio (msg_heartbeat nonce) (pb_writes_ToRadio (msg_heartbeat nonce))
    (proto_encode_heartbeat nonce).
Proof.
  intros Hf. apply (encoder_exact_of _ _ (pb_encode_ToRadio (msg_heartbeat nonce)));
    [by apply pb_encode_heartbeat|by apply pb_decode_encode_heartbeat].
Qed.
Lemma encode_qs_exact :
  encoder_exact pb_decode_FromRadio msg_queue_status (pb_writes_FromRadio msg_queue_status)
    proto_encode_queue_status.
Proof.
  apply (encoder_exact_of _ _ (pb_encode_FromRadio msg_queue_status));
    [apply pb_encode_queue_status|apply pb_decode_encode_queue_status].
Qed.

(** C38: what the encoders of the three messages the proxy synthesizes do on a
    buffer of any size.  If the message fits it is written, [*out_len] is its
    length, and it decodes to the message; nothing behind it changes.  If it
    does not fit, the writes on the stream that still fit are in the buffer,
    [*out_len] is untouched, and the result is [-ENOMEM] only if those writes
    fill the buffer to its last byte: in every other case it is [-EINVAL],
    although proto_handler.h promises [-ENOMEM] for a buffer that is too small.
    16 bytes are always enough. *)
Theorem proto_encoders_exact nonce :
  fits 32 nonce ->
  encoder_exact pb_decode_FromRadio (msg_config_complete nonce) (pb_writes_FromRadio (msg_config_complete nonce))
    (proto_encode_config_complete nonce)
  /\ encoder_exact pb_decode_ToRadio (msg_heartbeat nonce) (pb_writes_ToRadio (msg_heartbeat nonce))
       (proto_encode_heartbeat nonce)
  /\ encoder_exact pb_decode_FromRadio msg_queue_status (pb_writes_FromRadio msg_queue_status)
       proto_encode_queue_status.
Proof. intros Hf. split_and!; auto using encode_cc_exact, encode_hb_exact, encode_qs_exact. Qed.

(** All writes fit. *)
Lemma fitting_all (ws : list (list Z)) n k : fitting ws n k -> zlen (mjoin ws) <= n -> k = length ws.
Proof.
  intros (Hk & _ & Hs) Hn. destruct (decide (k = length ws)) as [|Hne]; [done|].
  specialize (Hs ltac:(lia)). rewrite <- (mjoin_take_drop (S k) ws), zlen_app in Hn.
  pose proof (zlen_nonneg (mjoin (drop (S k) ws))). lia.
Qed.

(** The form callers with 16-byte buffers use. *)
Lemma encoder_16 {X} (decode : list Z -> option X) m ws enc out_buf out_len :
  encoder_exact decode m ws enc -> zlen out_buf = 16 -> bytes_ok out_buf ->
  exists b l, enc out_buf 16 out_len = Some (rc_ok, b, l) /\ zlen b = 16 /\ bytes_ok b
    /\ 0 < l <= 16 /\ decode (take (Z.to_nat l) b) = Some m.
Proof.
  intros (Hz & Hbs & Hd & He) Hzo Hb. destruct (He out_buf 16 out_len Hzo) as (k & Hk & E); [done|].
  cbv zeta in E. apply fitting_all in Hk as ->; [|lia]. rewrite firstn_all, decide_True in E by done.
  eexists _, _. split; [exact E|]. split.
  - unfold zlen in *. rewrite length_app, length_drop. lia.
  - split; [by apply Forall_app_2; [|apply Forall_drop]|]. split; [done|].
    unfold zlen. by rewrite Nat2Z.id, take_app_length.
Qed.
End Properties.

Section Examples.
#[local] Existing Instances demo_nanopb demo_nanopb_ok.

Lemma proto_decode_fromradio_exact_witness :
  mem_read [1; 2; 3] 0 3 = Some [1; 2; 3] /\ bytes_ok [1; 2; 3].
Proof.
  destruct (@proto_decode_fromradio_exact demo_nanopb _ [2; 9; 9; 4; 0; 1; 1; 2; 3] rc_ok
    (mk_fromradio_info 2 9 9 true 256 [1; 2; 3] 3) ltac:(vm_compute; reflexivity))
    as (_ & _ & _ & _ & Hp & Hb).
  split; [exact Hp|exact Hb].
Defined.

Lemma proto_decode_toradio_exact_witness : rc_ok = rc_ok /\ 69420 = 69420.
Proof.
  destruct (@proto_decode_toradio_exact demo_nanopb _ (3 :: le32 69420) rc_ok
    (mk_toradio_info true 69420 false false 0 [] 0) ltac:(vm_compute; reflexivity))
    as (Hr & _ & _ & _ & Hn & _).
  split; [exact Hr|exact Hn].
Defined.

(** A buffer of three bytes takes the tag of the demo codec, but not the nonce. *)
Lemma proto_encoders_exact_witness :
  proto_encode_heartbeat 7 [1; 2; 3] 3 0 = Some (rc_err EINVAL, [7; 2; 3], 0).
Proof.
  destruct (proto_encoders_exact 7 ltac:(by_eval)) as (_ & (_ & _ & _ & He) & _).
  destruct (He [1; 2; 3] 3 0 eq_refl eq_refl) as (k & (Hk & Hf & Hs) & E). cbv zeta in E. rewrite E.
  assert (k = 1%nat) as ->; [|reflexivity].
  destruct k as [|[|[|k]]]; [|done| |simpl in Hk; lia].
  - specialize (Hs ltac:(simpl; lia)). vm_compute in Hs. discriminate.
  - vm_compute in Hf. by destruct Hf.
Defined.
End Examples.
