(* ===== verification/RouteTrace.v ===== *)
(** * RouteTrace: the ROUTE lines (src/src/route_trace.h and its uses)

    prj.conf compiles the tracing in, so the router and the TORADIO handler read
    the header and the content of a proxy payload to print them.  A line is what
    the arguments of [ROUTE_TRACE] and [ROUTE_TRACE_HEXDUMP] denote; [None] would
    be a read outside the payload. *)

From stdpp Require Import prelude.
From S2P Require Import Prelude ProxyProtocol Nanopb ProtoHandler.

Local Open Scope Z_scope.

(** One line and its hexdump.  The ids are the four bytes [sys_get_be32] takes
    for the number it prints. *)
Record trace_line := mk_trace_line {
  tl_version : Z;
  tl_src : list Z;
  tl_dst : list Z;
  tl_content : list Z;
  tl_hexdump : list Z;
}.

(** [%.*s] prints up to the precision or the first NUL. *)
Fixpoint until_nul (l : list Z) : list Z :=
  match l with
  | [] => []
  | c :: l => if decide (c = 0) then [] else c :: until_nul l
  end.

(** The arguments, in order. *)
Definition route_trace (payload : list Z) (len : Z) : option trace_line :=
  v ← mem_get payload PROXY_OFF_VERSION;
  src ← mem_read payload PROXY_OFF_SRC 4;
  dst ← mem_read payload PROXY_OFF_DST 4;
  c ← mem_read payload PROXY_OFF_CONTENT (len - PROXY_HEADER_SIZE);
  dump ← mem_read payload 0 len;
  Some (mk_trace_line v src dst (until_nul c) dump).

(** "ROUTE DN", once the header was parsed. *)
Definition route_trace_dn (info : fromradio_info) : option trace_line :=
  route_trace (payload_bytes info) (payload_len info).

(** "ROUTE UP" with its guard; [Some None] prints nothing. *)
Definition route_trace_up (ti : toradio_info) : option (option trace_line) :=
  if is_packet ti && bool_decide (ti_portnum ti = PROXY_PORTNUM)
     && bool_decide (PROXY_HEADER_SIZE <= ti_payload_len ti)
  then Some <$> route_trace (ti_payload_bytes ti) (ti_payload_len ti)
  else Some None.

(** ** The reads stay inside the payload *)

Lemma route_trace_wire src dst body tl :
  id_ok src -> id_ok dst ->
  route_trace (wire src dst body ++ tl) (PROXY_HEADER_SIZE + zlen body)
  = Some (mk_trace_line PROXY_VERSION (id_bytes src) (id_bytes dst) (until_nul body)
            (wire src dst body)).
Proof.
  intros Hs Hd. pose proof (read_content src dst body tl Hs Hd) as Hc.
  pose proof (zlen_wire src dst body Hs Hd) as Hz. unfold route_trace.
  replace (PROXY_HEADER_SIZE + zlen body - PROXY_HEADER_SIZE) with (zlen body) by lia.
  rewrite Hc. rewrite <- Hz. pose proof (zlen_nonneg tl). pose proof (zlen_nonneg (wire src dst body)).
  rewrite mem_read_0 by (rewrite zlen_app; lia).
  rewrite take_app_length' by (unfold zlen; lia).
  destruct (id_ok_shape _ Hs) as (a&b&c&d&->), (id_ok_shape _ Hd) as (e&f&g&h&->). clear Hc Hz.
  pose proof (zlen_nonneg body). unfold wire. simpl.
  rewrite !mem_read_ok by off_lia. simpl.
  by rewrite take_0.
Qed.

(** A payload with room for a header is traced. *)
Lemma route_trace_total payload len :
  0 <= len <= zlen payload -> PROXY_HEADER_SIZE <= len -> is_Some (route_trace payload len).
Proof.
  intros Hl Hh. unfold route_trace.
  destruct (mem_get_Some payload 0) as (v & E & _); [off_lia|].
  unfold PROXY_OFF_VERSION. rewrite E. cbn [mbind option_bind].
  rewrite !mem_read_ok by off_lia. cbn [mbind option_bind]. eauto.
Qed.

Lemma mem_read_fits {A} (buf : list A) len p : mem_read buf 0 len = Some p -> 0 <= len <= zlen buf.
Proof. unfold mem_read. case_decide; [lia|done]. Qed.

(** A parsed header. *)
Lemma route_trace_parsed payload len p h :
  mem_read payload 0 len = Some p -> proxy_header_parse payload len = Some (Some h) ->
  is_Some (route_trace payload len).
Proof.
  intros Hl%mem_read_fits Hp. apply route_trace_total; [done|].
  unfold proxy_header_parse in Hp. case_decide; [done|lia].
Qed.

Section Up.
Context `{NanopbOk}.

(** Every write of a phone that is a packet. *)
Lemma route_trace_up_total buf r ti :
  proto_decode_toradio buf = (r, ti) -> is_Some (route_trace_up ti).
Proof.
  intros E. pose proof (proto_decode_toradio_payload buf r ti E) as Hp. unfold route_trace_up.
  destruct (is_packet ti); [|by eexists]. destruct (Hp eq_refl) as [p Hr%mem_read_fits].
  case_bool_decide; [|by eexists]. case_bool_decide; [|by eexists]. simpl.
  destruct (route_trace_total (ti_payload_bytes ti) (ti_payload_len ti)) as [l ->]; [done..|by eexists].
Qed.
End Up.
