(* ===== verification/UpstreamSession.v ===== *)
(** * UpstreamSession: the proxy's own config session with the node
    (src/src/upstream_session.c)

    [upstream] is the module's static variables.  Its operations run in the
    whole program [W], because they call the cache and the UART module; the
    function registered by [upstream_set_serve_cb] is a parameter.  The static
    decode scratch is cleared before each use and is not modelled; the log dump
    of the phase 0 counters has no effect on the state and is in Phase0Report. *)

From stdpp Require Import prelude.
From S2P Require Import Prelude Nanopb ConfigCache Zephyr UartMeshtastic ProtoHandler.

Local Open Scope Z_scope.

Inductive upstream_state :=
  | UPSTREAM_BOOT | UPSTREAM_FETCHING | UPSTREAM_CACHE_READY | UPSTREAM_LIVE.
#[export] Instance upstream_state_eq_dec : EqDecision upstream_state.
Proof. solve_decision. Defined.

Definition UPSTREAM_KEEPALIVE_MS : Z := 5 * 60 * 1000.

(** [struct phase0_stats] *)
Record phase0_stats := mk_phase0 {
  total_bytes : Z;
  my_info_bytes : Z;
  deviceuiConfig_bytes : Z;
  node_info_bytes : Z;
  node_info_count : Z;
  metadata_bytes : Z;
  channel_bytes : Z;
  channel_count : Z;
  config_bytes : Z;
  config_count : Z;
  moduleConfig_bytes : Z;
  moduleConfig_count : Z;
  fileInfo_bytes : Z;
  fileInfo_count : Z;
  queueStatus_bytes : Z;
  queueStatus_count : Z;
  p0_config_complete_id : Z;
  other_bytes : Z;
  other_count : Z;
}.
#[export] Instance eta_phase0 : Eta phase0_stats := fun p =>
  mk_phase0 (total_bytes p) (my_info_bytes p) (deviceuiConfig_bytes p) (node_info_bytes p)
    (node_info_count p) (metadata_bytes p) (channel_bytes p) (channel_count p) (config_bytes p)
    (config_count p) (moduleConfig_bytes p) (moduleConfig_count p) (fileInfo_bytes p)
    (fileInfo_count p) (queueStatus_bytes p) (queueStatus_count p) (p0_config_complete_id p)
    (other_bytes p) (other_count p).

(** [memset(&s_p0, 0, sizeof s_p0)] *)
Definition phase0_reset : phase0_stats := mk_phase0 0 0 0 0 0 0 0 0 0 0 0 0 0 0 0 0 0 0 0.

Record upstream := mk_upstream {
  s_state : upstream_state;
  s_nonce : Z;
  s_pending : list bt_conn;
  s_pending_count : Z;
  s_serve_cb : bool;            (* registered, or NULL *)
  s_keepalive_armed : bool;
  s_keepalive_nonce : Z;
  s_keepalive_pending : bool;
  s_p0 : phase0_stats;
}.
#[export] Instance eta_upstream : Eta upstream := fun u =>
  mk_upstream (s_state u) (s_nonce u) (s_pending u) (s_pending_count u) (s_serve_cb u)
    (s_keepalive_armed u) (s_keepalive_nonce u) (s_keepalive_pending u) (s_p0 u).

(** The static initializers. *)
Definition upstream_boot : upstream :=
  mk_upstream UPSTREAM_BOOT 0 (replicate (Z.to_nat CONFIG_BT_MAX_CONN) NULL) 0 false false 2
    false phase0_reset.

(** ** Operations that touch only the module *)

Section Local.
Context `{Nanopb}.

Definition phase0_account (v len : Z) (p : phase0_stats) : phase0_stats :=
  let p := p <| total_bytes := u32 (total_bytes p + len) |> in
  if decide (v = FromRadio_my_info_tag) then
    p <| my_info_bytes := u32 (my_info_bytes p + len) |>
  else if decide (v = FromRadio_deviceuiConfig_tag) then
    p <| deviceuiConfig_bytes := u32 (deviceuiConfig_bytes p + len) |>
  else if decide (v = FromRadio_node_info_tag) then
    p <| node_info_bytes := u32 (node_info_bytes p + len) |>
      <| node_info_count := u16 (node_info_count p + 1) |>
  else if decide (v = FromRadio_metadata_tag) then
    p <| metadata_bytes := u32 (metadata_bytes p + len) |>
  else if decide (v = FromRadio_channel_tag) then
    p <| channel_bytes := u32 (channel_bytes p + len) |>
      <| channel_count := u16 (channel_count p + 1) |>
  else if decide (v = FromRadio_config_tag) then
    p <| config_bytes := u32 (config_bytes p + len) |>
      <| config_count := u16 (config_count p + 1) |>
  else if decide (v = FromRadio_moduleConfig_tag) then
    p <| moduleConfig_bytes := u32 (moduleConfig_bytes p + len) |>
      <| moduleConfig_count := u16 (moduleConfig_count p + 1) |>
  else if decide (v = FromRadio_fileInfo_tag) then
    p <| fileInfo_bytes := u32 (fileInfo_bytes p + len) |>
      <| fileInfo_count := u16 (fileInfo_count p + 1) |>
  else if decide (v = FromRadio_queueStatus_tag) then
    p <| queueStatus_bytes := u32 (queueStatus_bytes p + len) |>
      <| queueStatus_count := u16 (queueStatus_count p + 1) |>
  else
    p <| other_bytes := u32 (other_bytes p + len) |>
      <| other_count := u16 (other_count p + 1) |>.

(** [None] is [return false]. *)
Definition decode_config_complete_nonce (payload : list Z) : option Z :=
  match pb_decode_FromRadio payload with
  | None => None
  | Some m =>
      if decide (fr_which m <> FromRadio_config_complete_id_tag) then None
      else Some (fr_config_complete_id m)
  end.

Definition upstream_get_state (u : upstream) : upstream_state := s_state u.

Definition upstream_set_serve_cb (cb : bool) : M upstream unit :=
  modify (fun u => u <| s_serve_cb := cb |>).

Definition upstream_keepalive_reschedule : M upstream unit :=
  u <- gets id ;;
  if negb (s_keepalive_armed u) then ret tt else emit (IoKeepalive UPSTREAM_KEEPALIVE_MS).

Definition upstream_swallow_live_queuestatus : M upstream bool :=
  u <- gets id ;;
  if s_keepalive_pending u
  then modify (fun u => u <| s_keepalive_pending := false |>) ;;; ret true
  else ret false.

(** [for (i = i0; i < n; i++) if (s_pending[i] == conn) return;]: whether it
    returned. *)
Fixpoint pending_search (pend : list bt_conn) (conn : bt_conn) (n : Z) (fuel : nat) (i : Z)
    : option bool :=
  match fuel with
  | O => None
  | S fuel =>
      if decide (i < n) then
        c ← mem_get pend i;
        if decide (c = conn) then Some true else pending_search pend conn n fuel (u8 (i + 1))
      else Some false
  end.
End Local.

(** ** Operations of the whole program *)

Section Session.
Context `{Nanopb, !RingBuf RING_BUF_SIZE, !MsgQ tx_entry TX_QUEUE_DEPTH}.
Context {W : Type} `{!Lens W cache, !Lens W uart, !Lens W upstream}.
(** What [s_serve_cb] points to once it is registered. *)
Context (serve_cb : bt_conn -> Z -> M W unit).

Definition serve_one_pending (conn : bt_conn) : M W unit :=
  u <- zoom (gets (id : upstream -> upstream)) ;;
  if negb (s_serve_cb u) then ret tt else serve_cb conn 0.

(** [for (i = i0; i < s_pending_count; i++)]. *)
Fixpoint serve_loop (fuel : nat) (i : Z) : M W unit :=
  match fuel with
  | O => oget None
  | S fuel =>
      u <- zoom (gets (id : upstream -> upstream)) ;;
      if decide (i < s_pending_count u) then
        c <- oget (mem_get (s_pending u) i) ;;
        serve_one_pending c ;;;
        u <- zoom (gets (id : upstream -> upstream)) ;;
        p <- oget (mem_set (s_pending u) i NULL) ;;
        zoom (modify (fun u : upstream => u <| s_pending := p |>)) ;;;
        serve_loop fuel (u8 (i + 1))
      else ret tt
  end.

Definition serve_pending_phones : M W unit :=
  u <- zoom (gets (id : upstream -> upstream)) ;;
  if decide (s_pending_count u = 0) then ret tt
  else
    serve_loop (S (Z.to_nat CONFIG_BT_MAX_CONN)) 0 ;;;
    zoom (modify (fun u : upstream => u <| s_pending_count := 0 |>)).

Definition keepalive_work_handler : M W unit :=
  u <- zoom (gets (id : upstream -> upstream)) ;;
  let nonce := s_keepalive_nonce u in
  zoom (modify (fun u : upstream => u <| s_keepalive_nonce := u32 (nonce + 1) |>)) ;;;
  zoom (modify (fun u : upstream =>
    if decide (s_keepalive_nonce u = 0 \/ s_keepalive_nonce u = 1)
    then u <| s_keepalive_nonce := 2 |> else u)) ;;;
  r <- oget (proto_encode_heartbeat nonce (replicate 16 0) 16 0) ;;
  let '(rc, buf, len) := r in
  (if decide (rc = rc_ok) then
     zoom (modify (fun u : upstream => u <| s_keepalive_pending := true |>)) ;;;
     p <- oget (mem_read buf 0 len) ;;
     err <- zoom (uart_meshtastic_tx p) ;;
     (if decide (err <> rc_ok)
      then zoom (modify (fun u : upstream => u <| s_keepalive_pending := false |>))
      else ret tt)
   else ret tt) ;;;
  emit (IoKeepalive UPSTREAM_KEEPALIVE_MS).

(** [rand] is the result of [sys_rand32_get()]. *)
Definition upstream_session_start (rand : Z) : M W unit :=
  zoom (modify (fun u : upstream => u <| s_nonce := rand |>)) ;;;
  zoom (modify (fun u : upstream =>
    if decide (s_nonce u = 0 \/ s_nonce u = 1) then u <| s_nonce := 2 |> else u)) ;;;
  u <- zoom (gets (id : upstream -> upstream)) ;;
  let tr := to_radio_init_zero <| tr_which := ToRadio_want_config_id_tag |>
                               <| tr_want_config_id := s_nonce u |> in
  let '(ok, written) := pb_encode_ToRadio tr ToRadio_size in
  buf <- oget (mem_write (replicate (Z.to_nat ToRadio_size) 0) 0 written) ;;
  if negb ok then ret tt
  else
    zoom cache_begin ;;;
    zoom (modify (fun u : upstream => u <| s_p0 := phase0_reset |>)) ;;;
    zoom (modify (fun u : upstream => u <| s_pending_count := 0 |>)) ;;;
    p <- oget (mem_read buf 0 (u16 (zlen written))) ;;
    rc <- zoom (uart_meshtastic_tx p) ;;
    if decide (rc <> rc_ok) then ret tt
    else
      zoom (modify (fun u : upstream => u <| s_state := UPSTREAM_FETCHING |>)) ;;;
      emit IoKeepaliveInit ;;;
      zoom (modify (fun u : upstream => u <| s_keepalive_armed := true |>)) ;;;
      emit (IoKeepalive UPSTREAM_KEEPALIVE_MS).

Definition upstream_on_fromradio (payload : list Z) (info : fromradio_info) : M W bool :=
  u <- zoom (gets (id : upstream -> upstream)) ;;
  let v := which_variant info in
  let account := zoom (modify (fun u : upstream =>
                   u <| s_p0 := phase0_account v (zlen payload) (s_p0 u) |>)) in
  if decide (s_state u <> UPSTREAM_FETCHING) then ret false
  else if decide (v = FromRadio_packet_tag) then ret false
  else if decide (v = FromRadio_config_complete_id_tag) then
    match decode_config_complete_nonce payload with
    | None =>
        account ;;;
        zoom (cache_add_frame payload v) ;;;
        ret true
    | Some got_nonce =>
        if decide (got_nonce <> s_nonce u) then
          account ;;;
          zoom (cache_add_frame payload v) ;;;
          ret true
        else
          account ;;;
          zoom (modify (fun u : upstream =>
            u <| s_p0 := (s_p0 u) <| p0_config_complete_id := got_nonce |> |>)) ;;;
          zoom cache_mark_ready ;;;
          zoom (modify (fun u : upstream => u <| s_state := UPSTREAM_CACHE_READY |>)) ;;;
          serve_pending_phones ;;;
          zoom (modify (fun u : upstream => u <| s_state := UPSTREAM_LIVE |>)) ;;;
          ret true
    end
  else
    account ;;;
    zoom (cache_add_frame payload v) ;;;
    ret true.

Definition upstream_on_pending_phone (conn : bt_conn) : M W unit :=
  if decide (conn = NULL) then ret tt
  else
    ready <- zoom (gets cache_is_ready) ;;
    if ready then serve_one_pending conn
    else
      u <- zoom (gets (id : upstream -> upstream)) ;;
      found <- oget (pending_search (s_pending u) conn (s_pending_count u)
                       (S (Z.to_nat CONFIG_BT_MAX_CONN)) 0) ;;
      if (found : bool) then ret tt
      else if decide (CONFIG_BT_MAX_CONN <= s_pending_count u) then ret tt
      else
        p <- oget (mem_set (s_pending u) (s_pending_count u) conn) ;;
        zoom (modify (fun u : upstream =>
          u <| s_pending := p |> <| s_pending_count := u8 (s_pending_count u + 1) |>)).
End Session.

(** ** Invariant and abstract view *)

(** The phones waiting for the cache, in order of arrival. *)
Definition pending (u : upstream) : list bt_conn :=
  take (Z.to_nat (s_pending_count u)) (s_pending u).

Definition nonce_ok (n : Z) : Prop := 2 <= n < 2 ^ 32.

(** While the waiting phones are being served their entries are cleared one by
    one. *)
Record up_wf (u : upstream) : Prop := {
  up_size : zlen (s_pending u) = CONFIG_BT_MAX_CONN;
  up_count : 0 <= s_pending_count u <= CONFIG_BT_MAX_CONN;
  up_nodup : s_state u <> UPSTREAM_CACHE_READY -> NoDup (pending u);
  up_nonnull : s_state u <> UPSTREAM_CACHE_READY -> NULL ∉ pending u;
  up_keepalive : nonce_ok (s_keepalive_nonce u);
  up_nonce : s_state u <> UPSTREAM_BOOT -> nonce_ok (s_nonce u);
}.

Lemma upstream_boot_wf : up_wf upstream_boot.
Proof. split; simpl; try by_eval; try done. Qed.

Lemma zlen_pending u : up_wf u -> zlen (pending u) = s_pending_count u.
Proof. intros W. unfold pending. apply zlen_take. rewrite (up_size _ W). apply W. Qed.

Lemma pending_lookup u i :
  up_wf u -> 0 <= i < s_pending_count u ->
  exists c, pending u !! Z.to_nat i = Some c /\ mem_get (s_pending u) i = Some c.
Proof.
  intros W Hi. pose proof (up_count _ W). pose proof (up_size _ W).
  destruct (mem_get_Some (s_pending u) i) as (c & Hc & Hl); [lia|].
  exists c. split; [|done]. unfold pending. by rewrite lookup_take_lt by lia.
Qed.

Lemma pending_search_ok u conn fuel i :
  up_wf u -> 0 <= i <= s_pending_count u -> s_pending_count u - i < Z.of_nat fuel ->
  pending_search (s_pending u) conn (s_pending_count u) fuel i
  = Some (bool_decide (conn ∈ drop (Z.to_nat i) (pending u))).
Proof.
  intros W. revert i. induction fuel as [|fuel IH]; intros i Hi Hf; [lia|]. simpl.
  pose proof (up_count _ W). unfold CONFIG_BT_MAX_CONN in *. case_decide.
  - destruct (pending_lookup u i W) as (c & Hc & ->); [lia|]. simpl.
    rewrite (drop_S _ _ _ Hc). rewrite (u8_id (i + 1)) by lia.
    case_decide as Hcc.
    + subst. symmetry. f_equal. apply bool_decide_eq_true_2. left.
    + rewrite IH by lia. replace (Z.to_nat (i + 1)) with (S (Z.to_nat i)) by lia.
      f_equal. apply bool_decide_ext. rewrite elem_of_cons. split; [by right|by intros [->|?]].
  - f_equal. symmetry. apply bool_decide_eq_false_2.
    pose proof (zlen_pending u W). unfold zlen in *. rewrite drop_ge by lia. apply not_elem_of_nil.
Qed.

Section SessionLemmas.
Context `{NanopbOk, !RingBuf RING_BUF_SIZE, !MsgQ tx_entry TX_QUEUE_DEPTH}.
Context `{!MsgQOk tx_entry TX_QUEUE_DEPTH}.
Context {W : Type} `{Lc : !Lens W cache, Lu : !Lens W uart, Ls : !Lens W upstream}.
Context `{!Disjoint_lens Lc Ls, !Disjoint_lens Lu Ls, !Disjoint_lens Lc Lu}.
Context (serve_cb : bt_conn -> Z -> M W unit).
Context (Hserve : forall c n, natural Ls (serve_cb c n)).

(** Serving one phone: nothing if no function is registered. *)
Definition serve (reg : bool) (c : bt_conn) : M W unit := if reg then serve_cb c 0 else ret tt.

Lemma serve_natural reg c : natural Ls (serve reg c).
Proof. destruct reg; [apply Hserve|apply natural_ret]. Qed.

Lemma serve_one_pending_eq c w :
  serve_one_pending serve_cb c w = serve (s_serve_cb (lget w)) c w.
Proof. unfold serve_one_pending. rewrite run_zoom_gets. unfold id. by destruct (s_serve_cb _). Qed.

(** A turn of the loop serves the phone and clears its entry. *)
Lemma serve_turn_eq fuel i c w w2 t2 :
  0 <= i < s_pending_count (lget w) -> zlen (s_pending (lget w)) = CONFIG_BT_MAX_CONN ->
  mem_get (s_pending (lget w)) i = Some c -> serve (s_serve_cb (lget w)) c w = Some (tt, w2, t2) ->
  serve_loop serve_cb (S fuel) i w
  = (fun r => (r.1.1, r.1.2, t2 ++ r.2)) <$> serve_loop serve_cb fuel (u8 (i + 1))
      (lset ((lget w) <| s_pending := <[Z.to_nat i := NULL]> (s_pending (lget w)) |>) w2).
Proof.
  intros Hi Hz Hc E. simpl. rewrite run_zoom_gets. unfold id. rewrite decide_True by lia.
  rewrite Hc, run_oget. assert (lget w2 = lget w) as E2 by (by eapply natural_frames; [apply serve_natural|]).
  erewrite run_bind by (rewrite serve_one_pending_eq; exact E).
  pose proof (mem_get_inv _ _ _ Hc). rewrite run_zoom_gets. unfold id. rewrite E2.
  by rewrite mem_set_ok, run_oget, run_zoom_modify, E2 by lia.
Qed.

(** From entry [i] on the entries are still those of [u]. *)
Definition yet_to_serve (u : upstream) (i : Z) w : Prop :=
  lget w = u <| s_pending := s_pending (lget w) |>
  /\ zlen (s_pending (lget w)) = CONFIG_BT_MAX_CONN
  /\ drop (Z.to_nat i) (s_pending (lget w)) = drop (Z.to_nat i) (s_pending u).

Lemma serve_loop_from u fuel i w w1 t :
  up_wf u -> yet_to_serve u i w -> 0 <= i <= s_pending_count u -> s_pending_count u - i < Z.of_nat fuel ->
  mfor (serve (s_serve_cb u)) (drop (Z.to_nat i) (pending u)) w = Some (tt, w1, t) ->
  exists p, zlen p = CONFIG_BT_MAX_CONN
    /\ serve_loop serve_cb fuel i w = Some (tt, lset ((lget w : upstream) <| s_pending := p |>) w1, t).
Proof.
  intros Hwf. pose proof (up_count _ Hwf) as Hn. revert i w w1 t.
  induction fuel as [|fuel IH]; intros i w w1 t (Hu & Hz & Hd) Hi Hf Hm; [lia|].
  assert (s_pending_count (lget w) = s_pending_count u) as Hcnt by by rewrite Hu.
  assert (s_serve_cb (lget w) = s_serve_cb u) as Hreg by by rewrite Hu.
  destruct (decide (i < s_pending_count u)) as [Hin|Hin].
  - destruct (pending_lookup u i Hwf) as (c & Hc1 & Hc2); [lia|].
    rewrite (drop_S _ _ _ Hc1) in Hm. simpl in Hm. unfold bind in Hm.
    destruct (serve _ c w) as [[[[] w2] t2]|] eqn:E2; [|done].
    destruct (mfor _ _ w2) as [[[[] w3] t3]|] eqn:E3; [|done]. injection Hm as <- <-.
    rewrite <- Hreg in E2. rewrite (serve_turn_eq _ _ c w w2 t2); [|lia|done| |done].
    2: { unfold mem_get in *. rewrite decide_True in Hc2 |- * by lia.
         assert (forall l : list Z, l !! Z.to_nat i = drop (Z.to_nat i) l !! 0%nat) as Hl
           by (intros l; by rewrite lookup_drop, Nat.add_0_r).
         by rewrite Hl, Hd, <- Hl. }
    unfold CONFIG_BT_MAX_CONN in *. rewrite u8_id by lia. set (w4 := lset _ w2).
    replace (S (Z.to_nat i)) with (Z.to_nat (i + 1)) in E3 by lia.
    destruct (IH (i + 1) w4
      (lset ((lget w) <| s_pending := <[Z.to_nat i:=NULL]> (s_pending (lget w)) |>) w3) t3)
      as (p & Hp & E); try lia.
    + unfold yet_to_serve, CONFIG_BT_MAX_CONN. subst w4. rewrite lget_lset. simpl.
      split; [by rewrite Hu|]. split; [by rewrite zlen_insert|]. rewrite drop_insert_lt by lia.
      replace (Z.to_nat (i + 1)) with (Z.to_nat i + 1)%nat by lia. by rewrite <- !drop_drop, Hd.
    + apply natural_set; [|done]. apply natural_mfor. apply serve_natural.
    + exists p. split; [done|]. rewrite E. subst w4. by rewrite lget_lset, lset_lset.
  - assert (drop (Z.to_nat i) (pending u) = []) as E.
    { apply drop_ge. pose proof (zlen_pending u Hwf). unfold zlen in *. lia. }
    rewrite E in Hm. injection Hm as <- <-. exists (s_pending (lget w)). split; [done|].
    simpl. rewrite run_zoom_gets. unfold id. rewrite decide_False by lia.
    replace (_ <| s_pending := _ |>) with (lget w) by by destruct (lget w). by rewrite lset_lget.
Qed.

Lemma serve_loop_eq fuel i w w1 t :
  up_wf (lget w) -> 0 <= i <= s_pending_count (lget w) -> s_pending_count (lget w) - i < Z.of_nat fuel ->
  mfor (serve (s_serve_cb (lget w))) (drop (Z.to_nat i) (pending (lget w))) w = Some (tt, w1, t) ->
  exists p, zlen p = CONFIG_BT_MAX_CONN
    /\ serve_loop serve_cb fuel i w = Some (tt, lset ((lget w : upstream) <| s_pending := p |>) w1, t).
Proof.
  intros Hwf. apply serve_loop_from; [done|]. split; [by destruct (lget w)|].
  split; [apply Hwf|done].
Qed.

Lemma serve_pending_phones_eq w w1 t :
  up_wf (lget w) ->
  mfor (serve (s_serve_cb (lget w))) (pending (lget w)) w = Some (tt, w1, t) ->
  exists p, zlen p = CONFIG_BT_MAX_CONN
    /\ serve_pending_phones serve_cb w
       = Some (tt, lset ((lget w : upstream) <| s_pending := p |> <| s_pending_count := 0 |>) w1, t).
Proof.
  intros Hwf Hm. pose proof (up_count _ Hwf). unfold serve_pending_phones.
  rewrite run_zoom_gets. unfold id. case_decide as Hc.
  - unfold pending in Hm. rewrite Hc in Hm. injection Hm as <- <-.
    exists (s_pending (lget w)). split; [apply Hwf|].
    replace (_ <| s_pending_count := _ |>) with (lget w : upstream)
      by (destruct (lget w); simpl in *; by subst).
    by rewrite lset_lget.
  - destruct (serve_loop_eq (S (Z.to_nat CONFIG_BT_MAX_CONN)) 0 w w1 t Hwf) as (p & Hp & E).
    + lia.
    + unfold CONFIG_BT_MAX_CONN in *. lia.
    + by rewrite drop_0.
    + exists p. split; [done|]. erewrite run_bind by exact E.
      rewrite zoom_modify_eq. simpl. by rewrite lget_lset, lset_lset, app_nil_r.
Qed.

(** *** Frames from the node *)

(** What the session does with a frame of variant [v]. *)
Inductive up_action := UpPass | UpStore | UpFinish.
Definition up_action_of (u : upstream) (payload : list Z) (v : Z) : up_action :=
  if decide (s_state u = UPSTREAM_FETCHING /\ v <> FromRadio_packet_tag) then
    if decide (v = FromRadio_config_complete_id_tag
               /\ decode_config_complete_nonce payload = Some (s_nonce u))
    then UpFinish else UpStore
  else UpPass.

Lemma up_action_fetching u payload v a :
  up_action_of u payload v = a -> a <> UpPass -> s_state u = UPSTREAM_FETCHING.
Proof. unfold up_action_of. intros <-. case_decide as Hd; [by intros _; apply Hd|done]. Qed.

Definition account (u : upstream) (v : Z) (payload : list Z) : upstream :=
  u <| s_p0 := phase0_account v (zlen payload) (s_p0 u) |>.

Lemma on_fromradio_pass w payload info :
  up_action_of (lget w) payload (which_variant info) = UpPass ->
  upstream_on_fromradio serve_cb payload info w = Some (false, w, []).
Proof.
  unfold up_action_of, upstream_on_fromradio. rewrite run_zoom_gets. unfold id.
  destruct (decide (s_state (lget w) <> UPSTREAM_FETCHING)) as [|Hs]; [done|].
  destruct (decide (which_variant info = FromRadio_packet_tag)); [done|].
  rewrite decide_True; [by case_decide|]. split; [|done]. by apply dec_stable.
Qed.

(** The world after a frame was stored. *)
Lemma on_fromradio_store w payload info :
  cache_wf (lget w) -> bytes_ok payload -> zlen payload < 65536 ->
  up_action_of (lget w) payload (which_variant info) = UpStore ->
  exists c', cache_add_frame payload (which_variant info) (lget w)
               = Some ((add_spec (frames_of (lget w)) (which_variant info) payload).1, c', [])
    /\ cache_wf c' /\ s_ready c' = s_ready (lget w)
    /\ frames_of c' = (add_spec (frames_of (lget w)) (which_variant info) payload).2
    /\ upstream_on_fromradio serve_cb payload info w
       = Some (true, lset c' (lset (account (lget w) (which_variant info) payload) w), []).
Proof.
  intros Wc Hb Hl Ha. destruct (cache_add_log (lget w) payload (which_variant info) Wc Hb Hl)
    as (c' & E & Wc' & Hf & Hr & _).
  exists c'. split_and!; try done.
  assert (forall k : rc -> M W bool, k = (fun _ => ret true) ->
    bind (zoom (modify (fun u : upstream =>
            u <| s_p0 := phase0_account (which_variant info) (zlen payload) (s_p0 u) |>)))
      (fun _ => bind (zoom (cache_add_frame payload (which_variant info))) k) w
    = Some (true, lset c' (lset (account (lget w) (which_variant info) payload) w), [])) as Hk.
  { intros k ->. rewrite run_zoom_modify.
    erewrite run_zoom by (rewrite lget_lset_ne'; exact E). done. }
  unfold up_action_of in Ha. unfold upstream_on_fromradio. rewrite run_zoom_gets. unfold id.
  destruct (decide (_ /\ _)) as [[Hs Hp]|]; [|done].
  rewrite decide_False by (by intros []). rewrite decide_False by done.
  destruct (decide (which_variant info = FromRadio_config_complete_id_tag)) as [Hv|];
    [|by apply Hk].
  destruct (decode_config_complete_nonce payload) as [n|]; [|by apply Hk].
  destruct (decide (n <> s_nonce (lget w))) as [|Hn]; [by apply Hk|].
  rewrite decide_True in Ha; [done|].
  split; [done|]. f_equal. by apply dec_stable.
Qed.

(** The world when the terminator of the burst arrives, before the waiting
    phones are served, as the serving function sees it. *)
Definition up_ready (w : W) : W := lset ((lget w : cache) <| s_ready := 1 |>) w.

(** What is fixed when the session is started. *)
Definition same_setup (u u' : upstream) : Prop :=
  s_nonce u' = s_nonce u /\ s_serve_cb u' = s_serve_cb u
  /\ s_keepalive_armed u' = s_keepalive_armed u.

Lemma same_setup_refl u : same_setup u u.
Proof. by split_and!. Qed.

(** A session that has just gone LIVE. *)
Lemma up_wf_live u u' :
  up_wf u -> s_state u <> UPSTREAM_BOOT -> s_pending_count u' = 0 ->
  zlen (s_pending u') = CONFIG_BT_MAX_CONN -> s_nonce u' = s_nonce u ->
  s_keepalive_nonce u' = s_keepalive_nonce u ->
  up_wf u' /\ pending u' = [].
Proof.
  intros Hwf Hs Hpc Hz Hn Hkn.
  assert (pending u' = []) as Hp by (unfold pending; by rewrite Hpc).
  split; [|done]. split; try done.
  - rewrite Hpc. done.
  - intros _. rewrite Hp. apply NoDup_nil_2.
  - intros _. rewrite Hp. apply not_elem_of_nil.
  - rewrite Hkn. apply Hwf.
  - rewrite Hn. intros _. by apply Hwf.
Qed.

Lemma on_fromradio_finish w payload info w1 t :
  up_wf (lget w) ->
  up_action_of (lget w) payload (which_variant info) = UpFinish ->
  mfor (serve (s_serve_cb (lget w))) (pending (lget w)) (up_ready w) = Some (tt, w1, t) ->
  exists u', upstream_on_fromradio serve_cb payload info w = Some (true, lset u' w1, t)
    /\ s_state u' = UPSTREAM_LIVE /\ s_pending_count u' = 0
    /\ zlen (s_pending u') = CONFIG_BT_MAX_CONN
    /\ s_p0 u' = (phase0_account (which_variant info) (zlen payload) (s_p0 (lget w)))
                   <| p0_config_complete_id := s_nonce (lget w) |>
    /\ s_nonce u' = s_nonce (lget w) /\ s_serve_cb u' = s_serve_cb (lget w)
    /\ s_keepalive_armed u' = s_keepalive_armed (lget w)
    /\ s_keepalive_nonce u' = s_keepalive_nonce (lget w)
    /\ s_keepalive_pending u' = s_keepalive_pending (lget w).
Proof.
  intros Hwf Ha Hm. unfold up_action_of in Ha. unfold upstream_on_fromradio.
  rewrite run_zoom_gets. unfold id.
  destruct (decide (_ /\ _)) as [[Hs Hp]|]; [|done].
  destruct (decide (_ /\ _)) as [[Hv Hn]|]; [|done].
  rewrite decide_False by (by intros []). rewrite decide_False by done.
  rewrite decide_True by done. rewrite Hn. rewrite decide_False by (by intros []).
  rewrite run_zoom_modify, run_zoom_modify, lget_lset, lset_lset.
  set (u1 := (_ : upstream) <| s_p0 := _ |>).
  unfold cache_mark_ready. rewrite run_zoom_modify, run_zoom_modify.
  lens_simpl. rewrite (lset_comm (L1 := Lc) (L2 := Ls)), lset_lset.
  fold (up_ready w).
  set (u2 := u1 <| s_state := UPSTREAM_CACHE_READY |>).
  assert (up_wf u2) as Hwf2.
  { destruct Hwf as [? ? ? ? ? Hno]. split; try done. intros _. apply Hno. by rewrite Hs. }
  destruct (serve_pending_phones_eq (lset u2 (up_ready w)) (lset u2 w1) t) as (p & Hp' & E).
  { by rewrite lget_lset. }
  { rewrite lget_lset. apply natural_set; [|done]. apply natural_mfor, serve_natural. }
  erewrite run_bind by exact E. rewrite run_zoom_modify, !lget_lset, !lset_lset.
  eexists. split; [simpl; by rewrite app_nil_r|]. done.
Qed.

(** *** Starting the session *)

(** The nonce the proxy uses when the generator yields [rand]. *)
Definition boot_nonce (rand : Z) : Z := if decide (rand = 0 \/ rand = 1) then 2 else rand.

Lemma boot_nonce_ok rand : fits 32 rand -> nonce_ok (boot_nonce rand).
Proof. unfold fits, nonce_ok, boot_nonce. intros. case_decide; lia. Qed.

(** The module once the want_config message is encoded. *)
Definition up_restarted (u : upstream) (rand : Z) : upstream :=
  u <| s_nonce := boot_nonce rand |> <| s_p0 := phase0_reset |> <| s_pending_count := 0 |>.
Definition up_fetching (u : upstream) (rand : Z) : upstream :=
  (up_restarted u rand) <| s_state := UPSTREAM_FETCHING |> <| s_keepalive_armed := true |>.
Definition cache_cleared (c : cache) : cache := mk_cache (s_arena c) (s_index c) 0 0 0 (-1) (-1).

Lemma want_config_encoded n :
  fits 32 n ->
  exists p b, pb_encode_ToRadio (msg_want_config n) ToRadio_size = (true, p)
    /\ mem_write (replicate (Z.to_nat ToRadio_size) 0) 0 p = Some b
    /\ mem_read b 0 (u16 (zlen p)) = Some p /\ 0 < zlen p <= 16
    /\ pb_decode_ToRadio p = Some (msg_want_config n).
Proof.
  intros Hf. pose proof (ToRadio_size_le) as [??].
  destruct (pb_encode_want_config n Hf) as (He & Hb & Hz).
  set (ws := pb_writes_ToRadio (msg_want_config n)) in *.
  destruct (pb_write_all_fitting ws ToRadio_size) as (k & Hk & E); [lia|].
  apply fitting_all in Hk as ->; [|lia]. rewrite firstn_all, bool_decide_true in E by done.
  exists (mjoin ws). eexists. split; [by rewrite He by lia|].
  split; [apply mem_write_ok; rewrite ?zlen_replicate; lia|].
  split_and!; try lia; [|by apply pb_decode_encode_want_config].
  set (p := mjoin ws) in *.
  rewrite u16_id by lia. rewrite splice_0, mem_read_0 by (rewrite zlen_app;
    pose proof (zlen_nonneg (drop (length p) (replicate (Z.to_nat ToRadio_size) 0))); lia).
  unfold zlen. rewrite Nat2Z.id. by rewrite take_app_length.
Qed.

Lemma want_config_ok rand :
  fits 32 rand ->
  exists p b, pb_encode_ToRadio (msg_want_config (boot_nonce rand)) ToRadio_size = (true, p)
    /\ mem_write (replicate (Z.to_nat ToRadio_size) 0) 0 p = Some b
    /\ mem_read b 0 (u16 (zlen p)) = Some p /\ 0 < zlen p <= 16
    /\ pb_decode_ToRadio p = Some (msg_want_config (boot_nonce rand)).
Proof.
  intros Hr. apply want_config_encoded. pose proof (boot_nonce_ok rand Hr) as [??]. split; lia.
Qed.

Lemma session_start_eq w rand :
  uart_tx_ok (lget w) -> fits 32 rand ->
  if decide (TX_QUEUE_DEPTH <= zlen (mq_contents (tx_msgq (lget w))))
  then upstream_session_start rand w
       = Some (tt, lset (up_restarted (lget w) rand) (lset (cache_cleared (lget w)) w), [])
  else exists q p, pb_decode_ToRadio p = Some (msg_want_config (boot_nonce rand))
    /\ zlen p <= 16
    /\ mq_contents q = mq_contents (tx_msgq (lget w)) ++ [mk_tx_entry p (zlen p)]
    /\ uart_tx_ok ((lget w : uart) <| tx_msgq := q |>)
    /\ upstream_session_start rand w
       = Some (tt, lset (up_fetching (lget w) rand)
                     (lset ((lget w : uart) <| tx_msgq := q |>)
                       (lset (cache_cleared (lget w)) w)),
               [IoSubmitTx; IoKeepaliveInit; IoKeepalive UPSTREAM_KEEPALIVE_MS]).
Proof.
  intros Hu Hr. destruct (want_config_ok rand Hr) as (p & b & Ep & Ew & Er & Hl & Hd).
  assert (upstream_session_start rand w
    = bind (zoom (uart_meshtastic_tx p)) (fun rc =>
        if decide (rc <> rc_ok) then ret tt
        else
          zoom (modify (fun u : upstream => u <| s_state := UPSTREAM_FETCHING |>)) ;;;
          emit IoKeepaliveInit ;;;
          zoom (modify (fun u : upstream => u <| s_keepalive_armed := true |>)) ;;;
          emit (IoKeepalive UPSTREAM_KEEPALIVE_MS))
        (lset (up_restarted (lget w) rand) (lset (cache_cleared (lget w)) w))) as ->.
  { unfold upstream_session_start. rewrite run_zoom_modify, run_zoom_modify, run_zoom_gets.
    unfold id. lens_simpl.
    assert (forall u : upstream, (if decide (s_nonce (u <| s_nonce := rand |>) = 0
              \/ s_nonce (u <| s_nonce := rand |>) = 1)
            then u <| s_nonce := rand |> <| s_nonce := 2 |> else u <| s_nonce := rand |>)
            = u <| s_nonce := boot_nonce rand |>) as ->.
    { intros u. unfold boot_nonce. simpl. by case_decide. }
    cbn [s_nonce set]. unfold msg_want_config in Ep. rewrite Ep, Ew, run_oget.
    cbn [negb]. erewrite run_zoom by apply cache_begin_eq.
    rewrite !run_zoom_modify, Er, run_oget. lens_simpl.
    rewrite (lset_comm (L1 := Lc) (L2 := Ls)). lens_simpl. by destruct (bind _ _ _) as [[[]]|]. }
  pose proof (uart_meshtastic_tx_eq p (lget w) Hu) as Hq.
  rewrite decide_False in Hq by (unfold MESHTASTIC_MAX_PAYLOAD; lia).
  case_decide as Hfull.
  - erewrite run_zoom by (lens_simpl; exact Hq). simpl.
    rewrite (lset_comm (L1 := Lu) (L2 := Ls)), (lset_comm (L1 := Lu) (L2 := Lc)), lset_lget.
    done.
  - destruct Hq as (q & Hc & Hok & Hq). exists q, p. split_and!; try done; [lia|].
    erewrite run_zoom by (lens_simpl; exact Hq).
    rewrite decide_False by (by intros []). rewrite run_zoom_modify, run_emit, run_zoom_modify.
    simpl. lens_simpl. rewrite (lset_comm (L1 := Lu) (L2 := Ls)). lens_simpl. done.
Qed.

(** *** The keepalive *)

Definition next_nonce (n : Z) : Z :=
  if decide (u32 (n + 1) = 0 \/ u32 (n + 1) = 1) then 2 else u32 (n + 1).

Lemma next_nonce_ok n : nonce_ok (next_nonce n).
Proof.
  unfold next_nonce, nonce_ok. pose proof (u32_fits (n + 1)) as []. case_decide; lia.
Qed.

Lemma keepalive_eq w :
  up_wf (lget w) -> uart_tx_ok (lget w) ->
  if decide (TX_QUEUE_DEPTH <= zlen (mq_contents (tx_msgq (lget w))))
  then keepalive_work_handler w
       = Some (tt, lset ((lget w : upstream)
                           <| s_keepalive_nonce := next_nonce (s_keepalive_nonce (lget w)) |>
                           <| s_keepalive_pending := false |>) w,
               [IoKeepalive UPSTREAM_KEEPALIVE_MS])
  else exists q p, pb_decode_ToRadio p = Some (msg_heartbeat (s_keepalive_nonce (lget w)))
    /\ zlen p <= 16
    /\ mq_contents q = mq_contents (tx_msgq (lget w)) ++ [mk_tx_entry p (zlen p)]
    /\ uart_tx_ok ((lget w : uart) <| tx_msgq := q |>)
    /\ keepalive_work_handler w
       = Some (tt, lset ((lget w : upstream)
                           <| s_keepalive_nonce := next_nonce (s_keepalive_nonce (lget w)) |>
                           <| s_keepalive_pending := true |>)
                     (lset ((lget w : uart) <| tx_msgq := q |>) w),
               [IoSubmitTx; IoKeepalive UPSTREAM_KEEPALIVE_MS]).
Proof.
  intros Hwf Hu. pose proof (up_keepalive _ Hwf) as [Hn1 Hn2].
  destruct (encoder_16 _ _ _ _ (replicate 16 0) 0
    (encode_hb_exact (s_keepalive_nonce (lget w)) ltac:(split; lia)))
    as (b & l & E & Hzb & Hbb & Hl & Hd); [done|by_eval|].
  unfold keepalive_work_handler. rewrite run_zoom_gets. unfold id.
  rewrite run_zoom_modify, run_zoom_modify. rewrite E, run_oget. lens_simpl.
  assert (forall u : upstream, (if decide
      (s_keepalive_nonce (u <| s_keepalive_nonce := u32 (s_keepalive_nonce u + 1) |>) = 0
       \/ s_keepalive_nonce (u <| s_keepalive_nonce := u32 (s_keepalive_nonce u + 1) |>) = 1)
    then u <| s_keepalive_nonce := u32 (s_keepalive_nonce u + 1) |> <| s_keepalive_nonce := 2 |>
    else u <| s_keepalive_nonce := u32 (s_keepalive_nonce u + 1) |>)
    = u <| s_keepalive_nonce := next_nonce (s_keepalive_nonce u) |>) as ->.
  { intros u. unfold next_nonce. simpl. by case_decide. }
  cbv beta iota. rewrite (decide_True (P := rc_ok = rc_ok)) by done. rewrite run_assoc, run_zoom_modify, run_assoc.
  rewrite mem_read_0 by lia. rewrite run_oget, run_assoc. lens_simpl.
  set (p := take (Z.to_nat l) b) in *.
  assert (zlen p = l) as Hzp by (apply zlen_take; lia).
  pose proof (uart_meshtastic_tx_eq p (lget w) Hu) as Hq.
  rewrite decide_False in Hq by (unfold MESHTASTIC_MAX_PAYLOAD; lia).
  case_decide as Hfull.
  - erewrite run_zoom by (lens_simpl; exact Hq). rewrite decide_True by done.
    rewrite run_zoom_modify. simpl.
    rewrite (lset_comm (L1 := Lu) (L2 := Ls)), lset_lget. lens_simpl. done.
  - destruct Hq as (q & Hc & Hok & Hq). exists q, p. split_and!; try done; [lia|].
    erewrite run_zoom by (lens_simpl; exact Hq). rewrite decide_False by (by intros []).
    rewrite run_ret. simpl. rewrite (lset_comm (L1 := Lu) (L2 := Ls)). done.
Qed.

(** *** Waiting phones *)

(** The queue of waiting phones when [c] asks to wait. *)
Definition park_spec (q : list bt_conn) (c : bt_conn) : list bt_conn :=
  if decide (c ∈ q \/ CONFIG_BT_MAX_CONN <= zlen q) then q else q ++ [c].

Lemma on_pending_park w c :
  up_wf (lget w) -> c <> NULL -> cache_is_ready (lget w) = false ->
  exists p n, let u' := (lget w : upstream) <| s_pending := p |> <| s_pending_count := n |> in
    upstream_on_pending_phone serve_cb c w = Some (tt, lset u' w, [])
    /\ up_wf u' /\ pending u' = park_spec (pending (lget w)) c.
Proof.
  intros Hwf Hc Hr. pose proof (up_count _ Hwf) as Hcnt. pose proof (up_size _ Hwf) as Hz.
  pose proof (zlen_pending _ Hwf) as Hp.
  unfold upstream_on_pending_phone. rewrite decide_False by done.
  rewrite run_zoom_gets, Hr, run_zoom_gets. unfold id.
  rewrite pending_search_ok by (done || (unfold CONFIG_BT_MAX_CONN in *; lia)).
  rewrite run_oget. change (Z.to_nat 0) with 0%nat. rewrite drop_0.
  assert ((lget w : upstream) <| s_pending := s_pending (lget w) |>
            <| s_pending_count := s_pending_count (lget w) |> = lget w) as Hid
    by by destruct (lget w).
  unfold park_spec. case_bool_decide as Hin.
  { exists (s_pending (lget w)), (s_pending_count (lget w)). cbv zeta. rewrite Hid, lset_lget.
    split_and!; try done. by rewrite decide_True by by left. }
  case_decide as Hfull.
  { exists (s_pending (lget w)), (s_pending_count (lget w)). cbv zeta. rewrite Hid, lset_lget.
    split_and!; try done. rewrite decide_True; [done|]. right. lia. }
  rewrite mem_set_ok by lia. rewrite run_oget, zoom_modify_eq.
  unfold CONFIG_BT_MAX_CONN in *. rewrite u8_id by lia.
  eexists _, _. cbv zeta. split; [done|].
  set (u' := _ <| s_pending_count := _ |>).
  assert (pending u' = pending (lget w) ++ [c]) as Hp'.
  { unfold pending. subst u'. simpl.
    replace (Z.to_nat (s_pending_count (lget w) + 1))
      with (S (Z.to_nat (s_pending_count (lget w)))) by lia.
    erewrite take_S_r by (apply list_lookup_insert_eq; unfold zlen in *; lia).
    by rewrite take_insert_ge by lia. }
  split; [|rewrite decide_False by (intros [?|?]; [done|lia]); done].
  destruct Hwf as [H1 H2 H3 H4 H5 H6]. split; try done.
  - subst u'. simpl. by rewrite zlen_insert.
  - subst u'. simpl. unfold CONFIG_BT_MAX_CONN. lia.
  - intros Hs. rewrite Hp'. apply NoDup_app. split_and!; [by apply H3| |apply NoDup_singleton].
    intros x Hx ->%list_elem_of_singleton. done.
  - intros Hs. rewrite Hp', elem_of_app, list_elem_of_singleton. intros [?|?]; [by apply H4|done].
Qed.

Lemma on_pending_ready w c :
  c <> NULL -> cache_is_ready (lget w) = true ->
  upstream_on_pending_phone serve_cb c w = serve (s_serve_cb (lget w)) c w.
Proof.
  intros Hc Hr. unfold upstream_on_pending_phone. rewrite decide_False by done.
  by rewrite run_zoom_gets, Hr, serve_one_pending_eq.
Qed.
End SessionLemmas.
#[export] Hint Resolve same_setup_refl : core.

(** ** The phase 0 counters *)

Section Phase0.
Context `{NanopbOk}.

Definition of_variant (tag : Z) (fs : list frame) : list frame := filter (fun f => f.1 = tag) fs.
Definition enumerated : list Z :=
  [FromRadio_my_info_tag; FromRadio_deviceuiConfig_tag; FromRadio_node_info_tag;
   FromRadio_metadata_tag; FromRadio_channel_tag; FromRadio_config_tag;
   FromRadio_moduleConfig_tag; FromRadio_fileInfo_tag; FromRadio_queueStatus_tag].
Definition not_enumerated (fs : list frame) : list frame := filter (fun f => f.1 ∉ enumerated) fs.
Definition bytes_sum (fs : list frame) : Z := u32 (ConfigCache.total_bytes fs).
Definition frame_count (fs : list frame) : Z := u16 (zlen fs).

(** The counters after the frames [fs] were accounted since the reset. *)
Record phase0_exact (fs : list frame) (p : phase0_stats) : Prop := {
  p0_total : total_bytes p = bytes_sum fs;
  p0_my_info : my_info_bytes p = bytes_sum (of_variant FromRadio_my_info_tag fs);
  p0_deviceui : deviceuiConfig_bytes p = bytes_sum (of_variant FromRadio_deviceuiConfig_tag fs);
  p0_node_info : node_info_bytes p = bytes_sum (of_variant FromRadio_node_info_tag fs);
  p0_node_info_n : node_info_count p = frame_count (of_variant FromRadio_node_info_tag fs);
  p0_metadata : metadata_bytes p = bytes_sum (of_variant FromRadio_metadata_tag fs);
  p0_channel : channel_bytes p = bytes_sum (of_variant FromRadio_channel_tag fs);
  p0_channel_n : channel_count p = frame_count (of_variant FromRadio_channel_tag fs);
  p0_config : config_bytes p = bytes_sum (of_variant FromRadio_config_tag fs);
  p0_config_n : config_count p = frame_count (of_variant FromRadio_config_tag fs);
  p0_moduleConfig : moduleConfig_bytes p = bytes_sum (of_variant FromRadio_moduleConfig_tag fs);
  p0_moduleConfig_n :
    moduleConfig_count p = frame_count (of_variant FromRadio_moduleConfig_tag fs);
  p0_fileInfo : fileInfo_bytes p = bytes_sum (of_variant FromRadio_fileInfo_tag fs);
  p0_fileInfo_n : fileInfo_count p = frame_count (of_variant FromRadio_fileInfo_tag fs);
  p0_queueStatus : queueStatus_bytes p = bytes_sum (of_variant FromRadio_queueStatus_tag fs);
  p0_queueStatus_n : queueStatus_count p = frame_count (of_variant FromRadio_queueStatus_tag fs);
  p0_other : other_bytes p = bytes_sum (not_enumerated fs);
  p0_other_n : other_count p = frame_count (not_enumerated fs);
}.

Lemma bytes_sum_snoc fs f : bytes_sum (fs ++ [f]) = u32 (bytes_sum fs + zlen f.2).
Proof.
  unfold bytes_sum, u32, wrap. rewrite Zplus_mod_idemp_l. f_equal.
  induction fs as [|g fs IH]; simpl; lia.
Qed.
Lemma frame_count_snoc (fs : list frame) f : frame_count (fs ++ [f]) = u16 (frame_count fs + 1).
Proof. unfold frame_count, u16, wrap. by rewrite Zplus_mod_idemp_l, zlen_app. Qed.

Lemma of_variant_snoc tag fs f :
  of_variant tag (fs ++ [f])
  = if decide (f.1 = tag) then of_variant tag fs ++ [f] else of_variant tag fs.
Proof.
  unfold of_variant. rewrite filter_app, filter_cons, filter_nil.
  case_decide; [done|]. by rewrite app_nil_r.
Qed.
Lemma not_enumerated_snoc fs f :
  not_enumerated (fs ++ [f])
  = if decide (f.1 ∈ enumerated) then not_enumerated fs else not_enumerated fs ++ [f].
Proof.
  unfold not_enumerated. rewrite filter_app, filter_cons, filter_nil.
  repeat case_decide; try done. by rewrite app_nil_r.
Qed.

Lemma phase0_exact_reset : phase0_exact [] phase0_reset.
Proof. by split. Qed.

Lemma phase0_exact_account fs p f :
  phase0_exact fs p -> phase0_exact (fs ++ [f]) (phase0_account f.1 (zlen f.2) p).
Proof.
  intros E. pose proof FromRadio_tags_NoDup as Hn.
  rewrite !NoDup_cons, !not_elem_of_cons in Hn. destruct_and!.
  assert (forall t, f.1 = t -> t ∈ enumerated -> not_enumerated (fs ++ [f]) = not_enumerated fs)
    as Hin by (intros t <- ?; by rewrite not_enumerated_snoc, decide_True).
  assert (f.1 ∉ enumerated -> not_enumerated (fs ++ [f]) = not_enumerated fs ++ [f])
    as Hout by (intros ?; by rewrite not_enumerated_snoc, decide_False).
  unfold phase0_account. destruct E.
  repeat case_decide;
    first [ match goal with
            | Hv : _ = ?t |- _ =>
                specialize (Hin t Hv ltac:(clear; unfold enumerated; rewrite !elem_of_cons; tauto));
                clear Hout
            end
          | specialize (Hout ltac:(unfold enumerated; rewrite !not_elem_of_cons; split_and!;
              first [assumption|apply not_elem_of_nil]));
            clear Hin ].
  all: split; simpl; rewrite ?of_variant_snoc, ?Hin, ?Hout.
  all: match goal with
    | Hv : ?v = ?t |- context [decide (?v = ?t)] => rewrite (decide_True _ _ Hv)
    | Hv : ?v = ?t |- context [decide (?v = _)] => rewrite decide_False by (by rewrite Hv)
    | |- context [decide (_ = _)] => rewrite decide_False by assumption
    | |- _ => idtac
    end.
  all: rewrite ?bytes_sum_snoc, ?frame_count_snoc.
  all: f_equal; congruence.
Qed.
End Phase0.

(** ** Properties *)

Section Properties.
Context `{NanopbOk, !RingBuf RING_BUF_SIZE, !MsgQ tx_entry TX_QUEUE_DEPTH}.
Context `{!MsgQOk tx_entry TX_QUEUE_DEPTH}.
Context {W : Type} `{Lc : !Lens W cache, Lu : !Lens W uart, Ls : !Lens W upstream}.
Context `{!Disjoint_lens Lc Ls, !Disjoint_lens Lu Ls, !Disjoint_lens Lc Lu}.
Context (serve_cb : bt_conn -> Z -> M W unit).
Context (Hserve : forall c n, natural Ls (serve_cb c n)).

(** C26: a frame from the node, on every branch.  Outside the fetch, and for a
    packet, the session leaves the frame to the caller and changes nothing.
    The terminator with the session's own nonce publishes the cache, has every
    waiting phone served once, in order of arrival, with the cache ready, then
    goes LIVE with nobody waiting.  Every other frame of the fetch is
    consumed and appended to the log of the cache if there is room. *)
Theorem upstream_on_fromradio_spec w payload info :
  up_wf (lget w) -> cache_wf (lget w) -> bytes_ok payload -> zlen payload < 65536 ->
  match up_action_of (lget w) payload (which_variant info) with
  | UpPass => upstream_on_fromradio serve_cb payload info w = Some (false, w, [])
  | UpStore => exists c',
      upstream_on_fromradio serve_cb payload info w
      = Some (true, lset c' (lset (account (lget w) (which_variant info) payload) w), [])
      /\ cache_wf c' /\ s_ready c' = s_ready (lget w)
      /\ frames_of c' = (add_spec (frames_of (lget w)) (which_variant info) payload).2
  | UpFinish => forall w1 t,
      mfor (serve serve_cb (s_serve_cb (lget w))) (pending (lget w)) (up_ready w)
        = Some (tt, w1, t) ->
      exists u', upstream_on_fromradio serve_cb payload info w = Some (true, lset u' w1, t)
        /\ up_wf u' /\ s_state u' = UPSTREAM_LIVE /\ pending u' = []
        /\ p0_config_complete_id (s_p0 u') = s_nonce (lget w)
  end.
Proof.
  intros Hwf Wc Hb Hl. destruct (up_action_of _ _ _) eqn:Ha.
  - by apply on_fromradio_pass.
  - destruct (on_fromradio_store serve_cb w payload info Wc Hb Hl Ha)
      as (c' & _ & Wc' & Hr & Hf & E). eauto.
  - intros w1 t Hm.
    destruct (on_fromradio_finish serve_cb Hserve w payload info w1 t Hwf Ha Hm)
      as (u' & E & Hst & Hpc & Hz & Hp0 & Hn & _ & Har & Hkn & _).
    assert (s_state (lget w) <> UPSTREAM_BOOT) as Hs
      by (by rewrite (up_action_fetching _ _ _ UpFinish Ha)).
    destruct (up_wf_live (lget w) u') as [Hwf' Hp]; try done.
    exists u'. split_and!; try done. by rewrite Hp0.
Qed.

(** C35: starting the session.  The nonce is never 0 or 1, whatever the random
    generator yields; the cache is emptied and unpublished and nobody waits.
    If the transmit queue has room, exactly one message is queued, it decodes
    to want_config with that nonce, the session is FETCHING and the keepalive
    is armed; otherwise the session's state does not move. *)
Theorem upstream_session_start_spec w rand :
  up_wf (lget w) -> cache_wf (lget w) -> uart_tx_ok (lget w) -> fits 32 rand ->
  exists w' t, upstream_session_start rand w = Some (tt, w', t)
    /\ up_wf (lget w') /\ cache_wf (lget w') /\ uart_tx_ok (lget w')
    /\ nonce_ok (s_nonce (lget w')) /\ pending (lget w') = []
    /\ frames_of (lget w') = [] /\ cache_is_ready (lget w') = false
    /\ if decide (TX_QUEUE_DEPTH <= zlen (mq_contents (tx_msgq (lget w))))
       then s_state (lget w') = s_state (lget w) /\ t = []
            /\ (lget w' : uart) = lget w
       else s_state (lget w') = UPSTREAM_FETCHING
            /\ t = [IoSubmitTx; IoKeepaliveInit; IoKeepalive UPSTREAM_KEEPALIVE_MS]
            /\ exists p, mq_contents (tx_msgq (lget w'))
                         = mq_contents (tx_msgq (lget w)) ++ [mk_tx_entry p (zlen p)]
               /\ pb_decode_ToRadio p = Some (msg_want_config (s_nonce (lget w'))).
Proof.
  intros Hwf Wc Hu Hr. pose proof (session_start_eq w rand Hu Hr) as E.
  pose proof (boot_nonce_ok rand Hr) as Hn. pose proof (cache_begin_wf _ Wc) as Wc'.
  assert (up_wf (up_restarted (lget w) rand)) as Hwf'.
  { destruct Hwf. split; try done; [intros _; apply NoDup_nil_2|intros _; apply not_elem_of_nil]. }
  case_decide.
  - rewrite E. eexists _, _. split; [done|]. lens_simpl. by split_and!.
  - destruct E as (q & p & Hp & Hl & Hq & Hok & ->). eexists _, _. split; [done|].
    assert (up_wf (up_fetching (lget w) rand)) as Hwf2
      by (destruct Hwf'; split; try done; intros _; [apply NoDup_nil_2|apply not_elem_of_nil]).
    lens_simpl. split_and!; try done. eauto.
Qed.

(** C36: the keepalive.  Its nonce is never 0 or 1, across the wrap of the 32-bit
    counter.  Every run re-arms the timer; it queues one message, which
    decodes to a heartbeat with that nonce, and then awaits the reply, unless
    the transmit queue is full, when it awaits nothing. *)
Theorem keepalive_work_handler_spec w :
  up_wf (lget w) -> uart_tx_ok (lget w) ->
  exists w' t, keepalive_work_handler w
      = Some (tt, w', t ++ [IoKeepalive UPSTREAM_KEEPALIVE_MS])
    /\ up_wf (lget w') /\ uart_tx_ok (lget w') /\ (lget w' : cache) = lget w
    /\ nonce_ok (s_keepalive_nonce (lget w))
    /\ s_keepalive_nonce (lget w') = next_nonce (s_keepalive_nonce (lget w))
    /\ if decide (TX_QUEUE_DEPTH <= zlen (mq_contents (tx_msgq (lget w))))
       then s_keepalive_pending (lget w') = false /\ t = [] /\ (lget w' : uart) = lget w
       else s_keepalive_pending (lget w') = true /\ t = [IoSubmitTx]
            /\ exists p, mq_contents (tx_msgq (lget w'))
                         = mq_contents (tx_msgq (lget w)) ++ [mk_tx_entry p (zlen p)]
               /\ pb_decode_ToRadio p = Some (msg_heartbeat (s_keepalive_nonce (lget w))).
Proof.
  intros Hwf Hu. pose proof (keepalive_eq w Hwf Hu) as E.
  assert (forall b, up_wf ((lget w : upstream)
            <| s_keepalive_nonce := next_nonce (s_keepalive_nonce (lget w)) |>
            <| s_keepalive_pending := b |>)) as Hwf'.
  { intros b. pose proof (next_nonce_ok (s_keepalive_nonce (lget w))). destruct Hwf. by split. }
  pose proof (up_keepalive _ Hwf).
  case_decide.
  - rewrite E. eexists _, []. split; [done|]. lens_simpl. by split_and!.
  - destruct E as (q & p & Hp & Hl & Hq & Hok & ->). eexists _, [IoSubmitTx].
    split; [done|]. lens_simpl. split_and!; try done. eauto.
Qed.

(** A phone that asks for the config.  Once the cache is ready it is
    served at once; before that it joins the queue of waiting phones, unless
    it already waits or six do, and nothing else happens; NULL is ignored. *)
Theorem upstream_on_pending_phone_spec w c :
  up_wf (lget w) ->
  if decide (c = NULL) then upstream_on_pending_phone serve_cb c w = Some (tt, w, [])
  else if cache_is_ready (lget w)
  then upstream_on_pending_phone serve_cb c w = serve serve_cb (s_serve_cb (lget w)) c w
  else exists u', upstream_on_pending_phone serve_cb c w = Some (tt, lset u' w, [])
         /\ up_wf u' /\ pending u' = park_spec (pending (lget w)) c
         /\ s_state u' = s_state (lget w) /\ s_nonce u' = s_nonce (lget w).
Proof.
  intros Hwf. case_decide as Hc.
  - subst. unfold upstream_on_pending_phone. by rewrite decide_True.
  - destruct (cache_is_ready (lget w)) eqn:Hr; [by apply on_pending_ready|].
    destruct (on_pending_park serve_cb w c Hwf Hc Hr) as (p & n & E & Hwf' & Hp).
    eexists. split_and!; [exact E|done|done|done|done].
Qed.

(** After any sequence of accounted frames the phase 0 counters are exact:
    every per-variant byte counter is the sum of the lengths of the frames of
    that variant modulo 2^32, every frame counter their number modulo 2^16, no
    frame is counted in two variants, and the total is the sum over all. *)
Theorem phase0_counters_exact fs :
  phase0_exact fs (foldl (fun p f => phase0_account f.1 (zlen f.2) p) phase0_reset fs).
Proof.
  induction fs as [|f fs IH] using rev_ind; [apply phase0_exact_reset|].
  rewrite foldl_snoc. by apply phase0_exact_account.
Qed.
End Properties.

(** ** The properties at concrete inputs *)

Module Demo.
#[local] Existing Instances demo_nanopb demo_nanopb_ok list_ring list_ring_ok list_msgq
  list_msgq_ok.

(** A program of the three modules and a log of the phones served. *)
Record world := mk_world { dw_c : cache; dw_u : uart; dw_s : upstream; dw_log : list Z }.
#[local] Instance lens_c : Lens world cache.
Proof.
  refine {| lget := dw_c; lset c w := mk_world c (dw_u w) (dw_s w) (dw_log w) |};
    by intros; try destruct w.
Defined.
#[local] Instance lens_u : Lens world uart.
Proof.
  refine {| lget := dw_u; lset u w := mk_world (dw_c w) u (dw_s w) (dw_log w) |};
    by intros; try destruct w.
Defined.
#[local] Instance lens_s : Lens world upstream.
Proof.
  refine {| lget := dw_s; lset s w := mk_world (dw_c w) (dw_u w) s (dw_log w) |};
    by intros; try destruct w.
Defined.
#[local] Instance disj_cs : Disjoint_lens lens_c lens_s.
Proof. by split. Qed.
#[local] Instance disj_us : Disjoint_lens lens_u lens_s.
Proof. by split. Qed.
#[local] Instance disj_cu : Disjoint_lens lens_c lens_u.
Proof. by split. Qed.

Definition log_serve (c n : Z) : M world unit :=
  modify (fun w => mk_world (dw_c w) (dw_u w) (dw_s w) (dw_log w ++ [c])).
Lemma log_serve_natural c n : natural lens_s (log_serve c n).
Proof. by intros u w. Qed.

(** Fetching with nonce 7, phones 11 and 22 waiting. *)
Definition session : upstream :=
  upstream_boot <| s_state := UPSTREAM_FETCHING |> <| s_nonce := 7 |>
                <| s_pending := [11; 22; 0; 0; 0; 0] |> <| s_pending_count := 2 |>
                <| s_serve_cb := true |> <| s_keepalive_armed := true |>.
Definition w0 : world := mk_world cache_init uart_boot session [].

Lemma session_wf : up_wf session.
Proof. split; simpl; try done; try (vm_compute; split; congruence); by_eval. Qed.

Definition info7 : fromradio_info := fromradio_info_zero <| which_variant := 7 |>.
Definition cache_ready : cache := cache_init <| s_ready := 1 |>.
Definition w_served : world := mk_world cache_ready uart_boot session [11; 22].

Lemma upstream_on_fromradio_spec_witness :
  exists u', upstream_on_fromradio log_serve (7 :: le32 7) info7 w0
    = Some (true, mk_world cache_ready uart_boot u' [11; 22], [])
    /\ s_state u' = UPSTREAM_LIVE.
Proof.
  destruct (upstream_on_fromradio_spec (Lc := lens_c) (Ls := lens_s) log_serve log_serve_natural w0 (7 :: le32 7)
    info7 session_wf cache_init_wf ltac:(by_eval) ltac:(by_eval) w_served []
    ltac:(vm_compute; reflexivity)) as (u' & E & _ & Hs & _).
  exists u'. split; [exact E|exact Hs].
Defined.

Lemma upstream_session_start_spec_witness :
  exists w' t, upstream_session_start 1 (mk_world cache_init uart_boot upstream_boot [])
    = Some (tt, w', t) /\ s_state (dw_s w') = UPSTREAM_FETCHING /\ frames_of (dw_c w') = [].
Proof.
  destruct (upstream_session_start_spec (Lc := lens_c) (Lu := lens_u) (Ls := lens_s) (mk_world cache_init uart_boot upstream_boot []) 1
    upstream_boot_wf cache_init_wf uart_boot_tx_ok ltac:(by_eval))
    as (w' & t & E & _ & _ & _ & _ & _ & Hf & _ & Hs & _).
  exists w', t. split; [exact E|]. split; [exact Hs|exact Hf].
Defined.

Definition w_wrap : world :=
  mk_world cache_init uart_boot (session <| s_keepalive_nonce := 4294967295 |>) [].
Lemma wrap_wf : up_wf (session <| s_keepalive_nonce := 4294967295 |>).
Proof. destruct session_wf. split; simpl; try done. Qed.

Lemma keepalive_work_handler_spec_witness :
  exists w' t, keepalive_work_handler w_wrap = Some (tt, w', t)
    /\ s_keepalive_nonce (dw_s w') = 2 /\ s_keepalive_pending (dw_s w') = true.
Proof.
  destruct (keepalive_work_handler_spec (Lc := lens_c) (Lu := lens_u) (Ls := lens_s) w_wrap wrap_wf uart_boot_tx_ok)
    as (w' & t & E & _ & _ & _ & _ & Hn & Hp & _).
  exists w', (t ++ [IoKeepalive UPSTREAM_KEEPALIVE_MS]).
  split; [exact E|]. split; [exact Hn|exact Hp].
Defined.

Lemma upstream_on_pending_phone_spec_witness :
  exists u', upstream_on_pending_phone log_serve 33 w0 = Some (tt, mk_world cache_init uart_boot u' [], [])
    /\ pending u' = [11; 22; 33].
Proof.
  destruct (upstream_on_pending_phone_spec (Lc := lens_c) (Ls := lens_s) log_serve w0 33 session_wf)
    as (u' & E & _ & Hp & _).
  exists u'. split; [exact E|exact Hp].
Defined.

(** Two node_info frames and a packet. *)
Lemma phase0_counters_exact_witness :
  phase0_exact [(4, [4; 8]); (4, [4; 8; 9]); (6, [6])]
    (foldl (fun p f => phase0_account f.1 (zlen f.2) p) phase0_reset
       [(4, [4; 8]); (4, [4; 8; 9]); (6, [6])]).
Proof. exact (@phase0_counters_exact demo_nanopb _ [(4, [4; 8]); (4, [4; 8; 9]); (6, [6])]). Defined.
End Demo.
