(* ===== verification/Phase0Report.v ===== *)
(** * Phase0Report: the dump of the burst counters ([log_phase0_breakdown] of
    src/src/upstream_session.c)

    The lines the function logs when the burst is complete, as numbers; the
    program's state is not touched, so the session's model leaves the call out.
    The report is consistent: the lines add up to the total printed below
    them. *)

From stdpp Require Import prelude.
From S2P Require Import Prelude Nanopb ConfigCache Zephyr UartMeshtastic ProtoHandler UpstreamSession.

Local Open Scope Z_scope.

(** What a line names. *)
Inductive report_label :=
  | RlMyInfo | RlDeviceuiConfig | RlNodeInfo | RlMetadata | RlChannel | RlConfig | RlModuleConfig
  | RlFileInfo | RlQueueStatus | RlOther.

(** "label: n frames, m B", or without the number of frames; the closing nonce;
    the total. *)
Inductive report_line :=
  | RlFrames (l : report_label) (frames bytes : Z)
  | RlBytes (l : report_label) (bytes : Z)
  | RlConfigCompleteId (nonce : Z)
  | RlTotal (bytes : Z).

Definition log_phase0_breakdown (p : phase0_stats) : list report_line :=
  [RlBytes RlMyInfo (my_info_bytes p);
   RlBytes RlDeviceuiConfig (deviceuiConfig_bytes p);
   RlFrames RlNodeInfo (node_info_count p) (node_info_bytes p);
   RlBytes RlMetadata (metadata_bytes p);
   RlFrames RlChannel (channel_count p) (channel_bytes p);
   RlFrames RlConfig (config_count p) (config_bytes p);
   RlFrames RlModuleConfig (moduleConfig_count p) (moduleConfig_bytes p);
   RlFrames RlFileInfo (fileInfo_count p) (fileInfo_bytes p);
   RlFrames RlQueueStatus (queueStatus_count p) (queueStatus_bytes p)]
  ++ (if decide (other_count p <> 0) then [RlFrames RlOther (other_count p) (other_bytes p)] else [])
  ++ [RlConfigCompleteId (p0_config_complete_id p); RlTotal (UpstreamSession.total_bytes p)].

(** The bytes of a line of a kind of frame. *)
Definition line_bytes (l : report_line) : Z :=
  match l with RlFrames _ _ n | RlBytes _ n => n | _ => 0 end.
Definition lines_sum (ls : list report_line) : Z := foldr Z.add 0 (line_bytes <$> ls).

(** All the byte counters. *)
Definition counted (p : phase0_stats) : Z :=
  my_info_bytes p + deviceuiConfig_bytes p + node_info_bytes p + metadata_bytes p + channel_bytes p
  + config_bytes p + moduleConfig_bytes p + fileInfo_bytes p + queueStatus_bytes p + other_bytes p.

Lemma u32_turns x : exists q, u32 x = x + q * 2 ^ 32.
Proof. exists (- (x / 2 ^ 32)). unfold u32, wrap. pose proof (Z.div_mod x (2 ^ 32)). lia. Qed.
Lemma u32_same a b q : a = b + q * 2 ^ 32 -> u32 a = u32 b.
Proof. intros ->. unfold u32, wrap. by rewrite Z_mod_plus_full. Qed.

Section Report.
Context `{NanopbOk}.

Lemma counted_account v len p :
  u32 (counted p) = UpstreamSession.total_bytes p ->
  u32 (counted (phase0_account v len p)) = UpstreamSession.total_bytes (phase0_account v len p).
Proof.
  intros E. assert (u32 (counted p + len) = u32 (UpstreamSession.total_bytes p + len)) as Hsum.
  { rewrite <- E. destruct (u32_turns (counted p)) as [q Eq]. apply (u32_same _ _ (- q)). lia. }
  unfold phase0_account. repeat case_decide; simpl; rewrite <- Hsum; unfold counted; simpl.
  all: match goal with |- u32 ?a = _ =>
         match a with context [u32 ?x] => destruct (u32_turns x) as [q ->] end end.
  all: apply (u32_same _ _ q); lia.
Qed.

Lemma counted_burst (fs : list frame) :
  let p := foldl (fun p f => phase0_account f.1 (zlen f.2) p) phase0_reset fs in
  u32 (counted p) = UpstreamSession.total_bytes p.
Proof.
  simpl. induction fs as [|f fs IH] using rev_ind; [done|]. rewrite foldl_snoc. by apply counted_account.
Qed.

(** The dump adds up: after a burst of fewer than 2^16 frames the bytes of its
    lines are, modulo 2^32, the total it ends with, which counts every frame of
    the burst; the line of the frames of no listed kind is left out only when
    there were none. *)
Theorem phase0_report_adds_up (fs : list frame) nonce :
  zlen fs < 65536 ->
  let p := foldl (fun p f => phase0_account f.1 (zlen f.2) p) phase0_reset fs in
  let report := log_phase0_breakdown (p <| p0_config_complete_id := nonce |>) in
  last report = Some (RlTotal (bytes_sum fs)) /\ u32 (lines_sum report) = bytes_sum fs.
Proof.
  intros Hn p report. pose proof (phase0_counters_exact fs) as Hp. pose proof (counted_burst fs) as Hc.
  fold p in Hp, Hc. cbv zeta in Hc. destruct Hp.
  assert (other_count p = 0 -> other_bytes p = 0) as Ho.
  { rewrite p0_other, p0_other_n. unfold frame_count. rewrite u16_id.
    - intros Hz. by rewrite (nil_length_inv (not_enumerated fs)) by (unfold zlen in Hz; lia).
    - pose proof (length_filter (fun f : frame => f.1 ∉ enumerated) fs).
      pose proof (zlen_nonneg (not_enumerated fs)). unfold not_enumerated, zlen in *. lia. }
  rewrite <- p0_total. split.
  - subst report. unfold log_phase0_breakdown. rewrite !app_assoc.
    change [?a; ?b] with ([a] ++ [b]). by rewrite app_assoc, last_snoc.
  - rewrite <- Hc. unfold report, log_phase0_breakdown, lines_sum, counted. f_equal.
    change (other_count (p <| p0_config_complete_id := nonce |>)) with (other_count p).
    clearbody p. case_decide as Hd; simpl; [lia|]. rewrite (Ho ltac:(lia)). lia.
Qed.
End Report.
