(* ===== verification/BleGatt.v ===== *)
(** * BleGatt: the GATT server and its per-phone state (src/src/ble_gatt.c)

    [ble] is the module's static variables; a [struct proxy_conn *] is the
    index of its slot in [conns].  Operations that stay in the module run in
    [M ble]; those that read the cache or call the session run in the whole
    program [W].  The mutex of slot [i] is the pair of calls [IoLock i],
    [IoUnlock i].  The service definition and the advertising data are in
    GattTable; log lines have no effect and are left out. *)

From stdpp Require Import prelude.
From S2P Require Import Prelude ProxyProtocol Nanopb ConfigCache Zephyr UartMeshtastic.
From S2P Require Import ProtoHandler UpstreamSession.

Local Open Scope Z_scope.

Definition MAX_BLE_CONNECTIONS : Z := CONFIG_BT_MAX_CONN.
Definition FROMRADIO_QUEUE_DEPTH : Z := 8.
Definition FROMRADIO_MAX_PKT_SIZE : Z := 512.

Inductive phone_state :=
  | PHONE_CONNECTED | PHONE_AWAIT_WANT_CONFIG | PHONE_PENDING | PHONE_REPLAYING | PHONE_ACTIVE.
#[export] Instance phone_state_eq_dec : EqDecision phone_state.
Proof. solve_decision. Defined.

(** [struct pkt_entry] *)
Record pkt_entry := mk_pkt { pkt_data : list Z; pkt_len : Z }.

(** [struct proxy_conn] *)
Record proxy_conn := mk_conn {
  conn : bt_conn;
  pc_proxy_id : proxy_id;
  fromnum : Z;
  pc_state : phone_state;
  pc_nonce : Z;
  replay_cursor : Z;
  cc_frame : list Z;
  cc_len : Z;
  queue : list pkt_entry;
  head : Z;
  tail : Z;
  count : Z;
  staged : list Z;
  staged_len : Z;
}.
#[export] Instance eta_conn : Eta proxy_conn := fun p =>
  mk_conn (conn p) (pc_proxy_id p) (fromnum p) (pc_state p) (pc_nonce p) (replay_cursor p)
    (cc_frame p) (cc_len p) (queue p) (head p) (tail p) (count p) (staged p) (staged_len p).

Record ble := mk_ble {
  conns : list proxy_conn;
  active_conn_count : Z;
  toradio_handler_set : bool;
  led_fromradio_active : Z;
  led_toradio_active : Z;
  s_qs : list Z;                (* statics of ble_gatt_reply_queuestatus *)
  s_qs_len : Z;
}.
#[export] Instance eta_ble : Eta ble := fun b =>
  mk_ble (conns b) (active_conn_count b) (toradio_handler_set b) (led_fromradio_active b)
    (led_toradio_active b) (s_qs b) (s_qs_len b).

(** Zeroed storage. *)
Definition id_zero : proxy_id := mk_proxy_id (replicate (Z.to_nat PROXY_ID_SIZE) 0).
Definition conn_boot : proxy_conn :=
  mk_conn NULL id_zero 0 PHONE_CONNECTED 0 0 (replicate 16 0) 0
    (replicate (Z.to_nat FROMRADIO_QUEUE_DEPTH)
       (mk_pkt (replicate (Z.to_nat FROMRADIO_MAX_PKT_SIZE) 0) 0)) 0 0 0
    (replicate (Z.to_nat FROMRADIO_MAX_PKT_SIZE) 0) 0.
Definition ble_boot : ble :=
  mk_ble (replicate (Z.to_nat MAX_BLE_CONNECTIONS) conn_boot) 0 false 0 0 (replicate 16 0) 0.

(** ** Slots *)

(** The first slot from index [i] on whose [conn] is [c]. *)
Fixpoint find_from (l : list proxy_conn) (c : bt_conn) (i : nat) : option nat :=
  match l with
  | [] => None
  | pc :: l => if decide (conn pc = c) then Some i else find_from l c (S i)
  end.
Definition find_slot (c : bt_conn) (b : ble) : option nat := find_from (conns b) c 0.

(** [conns[i]], and an assignment to its fields. *)
Definition get_slot (i : nat) : M ble proxy_conn := b <- gets id ;; oget (conns b !! i).
Definition upd_slot (i : nat) (f : proxy_conn -> proxy_conn) : M ble unit :=
  modify (fun b => b <| conns := alter f i (conns b) |>).

(** The fields [alloc_slot] and [free_slot] reset. *)
Definition reset_slot (pc : proxy_conn) : proxy_conn :=
  pc <| pc_proxy_id := id_zero |> <| fromnum := 0 |> <| head := 0 |> <| tail := 0 |>
     <| count := 0 |> <| staged_len := 0 |> <| pc_state := PHONE_CONNECTED |>
     <| pc_nonce := 0 |> <| replay_cursor := 0 |>.

(** [bt_conn_ref] returns its argument. *)
Definition alloc_slot (c : bt_conn) : M ble (option nat) :=
  b <- gets id ;;
  match find_from (conns b) NULL 0 with
  | Some i =>
      emit (IoConnRef c) ;;;
      upd_slot i (fun pc => reset_slot (pc <| conn := c |>)) ;;;
      ret (Some i)
  | None => ret None
  end.

Definition free_slot (i : nat) : M ble unit :=
  pc <- get_slot i ;;
  (if decide (conn pc <> NULL)
   then emit (IoConnUnref (conn pc)) ;;; upd_slot i (fun pc => pc <| conn := NULL |>)
   else ret tt) ;;;
  upd_slot i reset_slot.

(** ** LEDs *)

Definition ble_led_blink_work : M ble unit :=
  b <- gets id ;;
  modify (fun b => b <| led_fromradio_active := 0 |>) ;;;
  emit (led_blink_tick led0 (led_fromradio_active b)) ;;;
  modify (fun b => b <| led_toradio_active := 0 |>) ;;;
  emit (led_blink_tick led1 (led_toradio_active b)) ;;;
  emit (IoBlink ble_blinker LED_BLINK_PERIOD_MS).

(** ** Advertising and connections; [adv_err] is the result of [bt_le_adv_start] *)

Definition ble_gatt_start_advertising (adv_err : rc) : M ble rc :=
  emit IoAdvStart ;;;
  if decide (adv_err <> rc_ok /\ adv_err <> rc_err EALREADY) then ret adv_err else ret rc_ok.

Definition on_connected (c : bt_conn) (err : Z) (adv_err : rc) : M ble unit :=
  if decide (err <> 0) then ret tt
  else
    slot <- alloc_slot c ;;
    match slot with
    | None => emit (IoDisconnect c)
    | Some _ =>
        modify (fun b => b <| active_conn_count := u8 (active_conn_count b + 1) |>) ;;;
        b <- gets id ;;
        if decide (active_conn_count b < MAX_BLE_CONNECTIONS)
        then ble_gatt_start_advertising adv_err ;;; ret tt
        else ret tt
    end.

Definition on_disconnected (c : bt_conn) (adv_err : rc) : M ble unit :=
  b <- gets id ;;
  match find_slot c b with
  | Some i =>
      free_slot i ;;;
      modify (fun b => b <| active_conn_count := u8 (active_conn_count b - 1) |>)
  | None => ret tt
  end ;;;
  ble_gatt_start_advertising adv_err ;;;
  ret tt.

Definition ble_gatt_init (leds_ready : bool) : M ble rc :=
  (if leds_ready then
     emit (IoGpioConfigure led0) ;;;
     emit (IoGpioConfigure led1) ;;;
     emit (IoBlink ble_blinker LED_BLINK_PERIOD_MS)
   else ret tt) ;;;
  modify (fun b => b <| toradio_handler_set := true |>) ;;;
  mfor (fun i => emit (IoMutexInit i)) (seq 0 (Z.to_nat MAX_BLE_CONNECTIONS)) ;;;
  ret rc_ok.

(** ** Outbound packets *)

Definition ble_gatt_enqueue_fromradio (c : bt_conn) (data : list Z) : M ble rc :=
  if decide (FROMRADIO_MAX_PKT_SIZE < zlen data) then ret (rc_err EMSGSIZE)
  else
    b <- gets id ;;
    match find_slot c b with
    | None => ret (rc_err ENOENT)
    | Some i =>
        emit (IoLock i) ;;;
        pc <- get_slot i ;;
        if decide (FROMRADIO_QUEUE_DEPTH <= count pc) then
          emit (IoUnlock i) ;;;
          ret (rc_err ENOMEM)
        else
          slot <- oget (mem_get (queue pc) (tail pc)) ;;
          d <- oget (mem_write (pkt_data slot) 0 data) ;;
          q <- oget (mem_set (queue pc) (tail pc) (mk_pkt d (zlen data))) ;;
          upd_slot i (fun pc => pc <| queue := q |>
            <| tail := (tail pc + 1) mod FROMRADIO_QUEUE_DEPTH |>
            <| count := u8 (count pc + 1) |>
            <| fromnum := u32 (fromnum pc + 1) |>) ;;;
          pc <- get_slot i ;;
          let fromnum_val := fromnum pc in
          emit (IoUnlock i) ;;;
          emit (IoNotify c fromnum_val) ;;;
          ret rc_ok
    end.

(** [for (i ...; i++) if (conns[i].conn) ...], over the indices [slots]. *)
Fixpoint broadcast_from (slots : list nat) (data : list Z) (sent : Z) : M ble Z :=
  match slots with
  | [] => ret sent
  | i :: slots =>
      pc <- get_slot i ;;
      if decide (conn pc <> NULL) then
        err <- ble_gatt_enqueue_fromradio (conn pc) data ;;
        if decide (err <> rc_ok) then broadcast_from slots data sent
        else broadcast_from slots data (sent + 1)
      else broadcast_from slots data sent
  end.
Definition ble_gatt_broadcast_fromradio (data : list Z) : M ble Z :=
  broadcast_from (seq 0 (Z.to_nat MAX_BLE_CONNECTIONS)) data 0.

(** ** Proxy identifiers *)

(** [NULL] when there is none; [None] is an out-of-bounds access. *)
Fixpoint proxy_conn_from (l : list proxy_conn) (id : proxy_id) : option bt_conn :=
  match l with
  | [] => Some NULL
  | pc :: l =>
      if decide (conn pc <> NULL) then
        e ← proxy_id_equal (pc_proxy_id pc) id;
        if (e : bool) then Some (conn pc) else proxy_conn_from l id
      else proxy_conn_from l id
  end.
Definition ble_gatt_get_conn_by_proxy_id (id : proxy_id) (b : ble) : option bt_conn :=
  z ← proxy_id_is_zero id;
  if (z : bool) then Some NULL else proxy_conn_from (conns b) id.

Definition ble_gatt_register_proxy_id (c : bt_conn) (id : proxy_id) : M ble rc :=
  b <- gets Datatypes.id ;;
  match find_slot c b with
  | None => ret (rc_err ENOENT)
  | Some i =>
      bytes <- oget (mem_read (id_bytes id) 0 PROXY_ID_SIZE) ;;
      upd_slot i (fun pc => pc <| pc_proxy_id := mk_proxy_id bytes |>) ;;;
      ret rc_ok
  end.

Definition node_reg_write (c : bt_conn) (buf : list Z) (offset : Z) : M ble (att_res Z) :=
  if decide (offset <> 0 \/ zlen buf <> PROXY_ID_SIZE)
  then ret (att_error BT_ATT_ERR_INVALID_ATTRIBUTE_LEN)
  else
    bytes <- oget (mem_read buf 0 PROXY_ID_SIZE) ;;
    ble_gatt_register_proxy_id c (mk_proxy_id bytes) ;;;
    ret (att_ok (zlen buf)).

(** ** Replies built by the proxy *)

Section Replies.
Context `{Nanopb}.

Definition ble_gatt_replay_cached_burst (c : bt_conn) (nonce : Z) : M ble unit :=
  b <- gets id ;;
  match find_slot c b with
  | None => ret tt
  | Some i =>
      (if decide (nonce <> 0) then upd_slot i (fun pc => pc <| pc_nonce := nonce |>)
       else ret tt) ;;;
      pc <- get_slot i ;;
      let nonce := pc_nonce pc in
      r <- oget (proto_encode_config_complete nonce (cc_frame pc) 16 0) ;;
      let '(enc, frame, cc_len') := r in
      upd_slot i (fun pc => pc <| cc_frame := frame |>) ;;;
      if decide (enc <> rc_ok) then ret tt
      else
        emit (IoLock i) ;;;
        upd_slot i (fun pc => pc <| cc_len := u8 cc_len' |> <| replay_cursor := 0 |>
          <| pc_state := PHONE_REPLAYING |> <| fromnum := u32 (fromnum pc + 1) |>) ;;;
        pc <- get_slot i ;;
        let fromnum_val := fromnum pc in
        emit (IoUnlock i) ;;;
        emit (IoNotify c fromnum_val)
  end.

Definition ble_gatt_reply_queuestatus (c : bt_conn) : M ble unit :=
  b <- gets id ;;
  ok <- (if decide (s_qs_len b = 0) then
           r <- oget (proto_encode_queue_status (s_qs b) 16 (s_qs_len b)) ;;
           let '(rc, qs, len) := r in
           modify (fun b => b <| s_qs := qs |> <| s_qs_len := len |>) ;;;
           if decide (rc <> rc_ok) then modify (fun b => b <| s_qs_len := 0 |>) ;;; ret false
           else ret true
         else ret true) ;;
  if negb ok then ret tt
  else
    b <- gets id ;;
    p <- oget (mem_read (s_qs b) 0 (s_qs_len b)) ;;
    ble_gatt_enqueue_fromradio c p ;;;
    ret tt.
End Replies.

(** ** GATT reads and writes *)

Section Attributes.
Context `{GattRead}.

Definition fromnum_read (c : bt_conn) (len offset : Z) : M ble (att_res (list Z)) :=
  b <- gets id ;;
  match find_slot c b with
  | None => ret (att_error BT_ATT_ERR_UNLIKELY)
  | Some i =>
      modify (fun b => b <| led_fromradio_active := 1 |>) ;;;
      pc <- get_slot i ;;
      ret (bt_gatt_attr_read len offset (le32 (fromnum pc)))
  end.

Definition logradio_read (c : bt_conn) (len offset : Z) : M ble (att_res (list Z)) :=
  ret (att_ok []).

Section Program.
Context `{Nanopb} {W : Type} `{!Lens W cache, !Lens W upstream, Lb : !Lens W ble}.
(** The function registered by [ble_gatt_init]. *)
Context (toradio_handler : bt_conn -> list Z -> M W unit).

(** [while (cursor < n && !cache_frame_in_segment(cursor, nonce)) cursor++;] *)
Fixpoint skip_loop (fuel : nat) (i : nat) (n : Z) : M W unit :=
  match fuel with
  | O => oget None
  | S fuel =>
      pc <- zoom (get_slot i) ;;
      if decide (replay_cursor pc < n) then
        c <- zoom (gets (id : cache -> cache)) ;;
        seg <- oget (cache_frame_in_segment (replay_cursor pc) (pc_nonce pc) c) ;;
        if (seg : bool) then ret tt
        else
          zoom (upd_slot i (fun pc => pc <| replay_cursor := u16 (replay_cursor pc + 1) |>)) ;;;
          skip_loop fuel i n
      else ret tt
  end.

(** The index holds at most [CONFIG_CACHE_MAX_FRAMES] frames. *)
Definition skip_fuel : nat := S (Z.to_nat CONFIG_CACHE_MAX_FRAMES).

(** A read at offset 0 stages the next packet of slot [i]. *)
Definition stage_replay (i : nat) : M W unit :=
  n <- zoom (gets cache_frame_count) ;;
  skip_loop skip_fuel i n ;;;
  pc <- zoom (get_slot i) ;;
  if decide (replay_cursor pc < n) then
    c <- zoom (gets (id : cache -> cache)) ;;
    ref <- oget (cache_frame_at (replay_cursor pc) c) ;;
    match ref with
    | Some r =>
        ptr <- oget (cache_frame_bytes (Some r)) ;;
        bytes <- oget (arena_read c ptr (len r)) ;;
        st <- oget (mem_write (staged pc) 0 bytes) ;;
        zoom (upd_slot i (fun pc => pc <| staged := st |> <| staged_len := len r |>))
    | None => zoom (upd_slot i (fun pc => pc <| staged_len := 0 |>))
    end ;;;
    zoom (upd_slot i (fun pc => pc <| replay_cursor := u16 (replay_cursor pc + 1) |>))
  else if decide (replay_cursor pc = n) then
    bytes <- oget (mem_read (cc_frame pc) 0 (cc_len pc)) ;;
    st <- oget (mem_write (staged pc) 0 bytes) ;;
    zoom (upd_slot i (fun pc => pc <| staged := st |> <| staged_len := cc_len pc |>
                                   <| replay_cursor := u16 (replay_cursor pc + 1) |>))
  else
    zoom (upd_slot i (fun pc => pc <| pc_state := PHONE_ACTIVE |> <| staged_len := 0 |>)).

Definition stage_queue (i : nat) : M ble unit :=
  pc <- get_slot i ;;
  if decide (0 < count pc) then
    pkt <- oget (mem_get (queue pc) (head pc)) ;;
    bytes <- oget (mem_read (pkt_data pkt) 0 (pkt_len pkt)) ;;
    st <- oget (mem_write (staged pc) 0 bytes) ;;
    upd_slot i (fun pc => pc <| staged := st |> <| staged_len := pkt_len pkt |>
      <| head := (head pc + 1) mod FROMRADIO_QUEUE_DEPTH |>
      <| count := u8 (count pc - 1) |>)
  else upd_slot i (fun pc => pc <| staged_len := 0 |>).

Definition fromradio_read (c : bt_conn) (len offset : Z) : M W (att_res (list Z)) :=
  b <- zoom (gets (id : ble -> ble)) ;;
  match find_slot c b with
  | None => ret (att_error BT_ATT_ERR_UNLIKELY)
  | Some i =>
      emit (IoLock i) ;;;
      (if decide (offset = 0) then
         pc <- zoom (get_slot i) ;;
         if decide (pc_state pc = PHONE_REPLAYING) then stage_replay i
         else zoom (stage_queue i)
       else ret tt) ;;;
      pc <- zoom (get_slot i) ;;
      result <- (if decide (0 < staged_len pc) then
                   v <- oget (mem_read (staged pc) 0 (staged_len pc)) ;;
                   ret (bt_gatt_attr_read len offset v)
                 else ret (att_ok [])) ;;
      emit (IoUnlock i) ;;;
      ret result
  end.

Definition toradio_write (c : bt_conn) (buf : list Z) (offset : Z) : M W (att_res Z) :=
  if decide (offset <> 0) then ret (att_error BT_ATT_ERR_INVALID_OFFSET)
  else
    zoom (modify (fun b : ble => b <| led_toradio_active := 1 |>)) ;;;
    b <- zoom (gets (id : ble -> ble)) ;;
    (if toradio_handler_set b then toradio_handler c buf else ret tt) ;;;
    ret (att_ok (zlen buf)).

Definition ble_gatt_park_pending (c : bt_conn) (nonce : Z) : M W unit :=
  b <- zoom (gets (id : ble -> ble)) ;;
  match find_slot c b with
  | None => ret tt
  | Some i =>
      zoom (upd_slot i (fun pc => pc <| pc_state := PHONE_PENDING |>
                                     <| pc_nonce := nonce |>)) ;;;
      upstream_on_pending_phone (fun c n => zoom (ble_gatt_replay_cached_burst c n)) c
  end.
End Program.
End Attributes.

(** ** Invariant and abstract view *)

Definition pkt_ok (p : pkt_entry) : Prop :=
  zlen (pkt_data p) = FROMRADIO_MAX_PKT_SIZE /\ 0 <= pkt_len p <= FROMRADIO_MAX_PKT_SIZE.
Definition pkt_bytes (p : pkt_entry) : list Z := take (Z.to_nat (pkt_len p)) (pkt_data p).

(** The packets queued for a phone, in order. *)
Definition pkt_at (pc : proxy_conn) (k : nat) : list Z :=
  default [] (pkt_bytes
    <$> queue pc !! Z.to_nat ((head pc + Z.of_nat k) mod FROMRADIO_QUEUE_DEPTH)).
Definition pkts (pc : proxy_conn) : list (list Z) := pkt_at pc <$> seq 0 (Z.to_nat (count pc)).

Record slot_wf (pc : proxy_conn) : Prop := {
  sw_id : id_ok (pc_proxy_id pc);
  sw_fromnum : fits 32 (fromnum pc);
  sw_nonce : fits 32 (pc_nonce pc);
  sw_cursor : 0 <= replay_cursor pc <= CONFIG_CACHE_MAX_FRAMES + 1;
  sw_cc : zlen (cc_frame pc) = 16 /\ bytes_ok (cc_frame pc);
  sw_cc_len : 0 <= cc_len pc <= 16;
  sw_queue : zlen (queue pc) = FROMRADIO_QUEUE_DEPTH;
  sw_pkts : Forall pkt_ok (queue pc);
  sw_head : 0 <= head pc < FROMRADIO_QUEUE_DEPTH;
  sw_count : 0 <= count pc <= FROMRADIO_QUEUE_DEPTH;
  sw_tail : tail pc = (head pc + count pc) mod FROMRADIO_QUEUE_DEPTH;
  sw_staged : zlen (staged pc) = FROMRADIO_MAX_PKT_SIZE;
  sw_staged_len : 0 <= staged_len pc <= FROMRADIO_MAX_PKT_SIZE;
}.

(** The number of slots in use. *)
Definition in_use (l : list proxy_conn) : Z := zlen (filter (fun pc => conn pc <> NULL) l).

(** No connection has two slots. *)
Definition distinct (l : list proxy_conn) : Prop :=
  forall i j p q, l !! i = Some p -> l !! j = Some q -> conn p = conn q -> conn p <> NULL -> i = j.

Section Invariant.
Context `{Nanopb}.

(** A phone being replayed to has its closing frame encoded. *)
Definition armed (pc : proxy_conn) : Prop :=
  0 < cc_len pc /\ pb_decode_FromRadio (take (Z.to_nat (cc_len pc)) (cc_frame pc))
                   = Some (msg_config_complete (pc_nonce pc)).

Record ble_wf (b : ble) : Prop := {
  bw_size : length (conns b) = Z.to_nat MAX_BLE_CONNECTIONS;
  bw_slots : Forall slot_wf (conns b);
  bw_armed : Forall (fun pc => pc_state pc = PHONE_REPLAYING -> armed pc) (conns b);
  bw_distinct : distinct (conns b);
  bw_active : active_conn_count b = in_use (conns b);
  bw_qs : zlen (s_qs b) = 16 /\ bytes_ok (s_qs b) /\ 0 <= s_qs_len b <= 16;
  bw_qs_msg : s_qs_len b <> 0 ->
    pb_decode_FromRadio (take (Z.to_nat (s_qs_len b)) (s_qs b)) = Some msg_queue_status;
}.
End Invariant.

(** ** Lemmas on slots *)

Lemma find_from_spec l c k i :
  find_from l c k = Some i <->
  (k <= i)%nat /\ (exists pc, l !! (i - k)%nat = Some pc /\ conn pc = c)
  /\ (forall j pc, (j < i - k)%nat -> l !! j = Some pc -> conn pc <> c).
Proof.
  revert k. induction l as [|p l IH]; intros k; simpl.
  - split; [done|]. intros (_ & (pc & E & _) & _). by rewrite lookup_nil in E.
  - case_decide as Hp.
    + split.
      * intros [= <-]. rewrite Nat.sub_diag. split_and!; [lia|by exists p|lia].
      * intros (Hk & _ & Hmin). f_equal. destruct (decide (k = i)) as [|Hne]; [done|].
        destruct (Hmin 0%nat p); [lia|done|done].
    + rewrite IH. split.
      * intros (Hk & (pc & E & Hc) & Hmin). split_and!; [lia| |].
        -- exists pc. replace (i - k)%nat with (S (i - S k)) by lia. done.
        -- intros [|j] q Hj Hq; simplify_eq/=; [done|]. apply (Hmin j); [lia|done].
      * intros (Hk & (pc & E & Hc) & Hmin). destruct (decide (k = i)) as [->|Hne].
        { rewrite Nat.sub_diag in E. by simplify_eq/=. }
        split_and!; [lia| |].
        -- exists pc. replace (i - k)%nat with (S (i - S k)) in E by lia. done.
        -- intros j q Hj Hq. apply (Hmin (S j)); [lia|done].
Qed.

Lemma find_from_None l c k : find_from l c k = None <-> forall pc, pc ∈ l -> conn pc <> c.
Proof.
  revert k. induction l as [|p l IH]; intros k; simpl.
  - split; [|done]. intros _ pc []%not_elem_of_nil.
  - case_decide as Hp.
    + split; [done|]. intros Hn. by destruct (Hn p (list_elem_of_here _ _)).
    + rewrite IH. split.
      * intros Hn pc [->|?]%elem_of_cons; auto.
      * intros Hn pc ?. apply Hn. by right.
Qed.

Lemma find_slot_lookup c b i :
  find_slot c b = Some i -> exists pc, conns b !! i = Some pc /\ conn pc = c.
Proof.
  intros (_ & (pc & E & Hc) & _)%find_from_spec. rewrite Nat.sub_0_r in E. eauto.
Qed.

(** A connection's slot is the one found. *)
Lemma find_slot_unique b i pc :
  distinct (conns b) -> conns b !! i = Some pc -> conn pc <> NULL ->
  find_slot (conn pc) b = Some i.
Proof.
  intros Hd Hi Hc. apply find_from_spec. rewrite Nat.sub_0_r. split_and!; [lia|eauto|].
  intros j q Hj Hq E. assert (j = i) as ->; [|lia]. eapply Hd; eauto. by rewrite E.
Qed.

Lemma alter_insert_eq (l : list proxy_conn) i f pc :
  l !! i = Some pc -> alter f i l = <[i := f pc]> l.
Proof.
  intros Hi. apply list_eq. intros j. destruct (decide (i = j)) as [<-|Hne].
  - rewrite list_lookup_alter_eq, Hi, list_lookup_insert_eq; [done|by eapply lookup_lt_Some].
  - by rewrite list_lookup_alter_ne, list_lookup_insert_ne.
Qed.

Section RunSlots.
Context {B : Type}.
Lemma run_get_slot b i pc (k : proxy_conn -> M ble B) :
  conns b !! i = Some pc -> bind (get_slot i) k b = k pc b.
Proof.
  intros E. unfold get_slot. rewrite run_assoc, run_gets. unfold id. by rewrite E, run_oget.
Qed.
Lemma run_upd_slot b i pc f (k : unit -> M ble B) :
  conns b !! i = Some pc ->
  bind (upd_slot i f) k b = k tt (b <| conns := <[i := f pc]> (conns b) |>).
Proof. intros E. unfold upd_slot. rewrite run_modify. by erewrite alter_insert_eq. Qed.
End RunSlots.

Lemma upd_slot_eq b i pc f :
  conns b !! i = Some pc ->
  upd_slot i f b = Some (tt, b <| conns := <[i := f pc]> (conns b) |>, []).
Proof. intros E. unfold upd_slot, modify. by erewrite alter_insert_eq. Qed.

(** Replacing a slot that keeps its connection. *)
Lemma in_use_insert l i pc pc' :
  l !! i = Some pc ->
  in_use (<[i := pc']> l) = in_use l - (if decide (conn pc = NULL) then 0 else 1)
                            + (if decide (conn pc' = NULL) then 0 else 1).
Proof.
  revert i. unfold in_use. induction l as [|q l IH]; intros [|i] E; simplify_eq/=.
  - rewrite !filter_cons. repeat case_decide; rewrite ?zlen_cons; first [lia|tauto].
  - rewrite !filter_cons. specialize (IH i E).
    destruct (decide (conn q <> NULL)); rewrite ?zlen_cons; lia.
Qed.

Lemma distinct_insert l i pc pc' :
  distinct l -> l !! i = Some pc -> conn pc' = conn pc \/ conn pc' = NULL ->
  distinct (<[i := pc']> l).
Proof.
  intros Hd Hi Hc j k p q Hj Hk E Hn.
  assert (forall m r, <[i := pc']> l !! m = Some r -> conn r <> NULL ->
            exists r', l !! m = Some r' /\ conn r' = conn r) as Hr.
  { intros m r Hm Hr. destruct (decide (i = m)) as [<-|].
    - rewrite list_lookup_insert_eq in Hm by by eapply lookup_lt_Some. simplify_eq.
      exists pc. destruct Hc; [done|congruence].
    - rewrite list_lookup_insert_ne in Hm by done. eauto. }
  destruct (Hr j p Hj Hn) as (p' & Hp' & Ep). destruct (Hr k q Hk) as (q' & Hq' & Eq); [congruence|].
  eapply Hd; [exact Hp'|exact Hq'| |]; congruence.
Qed.

Lemma distinct_cons pc l : distinct (pc :: l) -> distinct l.
Proof. intros Hd i j p q Hi Hj E Hn. by pose proof (Hd (S i) (S j) p q Hi Hj E Hn) as [= ->]. Qed.

Lemma distinct_new l i pc pc' :
  distinct l -> l !! i = Some pc -> (forall q, q ∈ l -> conn q <> conn pc') ->
  distinct (<[i := pc']> l).
Proof.
  intros Hd Hi Hnew j k p q Hj Hk E Hne.
  assert (forall m r, <[i := pc']> l !! m = Some r ->
            m = i /\ conn r = conn pc' \/ m <> i /\ l !! m = Some r) as Hr.
  { intros m r Hm. destruct (decide (m = i)) as [->|Hmi].
    - rewrite list_lookup_insert_eq in Hm by by eapply lookup_lt_Some. simplify_eq. by left.
    - rewrite list_lookup_insert_ne in Hm by done. by right. }
  destruct (Hr j p Hj) as [[-> Hpc]|[Hji Hp']], (Hr k q Hk) as [[-> Hqc]|[Hki Hq']]; try done.
  - exfalso. apply (Hnew q); [by eapply list_elem_of_lookup_2|]. congruence.
  - exfalso. apply (Hnew p); [by eapply list_elem_of_lookup_2|]. congruence.
  - by eapply Hd.
Qed.

(** Distinctness is a matter of the addresses alone. *)
Lemma distinct_addrs l :
  (forall i j x, (conn <$> l) !! i = Some x -> (conn <$> l) !! j = Some x -> x <> NULL -> i = j) ->
  distinct l.
Proof.
  intros Hl i j p q Hi Hj E Hn. apply (Hl i j (conn p)); [| |done].
  - by rewrite list_lookup_fmap, Hi.
  - by rewrite list_lookup_fmap, Hj, E.
Qed.

Section Updates.
Context `{Nanopb}.

(** The invariant survives replacing a slot by a good one of the same phone. *)
Lemma ble_wf_insert b i pc pc' :
  ble_wf b -> conns b !! i = Some pc -> conn pc' = conn pc -> slot_wf pc' ->
  (pc_state pc' = PHONE_REPLAYING -> armed pc') ->
  ble_wf (b <| conns := <[i := pc']> (conns b) |>).
Proof.
  intros [Hs Hw Ha Hd Hn Hq Hqm] Hi Hc Hw' Ha'. split; try done; simpl.
  - by rewrite length_insert.
  - by apply Forall_insert.
  - by apply Forall_insert.
  - eapply distinct_insert; eauto.
  - rewrite (in_use_insert _ _ pc) by done. rewrite Hc, Hn. lia.
Qed.

Lemma ble_wf_slot b i pc : ble_wf b -> conns b !! i = Some pc -> slot_wf pc.
Proof. intros Hw Hi. by eapply Forall_lookup_1; [apply Hw|]. Qed.
Lemma ble_wf_armed b i pc :
  ble_wf b -> conns b !! i = Some pc -> pc_state pc = PHONE_REPLAYING -> armed pc.
Proof. intros Hw Hi. by eapply (Forall_lookup_1 _ _ _ _ (bw_armed _ Hw)). Qed.
End Updates.

(** ** The packet queue *)

(** The slot after [data] was queued. *)
Definition push_slot (data : list Z) (pc : proxy_conn) : proxy_conn :=
  match queue pc !! Z.to_nat (tail pc) with
  | None => pc
  | Some slot =>
      pc <| queue := <[Z.to_nat (tail pc) :=
                       mk_pkt (splice (pkt_data slot) 0 data) (zlen data)]> (queue pc) |>
         <| tail := (tail pc + 1) mod FROMRADIO_QUEUE_DEPTH |>
         <| count := count pc + 1 |>
         <| fromnum := u32 (fromnum pc + 1) |>
  end.

(** The slot after its first packet was staged. *)
Definition pop_slot (pc : proxy_conn) : proxy_conn :=
  match queue pc !! Z.to_nat (head pc) with
  | None => pc
  | Some pkt =>
      pc <| staged := splice (staged pc) 0 (pkt_bytes pkt) |> <| staged_len := pkt_len pkt |>
         <| head := (head pc + 1) mod FROMRADIO_QUEUE_DEPTH |>
         <| count := count pc - 1 |>
  end.

Lemma queue_lookup pc i :
  slot_wf pc -> 0 <= i < FROMRADIO_QUEUE_DEPTH ->
  exists p, queue pc !! Z.to_nat i = Some p /\ mem_get (queue pc) i = Some p /\ pkt_ok p.
Proof.
  intros W Hi. destruct (mem_get_Some (queue pc) i) as (p & Hp & Hl).
  { rewrite (sw_queue _ W). done. }
  exists p. split_and!; try done. by eapply Forall_lookup_1; [apply W|].
Qed.

Lemma tail_range pc : slot_wf pc -> 0 <= tail pc < FROMRADIO_QUEUE_DEPTH.
Proof. intros W. rewrite (sw_tail _ W). by apply Z.mod_pos_bound. Qed.

Lemma pkt_bytes_zlen p : pkt_ok p -> zlen (pkt_bytes p) = pkt_len p.
Proof. intros [Hd Hl]. apply zlen_take. lia. Qed.

Lemma zlen_pkts pc : slot_wf pc -> zlen (pkts pc) = count pc.
Proof.
  intros W. pose proof (sw_count _ W). unfold pkts, zlen.
  rewrite length_fmap, length_seq. lia.
Qed.

(** The first ring position after [head] is the tail exactly at distance [count]. *)
Lemma ring_ne h c k :
  0 <= h < 8 -> 0 <= k < c -> c < 8 -> (h + k) mod 8 <> (h + c) mod 8.
Proof. intros. Z.div_mod_to_equations. lia. Qed.

Lemma push_slot_eq data pc :
  slot_wf pc -> count pc < FROMRADIO_QUEUE_DEPTH -> zlen data <= FROMRADIO_MAX_PKT_SIZE ->
  exists slot, mem_get (queue pc) (tail pc) = Some slot
    /\ mem_write (pkt_data slot) 0 data = Some (splice (pkt_data slot) 0 data)
    /\ mem_set (queue pc) (tail pc) (mk_pkt (splice (pkt_data slot) 0 data) (zlen data))
       = Some (queue (push_slot data pc))
    /\ push_slot data pc
       = pc <| queue := queue (push_slot data pc) |>
            <| tail := (tail pc + 1) mod FROMRADIO_QUEUE_DEPTH |>
            <| count := count pc + 1 |> <| fromnum := u32 (fromnum pc + 1) |>
    /\ slot_wf (push_slot data pc) /\ pkts (push_slot data pc) = pkts pc ++ [data].
Proof.
  intros W Hc Hd. pose proof (tail_range _ W) as Ht.
  destruct (queue_lookup _ _ W Ht) as (slot & Hl & Hg & Hok). pose proof Hok as [Hz Hlen].
  pose proof (zlen_nonneg data). pose proof (sw_queue _ W) as Hq.
  exists slot. unfold push_slot. rewrite Hl. split; [done|].
  split; [apply mem_write_ok; lia|]. split; [apply mem_set_ok; lia|]. split; [done|].
  pose proof (sw_head _ W) as Hh. pose proof (sw_count _ W) as Hcc. pose proof (sw_tail _ W) as Het.
  unfold FROMRADIO_QUEUE_DEPTH in *. split.
  - destruct W. split; simpl; try done.
    + apply u32_fits.
    + by rewrite zlen_insert.
    + apply Forall_insert; [done|]. split; simpl; [|lia].
      rewrite zlen_splice; lia.
    + unfold FROMRADIO_QUEUE_DEPTH. lia.
    + rewrite Het. unfold FROMRADIO_QUEUE_DEPTH. Z.div_mod_to_equations. lia.
  - unfold pkts. simpl. replace (Z.to_nat (count pc + 1)) with (S (Z.to_nat (count pc))) by lia.
    rewrite seq_S, fmap_app. f_equal.
    + apply list_fmap_ext. intros j k Hk. unfold pkt_at. simpl.
      apply lookup_seq in Hk as [-> Hk]. rewrite list_lookup_insert_ne; [done|].
      intros E. apply (ring_ne (head pc) (count pc) (Z.of_nat (0 + j))); try lia.
      unfold FROMRADIO_QUEUE_DEPTH in *. rewrite <- Het.
      pose proof (Z.mod_pos_bound (head pc + Z.of_nat (0 + j)) 8 ltac:(lia)). lia.
    + cbn [fmap list_fmap]. f_equal. unfold pkt_at. simpl.
      rewrite Z2Nat.id by lia. unfold FROMRADIO_QUEUE_DEPTH. rewrite <- Het.
      rewrite list_lookup_insert_eq by (unfold zlen in Hq; lia). simpl.
      unfold pkt_bytes. simpl. rewrite splice_0. unfold zlen.
      by rewrite Nat2Z.id, take_app_length.
Qed.

Lemma pop_slot_eq pc :
  slot_wf pc -> 0 < count pc ->
  exists pkt d, mem_get (queue pc) (head pc) = Some pkt
    /\ mem_read (pkt_data pkt) 0 (pkt_len pkt) = Some d
    /\ mem_write (staged pc) 0 d = Some (staged (pop_slot pc))
    /\ pop_slot pc
       = pc <| staged := staged (pop_slot pc) |> <| staged_len := pkt_len pkt |>
            <| head := (head pc + 1) mod FROMRADIO_QUEUE_DEPTH |>
            <| count := count pc - 1 |>
    /\ slot_wf (pop_slot pc) /\ pkts pc = d :: pkts (pop_slot pc)
    /\ zlen d = pkt_len pkt /\ take (Z.to_nat (staged_len (pop_slot pc))) (staged (pop_slot pc)) = d.
Proof.
  intros W Hc. pose proof (sw_head _ W) as Hh.
  destruct (queue_lookup _ _ W Hh) as (pkt & Hl & Hg & Hok). pose proof Hok as [Hz Hlen].
  pose proof (pkt_bytes_zlen _ Hok) as Hb. pose proof (sw_staged _ W) as Hst.
  exists pkt, (pkt_bytes pkt). unfold pop_slot. rewrite Hl. split; [done|].
  split; [apply mem_read_0; lia|]. split; [apply mem_write_ok; lia|]. split; [done|].
  pose proof (sw_count _ W) as Hcc. pose proof (sw_tail _ W) as Het.
  unfold FROMRADIO_QUEUE_DEPTH in *. split; [|split; [|split; [done|]]].
  - destruct W. split; simpl; try done.
    + unfold FROMRADIO_QUEUE_DEPTH. apply Z.mod_pos_bound. lia.
    + unfold FROMRADIO_QUEUE_DEPTH. lia.
    + rewrite Het. unfold FROMRADIO_QUEUE_DEPTH. Z.div_mod_to_equations. lia.
    + rewrite zlen_splice; lia.
  - unfold pkts. simpl. replace (Z.to_nat (count pc)) with (S (Z.to_nat (count pc - 1))) by lia.
    rewrite <- cons_seq, fmap_cons. f_equal.
    + unfold pkt_at. rewrite Z.add_0_r. unfold FROMRADIO_QUEUE_DEPTH.
      rewrite Z.mod_small by lia. by rewrite Hl.
    + rewrite <- fmap_S_seq, <- list_fmap_compose. apply list_fmap_ext. intros j k _.
      unfold pkt_at. simpl. unfold FROMRADIO_QUEUE_DEPTH.
      rewrite Zplus_mod_idemp_l. do 5 f_equal. lia.
  - simpl. rewrite splice_0. rewrite <- Hb. unfold zlen. by rewrite Nat2Z.id, take_app_length.
Qed.

(** ** Enqueueing *)

(** What happens to a phone's slot when [data] is sent to it. *)
Definition accepts (data : list Z) (pc : proxy_conn) : bool :=
  bool_decide (zlen data <= FROMRADIO_MAX_PKT_SIZE /\ count pc < FROMRADIO_QUEUE_DEPTH).
Definition deliver (data : list Z) (pc : proxy_conn) : proxy_conn :=
  if accepts data pc then push_slot data pc else pc.

Lemma push_slot_wf_armed `{Nanopb} data pc :
  slot_wf pc -> (pc_state pc = PHONE_REPLAYING -> armed pc) ->
  count pc < FROMRADIO_QUEUE_DEPTH -> zlen data <= FROMRADIO_MAX_PKT_SIZE ->
  conn (push_slot data pc) = conn pc /\ slot_wf (push_slot data pc)
  /\ (pc_state (push_slot data pc) = PHONE_REPLAYING -> armed (push_slot data pc)).
Proof.
  intros W Ha Hc Hd. destruct (push_slot_eq data pc W Hc Hd) as (_ & _ & _ & _ & _ & W' & _).
  split_and!; [|done|]; unfold push_slot; by destruct (queue pc !! _).
Qed.

Lemma enqueue_eq b c i pc data :
  slot_wf pc -> find_slot c b = Some i -> conns b !! i = Some pc ->
  ble_gatt_enqueue_fromradio c data b
  = if decide (FROMRADIO_MAX_PKT_SIZE < zlen data) then Some (rc_err EMSGSIZE, b, [])
    else if accepts data pc
    then Some (rc_ok, b <| conns := <[i := push_slot data pc]> (conns b) |>,
               [IoLock i; IoUnlock i; IoNotify c (u32 (fromnum pc + 1))])
    else Some (rc_err ENOMEM, b, [IoLock i; IoUnlock i]).
Proof.
  intros W Hf Hi. unfold ble_gatt_enqueue_fromradio. case_decide as Hd; [done|].
  rewrite run_gets. unfold id. rewrite Hf, run_emit. erewrite run_get_slot by done.
  unfold accepts. case_bool_decide as Hacc.
  - destruct Hacc as [Hz Hc]. rewrite decide_False by lia.
    destruct (push_slot_eq data pc W Hc Hz) as (slot & -> & Hw & Hset & E & _ & _).
    rewrite run_oget, Hw, run_oget, Hset, run_oget.
    erewrite run_upd_slot by done.
    replace (_ <| fromnum := _ |>) with (push_slot data pc); [|rewrite E; f_equal].
    + erewrite run_get_slot.
      2: { simpl. apply list_lookup_insert_eq. by eapply lookup_lt_Some. }
      rewrite run_emit, run_emit. simpl. do 4 f_equal. by rewrite E.
    + pose proof (sw_count _ W). unfold FROMRADIO_QUEUE_DEPTH in *. by rewrite u8_id by lia.
  - rewrite decide_True by lia. by rewrite run_emit.
Qed.

Lemma enqueue_no_slot b c data :
  find_slot c b = None ->
  ble_gatt_enqueue_fromradio c data b
  = Some (if decide (FROMRADIO_MAX_PKT_SIZE < zlen data) then rc_err EMSGSIZE
          else rc_err ENOENT, b, []).
Proof.
  intros Hf. unfold ble_gatt_enqueue_fromradio. case_decide; [done|].
  rewrite run_gets. unfold id. by rewrite Hf.
Qed.

Lemma deliver_pkts data pc :
  slot_wf pc -> zlen data <= FROMRADIO_MAX_PKT_SIZE ->
  if decide (FROMRADIO_QUEUE_DEPTH <= zlen (pkts pc)) then deliver data pc = pc
  else pkts (deliver data pc) = pkts pc ++ [data].
Proof.
  intros W Hz. rewrite (zlen_pkts _ W). unfold deliver, accepts. case_decide.
  - by rewrite bool_decide_false by lia.
  - rewrite bool_decide_true by lia.
    by destruct (push_slot_eq data pc W ltac:(lia) Hz) as (? & _ & _ & _ & _ & _ & ?).
Qed.

(** A delivery leaves the phone's session alone. *)
Definition same_session (pc pc' : proxy_conn) : Prop :=
  conn pc' = conn pc /\ pc_state pc' = pc_state pc /\ pc_nonce pc' = pc_nonce pc
  /\ replay_cursor pc' = replay_cursor pc /\ cc_frame pc' = cc_frame pc /\ cc_len pc' = cc_len pc
  /\ staged pc' = staged pc /\ staged_len pc' = staged_len pc
  /\ pc_proxy_id pc' = pc_proxy_id pc.
Lemma same_session_refl pc : same_session pc pc.
Proof. by split_and!. Qed.
Lemma deliver_same data pc : same_session pc (deliver data pc).
Proof.
  unfold deliver. destruct (accepts _ _); [|apply same_session_refl].
  unfold push_slot. by destruct (queue pc !! _).
Qed.

(** ** Broadcasting *)

(** What a broadcast of [data] does to a slot. *)
Definition bc_slot (data : list Z) (pc : proxy_conn) : proxy_conn :=
  if decide (conn pc = NULL) then pc else deliver data pc.
(** The slots it is delivered to. *)
Definition receivers (data : list Z) (l : list proxy_conn) : list proxy_conn :=
  filter (fun pc => conn pc <> NULL /\ accepts data pc = true) l.

Section Broadcast.
Context `{Nanopb}.

Lemma bc_slot_ok data pc :
  slot_wf pc -> (pc_state pc = PHONE_REPLAYING -> armed pc) ->
  conn (bc_slot data pc) = conn pc /\ slot_wf (bc_slot data pc)
  /\ (pc_state (bc_slot data pc) = PHONE_REPLAYING -> armed (bc_slot data pc)).
Proof.
  intros W Ha. unfold bc_slot, deliver. case_decide; [done|].
  unfold accepts. case_bool_decide as Hc; [|done].
  by apply push_slot_wf_armed; destruct Hc.
Qed.

Lemma enqueue_deliver b i pc data :
  ble_wf b -> conns b !! i = Some pc -> conn pc <> NULL ->
  exists r t, ble_gatt_enqueue_fromradio (conn pc) data b
      = Some (r, b <| conns := <[i := deliver data pc]> (conns b) |>, t)
    /\ (r = rc_ok <-> accepts data pc = true).
Proof.
  intros Hw Hi Hc. pose proof (ble_wf_slot _ _ _ Hw Hi) as W.
  pose proof (find_slot_unique _ _ _ (bw_distinct _ Hw) Hi Hc) as Hf.
  assert (b <| conns := <[i := pc]> (conns b) |> = b) as Hid
    by (rewrite list_insert_id by done; by destruct b).
  rewrite (enqueue_eq b (conn pc) i pc data W Hf Hi). unfold deliver, accepts.
  case_decide as Hd; case_bool_decide as Ha; try lia; rewrite ?Hid; eauto 10;
    eexists _, _; split; try done.
Qed.

Lemma receivers_one data pc :
  zlen (receivers data [pc])
  = if decide (conn pc <> NULL) then (if accepts data pc then 1 else 0) else 0.
Proof.
  unfold receivers. rewrite filter_cons, filter_nil.
  destruct (decide (conn pc <> NULL)) as [Hc|Hc], (accepts data pc).
  - by rewrite decide_True.
  - rewrite decide_False by (by intros []). done.
  - rewrite decide_False by (by intros []). done.
  - rewrite decide_False by (by intros []). done.
Qed.

Lemma broadcast_from_eq data (l1 l2 : list proxy_conn) b sent :
  ble_wf b -> conns b = l1 ++ l2 ->
  exists t, broadcast_from (seq (length l1) (length l2)) data sent b
    = Some (sent + zlen (receivers data l2),
            b <| conns := l1 ++ (bc_slot data <$> l2) |>, t)
  /\ ble_wf (b <| conns := l1 ++ (bc_slot data <$> l2) |>).
Proof.
  revert l1 b sent. induction l2 as [|pc l2 IH]; intros l1 b sent Hw Hl.
  { exists []. rewrite Z.add_0_r. simpl. rewrite <- Hl.
    replace (b <| conns := conns b |>) with b by by destruct b. done. }
  assert (conns b !! length l1 = Some pc) as Hi by (rewrite Hl; by apply list_lookup_middle).
  pose proof (ble_wf_slot _ _ _ Hw Hi) as W. pose proof (ble_wf_armed _ _ _ Hw Hi) as Ha.
  destruct (bc_slot_ok data pc W Ha) as (Hbc & Hbw & Hba).
  pose proof (ble_wf_insert b _ pc (bc_slot data pc) Hw Hi Hbc Hbw Hba) as Hw'.
  assert (<[length l1 := bc_slot data pc]> (conns b) = (l1 ++ [bc_slot data pc]) ++ l2) as Hl'.
  { rewrite Hl, insert_app_r_alt, Nat.sub_diag by lia. simpl. by rewrite <- app_assoc. }
  rewrite Hl' in Hw'.
  destruct (IH (l1 ++ [bc_slot data pc]) (b <| conns := (l1 ++ [bc_slot data pc]) ++ l2 |>)
              (sent + zlen (receivers data [pc])) Hw'
              eq_refl) as (t & E & Hw'').
  rewrite length_app, Nat.add_1_r in E.
  replace (_ ++ (bc_slot data <$> l2)) with (l1 ++ (bc_slot data <$> pc :: l2)) in E, Hw''
    by (simpl; by rewrite <- app_assoc).
  change (seq (length l1) (length (pc :: l2))) with (length l1 :: seq (S (length l1)) (length l2)).
  simpl broadcast_from. erewrite run_get_slot by done.
  replace (zlen (receivers data (pc :: l2)))
    with (zlen (receivers data [pc]) + zlen (receivers data l2))
    by (rewrite <- zlen_app; unfold receivers; by rewrite <- filter_app).
  rewrite Z.add_assoc. rewrite receivers_one in E |- *.
  destruct (decide (conn pc <> NULL)) as [Hc|Hc].
  - destruct (enqueue_deliver b _ pc data Hw Hi Hc) as (r & t1 & E1 & Hr).
    assert (deliver data pc = bc_slot data pc) as Hdb
      by (unfold bc_slot; by rewrite decide_False).
    rewrite Hdb, Hl' in E1. exists (t1 ++ t). split; [|exact Hw''].
    erewrite run_bind by exact E1. destruct (accepts data pc).
    + rewrite decide_False by tauto. by rewrite E.
    + rewrite decide_True by (intros Er; apply Hr in Er; done).
      rewrite Z.add_0_r in E |- *. by rewrite E.
  - exists t. split; [|exact Hw'']. rewrite Z.add_0_r in E |- *.
    replace (b <| conns := (l1 ++ [bc_slot data pc]) ++ l2 |>) with b in E; [exact E|].
    unfold bc_slot. rewrite decide_True by (by apply dec_stable).
    rewrite <- app_assoc. simpl. rewrite <- Hl. by destruct b.
Qed.

Lemma broadcast_eq data b :
  ble_wf b ->
  exists t, ble_gatt_broadcast_fromradio data b
    = Some (zlen (receivers data (conns b)),
            b <| conns := bc_slot data <$> conns b |>, t)
  /\ ble_wf (b <| conns := bc_slot data <$> conns b |>).
Proof.
  intros Hw. unfold ble_gatt_broadcast_fromradio. rewrite <- (bw_size _ Hw).
  exact (broadcast_from_eq data [] (conns b) b 0 Hw eq_refl).
Qed.
End Broadcast.

(** ** Connections *)

Lemma id_zero_ok : id_ok id_zero.
Proof. by_eval. Qed.

Lemma reset_slot_wf pc : slot_wf pc -> slot_wf (reset_slot pc).
Proof. intros [? ? ? ? ? ? ? ? ? ? ? ? ?]. split; simpl; try done; by_eval. Qed.

(** The slot of a phone that has just connected. *)
Definition fresh_slot (c : bt_conn) (pc : proxy_conn) : proxy_conn := reset_slot (pc <| conn := c |>).

Lemma fresh_slot_wf c pc : slot_wf pc -> slot_wf (fresh_slot c pc).
Proof. intros W. apply reset_slot_wf. by destruct W. Qed.

Lemma in_use_range b `{Nanopb} : ble_wf b -> 0 <= in_use (conns b) <= MAX_BLE_CONNECTIONS.
Proof.
  intros Hw. unfold in_use, zlen. pose proof (bw_size _ Hw).
  pose proof (length_filter (fun pc => conn pc <> NULL) (conns b)).
  unfold MAX_BLE_CONNECTIONS, CONFIG_BT_MAX_CONN in *. lia.
Qed.

Lemma start_advertising_eq adv_err b :
  bind (ble_gatt_start_advertising adv_err) (fun _ => ret tt) b = Some (tt, b, [IoAdvStart]).
Proof. unfold ble_gatt_start_advertising. rewrite run_assoc, run_emit. by case_decide. Qed.

Section Connections.
Context `{Nanopb}.

Lemma ble_wf_connect b i pc c :
  ble_wf b -> conns b !! i = Some pc -> conn pc = NULL -> c <> NULL ->
  (forall q, q ∈ conns b -> conn q <> c) ->
  ble_wf (b <| conns := <[i := fresh_slot c pc]> (conns b) |>
            <| active_conn_count := active_conn_count b + 1 |>).
Proof.
  intros Hw Hi Hp Hc Hnew. pose proof (ble_wf_slot _ _ _ Hw Hi) as W.
  destruct Hw as [Hs Hsl Ha Hd Hn Hq Hqm]. split; try done; simpl.
  - by rewrite length_insert.
  - apply Forall_insert; [done|by apply fresh_slot_wf].
  - by apply Forall_insert.
  - by apply distinct_new with (pc := pc).
  - rewrite (in_use_insert _ _ pc) by done. rewrite Hp. simpl.
    rewrite (decide_False (P := c = 0)) by done. rewrite Hn. lia.
Qed.

Lemma on_connected_eq b c adv_err :
  ble_wf b ->
  match find_from (conns b) NULL 0 with
  | None => on_connected c 0 adv_err b = Some (tt, b, [IoDisconnect c])
            /\ in_use (conns b) = MAX_BLE_CONNECTIONS
  | Some i => exists pc, conns b !! i = Some pc /\ conn pc = NULL
      /\ in_use (conns b) < MAX_BLE_CONNECTIONS
      /\ on_connected c 0 adv_err b
         = Some (tt, b <| conns := <[i := fresh_slot c pc]> (conns b) |>
                       <| active_conn_count := active_conn_count b + 1 |>,
                 IoConnRef c :: (if decide (active_conn_count b + 1 < MAX_BLE_CONNECTIONS)
                                 then [IoAdvStart] else []))
  end.
Proof.
  intros Hw. pose proof (in_use_range b Hw) as Hr. unfold on_connected.
  rewrite decide_False by by intros []. unfold alloc_slot. rewrite run_assoc, run_gets.
  unfold id. destruct (find_from (conns b) NULL 0) as [i|] eqn:Hf.
  - destruct (find_slot_lookup NULL b i Hf) as (pc & Hi & Hp). exists pc.
    pose proof (in_use_insert (conns b) i pc (pc <| conn := 1 |>) Hi) as Hu. rewrite Hp in Hu.
    simpl in Hu. pose proof (bw_active _ Hw) as Ha.
    assert (ble_wf (b <| conns := <[i := pc <| conn := 1 |>]> (conns b) |>) \/
            in_use (<[i:=pc <| conn := 1 |>]> (conns b)) <= MAX_BLE_CONNECTIONS) as Hle.
    { right. unfold in_use, zlen.
      pose proof (length_filter (fun pc => conn pc <> NULL) (<[i:=pc <| conn := 1 |>]> (conns b))).
      rewrite length_insert, (bw_size _ Hw) in *. unfold MAX_BLE_CONNECTIONS, CONFIG_BT_MAX_CONN in *.
      lia. }
    assert (in_use (conns b) < MAX_BLE_CONNECTIONS) as Hlt.
    { destruct Hle as [Hle|Hle]; [|lia]. apply in_use_range in Hle. simpl in Hle. lia. }
    split_and!; try done.
    rewrite run_assoc, run_emit. rewrite run_assoc. erewrite run_upd_slot by done.
    rewrite run_ret, run_modify, run_gets.
    unfold MAX_BLE_CONNECTIONS, CONFIG_BT_MAX_CONN in *.
    cbn [active_conn_count set]. rewrite (u8_id (active_conn_count b + 1)) by lia.
    destruct (decide (active_conn_count b + 1 < 6)) as [Hl|Hl].
    + by rewrite start_advertising_eq.
    + done.
  - rewrite run_ret. split; [done|]. unfold in_use.
    assert (forall l : list proxy_conn, (forall pc, pc ∈ l -> conn pc <> NULL) ->
      filter (fun pc => conn pc <> NULL) l = l) as Hall.
    { intros l. induction l as [|q l IH]; intros Hl; [done|]. rewrite filter_cons.
      rewrite decide_True by (apply Hl; by left). f_equal. apply IH. intros r ?. apply Hl. by right. }
    rewrite Hall by (by apply (find_from_None _ NULL 0%nat)). unfold zlen. by rewrite (bw_size _ Hw).
Qed.

(** The slot of a phone that has gone. *)
Definition freed_slot (pc : proxy_conn) : proxy_conn := fresh_slot NULL pc.

Lemma on_disconnected_eq b c adv_err :
  ble_wf b -> c <> NULL ->
  match find_slot c b with
  | None => on_disconnected c adv_err b = Some (tt, b, [IoAdvStart])
  | Some i => exists pc, conns b !! i = Some pc /\ conn pc = c
      /\ on_disconnected c adv_err b
         = Some (tt, b <| conns := <[i := freed_slot pc]> (conns b) |>
                       <| active_conn_count := active_conn_count b - 1 |>,
                 [IoConnUnref c; IoAdvStart])
      /\ ble_wf (b <| conns := <[i := freed_slot pc]> (conns b) |>
                   <| active_conn_count := active_conn_count b - 1 |>)
  end.
Proof.
  intros Hw Hc. unfold on_disconnected. rewrite run_gets. unfold id.
  destruct (find_slot c b) as [i|] eqn:Hf.
  - destruct (find_slot_lookup c b i Hf) as (pc & Hi & Hp). exists pc.
    pose proof (in_use_range b Hw) as Hr. pose proof (bw_active _ Hw) as Ha.
    pose proof (ble_wf_slot _ _ _ Hw Hi) as W.
    assert (in_use (<[i := freed_slot pc]> (conns b)) = in_use (conns b) - 1) as Hu.
    { rewrite (in_use_insert _ _ pc) by done. rewrite Hp. simpl.
      rewrite (decide_False (P := c = 0)) by done. lia. }
    assert (0 <= in_use (<[i := freed_slot pc]> (conns b))) as Hge by apply zlen_nonneg.
    split_and!; try done.
    + unfold free_slot. rewrite !run_assoc. erewrite run_get_slot by done.
      rewrite decide_True by congruence.
      repeat first [rewrite run_assoc | rewrite run_emit]. erewrite run_upd_slot by done.
      erewrite run_upd_slot.
      2: { simpl. apply list_lookup_insert_eq. by eapply lookup_lt_Some. }
      rewrite run_modify, start_advertising_eq. simpl. rewrite list_insert_insert_eq.
      unfold MAX_BLE_CONNECTIONS, CONFIG_BT_MAX_CONN in *. rewrite u8_id by lia.
      by rewrite Hp.
    + destruct Hw as [Hs Hsl Har Hd Hn Hq Hqm]. split; try done; simpl.
      * by rewrite length_insert.
      * apply Forall_insert; [done|by apply fresh_slot_wf].
      * by apply Forall_insert.
      * eapply distinct_insert; eauto.
      * rewrite Hu, Hn. done.
  - by rewrite run_ret, start_advertising_eq.
Qed.
End Connections.

(** ** Proxy identifiers *)

Lemma proxy_conn_from_ok l id :
  Forall slot_wf l -> id_ok id ->
  exists c, proxy_conn_from l id = Some c
    /\ match list_find (fun pc => conn pc <> NULL /\ pc_proxy_id pc = id) l with
       | Some (_, pc) => c = conn pc
       | None => c = NULL
       end.
Proof.
  intros Hw Hid. induction Hw as [|pc l W Hw IH]; simpl; [eauto|].
  destruct IH as (c & E & Hc).
  rewrite (id_equal_ok _ _ (sw_id _ W) Hid). simpl.
  destruct (decide (conn pc <> NULL)) as [Hn|Hn].
  - destruct (decide (pc_proxy_id pc = id)) as [Heq|Heq].
    + rewrite bool_decide_true by done. exists (conn pc). split; [done|].
      by rewrite decide_True.
    + rewrite bool_decide_false by done. exists c. split; [done|].
      rewrite decide_False by tauto. by destruct (list_find _ l) as [[??]|].
  - exists c. split; [done|]. rewrite decide_False by tauto.
    by destruct (list_find _ l) as [[??]|].
Qed.

Section Replies.
Context `{NanopbOk}.

Lemma register_eq b c id :
  ble_wf b -> id_ok id ->
  match find_slot c b with
  | None => ble_gatt_register_proxy_id c id b = Some (rc_err ENOENT, b, [])
  | Some i => exists pc, conns b !! i = Some pc /\ conn pc = c
      /\ ble_gatt_register_proxy_id c id b
         = Some (rc_ok, b <| conns := <[i := pc <| pc_proxy_id := id |>]> (conns b) |>, [])
      /\ ble_wf (b <| conns := <[i := pc <| pc_proxy_id := id |>]> (conns b) |>)
  end.
Proof.
  intros Hw Hid. unfold ble_gatt_register_proxy_id. rewrite run_gets. unfold Datatypes.id.
  destruct (find_slot c b) as [i|] eqn:Hf; [|done].
  destruct (find_slot_lookup c b i Hf) as (pc & Hi & Hp). exists pc.
  assert (mem_read (id_bytes id) 0 PROXY_ID_SIZE = Some (id_bytes id)) as Er.
  { destruct Hid as [Hz _]. rewrite mem_read_0 by (rewrite Hz; done). rewrite <- Hz.
    unfold zlen. by rewrite Nat2Z.id, firstn_all. }
  rewrite Er, run_oget. erewrite run_upd_slot by done. split_and!; try done.
  - by destruct id.
  - apply (ble_wf_insert b i pc); try done.
    + pose proof (ble_wf_slot _ _ _ Hw Hi) as W. by destruct W.
    + intros Hs. by apply (ble_wf_armed _ _ _ Hw Hi).
Qed.

(** The slot once a replay is armed; [nonce] is the phone's, already chosen. *)
Definition armed_slot (pc : proxy_conn) (nonce : Z) (frame : list Z) (l : Z) : proxy_conn :=
  pc <| pc_nonce := nonce |> <| cc_frame := frame |> <| cc_len := l |> <| replay_cursor := 0 |>
     <| pc_state := PHONE_REPLAYING |> <| fromnum := u32 (fromnum pc + 1) |>.

(** The nonce a replay uses: the one passed, or the stored one for 0. *)
Definition replay_nonce (pc : proxy_conn) (nonce : Z) : Z :=
  if decide (nonce = 0) then pc_nonce pc else nonce.

Lemma replay_burst_eq b c nonce :
  ble_wf b -> fits 32 nonce ->
  match find_slot c b with
  | None => ble_gatt_replay_cached_burst c nonce b = Some (tt, b, [])
  | Some i => exists pc frame l,
      let pc' := armed_slot pc (replay_nonce pc nonce) frame l in
      conns b !! i = Some pc /\ conn pc = c
      /\ ble_gatt_replay_cached_burst c nonce b
         = Some (tt, b <| conns := <[i := pc']> (conns b) |>,
                 [IoLock i; IoUnlock i; IoNotify c (u32 (fromnum pc + 1))])
      /\ ble_wf (b <| conns := <[i := pc']> (conns b) |>) /\ slot_wf pc' /\ armed pc'
      /\ pkts pc' = pkts pc
  end.
Proof.
  intros Hw Hn. unfold ble_gatt_replay_cached_burst. rewrite run_gets. unfold id.
  destruct (find_slot c b) as [i|] eqn:Hf; [|done].
  destruct (find_slot_lookup c b i Hf) as (pc & Hi & Hp).
  pose proof (ble_wf_slot _ _ _ Hw Hi) as W. pose proof (sw_cc _ W) as [Hz Hb].
  assert (fits 32 (replay_nonce pc nonce)) as Hrn
    by (unfold replay_nonce; case_decide; [apply W|done]).
  destruct (encoder_16 _ _ _ _ (cc_frame pc) 0 (encode_cc_exact _ Hrn) Hz Hb)
    as (f & l & E & Hzf & Hbf & Hl & Hd).
  exists pc, f, l. cbv zeta. split; [done|]. split; [done|].
  assert (slot_wf (armed_slot pc (replay_nonce pc nonce) f l)) as W'.
  { destruct W. split; simpl; try done; try lia; apply u32_fits. }
  assert (armed (armed_slot pc (replay_nonce pc nonce) f l)) as Ha by (split; simpl; [lia|done]).
  split; [|split_and!; try done; by apply (ble_wf_insert b i pc)].
  set (pc1 := pc <| pc_nonce := replay_nonce pc nonce |>).
  assert (forall k : unit -> M ble unit,
    bind (if decide (nonce <> 0) then upd_slot i (fun pc => pc <| pc_nonce := nonce |>)
          else ret tt) k b = k tt (b <| conns := <[i := pc1]> (conns b) |>)) as ->.
  { intros k. unfold replay_nonce in pc1. subst pc1. destruct (decide (nonce = 0)) as [->|Hne].
    - rewrite decide_False by (by intros []). rewrite run_ret. f_equal.
      replace (pc <| pc_nonce := pc_nonce pc |>) with pc by by destruct pc.
      rewrite list_insert_id by done. by destruct b.
    - rewrite decide_True by done. by erewrite run_upd_slot. }
  assert (i < length (conns b))%nat as Hlt by by eapply lookup_lt_Some.
  erewrite run_get_slot by (simpl; by apply list_lookup_insert_eq).
  change (cc_frame pc1) with (cc_frame pc). change (pc_nonce pc1) with (replay_nonce pc nonce).
  rewrite E, run_oget.
  erewrite run_upd_slot by (simpl; by apply list_lookup_insert_eq).
  rewrite decide_False by (by intros []). rewrite run_emit.
  erewrite run_upd_slot by (simpl; apply list_lookup_insert_eq; by rewrite length_insert).
  erewrite run_get_slot
    by (simpl; apply list_lookup_insert_eq; by rewrite !length_insert).
  rewrite run_emit. simpl. rewrite !list_insert_insert_eq. rewrite u8_id by lia. done.
Qed.

(** The constant reply is encoded once, then reused. *)
Lemma reply_queuestatus_eq b c :
  ble_wf b ->
  exists qs l, let b' := b <| s_qs := qs |> <| s_qs_len := l |> in
    ble_wf b' /\ 0 < l <= 16
    /\ (s_qs_len b <> 0 -> qs = s_qs b /\ l = s_qs_len b)
    /\ exists p, mem_read qs 0 l = Some p /\ zlen p = l
    /\ pb_decode_FromRadio p = Some msg_queue_status
    /\ ble_gatt_reply_queuestatus c b
       = bind (ble_gatt_enqueue_fromradio c p) (fun _ => ret tt) b'.
Proof.
  intros Hw. pose proof (bw_qs _ Hw) as (Hz & Hb & Hl).
  unfold ble_gatt_reply_queuestatus. rewrite run_gets. unfold id.
  destruct (decide (s_qs_len b = 0)) as [H0'|H0'].
  - rewrite H0' in *. destruct (encoder_16 _ _ _ _ (s_qs b) 0 encode_qs_exact Hz Hb)
      as (qs & l & E & Hzq & Hbq & Hlq & Hd).
    exists qs, l. cbv zeta. split; [by destruct Hw; split; simpl; try done; split_and!; try done; lia|].
    split; [done|]. split; [done|]. exists (take (Z.to_nat l) qs).
    split; [apply mem_read_0; lia|]. split; [apply zlen_take; lia|]. split; [done|].
    rewrite E. rewrite !run_assoc, run_oget. rewrite !run_assoc, run_modify.
    rewrite decide_False by (by intros []). rewrite run_ret. cbn [negb].
    rewrite run_gets. simpl. rewrite mem_read_0 by lia. by rewrite run_oget.
  - exists (s_qs b), (s_qs_len b). cbv zeta.
    replace (b <| s_qs := s_qs b |> <| s_qs_len := s_qs_len b |>) with b by by destruct b.
    split; [done|]. split; [lia|]. split; [done|].
    exists (take (Z.to_nat (s_qs_len b)) (s_qs b)).
    split; [apply mem_read_0; lia|]. split; [apply zlen_take; lia|].
    split; [by apply (bw_qs_msg _ Hw)|].
    rewrite run_ret. cbn [negb]. rewrite run_gets.
    rewrite mem_read_0 by lia. by rewrite run_oget.
Qed.

(** The reply goes to the phone's queue like any other packet. *)
Lemma reply_queuestatus_run b c i pc :
  ble_wf b -> find_slot c b = Some i -> conns b !! i = Some pc ->
  exists b' t, ble_gatt_reply_queuestatus c b = Some (tt, b', t) /\ ble_wf b'
    /\ s_qs_len b' <> 0
    /\ (t = [IoLock i; IoUnlock i] \/ exists n, t = [IoLock i; IoUnlock i; IoNotify c n])
    /\ toradio_handler_set b' = toradio_handler_set b
    /\ exists p, pb_decode_FromRadio p = Some msg_queue_status /\ 0 < zlen p <= 16
    /\ (s_qs_len b <> 0 -> p = take (Z.to_nat (s_qs_len b)) (s_qs b))
    /\ conns b' = <[i := deliver p pc]> (conns b).
Proof.
  intros Hw Hf Hi. destruct (reply_queuestatus_eq b c Hw) as (qs & l & Hw' & Hl & Hsame & p & Hp & Hz & Hd & ->).
  set (b1 := b <| s_qs := qs |> <| s_qs_len := l |>) in *.
  pose proof (ble_wf_slot _ _ _ Hw Hi) as W. pose proof (ble_wf_armed _ _ _ Hw Hi) as Ha.
  pose proof (enqueue_eq b1 c i pc p W Hf Hi) as E.
  rewrite decide_False in E by (unfold FROMRADIO_MAX_PKT_SIZE; lia).
  assert (s_qs_len b <> 0 -> p = take (Z.to_nat (s_qs_len b)) (s_qs b)) as Hps.
  { intros [-> ->]%Hsame. pose proof (bw_qs _ Hw) as (? & _ & ?).
    rewrite mem_read_0 in Hp by lia. congruence. }
  destruct (accepts p pc) eqn:Hacc.
  - pose proof Hacc as Hacc'. unfold accepts in Hacc'.
    apply bool_decide_eq_true in Hacc' as [Hzp Hc].
    destruct (push_slot_wf_armed p pc W Ha Hc Hzp) as (E1 & W' & Ha').
    erewrite run_bind by exact E. simpl. eexists _, _. split; [done|].
    split; [by apply (ble_wf_insert b1 i pc)|]. split; [simpl; lia|]. split; [simpl; eauto|].
    split; [done|]. exists p. unfold deliver. rewrite Hacc.
    split; [done|]. split; [lia|]. by split.
  - erewrite run_bind by exact E. simpl. eexists _, _. split; [done|]. split; [done|].
    split; [simpl; lia|]. split; [simpl; eauto|]. split; [done|].
    exists p. unfold deliver. rewrite Hacc, list_insert_id by done.
    split; [done|]. split; [lia|]. by split.
Qed.

Lemma node_reg_run b c buf offset :
  ble_wf b -> bytes_ok buf -> 0 <= offset ->
  exists r b', node_reg_write c buf offset b = Some (r, b', []) /\ ble_wf b'
    /\ if decide (offset = 0 /\ zlen buf = PROXY_ID_SIZE)
       then r = att_ok PROXY_ID_SIZE
            /\ match find_slot c b with
               | None => b' = b
               | Some i => exists pc, conns b !! i = Some pc
                   /\ b' = b <| conns := <[i := pc <| pc_proxy_id := mk_proxy_id buf |>]> (conns b) |>
               end
       else r = att_error BT_ATT_ERR_INVALID_ATTRIBUTE_LEN /\ b' = b.
Proof.
  intros Hw Hb Ho. unfold node_reg_write.
  destruct (decide (offset <> 0 \/ zlen buf <> PROXY_ID_SIZE)) as [Hd|Hd].
  { eexists _, _. split; [done|]. split; [done|]. rewrite decide_False by tauto. done. }
  assert (offset = 0) as -> by lia. assert (zlen buf = PROXY_ID_SIZE) as Hz by lia.
  assert (mem_read buf 0 PROXY_ID_SIZE = Some buf) as Er.
  { rewrite mem_read_0 by (rewrite Hz; done). rewrite <- Hz. unfold zlen.
    by rewrite Nat2Z.id, firstn_all. }
  rewrite Er, run_oget.
  pose proof (register_eq b c (mk_proxy_id buf) Hw) as E. 
  destruct (find_slot c b) as [i|].
  - destruct E as (pc & Hi & Hp & E & Hw'); [done|].
    eexists _, _. erewrite run_bind by exact E. simpl. rewrite Hz.
    split; [done|]. split; [done|]. rewrite decide_True by done. eauto.
  - eexists _, _. erewrite run_bind by by apply E. simpl. rewrite Hz.
    split; [done|]. split; [done|]. by rewrite decide_True.
Qed.
End Replies.

(** ** Properties *)

(** No two locks are held together, each is released by its holder, and no
    other call is made while one is held. *)
Fixpoint locks_ok (held : option nat) (t : list io) : bool :=
  match t with
  | [] => bool_decide (held = None)
  | IoLock i :: t => bool_decide (held = None) && locks_ok (Some i) t
  | IoUnlock i :: t => bool_decide (held = Some i) && locks_ok None t
  | _ :: t => bool_decide (held = None) && locks_ok None t
  end.

Section Properties.
Context `{NanopbOk}.

(** C32: sending a packet to a phone.  A packet over 512 bytes, an untracked
    connection and a full queue are refused with their own error and change
    nothing.  Otherwise the packet goes to the end of that phone's queue, its
    counter goes up by one modulo 2^32 and the phone is notified of it, after
    the slot's lock is released; no other slot changes. *)
Theorem enqueue_fromradio_spec b c data :
  ble_wf b ->
  exists r b' t, ble_gatt_enqueue_fromradio c data b = Some (r, b', t) /\ ble_wf b'
    /\ locks_ok None t = true
    /\ match find_slot c b with
       | None => b' = b /\ t = []
                 /\ r = rc_err (if decide (FROMRADIO_MAX_PKT_SIZE < zlen data) then EMSGSIZE else ENOENT)
       | Some i => exists pc, conns b !! i = Some pc /\ conn pc = c
           /\ if decide (FROMRADIO_MAX_PKT_SIZE < zlen data) then r = rc_err EMSGSIZE /\ b' = b
              else if decide (FROMRADIO_QUEUE_DEPTH <= zlen (pkts pc)) then r = rc_err ENOMEM /\ b' = b
              else exists pc', r = rc_ok /\ b' = b <| conns := <[i := pc']> (conns b) |>
                   /\ pkts pc' = pkts pc ++ [data] /\ fromnum pc' = u32 (fromnum pc + 1)
                   /\ conn pc' = c /\ pc_proxy_id pc' = pc_proxy_id pc
                   /\ pc_state pc' = pc_state pc /\ staged pc' = staged pc
                   /\ staged_len pc' = staged_len pc
                   /\ t = [IoLock i; IoUnlock i; IoNotify c (fromnum pc')]
       end.
Proof.
  intros Hw. destruct (find_slot c b) as [i|] eqn:Hf.
  - destruct (find_slot_lookup c b i Hf) as (pc & Hi & Hp).
    pose proof (ble_wf_slot _ _ _ Hw Hi) as W. pose proof (ble_wf_armed _ _ _ Hw Hi) as Ha.
    rewrite (enqueue_eq b c i pc data W Hf Hi).
    destruct (decide (FROMRADIO_MAX_PKT_SIZE < zlen data)) as [Hd|Hd].
    { eexists _, _, _. split; [done|]. split_and!; try done. exists pc. by split_and!. }
    unfold accepts. case_bool_decide as Hacc.
    + destruct Hacc as [Hz Hc].
      destruct (push_slot_wf_armed data pc W Ha Hc Hz) as (E1 & W' & Ha').
      destruct (push_slot_eq data pc W Hc Hz) as (slot & _ & _ & _ & E & _ & Hpk).
      eexists _, _, _. split; [done|]. split; [by apply (ble_wf_insert b i pc)|].
      split; [by cbn; rewrite bool_decide_true|].
      exists pc. split; [done|]. split; [done|].
      rewrite decide_False by (rewrite zlen_pkts by done; lia).
      exists (push_slot data pc). split_and!; try done; try congruence; by rewrite E.
    + eexists _, _, _. split; [done|]. split; [done|].
      split; [by cbn; rewrite bool_decide_true|]. exists pc. split; [done|]. split; [done|].
      rewrite decide_True by (rewrite zlen_pkts by done; lia). done.
  - rewrite enqueue_no_slot by done. eexists _, _, _. split; [done|]. split_and!; try done.
    by case_decide.
Qed.

(** A broadcast gives the packet to every connected phone whose queue has
    room, once, at the end of its queue, leaves every other slot as it is, and
    returns the number of phones that got it; an oversized packet reaches
    nobody. *)
Theorem broadcast_fromradio_spec b data :
  ble_wf b ->
  exists t b', ble_gatt_broadcast_fromradio data b = Some (zlen (receivers data (conns b)), b', t)
    /\ ble_wf b' /\ length (conns b') = length (conns b)
    /\ forall i pc, conns b !! i = Some pc -> exists pc', conns b' !! i = Some pc' /\
         if decide (conn pc <> NULL /\ zlen data <= FROMRADIO_MAX_PKT_SIZE
                    /\ zlen (pkts pc) < FROMRADIO_QUEUE_DEPTH)
         then pkts pc' = pkts pc ++ [data] /\ conn pc' = conn pc
              /\ fromnum pc' = u32 (fromnum pc + 1)
         else pc' = pc.
Proof.
  intros Hw. destruct (broadcast_eq data b Hw) as (t & E & Hw'). exists t. eexists.
  split; [exact E|]. split; [done|]. split; [simpl; by rewrite length_fmap|].
  intros i pc Hi. exists (bc_slot data pc). simpl. split; [by rewrite list_lookup_fmap, Hi|].
  pose proof (ble_wf_slot _ _ _ Hw Hi) as W. rewrite (zlen_pkts _ W).
  unfold bc_slot, deliver, accepts. case_decide as Hd.
  - destruct Hd as (Hc & Hz & Hq). rewrite decide_False by done.
    rewrite bool_decide_true by done.
    destruct (push_slot_eq data pc W Hq Hz) as (slot & _ & _ & _ & Ep & _ & Hpk).
    split_and!; [done|by rewrite Ep|by rewrite Ep].
  - destruct (decide (conn pc = NULL)); [done|].
    rewrite bool_decide_false; [done|]. intros [??]. by apply Hd.
Qed.

(** A new connection.  A failed one is ignored.  With a free slot, the
    phone gets that slot with an empty queue, no identifier and nothing
    staged, no other slot changes, the count of connections stays the number
    of slots in use, and advertising resumes while there is room for more;
    with six phones connected it is disconnected and nothing changes. *)
Theorem on_connected_spec b c err adv_err :
  ble_wf b -> c <> NULL -> (forall pc, pc ∈ conns b -> conn pc <> c) ->
  exists b' t, on_connected c err adv_err b = Some (tt, b', t) /\ ble_wf b'
    /\ if decide (err <> 0) then b' = b /\ t = []
       else if decide (in_use (conns b) = MAX_BLE_CONNECTIONS) then b' = b /\ t = [IoDisconnect c]
       else exists i pc pc', conns b !! i = Some pc /\ conn pc = NULL
         /\ conns b' = <[i := pc']> (conns b) /\ find_slot c b' = Some i
         /\ pkts pc' = [] /\ pc_proxy_id pc' = id_zero /\ pc_state pc' = PHONE_CONNECTED
         /\ staged_len pc' = 0 /\ fromnum pc' = 0 /\ pc_nonce pc' = 0
         /\ in_use (conns b') = in_use (conns b) + 1
         /\ t = IoConnRef c :: (if decide (in_use (conns b) + 1 < MAX_BLE_CONNECTIONS)
                                then [IoAdvStart] else []).
Proof.
  intros Hw Hc Hnew. destruct (decide (err <> 0)) as [He|He].
  { exists b, []. unfold on_connected. by rewrite decide_True. }
  assert (err = 0) as -> by lia.
  pose proof (on_connected_eq b c adv_err Hw) as E.
  destruct (find_from (conns b) NULL 0) as [i|] eqn:Hf.
  - destruct E as (pc & Hi & Hp & Hlt & E).
    pose proof (ble_wf_connect b i pc c Hw Hi Hp Hc Hnew) as Hw'.
    pose proof (bw_active _ Hw') as Ha. simpl in Ha. pose proof (bw_active _ Hw) as Ha0.
    eexists _, _. split; [exact E|]. split; [done|]. rewrite decide_False by lia.
    exists i, pc, (fresh_slot c pc). split_and!; try done.
    + apply (find_slot_unique _ i (fresh_slot c pc)); [apply Hw'| |done].
      simpl. apply list_lookup_insert_eq. by eapply lookup_lt_Some.
    + simpl. rewrite Ha0 in Ha. lia.
    + by rewrite Ha0.
  - destruct E as [E Hfull]. exists b, [IoDisconnect c]. split; [done|]. split; [done|].
    by rewrite decide_True.
Qed.

(** A phone that goes.  Its slot is freed and emptied, its reference to
    the connection dropped, no other slot changes, the count of connections
    stays the number of slots in use, and advertising restarts, also when the
    connection was not tracked. *)
Theorem on_disconnected_spec b c adv_err :
  ble_wf b -> c <> NULL ->
  exists b' t, on_disconnected c adv_err b = Some (tt, b', t ++ [IoAdvStart]) /\ ble_wf b'
    /\ find_slot c b' = None
    /\ match find_slot c b with
       | None => b' = b /\ t = []
       | Some i => exists pc', conns b' = <[i := pc']> (conns b) /\ conn pc' = NULL
           /\ pkts pc' = [] /\ pc_proxy_id pc' = id_zero /\ staged_len pc' = 0
           /\ in_use (conns b') = in_use (conns b) - 1 /\ t = [IoConnUnref c]
       end.
Proof.
  intros Hw Hc. pose proof (on_disconnected_eq b c adv_err Hw Hc) as E.
  destruct (find_slot c b) as [i|] eqn:Hf.
  - destruct E as (pc & Hi & Hp & E & Hw').
    pose proof (bw_active _ Hw') as Ha. simpl in Ha. pose proof (bw_active _ Hw) as Ha0.
    eexists _, [IoConnUnref c]. split; [exact E|]. split; [done|]. split.
    + apply find_from_None. simpl. intros q [j Hj]%list_elem_of_lookup Hq.
      destruct (decide (i = j)) as [<-|Hne].
      * rewrite list_lookup_insert_eq in Hj by by eapply lookup_lt_Some. by simplify_eq.
      * rewrite list_lookup_insert_ne in Hj by done.
        apply Hne. eapply (bw_distinct _ Hw); eauto; congruence.
    + exists (freed_slot pc). split_and!; try done. simpl. lia.
  - exists b, []. by rewrite E.
Qed.

(** The router's lookup: the connection found is the first connected phone
    that registered exactly this identifier, and there is none exactly when
    no connected phone registered it; the zero identifier, which unregistered
    slots hold, is never found.  No access is out of bounds. *)
Theorem get_conn_by_proxy_id_spec b id :
  ble_wf b -> id_ok id ->
  exists c, ble_gatt_get_conn_by_proxy_id id b = Some c
    /\ (c <> NULL -> exists i pc, conns b !! i = Some pc /\ conn pc = c /\ pc_proxy_id pc = id
          /\ find_slot c b = Some i
          /\ forall j q, (j < i)%nat -> conns b !! j = Some q -> conn q <> NULL -> pc_proxy_id q <> id)
    /\ (c = NULL <-> id = zero_id \/ forall pc, pc ∈ conns b -> conn pc <> NULL -> pc_proxy_id pc <> id).
Proof.
  intros Hw Hid. unfold ble_gatt_get_conn_by_proxy_id.
  rewrite (id_is_zero_ok _ Hid). simpl. case_bool_decide as Hz.
  { exists NULL. split; [done|]. split; [done|]. split; [by left|done]. }
  destruct (proxy_conn_from_ok (conns b) id (bw_slots _ Hw) Hid) as (c & E & Hc).
  exists c. split; [done|].
  destruct (list_find _ (conns b)) as [[i pc]|] eqn:Hf.
  - apply list_find_Some in Hf as (Hi & [Hn Hp] & Hmin). subst c. split.
    + intros _. exists i, pc. split_and!; try done; [by apply find_slot_unique; [apply Hw|..]|].
      intros j q Hj Hq Hqn Hqp. by apply (Hmin j q Hq Hj).
    + split; [done|]. intros [?|Hno]; [done|]. exfalso.
      apply (Hno pc); [by eapply list_elem_of_lookup_2|done|done].
  - subst c. apply list_find_None in Hf. split; [done|]. split; [|done].
    intros _. right. intros pc Hpc Hn Hp. rewrite Forall_forall in Hf.
    by apply (Hf pc Hpc).
Qed.

(** Registering an identifier.  Only a write of exactly four bytes at offset
    0 is accepted; it sets the identifier of the writer's slot and changes
    nothing else (nothing at all for an untracked writer). *)
Theorem node_reg_write_spec b c buf offset :
  ble_wf b -> bytes_ok buf -> 0 <= offset ->
  exists r b', node_reg_write c buf offset b = Some (r, b', []) /\ ble_wf b'
    /\ if decide (offset = 0 /\ zlen buf = PROXY_ID_SIZE)
       then r = att_ok PROXY_ID_SIZE
            /\ match find_slot c b with
               | None => b' = b
               | Some i => exists pc, conns b !! i = Some pc
                   /\ b' = b <| conns := <[i := pc <| pc_proxy_id := mk_proxy_id buf |>]> (conns b) |>
               end
       else r = att_error BT_ATT_ERR_INVALID_ATTRIBUTE_LEN /\ b' = b.
Proof. apply node_reg_run. Qed.

(** C37: arming a replay.  For a tracked phone the closing frame is encoded for
    the nonce passed, or for the nonce stored earlier when 0 is passed; the
    cursor is at the start of the cache, the phone is REPLAYING, its packet
    queue is kept, and it is notified once, after its lock is released.  No
    other slot changes; an untracked connection changes nothing. *)
Theorem replay_cached_burst_spec b c nonce :
  ble_wf b -> fits 32 nonce ->
  exists b' t, ble_gatt_replay_cached_burst c nonce b = Some (tt, b', t) /\ ble_wf b'
    /\ locks_ok None t = true
    /\ match find_slot c b with
       | None => b' = b /\ t = []
       | Some i => exists pc pc', conns b !! i = Some pc
           /\ b' = b <| conns := <[i := pc']> (conns b) |>
           /\ pc_nonce pc' = (if decide (nonce = 0) then pc_nonce pc else nonce)
           /\ pc_state pc' = PHONE_REPLAYING /\ replay_cursor pc' = 0
           /\ pb_decode_FromRadio (take (Z.to_nat (cc_len pc')) (cc_frame pc'))
              = Some (msg_config_complete (pc_nonce pc'))
           /\ pkts pc' = pkts pc /\ fromnum pc' = u32 (fromnum pc + 1)
           /\ t = [IoLock i; IoUnlock i; IoNotify c (fromnum pc')]
       end.
Proof.
  intros Hw Hn. pose proof (replay_burst_eq b c nonce Hw Hn) as E.
  destruct (find_slot c b) as [i|]; [|rewrite E; eexists _, _; by split_and!].
  destruct E as (pc & f & l & E). cbv zeta in E.
  destruct E as (Hi & Hp & E & Hw' & W' & Ha & Hpk).
  eexists _, _. split; [exact E|]. split; [done|].
  split; [by cbn; rewrite bool_decide_true|].
  eexists pc, _. split_and!; try done. apply Ha.
Qed.

(** A heartbeat is answered with a queueStatus: the reply is encoded on
    first use, and the first and every later reply sends the phone bytes that
    decode to the same benign status; a full queue drops it. *)
Theorem reply_queuestatus_spec b c i pc :
  ble_wf b -> find_slot c b = Some i -> conns b !! i = Some pc ->
  exists b' t, ble_gatt_reply_queuestatus c b = Some (tt, b', t) /\ ble_wf b'
    /\ s_qs_len b' <> 0 /\ locks_ok None t = true
    /\ exists p, pb_decode_FromRadio p = Some msg_queue_status
    /\ (s_qs_len b <> 0 -> p = take (Z.to_nat (s_qs_len b)) (s_qs b))
    /\ exists pc', conns b' = <[i := pc']> (conns b)
    /\ if decide (FROMRADIO_QUEUE_DEPTH <= zlen (pkts pc)) then pc' = pc
       else pkts pc' = pkts pc ++ [p].
Proof.
  intros Hw Hf Hi. destruct (reply_queuestatus_run b c i pc Hw Hf Hi)
    as (b' & t & E & Hw' & Hl & Ht & _ & p & Hd & Hz & Hsm & Hc).
  exists b', t. split; [done|]. split; [done|]. split; [done|].
  split; [destruct Ht as [->|[n ->]]; cbn; by rewrite bool_decide_true|].
  exists p. split; [done|]. split; [done|]. eexists. split; [done|].
  apply deliver_pkts; [exact (ble_wf_slot _ _ _ Hw Hi)|unfold FROMRADIO_MAX_PKT_SIZE; lia].
Qed.
End Properties.

(** ** The properties at concrete inputs *)

Lemma conn_boot_wf : slot_wf conn_boot.
Proof. split; by_eval. Qed.

Lemma ble_boot_wf `{Nanopb} : ble_wf ble_boot.
Proof.
  split; simpl; try done.
  - repeat (apply Forall_cons_2; [apply conn_boot_wf|]). apply Forall_nil_2.
  - repeat (apply Forall_cons_2; [done|]). apply Forall_nil_2.
  - intros i j p q Hi Hj _ Hn. exfalso. apply Hn.
    apply (lookup_replicate_1 6 conn_boot) in Hi as [-> _]. done.
  - by_eval.
Qed.

Module Demo.
#[local] Existing Instances demo_nanopb demo_nanopb_ok.

(** Phones 11, registered as 1.2.3.4, and 22. *)
Definition demo_slot (c : Z) (id : proxy_id) : proxy_conn :=
  mk_conn c id 0 PHONE_CONNECTED 0 0 (cc_frame conn_boot) 0 (queue conn_boot) 0 0 0
    (staged conn_boot) 0.
Definition id1234 : proxy_id := mk_proxy_id [1; 2; 3; 4].
Definition slot11 : proxy_conn := demo_slot 11 id1234.
Definition slot22 : proxy_conn := demo_slot 22 id_zero.
Definition b3 : ble :=
  mk_ble [slot11; slot22; conn_boot; conn_boot; conn_boot; conn_boot] 2 false 0 0
    (s_qs ble_boot) 0.

Lemma demo_slot_wf c id : id_ok id -> slot_wf (demo_slot c id).
Proof. intros Hid. pose proof conn_boot_wf as []. by split. Qed.

Lemma b3_wf : ble_wf b3.
Proof.
  split; try done.
  - repeat apply Forall_cons_2; try apply conn_boot_wf; try apply Forall_nil_2;
      apply demo_slot_wf; by_eval.
  - repeat apply Forall_cons_2; try apply Forall_nil_2; done.
  - apply distinct_addrs. change (conn <$> conns b3) with [11; 22; 0; 0; 0; 0].
    intros i j x Hi Hj Hx.
    do 6 (destruct i as [|i]; [do 6 (destruct j as [|j]; [by simplify_eq/=|]); done|]). done.
  - pose proof (bw_qs _ ble_boot_wf). done.
Qed.

Lemma enqueue_fromradio_spec_witness :
  exists b' t, ble_gatt_enqueue_fromradio 11 [5; 6] b3 = Some (rc_ok, b', t)
    /\ exists pc, conns b' !! 0%nat = Some pc /\ pkts pc = [[5; 6]].
Proof.
  destruct (enqueue_fromradio_spec b3 11 [5; 6] b3_wf) as (r & b' & t & E & _ & _ & Hm).
  change (find_slot 11 b3) with (Some 0%nat) in Hm. destruct Hm as (pc & Hpc & _ & Hm).
  injection Hpc as <-.
  rewrite (decide_False (P := FROMRADIO_MAX_PKT_SIZE < _)) in Hm by by_eval.
  rewrite decide_False in Hm by by_eval. destruct Hm as (pc' & Hr & Hb & Hp & _).
  exists b', t. split; [rewrite <- Hr; exact E|]. exists pc'. split; [by rewrite Hb|exact Hp].
Defined.

Lemma broadcast_fromradio_spec_witness :
  exists t b', ble_gatt_broadcast_fromradio [7] b3 = Some (2, b', t)
    /\ exists pc, conns b' !! 1%nat = Some pc /\ pkts pc = [[7]].
Proof.
  destruct (broadcast_fromradio_spec b3 [7] b3_wf) as (t & b' & E & _ & _ & Hs).
  exists t, b'. split; [exact E|]. destruct (Hs 1%nat slot22 eq_refl) as (pc' & Hi & Hp & _).
  exists pc'. split; [exact Hi|exact Hp].
Defined.

Lemma b3_new : forall pc, pc ∈ conns b3 -> conn pc <> 33.
Proof.
  intros q Hq. simpl in Hq. repeat (apply elem_of_cons in Hq as [->|Hq]; [done|]).
  by apply not_elem_of_nil in Hq.
Qed.

Lemma on_connected_spec_witness :
  exists b', on_connected 33 0 rc_ok b3 = Some (tt, b', [IoConnRef 33; IoAdvStart])
    /\ in_use (conns b') = 3.
Proof.
  destruct (on_connected_spec b3 33 0 rc_ok b3_wf ltac:(done) b3_new)
    as (b' & t & E & _ & i & pc & pc' & _ & _ & _ & _ & _ & _ & _ & _ & _ & _ & Hu & Ht).
  exists b'. split; [|exact Hu]. rewrite E. f_equal. by rewrite Ht.
Defined.

Lemma on_disconnected_spec_witness :
  exists b', on_disconnected 22 rc_ok b3 = Some (tt, b', [IoConnUnref 22; IoAdvStart])
    /\ find_slot 22 b' = None.
Proof.
  destruct (on_disconnected_spec b3 22 rc_ok b3_wf ltac:(done))
    as (b' & t & E & _ & Hf & pc' & _ & _ & _ & _ & _ & _ & Ht).
  exists b'. split; [|exact Hf]. rewrite E. f_equal. by rewrite Ht.
Defined.

Lemma get_conn_by_proxy_id_spec_witness :
  exists c, ble_gatt_get_conn_by_proxy_id id1234 b3 = Some c /\ c <> NULL.
Proof.
  destruct (get_conn_by_proxy_id_spec b3 id1234 b3_wf ltac:(by_eval)) as (c & E & _ & Hz).
  exists c. split; [exact E|]. intros ->.
  assert (0 = 0) as H0 by reflexivity. apply Hz in H0 as [H0|H0]; [done|].
  by apply (H0 slot11 (list_elem_of_here _ _)).
Defined.

Lemma node_reg_write_spec_witness :
  exists b', node_reg_write 22 [9; 9; 9; 9] 0 b3 = Some (att_ok 4, b', []) /\ ble_wf b'.
Proof.
  destruct (node_reg_write_spec b3 22 [9; 9; 9; 9] 0 b3_wf ltac:(by_eval) ltac:(done))
    as (r & b' & E & Hw & Hr & _).
  exists b'. split; [|exact Hw]. rewrite E. f_equal. by rewrite Hr.
Defined.

Lemma replay_cached_burst_spec_witness :
  exists b' t, ble_gatt_replay_cached_burst 11 69420 b3 = Some (tt, b', t)
    /\ exists pc, conns b' !! 0%nat = Some pc /\ pc_nonce pc = 69420 /\ pc_state pc = PHONE_REPLAYING.
Proof.
  destruct (replay_cached_burst_spec b3 11 69420 b3_wf ltac:(by_eval))
    as (b' & t & E & _ & _ & pc & pc' & _ & Hb & Hn & Hs & _).
  exists b', t. split; [exact E|]. exists pc'. split; [by rewrite Hb|]. split; [exact Hn|exact Hs].
Defined.

Lemma reply_queuestatus_spec_witness :
  exists b' t, ble_gatt_reply_queuestatus 22 b3 = Some (tt, b', t) /\ s_qs_len b' <> 0.
Proof.
  destruct (reply_queuestatus_spec b3 22 1 slot22 b3_wf eq_refl eq_refl)
    as (b' & t & E & _ & Hl & _).
  exists b', t. split; [exact E|exact Hl].
Defined.
End Demo.
