(* ===== verification/BleReplay.v ===== *)
(** * BleReplay: what a phone reads (reads of the attributes of src/src/ble_gatt.c)

    Theorems on [fromradio_read] and the other attribute callbacks of BleGatt:
    a replay serves exactly the phone's segment of the cache, then the closing
    frame, then an empty value; otherwise the packet queue is served in order;
    long reads reassemble to the staged packet. *)

From stdpp Require Import prelude.
From S2P Require Import Prelude ProxyProtocol Nanopb ConfigCache Zephyr UartMeshtastic.
From S2P Require Import ProtoHandler UpstreamSession BleGatt.

Local Open Scope Z_scope.

Section Slots.
Context {W : Type} `{Lb : !Lens W ble}.

(** The program with slot [i] replaced. *)
Definition with_slot (i : nat) (pc : proxy_conn) (w : W) : W :=
  lset ((lget w : ble) <| conns := <[i := pc]> (conns (lget w)) |>) w.
Definition slot_is (w : W) (i : nat) (pc : proxy_conn) : Prop := conns (lget w) !! i = Some pc.

Lemma with_slot_is w i pc pc' : slot_is w i pc -> slot_is (with_slot i pc' w) i pc'.
Proof.
  intros H. unfold slot_is, with_slot. rewrite lget_lset. simpl.
  apply list_lookup_insert_eq. by eapply lookup_lt_Some.
Qed.
Lemma with_slot_twice w i pc pc' : with_slot i pc' (with_slot i pc w) = with_slot i pc' w.
Proof.
  unfold with_slot. rewrite lget_lset, lset_lset. simpl. by rewrite list_insert_insert_eq.
Qed.
Lemma with_slot_id w i pc : slot_is w i pc -> with_slot i pc w = w.
Proof.
  intros H. unfold with_slot. rewrite list_insert_id by done.
  replace (_ <| conns := _ |>) with (lget w : ble) by by destruct (lget w).
  by rewrite lset_lget.
Qed.

Lemma run_slot_get {B} w i pc (k : proxy_conn -> M W B) :
  slot_is w i pc -> bind (zoom (get_slot i)) k w = k pc w.
Proof.
  intros H. unfold get_slot, bind, zoom, gets, oget, id. unfold slot_is in H. rewrite H. simpl.
  rewrite lset_lget. by destruct (k pc w) as [[[b w'] t]|].
Qed.
Lemma run_slot_upd {B} w i pc f (k : unit -> M W B) :
  slot_is w i pc -> bind (zoom (upd_slot i f)) k w = k tt (with_slot i (f pc) w).
Proof.
  intros H. erewrite run_zoom by by apply upd_slot_eq. fold (with_slot i (f pc) w).
  by destruct (k tt _) as [[[b w'] t]|].
Qed.
Lemma slot_upd_eq w i pc f :
  slot_is w i pc -> zoom (upd_slot i f) w = Some (tt, with_slot i (f pc) w, []).
Proof. intros H. by erewrite zoom_eq by by apply upd_slot_eq. Qed.
End Slots.

Section Replay.
Context `{NanopbOk, GattRead}.
Context {W : Type} `{Lc : !Lens W cache, Lb : !Lens W ble, !Disjoint_lens Lb Lc}.

(** The frames of the cache a phone has not been served yet. *)
Definition test_of (c : cache) (pc : proxy_conn) : Z -> frame -> bool :=
  seg_test (pc_nonce pc) (s_own_nodeinfo_idx c).
Definition remaining (c : cache) (pc : proxy_conn) : list frame :=
  walk (test_of c pc) (replay_cursor pc) (drop (Z.to_nat (replay_cursor pc)) (frames_of c)).

Lemma lget_cache_slot w i pc : (lget (with_slot i pc w) : cache) = lget w.
Proof. unfold with_slot. by lens_simpl. Qed.

Lemma walk_unfold q k (fs : list frame) :
  0 <= k -> 
  walk q k (drop (Z.to_nat k) fs)
  = match fs !! Z.to_nat k with
    | Some f => if q k f then f :: walk q (k + 1) (drop (Z.to_nat (k + 1)) fs)
                else walk q (k + 1) (drop (Z.to_nat (k + 1)) fs)
    | None => []
    end.
Proof.
  intros Hk. replace (Z.to_nat (k + 1)) with (S (Z.to_nat k)) by lia.
  destruct (fs !! Z.to_nat k) as [f|] eqn:E.
  - rewrite (drop_S _ _ _ E). simpl. by destruct (q k f).
  - rewrite drop_ge; [done|]. by apply lookup_ge_None.
Qed.

(** The while loop of [fromradio_read] stops at the next frame to serve. *)
Lemma skip_loop_eq fuel w i pc :
  cache_wf (lget w) -> slot_is w i pc ->
  0 <= replay_cursor pc <= zlen (frames_of (lget w)) ->
  zlen (frames_of (lget w)) - replay_cursor pc < Z.of_nat fuel ->
  exists k, skip_loop fuel i (zlen (frames_of (lget w))) w
            = Some (tt, with_slot i (pc <| replay_cursor := k |>) w, [])
    /\ replay_cursor pc <= k <= zlen (frames_of (lget w))
    /\ remaining (lget w) (pc <| replay_cursor := k |>) = remaining (lget w) pc
    /\ (k < zlen (frames_of (lget w)) -> exists f, frames_of (lget w) !! Z.to_nat k = Some f
          /\ test_of (lget w) pc k f = true).
Proof.
  intros Wc. revert w pc Wc. induction fuel as [|fuel IH]; intros w pc Wc Hs Hk Hf; [lia|].
  assert (pc <| replay_cursor := replay_cursor pc |> = pc) as Hid by by destruct pc.
  pose proof (zlen_frames _ Wc) as Hn. pose proof (wf_count _ Wc) as Hcnt.
  simpl. erewrite run_slot_get by done. case_decide as Hlt.
  - rewrite run_zoom_gets. unfold id. rewrite in_segment_ok by (done || lia).
    rewrite run_oget.
    destruct (frames_of (lget w) !! Z.to_nat (replay_cursor pc)) as [f|] eqn:Ef.
    2: { apply lookup_ge_None in Ef. unfold zlen in *. lia. }
    fold (test_of (lget w) pc). destruct (test_of (lget w) pc (replay_cursor pc) f) eqn:Et.
    + exists (replay_cursor pc). rewrite Hid, with_slot_id by done. split_and!; try done; try lia.
      intros _. eauto.
    + erewrite run_slot_upd by done. unfold CONFIG_CACHE_MAX_FRAMES in *.
      rewrite u16_id by lia.
      set (pc1 := pc <| replay_cursor := replay_cursor pc + 1 |>).
      destruct (IH (with_slot i pc1 w) pc1) as (k & E & Hk' & Hr & Hx).
      * by rewrite lget_cache_slot.
      * by eapply with_slot_is.
      * rewrite lget_cache_slot. simpl. lia.
      * rewrite lget_cache_slot. simpl. lia.
      * rewrite lget_cache_slot in *. exists k. rewrite E, with_slot_twice.
        simpl in Hk'. split_and!; try done; try lia.
        change (pc1 <| replay_cursor := k |>) with (pc <| replay_cursor := k |>) in Hr.
        rewrite Hr. unfold remaining. rewrite (walk_unfold _ (replay_cursor pc)) by lia.
        by rewrite Ef, Et.
  - exists (replay_cursor pc). rewrite Hid, with_slot_id by done. split_and!; try done; lia.
Qed.

(** *** One fresh read *)

(** The value staged in a slot. *)
Definition staged_is (pc : proxy_conn) (v : list Z) : Prop :=
  staged_len pc = zlen v /\ take (Z.to_nat (zlen v)) (staged pc) = v.

(** What is left to read of a replay. *)
Definition closing (pc : proxy_conn) : list Z := take (Z.to_nat (cc_len pc)) (cc_frame pc).
Definition to_read (c : cache) (pc : proxy_conn) : list (list Z) :=
  if decide (replay_cursor pc <= zlen (frames_of c))
  then (remaining c pc).*2 ++ [closing pc] else [].

(** The fields a read never changes. *)
Definition same_phone (pc pc' : proxy_conn) : Prop :=
  conn pc' = conn pc /\ pc_proxy_id pc' = pc_proxy_id pc /\ fromnum pc' = fromnum pc
  /\ pc_nonce pc' = pc_nonce pc /\ cc_frame pc' = cc_frame pc /\ cc_len pc' = cc_len pc.

Lemma stage_ok pc v :
  slot_wf pc -> zlen v <= FROMRADIO_MAX_PKT_SIZE ->
  mem_write (staged pc) 0 v = Some (splice (staged pc) 0 v)
  /\ zlen (splice (staged pc) 0 v) = FROMRADIO_MAX_PKT_SIZE
  /\ take (Z.to_nat (zlen v)) (splice (staged pc) 0 v) = v.
Proof.
  intros Hwf Hv. pose proof (sw_staged _ Hwf). split_and!.
  - apply mem_write_ok; lia.
  - rewrite zlen_splice; lia.
  - rewrite splice_0. unfold zlen. by rewrite Nat2Z.id, take_app_length.
Qed.

(** A read that stages [v] and leaves [vs]. *)
Definition replay_staged w i pc (v : list Z) (vs : list (list Z)) : Prop :=
  exists pc', stage_replay i w = Some (tt, with_slot i pc' w, [])
    /\ slot_wf pc' /\ same_phone pc pc' /\ pkts pc' = pkts pc
    /\ staged_is pc' v /\ to_read (lget w) pc' = vs /\ pc_state pc' = PHONE_REPLAYING.

Lemma cursor_wf pc k :
  slot_wf pc -> 0 <= k <= CONFIG_CACHE_MAX_FRAMES -> slot_wf (pc <| replay_cursor := k |>).
Proof. intros [] Hk. split; try done. simpl. unfold CONFIG_CACHE_MAX_FRAMES in *. lia. Qed.

(** The loop stops at a frame of the segment. *)
Lemma stage_frame_eq w i pc k f :
  cache_wf (lget w) -> slot_is w i pc -> slot_wf pc -> pc_state pc = PHONE_REPLAYING ->
  0 <= k -> frames_of (lget w) !! Z.to_nat k = Some f -> 0 < zlen f.2 <= FROMRADIO_MAX_PKT_SIZE ->
  skip_loop skip_fuel i (zlen (frames_of (lget w))) w
  = Some (tt, with_slot i (pc <| replay_cursor := k |>) w, []) ->
  replay_staged w i pc f.2
    ((walk (test_of (lget w) pc) (k + 1) (drop (Z.to_nat (k + 1)) (frames_of (lget w)))).*2 ++ [closing pc]).
Proof.
  intros Wc Hs Hwf Hst Hk Hf Hfz E. pose proof (zlen_frames _ Wc) as Hn. pose proof (wf_count _ Wc) as Hcnt.
  unfold CONFIG_CACHE_MAX_FRAMES in *.
  assert (k < zlen (frames_of (lget w))) as Hlt by (apply lookup_lt_Some in Hf; unfold zlen; lia).
  pose proof (cursor_wf pc k Hwf ltac:(unfold CONFIG_CACHE_MAX_FRAMES; lia)) as Wk.
  unfold replay_staged, stage_replay. rewrite run_zoom_gets. unfold cache_frame_count. rewrite <- Hn.
  erewrite run_bind by exact E. set (pck := pc <| replay_cursor := k |>) in *.
  erewrite run_slot_get by by eapply with_slot_is. change (replay_cursor pck) with k.
  rewrite decide_True, run_zoom_gets by done. unfold id. rewrite lget_cache_slot.
  destruct (index_get _ k Wc) as (r & Hr & _ & Hfr & Ho & Hrl & Hru); [lia|].
  rewrite Hf in Hfr. injection Hfr as Hfr.
  assert (cache_frame_at k (lget w) = Some (Some r)) as Hat
    by (unfold cache_frame_at; rewrite decide_False by lia; by rewrite Hr).
  change (replay_cursor pck) with k. rewrite Hat, run_oget.
  assert (cache_frame_bytes (Some r) = Some (offset r)) as -> by done.
  rewrite run_assoc, run_oget. rewrite Hfr in Hfz |- *. simpl in Hfz |- *.
  rewrite arena_slice by done. rewrite run_assoc, run_oget.
  destruct (stage_ok pck (slice (s_arena (lget w)) r) Wk (proj2 Hfz)) as (Hw & Hz & Hv).
  change (staged pck) with (staged pc) in Hw. rewrite Hw, run_assoc, run_oget. erewrite run_slot_upd by by eapply with_slot_is.
  erewrite slot_upd_eq by (eapply with_slot_is, with_slot_is; exact Hs).
  rewrite !with_slot_twice. simpl.
  assert (zlen (slice (s_arena (lget w)) r) = len r) as Hsl
    by (apply (mem_read_len (s_arena (lget w)) (offset r)); by apply arena_slice).
  rewrite u16_id by lia. eexists. split; [done|]. rewrite Hsl in *.
  split; [|split_and!; try done].
  - destruct Wk. split; try done; simpl; unfold CONFIG_CACHE_MAX_FRAMES; lia.
  - split; simpl; by rewrite Hsl.
  - unfold to_read. rewrite decide_True by (simpl; lia). done.
Qed.

(** It stops at the end: the closing frame is staged. *)
Lemma stage_closing_eq w i pc :
  cache_wf (lget w) -> slot_is w i pc -> slot_wf pc -> pc_state pc = PHONE_REPLAYING ->
  let n := zlen (frames_of (lget w)) in
  skip_loop skip_fuel i n w = Some (tt, with_slot i (pc <| replay_cursor := n |>) w, []) ->
  replay_staged w i pc (closing pc) [].
Proof.
  intros Wc Hs Hwf Hst n E. pose proof (zlen_frames _ Wc) as Hn. pose proof (wf_count _ Wc) as Hcnt.
  pose proof (zlen_nonneg (frames_of (lget w))). unfold CONFIG_CACHE_MAX_FRAMES in *.
  pose proof (cursor_wf pc n Hwf ltac:(unfold CONFIG_CACHE_MAX_FRAMES; lia)) as Wk.
  unfold replay_staged, stage_replay. rewrite run_zoom_gets. unfold cache_frame_count. rewrite <- Hn. fold n.
  erewrite run_bind by exact E. set (pck := pc <| replay_cursor := n |>) in *.
  erewrite run_slot_get by by eapply with_slot_is. change (replay_cursor pck) with n.
  rewrite decide_False by lia. rewrite decide_True by done.
  pose proof (sw_cc _ Hwf) as [Hcz _]. pose proof (sw_cc_len _ Hwf) as Hcl.
  change (cc_len pck) with (cc_len pc). change (cc_frame pck) with (cc_frame pc).
  rewrite mem_read_0 by lia. rewrite run_oget. fold (closing pc).
  assert (zlen (closing pc) = cc_len pc) as Hzc by (apply zlen_take; lia).
  destruct (stage_ok pck (closing pc) Wk) as (Hw & Hz & Hv).
  { unfold FROMRADIO_MAX_PKT_SIZE. lia. }
  rewrite Hw, run_oget. erewrite slot_upd_eq by by eapply with_slot_is.
  rewrite with_slot_twice. simpl. rewrite u16_id by lia. eexists. split; [done|].
  split; [|split_and!; try done].
  - destruct Wk. split; try done; simpl; unfold CONFIG_CACHE_MAX_FRAMES, FROMRADIO_MAX_PKT_SIZE; lia.
  - unfold to_read. by rewrite decide_False by (simpl; lia).
Qed.

Lemma stage_replay_eq w i pc :
  cache_wf (lget w) ->
  Forall (fun f => 0 < zlen f.2 <= FROMRADIO_MAX_PKT_SIZE) (frames_of (lget w)) ->
  slot_is w i pc -> slot_wf pc -> pc_state pc = PHONE_REPLAYING -> armed pc ->
  exists pc', stage_replay i w = Some (tt, with_slot i pc' w, [])
    /\ slot_wf pc' /\ same_phone pc pc' /\ pkts pc' = pkts pc
    /\ match to_read (lget w) pc with
       | v :: vs => staged_is pc' v /\ to_read (lget w) pc' = vs /\ pc_state pc' = PHONE_REPLAYING
       | [] => staged_is pc' [] /\ pc_state pc' = PHONE_ACTIVE
       end.
Proof.
  intros Wc Hfs Hs Hwf Hst Ha. pose proof (zlen_frames _ Wc) as Hn. pose proof (wf_count _ Wc) as Hcnt.
  pose proof (sw_cursor _ Hwf) as Hcur. unfold CONFIG_CACHE_MAX_FRAMES in *.
  unfold to_read. destruct (decide (replay_cursor pc <= zlen (frames_of (lget w)))) as [Hle|Hgt].
  - destruct (skip_loop_eq skip_fuel w i pc Wc Hs) as (k & E & Hk & Hrem & Hx).
    { lia. } { unfold skip_fuel, CONFIG_CACHE_MAX_FRAMES. lia. }
    rewrite <- Hrem. unfold remaining at 1. change (replay_cursor (_ <| replay_cursor := k |>)) with k.
    rewrite walk_unfold by lia. destruct (decide (k < zlen (frames_of (lget w)))) as [Hlt|Hlt].
    + destruct (Hx Hlt) as (f & Hf & Ht). rewrite Hf.
      change (test_of (lget w) (_ <| replay_cursor := k |>)) with (test_of (lget w) pc). rewrite Ht.
      apply (stage_frame_eq w i pc k f); try done; [lia|]. exact (Forall_lookup_1 _ _ _ _ Hfs Hf).
    + assert (k = zlen (frames_of (lget w))) as -> by lia.
      rewrite lookup_ge_None_2 by (unfold zlen; lia). by apply stage_closing_eq.
  - assert (skip_loop skip_fuel i (zlen (frames_of (lget w))) w = Some (tt, w, [])) as E.
    { unfold skip_fuel. simpl skip_loop. erewrite run_slot_get by done. by rewrite decide_False by lia. }
    unfold stage_replay. rewrite run_zoom_gets. unfold cache_frame_count. rewrite <- Hn.
    erewrite run_bind by exact E. erewrite run_slot_get by done.
    rewrite decide_False by lia. rewrite decide_False by lia.
    erewrite slot_upd_eq by done. simpl. eexists. split; [done|].
    split; [destruct Hwf; by split|]. by split_and!.
Qed.

Lemma stage_queue_eq w i pc :
  slot_is w i pc -> slot_wf pc ->
  exists pc', zoom (stage_queue i) w = Some (tt, with_slot i pc' w, [])
    /\ slot_wf pc' /\ same_phone pc pc' /\ pc_state pc' = pc_state pc
    /\ replay_cursor pc' = replay_cursor pc
    /\ match pkts pc with
       | v :: vs => staged_is pc' v /\ pkts pc' = vs
       | [] => staged_is pc' [] /\ pkts pc' = []
       end.
Proof.
  intros Hs Hwf. pose proof (zlen_pkts _ Hwf) as Hz. pose proof (sw_count _ Hwf) as Hc.
  unfold stage_queue. destruct (decide (0 < count pc)) as [Hp|Hp].
  - destruct (pop_slot_eq pc Hwf Hp) as (pkt & d & Hg & Hr & Hw & Ep & W' & Hpk & Hzd & Hst).
    exists (pop_slot pc). split; [|split_and!; try done].
    + apply zoom_eq with (s' := (lget w : ble) <| conns := <[i := pop_slot pc]> (conns (lget w)) |>).
      erewrite run_get_slot by done. rewrite decide_True by done.
      rewrite Hg, run_oget, Hr, run_oget, Hw, run_oget.
      erewrite upd_slot_eq by done. unfold FROMRADIO_QUEUE_DEPTH in *.
      rewrite u8_id by lia. by rewrite Ep at 2.
    + rewrite Ep. done.
    + by rewrite Ep.
    + by rewrite Ep.
    + rewrite Hpk. split; [|done].
      assert (staged_len (pop_slot pc) = zlen d) as El by (by rewrite Ep, Hzd).
      split; [done|]. by rewrite <- El.
  - assert (pkts pc = []) as Hpk.
    { apply length_zero_iff_nil. unfold zlen in Hz. lia. }
    eexists. split; [|split; [|split; [|split; [|split]]]].
    + apply zoom_eq with (s' := (lget w : ble)
        <| conns := <[i := pc <| staged_len := 0 |>]> (conns (lget w)) |>).
      erewrite run_get_slot by done. rewrite decide_False by done. by apply upd_slot_eq.
    + destruct Hwf. by split.
    + done.
    + done.
    + done.
    + rewrite Hpk. split; [by split|exact Hpk].
Qed.
End Replay.

(** ** A phone reading FROMRADIO *)

Lemma find_from_conn l l' c k :
  conn <$> l = conn <$> l' -> find_from l c k = find_from l' c k.
Proof.
  revert l' k. induction l as [|p l IH]; intros [|q l'] k E; simplify_eq/=; [done|].
  case_decide; case_decide; try congruence. by apply IH.
Qed.

Section Reader.
Context `{NanopbOk, GattReadOk}.
Context {W : Type} `{Lc : !Lens W cache, Lb : !Lens W ble, !Disjoint_lens Lb Lc}.

(** Connection [c] has slot [i], which is [pc]. *)
Record reader (w : W) (c : bt_conn) (i : nat) (pc : proxy_conn) : Prop := {
  rd_ble : ble_wf (lget w);
  rd_cache : cache_wf (lget w);
  rd_frames : Forall (fun f => 0 < zlen f.2 <= FROMRADIO_MAX_PKT_SIZE) (frames_of (lget w));
  rd_find : find_slot c (lget w) = Some i;
  rd_slot : slot_is w i pc;
}.

Lemma same_phone_armed pc pc' : same_phone pc pc' -> armed pc -> armed pc'.
Proof. intros (_ & _ & _ & En & Ef & El). unfold armed. by rewrite En, Ef, El. Qed.

Lemma reader_step w c i pc pc' :
  reader w c i pc -> slot_wf pc' -> same_phone pc pc' ->
  (pc_state pc' = PHONE_REPLAYING -> pc_state pc = PHONE_REPLAYING) ->
  reader (with_slot i pc' w) c i pc'.
Proof.
  intros [Hb Hc Hf Hi Hs] Hwf Hsame Hst. pose proof Hsame as [Ec _]. split.
  - unfold with_slot. rewrite lget_lset. apply (ble_wf_insert _ i pc); try done.
    intros Hr. eapply same_phone_armed; [done|]. eapply ble_wf_armed; [done|exact Hs|auto].
  - by rewrite lget_cache_slot.
  - by rewrite lget_cache_slot.
  - unfold with_slot. rewrite lget_lset. rewrite <- Hi. unfold find_slot. simpl.
    apply find_from_conn. rewrite list_fmap_insert, Ec. apply list_insert_id.
    rewrite list_lookup_fmap. unfold slot_is in Hs. by rewrite Hs.
  - by eapply with_slot_is.
Qed.

(** What the callback returns for the staged value [v]. *)
Lemma serve_staged len off i pc v w :
  slot_is w i pc -> slot_wf pc -> staged_is pc v -> 0 <= len -> 0 <= off <= zlen v ->
  (pc <- zoom (get_slot i) ;;
   result <- (if decide (0 < staged_len pc) then
                v <- oget (mem_read (staged pc) 0 (staged_len pc)) ;;
                ret (bt_gatt_attr_read len off v)
              else ret (att_ok [])) ;;
   emit (IoUnlock i) ;;;
   ret result) w
  = Some (att_ok (take (Z.to_nat len) (drop (Z.to_nat off) v)), w, [IoUnlock i]).
Proof.
  intros Hs Hwf [El Ev] Hl Ho. erewrite run_slot_get by done.
  pose proof (sw_staged _ Hwf). pose proof (sw_staged_len _ Hwf).
  destruct (decide (0 < staged_len pc)) as [Hp|Hp].
  - rewrite mem_read_0 by lia. rewrite run_assoc, run_oget, run_ret, run_emit.
    rewrite El, Ev. rewrite gatt_read_ok by lia. by rewrite decide_False by lia.
  - assert (v = []) as -> by (apply length_zero_iff_nil; unfold zlen in *; lia).
    rewrite run_ret, run_emit. by rewrite drop_nil, take_nil.
Qed.

(** A fresh read stages the next value and returns its first [len] bytes. *)
Lemma fresh_read w c i pc len :
  reader w c i pc -> 0 <= len ->
  exists pc' v, fromradio_read c len 0 w
      = Some (att_ok (take (Z.to_nat len) v), with_slot i pc' w, [IoLock i; IoUnlock i])
    /\ reader (with_slot i pc' w) c i pc' /\ staged_is pc' v /\ same_phone pc pc'
    /\ if decide (pc_state pc = PHONE_REPLAYING)
       then pkts pc' = pkts pc
            /\ match to_read (lget w) pc with
               | v' :: vs => v = v' /\ to_read (lget w) pc' = vs /\ pc_state pc' = PHONE_REPLAYING
               | [] => v = [] /\ pc_state pc' = PHONE_ACTIVE
               end
       else pc_state pc' = pc_state pc
            /\ match pkts pc with
               | v' :: vs => v = v' /\ pkts pc' = vs
               | [] => v = [] /\ pkts pc' = []
               end.
Proof.
  intros R Hl. pose proof R as [Hb Hc Hfs Hf Hs].
  pose proof (ble_wf_slot _ _ _ Hb Hs) as Hwf. unfold fromradio_read.
  rewrite run_zoom_gets. unfold id. rewrite Hf, run_emit. rewrite decide_True by done.
  destruct (decide (pc_state pc = PHONE_REPLAYING)) as [Hr|Hr].
  - pose proof (ble_wf_armed _ _ _ Hb Hs Hr) as Ha.
    destruct (stage_replay_eq w i pc Hc Hfs Hs Hwf Hr Ha) as (pc' & E & Hwf' & Hsame & Hpk & Hm).
    assert (exists v, staged_is pc' v /\ match to_read (lget w) pc with
      | v' :: vs => v = v' /\ to_read (lget w) pc' = vs /\ pc_state pc' = PHONE_REPLAYING
      | [] => v = [] /\ pc_state pc' = PHONE_ACTIVE end) as (v & Hv & Hm').
    { destruct (to_read (lget w) pc) as [|v vs]; destruct_and!; eauto. }
    exists pc', v. rewrite run_assoc. erewrite run_slot_get by done. rewrite decide_True by done.
    erewrite run_bind by exact E.
    pose proof (serve_staged len 0 i pc' v (with_slot i pc' w)) as Es.
    rewrite Es; [|by eapply with_slot_is|done|done|done|pose proof (zlen_nonneg v); lia]. simpl. rewrite drop_0. split_and!; try done.
    by eapply reader_step.
  - destruct (stage_queue_eq w i pc Hs Hwf) as (pc' & E & Hwf' & Hsame & Hst & _ & Hm).
    assert (exists v, staged_is pc' v /\ match pkts pc with
      | v' :: vs => v = v' /\ pkts pc' = vs
      | [] => v = [] /\ pkts pc' = [] end) as (v & Hv & Hm').
    { destruct (pkts pc) as [|v vs]; destruct_and!; eauto. }
    exists pc', v. rewrite run_assoc. erewrite run_slot_get by done. rewrite decide_False by done.
    erewrite run_bind by exact E.
    pose proof (serve_staged len 0 i pc' v (with_slot i pc' w)) as Es.
    rewrite Es; [|by eapply with_slot_is|done|done|done|pose proof (zlen_nonneg v); lia]. simpl. rewrite drop_0. split_and!; try done.
    eapply reader_step; try done. by rewrite Hst.
Qed.

(** A read further on returns the rest of the staged value and stages nothing. *)
Lemma later_read w c i pc len off v :
  reader w c i pc -> staged_is pc v -> 0 <= len -> 0 < off <= zlen v ->
  fromradio_read c len off w
  = Some (att_ok (take (Z.to_nat len) (drop (Z.to_nat off) v)), w, [IoLock i; IoUnlock i]).
Proof.
  intros [Hb Hc Hfs Hf Hs] Hv Hl Ho. pose proof (ble_wf_slot _ _ _ Hb Hs) as Hwf.
  unfold fromradio_read. rewrite run_zoom_gets. unfold id. rewrite Hf, run_emit.
  rewrite (decide_False (P := off = 0)) by lia. rewrite run_ret.
  by rewrite (serve_staged len off i pc v w) by (done || lia).
Qed.

(** An ATT long read: chunks of [len] bytes until a short one. *)
Fixpoint read_more (fuel : nat) (c : bt_conn) (len off : Z) : M W (list Z) :=
  match fuel with
  | O => oget None
  | S fuel =>
      r <- fromradio_read c len off ;;
      match r with
      | att_ok v =>
          if decide (zlen v < len) then ret v
          else rest <- read_more fuel c len (off + len) ;; ret (v ++ rest)
      | att_error _ => ret []
      end
  end.
(** A packet has at most 512 bytes, and each chunk but the last at least one. *)
Definition read_packet (c : bt_conn) (len : Z) : M W (list Z) :=
  read_more (S (S (Z.to_nat FROMRADIO_MAX_PKT_SIZE))) c len 0.

Definition quiet_locks (t : list io) : Prop :=
  forall t', locks_ok None (t ++ t') = locks_ok None t'.
Lemma quiet_locks_nil : quiet_locks [].
Proof. done. Qed.
Lemma quiet_locks_one i : quiet_locks [IoLock i; IoUnlock i].
Proof. intros t'. cbn. by rewrite bool_decide_true. Qed.
Lemma quiet_locks_app t1 t2 : quiet_locks t1 -> quiet_locks t2 -> quiet_locks (t1 ++ t2).
Proof. intros H1' H2' t'. by rewrite <- app_assoc, H1', H2'. Qed.

Lemma read_more_rest fuel w c i pc len off v :
  reader w c i pc -> staged_is pc v -> 0 < len -> 0 < off <= zlen v ->
  zlen v - off < Z.of_nat fuel ->
  exists t, read_more fuel c len off w = Some (drop (Z.to_nat off) v, w, t) /\ quiet_locks t.
Proof.
  intros R Hv Hl. revert off. induction fuel as [|fuel IH]; intros off Ho Hf; [lia|]. simpl.
  erewrite run_bind by (eapply later_read; eauto; lia). simpl.
  pose proof (zlen_nonneg v).
  assert (zlen (drop (Z.to_nat off) v) = zlen v - off) as Hd
    by (unfold zlen in *; rewrite length_drop; lia).
  destruct (decide (len <= zlen v - off)) as [Hc|Hc].
  - rewrite decide_False by (rewrite zlen_take; lia).
    destruct (IH (off + len)) as (t & E & Ht); [lia|lia|].
    erewrite run_bind by exact E. simpl. eexists. split.
    + f_equal. f_equal. f_equal.
      replace (Z.to_nat (off + len)) with (Z.to_nat off + Z.to_nat len)%nat by lia.
      rewrite <- drop_drop. apply take_drop.
    + rewrite app_nil_r. change (quiet_locks ([IoLock i; IoUnlock i] ++ t)).
      apply quiet_locks_app; [apply quiet_locks_one|done].
  - rewrite take_ge by (unfold zlen in *; lia).
    rewrite decide_True by lia. eexists. split; [done|]. apply quiet_locks_one.
Qed.

(** Reading a whole packet, whatever the chunk size. *)
Lemma read_packet_eq w c i pc len :
  reader w c i pc -> 0 < len ->
  exists pc' v t, read_packet c len w = Some (v, with_slot i pc' w, t) /\ quiet_locks t
    /\ reader (with_slot i pc' w) c i pc' /\ same_phone pc pc'
    /\ if decide (pc_state pc = PHONE_REPLAYING)
       then pkts pc' = pkts pc
            /\ match to_read (lget w) pc with
               | v' :: vs => v = v' /\ to_read (lget w) pc' = vs /\ pc_state pc' = PHONE_REPLAYING
               | [] => v = [] /\ pc_state pc' = PHONE_ACTIVE
               end
       else pc_state pc' = pc_state pc
            /\ match pkts pc with
               | v' :: vs => v = v' /\ pkts pc' = vs
               | [] => v = [] /\ pkts pc' = []
               end.
Proof.
  intros R Hl. destruct (fresh_read w c i pc len R ltac:(lia)) as (pc' & v & E & R' & Hv & Hsame & Hm).
  pose proof (ble_wf_slot _ _ _ (rd_ble _ _ _ _ R') (rd_slot _ _ _ _ R')) as Hwf.
  assert (zlen v <= FROMRADIO_MAX_PKT_SIZE) as Hz.
  { pose proof (sw_staged_len _ Hwf). destruct Hv as [<- _]. lia. }
  pose proof (zlen_nonneg v). exists pc', v. unfold read_packet.
  assert (FROMRADIO_MAX_PKT_SIZE < Z.of_nat (S (Z.to_nat FROMRADIO_MAX_PKT_SIZE))) as Hfuel
    by (unfold FROMRADIO_MAX_PKT_SIZE; lia).
  generalize dependent (S (Z.to_nat FROMRADIO_MAX_PKT_SIZE)). intros fuel Hfuel.
  simpl read_more.
  erewrite run_bind by exact E. destruct (decide (len <= zlen v)) as [Hc|Hc].
  - rewrite decide_False by (rewrite zlen_take; lia).
    destruct (read_more_rest fuel _ c i pc' len len v R' Hv Hl) as (t & Et & Ht); [lia|lia|].
    erewrite run_bind by (rewrite Z.add_0_l; exact Et). simpl. rewrite take_drop.
    eexists. split; [done|]. split; [|done]. rewrite app_nil_r.
    change (quiet_locks ([IoLock i; IoUnlock i] ++ t)).
    apply quiet_locks_app; [apply quiet_locks_one|done].
  - rewrite take_ge by (unfold zlen in *; lia). rewrite decide_True by lia.
    eexists. split; [done|]. split; [apply quiet_locks_one|done].
Qed.

(** [k] packets read one after the other. *)
Fixpoint drain (k : nat) (c : bt_conn) (len : Z) : M W (list (list Z)) :=
  match k with
  | O => ret []
  | S k => v <- read_packet c len ;; vs <- drain k c len ;; ret (v :: vs)
  end.

Lemma same_phone_trans pc pc' pc'' : same_phone pc pc' -> same_phone pc' pc'' -> same_phone pc pc''.
Proof.
  intros (?&?&?&?&?&?) (?&?&?&?&?&?). unfold same_phone. split_and!; congruence.
Qed.

Lemma drain_replay vs w c i pc len :
  reader w c i pc -> 0 < len -> pc_state pc = PHONE_REPLAYING -> to_read (lget w) pc = vs ->
  exists pc' t, drain (S (length vs)) c len w = Some (vs ++ [[]], with_slot i pc' w, t)
    /\ quiet_locks t /\ reader (with_slot i pc' w) c i pc' /\ same_phone pc pc'
    /\ pkts pc' = pkts pc /\ pc_state pc' = PHONE_ACTIVE.
Proof.
  revert w pc. induction vs as [|v vs IH]; intros w pc R Hl Hst Hvs; simpl drain;
    destruct (read_packet_eq w c i pc len R Hl) as (pc1 & v1 & t1 & E1 & Ht1 & R1 & S1 & Hm);
    rewrite decide_True, Hvs in Hm by done.
  - destruct Hm as (Hp & -> & Ha). exists pc1, t1. erewrite run_bind by exact E1. simpl.
    by rewrite app_nil_r.
  - destruct Hm as (Hp & -> & Hvs1 & Hst1).
    destruct (IH (with_slot i pc1 w) pc1 R1 Hl Hst1) as (pc2 & t2 & E2 & Ht2 & R2 & S2 & Hp2 & Ha2).
    { by rewrite lget_cache_slot. }
    exists pc2, (t1 ++ t2). erewrite run_bind by exact E1. erewrite run_bind by exact E2.
    rewrite with_slot_twice in *. simpl. rewrite app_nil_r.
    split_and!; try done; [by apply quiet_locks_app|by eapply same_phone_trans|by rewrite Hp2].
Qed.


Lemma to_read_start c pc :
  cache_wf c -> replay_cursor pc = 0 ->
  to_read c pc = (segment (pc_nonce pc) (frames_of c)).*2 ++ [closing pc].
Proof.
  intros Hc H0'. unfold to_read, remaining, test_of. rewrite H0'.
  rewrite decide_True by apply zlen_nonneg. change (Z.to_nat 0) with 0%nat.
  by rewrite drop_0, walk_segment.
Qed.

(** *** Properties *)

(** C25: the per-phone replay is exact.  A phone whose replay has just been armed
    and that reads FROMRADIO until an empty value gets, in this order, each
    cached frame of the segment of its nonce once, byte for byte and in burst
    order, then a config_complete carrying its own nonce, then the empty
    value; none of the values before the last is empty, so it does not stop
    early.  It is then ACTIVE, with every packet that arrived meanwhile still
    queued.  This holds for every ATT chunk size. *)
Theorem replay_exact w c i pc len :
  reader w c i pc -> pc_state pc = PHONE_REPLAYING -> replay_cursor pc = 0 -> 0 < len ->
  let seg := segment (pc_nonce pc) (frames_of (lget w)) in
  exists cc pc' t,
    drain (length seg + 2) c len w = Some (seg.*2 ++ [cc] ++ [[]], with_slot i pc' w, t)
    /\ pb_decode_FromRadio cc = Some (msg_config_complete (pc_nonce pc))
    /\ Forall (fun v => v <> []) (seg.*2 ++ [cc])
    /\ reader (with_slot i pc' w) c i pc' /\ pc_state pc' = PHONE_ACTIVE /\ pkts pc' = pkts pc
    /\ locks_ok None t = true.
Proof.
  intros R Hst Hcur Hl seg.
  destruct (ble_wf_armed _ _ _ (rd_ble _ _ _ _ R) (rd_slot _ _ _ _ R) Hst) as [Hcl Hd].
  pose proof (ble_wf_slot _ _ _ (rd_ble _ _ _ _ R) (rd_slot _ _ _ _ R)) as Hwf.
  pose proof (to_read_start (lget w) pc (rd_cache _ _ _ _ R) Hcur) as Hr.
  destruct (drain_replay _ w c i pc len R Hl Hst Hr) as (pc' & t & E & Ht & R' & _ & Hp & Ha).
  exists (closing pc), pc', t. rewrite length_app, length_fmap, Nat.add_1_r in E.
  replace (length seg + 2)%nat with (S (S (length seg))) by lia.
  rewrite app_assoc. split; [exact E|]. split; [exact Hd|]. split; [|split_and!; try done].
  - apply Forall_app_2.
    + apply Forall_fmap. rewrite Forall_forall. intros f Hf Hn. simpl in Hn.
      assert (f ∈ frames_of (lget w)) as Hin.
      { subst seg. rewrite <- walk_segment in Hf by apply (rd_cache _ _ _ _ R).
        by eapply walk_in. }
      pose proof (proj1 (Forall_forall _ _) (rd_frames _ _ _ _ R) f Hin) as Hz.
      simpl in Hz. rewrite Hn in Hz. by destruct Hz.
    + repeat constructor. intros Hn. pose proof (sw_cc _ Hwf) as [Hz _].
      pose proof (sw_cc_len _ Hwf).
      assert (zlen (closing pc) = cc_len pc) as Hzc by (apply zlen_take; lia).
      rewrite Hn, zlen_nil in Hzc. lia.
  - specialize (Ht []). by rewrite app_nil_r in Ht.
Qed.


(** The error paths of the attribute reads.  An untracked connection gets
    UNLIKELY and nothing is locked or staged; a long read past the end of a
    staged packet gets INVALID_OFFSET and consumes nothing, so the read can be
    resumed; the counter characteristic returns the little-endian bytes of the
    phone's own counter. *)
Theorem attribute_reads_spec w c len off :
  0 <= len -> 0 <= off -> ble_wf (lget w) ->
  match find_slot c (lget w) with
  | None => fromradio_read c len off w = Some (att_error BT_ATT_ERR_UNLIKELY, w, [])
            /\ fromnum_read c len off (lget w) = Some (att_error BT_ATT_ERR_UNLIKELY, lget w, [])
  | Some i => exists pc, slot_is w i pc
      /\ (0 < off -> 0 < staged_len pc -> staged_len pc < off ->
          fromradio_read c len off w
          = Some (att_error BT_ATT_ERR_INVALID_OFFSET, w, [IoLock i; IoUnlock i]))
      /\ (exists b', fromnum_read c 4 0 (lget w) = Some (att_ok (le32 (fromnum pc)), b', [])
            /\ un_le32 (le32 (fromnum pc)) = fromnum pc /\ conns b' = conns (lget w)
            /\ led_fromradio_active b' = 1)
  end.
Proof.
  intros Hl Ho Hw. destruct (find_slot c (lget w)) as [i|] eqn:Hf.
  - destruct (find_slot_lookup _ _ _ Hf) as (pc & Hi & Hc). exists pc. split; [done|].
    pose proof (ble_wf_slot _ _ _ Hw Hi) as Hwf. split.
    + intros Ho' Hp Hlt. pose proof (sw_staged _ Hwf). pose proof (sw_staged_len _ Hwf).
      unfold fromradio_read. rewrite run_zoom_gets. unfold id. rewrite Hf, run_emit.
      rewrite (decide_False (P := off = 0)) by lia. rewrite run_ret.
      erewrite run_slot_get by done. rewrite decide_True by done.
      rewrite mem_read_0 by lia. rewrite run_assoc, run_oget, run_ret, run_emit. simpl.
      rewrite gatt_read_ok by lia. rewrite decide_True by (rewrite zlen_take; lia). done.
    + eexists. unfold fromnum_read. rewrite run_gets. unfold id. rewrite Hf, run_modify.
      erewrite run_get_slot by (simpl; exact Hi). unfold ret.
      rewrite gatt_read_ok by lia. rewrite decide_False by by_eval. split; [done|].
      split; [apply un_le32_le32, Hwf|done].
  - split.
    + unfold fromradio_read. rewrite run_zoom_gets. unfold id. by rewrite Hf.
    + unfold fromnum_read. rewrite run_gets. unfold id. by rewrite Hf.
Qed.
End Reader.

(** ** The properties at concrete inputs *)

Module Demo.
#[local] Existing Instances demo_nanopb demo_nanopb_ok list_gatt_read list_gatt_read_ok.

Record world := mk_world { dw_c : cache; dw_b : ble }.
#[local] Instance lens_c : Lens world cache.
Proof. refine {| lget := dw_c; lset c w := mk_world c (dw_b w) |}; by intros; try destruct w. Defined.
#[local] Instance lens_b : Lens world ble.
Proof. refine {| lget := dw_b; lset b w := mk_world (dw_c w) b |}; by intros; try destruct w. Defined.
#[local] Instance disj_bc : Disjoint_lens lens_b lens_c.
Proof. by split. Qed.

(** Phone 11 is in a replay of the node list; phone 22 has one packet queued. *)
Definition slot11 : proxy_conn :=
  mk_conn 11 id_zero 1 PHONE_REPLAYING 69421 0 (7 :: le32 69421 ++ replicate 11 0) 5
    (queue conn_boot) 0 0 0 (staged conn_boot) 0.
Definition slot22 : proxy_conn :=
  mk_conn 22 id_zero 1 PHONE_ACTIVE 0 0 (cc_frame conn_boot) 0
    (<[0%nat := mk_pkt ([8; 9] ++ replicate 510 0) 2]> (queue conn_boot)) 0 1 1
    (staged conn_boot) 0.
Definition w0 : world :=
  mk_world demo_cache
    (mk_ble [slot11; slot22; conn_boot; conn_boot; conn_boot; conn_boot] 2 true 0 0
       (s_qs ble_boot) 0).

Lemma slot11_wf : slot_wf slot11.
Proof. pose proof conn_boot_wf as []. split; try done; by_eval. Qed.
Lemma slot22_wf : slot_wf slot22.
Proof.
  pose proof conn_boot_wf as []. split; try done; by_eval.
Qed.

Lemma w0_wf : ble_wf (dw_b w0).
Proof.
  split; try done.
  - repeat apply Forall_cons_2; try apply conn_boot_wf; try apply Forall_nil_2;
      [apply slot11_wf|apply slot22_wf].
  - repeat apply Forall_cons_2; try apply Forall_nil_2; done.
  - apply distinct_addrs. change (conn <$> conns (dw_b w0)) with [11; 22; 0; 0; 0; 0].
    intros i j x Hi Hj Hx.
    do 6 (destruct i as [|i]; [do 6 (destruct j as [|j]; [by simplify_eq/=|]); done|]). done.
  - pose proof (bw_qs _ ble_boot_wf). done.
Qed.

Lemma w0_frames : Forall (fun f => 0 < zlen f.2 <= FROMRADIO_MAX_PKT_SIZE) (frames_of demo_cache).
Proof. rewrite demo_frames. repeat apply Forall_cons_2; try apply Forall_nil_2; by_eval. Qed.

Lemma reader11 : reader w0 11 0 slot11.
Proof. split; [apply w0_wf|apply demo_cache_wf|apply w0_frames|done|done]. Qed.

Lemma replay_exact_witness :
  exists cc w' t, drain (length (segment 69421 (frames_of demo_cache)) + 2) 11 20 w0
      = Some ((segment 69421 (frames_of demo_cache)).*2 ++ [cc] ++ [[]], w', t)
    /\ pb_decode_FromRadio cc = Some (msg_config_complete 69421).
Proof.
  destruct (replay_exact w0 11 0 slot11 20 reader11 eq_refl eq_refl ltac:(done))
    as (cc & pc' & t & E & Hd & _).
  exists cc, (with_slot 0 pc' w0), t. split; [exact E|exact Hd].
Defined.


Lemma attribute_reads_spec_witness :
  exists b', fromnum_read 22 4 0 (dw_b w0) = Some (att_ok (le32 1), b', []).
Proof.
  destruct (attribute_reads_spec w0 22 20 0 ltac:(done) ltac:(done) w0_wf)
    as (pc & Hi & _ & b' & E & _).
  exists b'. injection Hi as <-. exact E.
Defined.
End Demo.
