(* ===== verification/Router.v ===== *)
(** * Router: where a frame from the node goes (src/src/router.c)

    [router_dispatch] runs in the whole program: it asks the session, and sends
    to phones.  Of [ROUTE_TRACE] the reads are kept (RouteTrace); the other log
    lines have no effect and are left out.  [route_of] is the specification: the
    destination of a frame, read off its content, the session's state and the
    identifiers the phones registered. *)

From stdpp Require Import prelude.
From S2P Require Import Prelude ProxyProtocol Nanopb ConfigCache Zephyr UartMeshtastic.
From S2P Require Import ProtoHandler RouteTrace UpstreamSession BleGatt.

Local Open Scope Z_scope.

Section Dispatch.
Context `{Nanopb} {W : Type} `{!Lens W cache, !Lens W upstream, !Lens W ble}.

(** [upstream_set_serve_cb(ble_gatt_replay_cached_burst)] *)
Definition serve_replay (c : bt_conn) (nonce : Z) : M W unit :=
  zoom (ble_gatt_replay_cached_burst c nonce).

Definition broadcast (raw : list Z) : M W unit :=
  zoom (ble_gatt_broadcast_fromradio raw) ;;; ret tt.

Definition router_dispatch (raw : list Z) (info : fromradio_info) : M W unit :=
  st <- zoom (gets upstream_get_state) ;;
  taken <- (if decide (st = UPSTREAM_FETCHING)
            then upstream_on_fromradio serve_replay raw info
            else ret false) ;;
  if (taken : bool) then ret tt
  else if decide (which_variant info <> FromRadio_packet_tag) then
    swallowed <- (if decide (which_variant info = FromRadio_queueStatus_tag)
                  then zoom upstream_swallow_live_queuestatus
                  else ret false) ;;
    if (swallowed : bool) then ret tt else broadcast raw
  else if negb (is_decoded info) then broadcast raw
  else if decide (portnum info = PROXY_PORTNUM) then
    hdr <- oget (proxy_header_parse (payload_bytes info) (payload_len info)) ;;
    match hdr with
    | None => broadcast raw
    | Some hdr =>
        oget (route_trace_dn info) ;;;
        b <- zoom (gets (id : ble -> ble)) ;;
        c <- oget (ble_gatt_get_conn_by_proxy_id (hdr_dst hdr) b) ;;
        if decide (c <> NULL) then zoom (ble_gatt_enqueue_fromradio c raw) ;;; ret tt
        else broadcast raw
    end
  else broadcast raw.
End Dispatch.

(** ** Specification *)

(** The destination a proxy payload names, if it has a header. *)
Definition proxy_dst (p : list Z) : option proxy_id :=
  if decide (PROXY_HEADER_SIZE <= zlen p /\ p !! 0%nat = Some PROXY_VERSION)
  then Some (mk_proxy_id (take (Z.to_nat PROXY_ID_SIZE) (drop (Z.to_nat PROXY_OFF_DST) p)))
  else None.

(** The slot of the first connected phone that registered [id]; the zero
    identifier is nobody's. *)
Definition owner (id : proxy_id) (b : ble) : option (nat * proxy_conn) :=
  if decide (id = zero_id) then None
  else list_find (fun pc => conn pc <> NULL /\ pc_proxy_id pc = id) (conns b).

Inductive route :=
  | RtConsume                     (* kept by the session for the cache *)
  | RtSwallow                     (* the reply to the proxy's own keepalive *)
  | RtBroadcast
  | RtTarget (i : nat) (pc : proxy_conn).

Section Route.
Context `{Nanopb}.

Definition route_of (raw : list Z) (u : upstream) (b : ble) : route :=
  match classify_fromradio raw with
  | RfMeta v =>
      if decide (s_state u = UPSTREAM_FETCHING) then RtConsume
      else if decide (v = FromRadio_queueStatus_tag /\ s_keepalive_pending u = true)
      then RtSwallow else RtBroadcast
  | RfData pn p =>
      if decide (pn = PROXY_PORTNUM) then
        match (d ← proxy_dst p; owner d b) with
        | Some (i, pc) => RtTarget i pc
        | None => RtBroadcast
        end
      else RtBroadcast
  | RfMalformed | RfEncrypted => RtBroadcast
  end.
End Route.

(** What the header parser and the lookup find is what the specification says. *)
Lemma parse_dst buf len p :
  mem_read buf 0 len = Some p -> len = zlen p -> len < 65536 -> bytes_ok p ->
  exists r, proxy_header_parse buf len = Some r /\ hdr_dst <$> r = proxy_dst p
            /\ (forall h, r = Some h -> id_ok (hdr_dst h)).
Proof.
  intros Hr Hl Hs Hb. unfold proxy_dst.
  assert (0 <= len <= zlen buf) as Hlen
    by (unfold mem_read in Hr; case_decide as Hd; [lia|done]).
  rewrite mem_read_0 in Hr by done. injection Hr as <-.
  set (p := take (Z.to_nat len) buf) in *.
  assert (forall k : nat, Z.of_nat k < len -> p !! k = buf !! k) as Hk
    by (intros k ?; unfold p; by rewrite lookup_take_lt by lia).
  assert (p ++ drop (Z.to_nat len) buf = buf) as Ebuf by apply take_drop.
  case_decide as Hd.
  - destruct Hd as [H9 Hv].
    assert (mem_get p 0 = Some PROXY_VERSION) as Hg by (by unfold mem_get).
    destruct (parse_shape p len) as (src & dst & body & tl & Hsrc & Hdst & E & Hzb & _);
      [lia|done|done|lia|done|].
    assert (tl = []) as ->.
    { apply nil_length_inv. apply (f_equal zlen) in E.
      rewrite zlen_app, zlen_wire in E by done. unfold zlen in *. lia. }
    rewrite app_nil_r in E. rewrite <- Ebuf, E.
    exists (Some (mk_proxy_header src dst PROXY_OFF_CONTENT (zlen body))).
    split; [apply parse_wire; [done|done|lia|lia]|].
    destruct (id_ok_shape _ Hsrc) as (? & ? & ? & ? & ->).
    destruct (id_ok_shape _ Hdst) as (? & ? & ? & ? & ->).
    split; [done|]. by intros h [= <-].
  - exists None. split; [|done]. apply parse_reject; [done|].
    destruct (decide (PROXY_HEADER_SIZE <= zlen p)) as [H9|]; [right|left; lia].
    intros Hv. apply Hd. split; [done|]. rewrite Hk by (unfold PROXY_HEADER_SIZE, PROXY_ID_SIZE in *; lia).
    by unfold mem_get in Hv.
Qed.

Lemma lookup_owner `{Nanopb} b id :
  ble_wf b -> id_ok id ->
  ble_gatt_get_conn_by_proxy_id id b
  = Some (match owner id b with Some (_, pc) => conn pc | None => NULL end)
  /\ (forall i pc, owner id b = Some (i, pc) ->
        conns b !! i = Some pc /\ conn pc <> NULL /\ find_slot (conn pc) b = Some i).
Proof.
  intros Hw Hid. unfold ble_gatt_get_conn_by_proxy_id, owner.
  rewrite (id_is_zero_ok _ Hid). simpl. case_bool_decide as Hz.
  { rewrite decide_True by done. by split. }
  rewrite decide_False by done.
  destruct (proxy_conn_from_ok (conns b) id (bw_slots _ Hw) Hid) as (c & E & Hc).
  rewrite E. destruct (list_find _ (conns b)) as [[i pc]|] eqn:Hf; subst c; split; try done.
  intros ?? [= <- <-]. apply list_find_Some in Hf as (Hi & [Hn _] & _).
  split_and!; try done. by apply find_slot_unique; [apply Hw|..].
Qed.

(** ** The waiting phones are served *)

Section ServeAll.
Context `{NanopbOk}.

(** The slot of a phone that waited, once it is served: replaying, from the
    start, with the nonce it was parked with, and told once. *)
Definition served (pc pc' : proxy_conn) : Prop :=
  conn pc' = conn pc /\ pc_proxy_id pc' = pc_proxy_id pc /\ pkts pc' = pkts pc
  /\ pc_state pc' = PHONE_REPLAYING /\ replay_cursor pc' = 0 /\ pc_nonce pc' = pc_nonce pc
  /\ fromnum pc' = u32 (fromnum pc + 1) /\ staged pc' = staged pc /\ staged_len pc' = staged_len pc.

Lemma replay_all l b :
  ble_wf b -> NULL ∉ l -> NoDup l ->
  exists b' t, mfor (fun c => ble_gatt_replay_cached_burst c 0) l b = Some (tt, b', t)
    /\ ble_wf b' /\ b' = b <| conns := conns b' |>
    /\ length (conns b') = length (conns b)
    /\ forall i pc, conns b !! i = Some pc -> exists pc', conns b' !! i = Some pc' /\
         if decide (conn pc ∈ l) then served pc pc' else pc' = pc.
Proof.
  revert b. induction l as [|c l IH]; intros b Hw Hl Hnd; simpl.
  { exists b, []. split_and!; try done; [by destruct b|]. intros i pc Hi. by exists pc. }
  apply not_elem_of_cons in Hl as [Hc Hl]. apply NoDup_cons in Hnd as [Hcl Hnd].
  pose proof (replay_burst_eq b c 0 Hw (fits_0 32 ltac:(done))) as E.
  destruct (find_slot c b) as [k|] eqn:Hf.
  - destruct E as (pc0 & f & n & E). cbv zeta in E.
    destruct E as (Hk & Hpc0 & E & Hw' & _ & _ & Hpk).
    set (pc0' := armed_slot _ _ _ _) in *. set (b1 := b <| conns := _ |>) in *.
    destruct (IH b1 Hw' Hl Hnd) as (b' & t & E' & Hwb & Hh & Hlen & Hs).
    eexists b', _. erewrite run_bind by exact E. rewrite E'. split; [done|].
    split; [done|]. split; [done|].
    split; [rewrite Hlen; subst b1; simpl; by rewrite length_insert|].
    intros i pc Hi. destruct (decide (i = k)) as [->|Hik].
    + rewrite Hk in Hi. injection Hi as <-.
      destruct (Hs k pc0') as (pc' & Hk' & Hsv).
      { subst b1. simpl. apply list_lookup_insert_eq. by eapply lookup_lt_Some. }
      exists pc'. split; [done|]. rewrite (decide_True (P := conn pc0 ∈ c :: l)) by (rewrite Hpc0; apply list_elem_of_here).
      change (conn pc0') with (conn pc0) in Hsv. rewrite decide_False in Hsv by by rewrite Hpc0.
      subst pc'. by split_and!.
    + destruct (Hs i pc) as (pc' & Hi' & Hsv).
      { subst b1. simpl. by rewrite list_lookup_insert_ne. }
      exists pc'. split; [done|]. assert (conn pc <> c) as Hne.
      { intros He. apply Hik. eapply (bw_distinct _ Hw); [exact Hi|exact Hk|congruence|congruence]. }
      destruct (decide (conn pc ∈ l)) as [Hin|Hin].
      * by rewrite (decide_True (P := conn pc ∈ c :: l)) by (by right).
      * by rewrite (decide_False (P := conn pc ∈ c :: l)) by (rewrite elem_of_cons; by intros [?|?]).
  - destruct (IH b Hw Hl Hnd) as (b' & t & E' & Hwb & Hh & Hlen & Hs).
    eexists b', _. erewrite run_bind by exact E. rewrite E'. split; [done|].
    split_and!; try done. intros i pc Hi. destruct (Hs i pc Hi) as (pc' & Hi' & Hsv).
    exists pc'. split; [done|]. assert (conn pc <> c) as Hne.
    { unfold find_slot in Hf. rewrite find_from_None in Hf. apply Hf.
      by eapply list_elem_of_lookup_2. }
    destruct (decide (conn pc ∈ l)) as [Hin|Hin].
    + by rewrite (decide_True (P := conn pc ∈ c :: l)) by (by right).
    + by rewrite (decide_False (P := conn pc ∈ c :: l)) by (rewrite elem_of_cons; by intros [?|?]).
Qed.
End ServeAll.

(** ** What dispatching a frame does *)

Section Routed.
Context `{NanopbOk}.

(** The states of the cache, the session and the GATT module before and after
    the dispatch of [raw]. *)
Definition routed (raw : list Z) (c : cache) (u : upstream) (b : ble)
    (c' : cache) (u' : upstream) (b' : ble) : Prop :=
  match route_of raw u b with
  | RtBroadcast => c' = c /\ u' = u /\ b' = b <| conns := bc_slot raw <$> conns b |>
  | RtTarget i pc => c' = c /\ u' = u /\ b' = b <| conns := <[i := deliver raw pc]> (conns b) |>
  | RtSwallow => c' = c /\ u' = u <| s_keepalive_pending := false |> /\ b' = b
  | RtConsume => exists v, classify_fromradio raw = RfMeta v /\
      match up_action_of u raw v with
      | UpPass => False
      | UpStore => b' = b /\ u' = account u v raw /\ s_ready c' = s_ready c
          /\ frames_of c' = (add_spec (frames_of c) v raw).2
      | UpFinish => c' = c <| s_ready := 1 |> /\ s_state u' = UPSTREAM_LIVE /\ pending u' = []
          /\ same_setup u u' /\ b' = b <| conns := conns b' |>
          /\ (s_keepalive_nonce u' = s_keepalive_nonce u
              /\ s_keepalive_pending u' = s_keepalive_pending u)
          /\ forall i pc, conns b !! i = Some pc -> exists pc', conns b' !! i = Some pc' /\
               if decide (s_serve_cb u = true /\ conn pc ∈ pending u)
               then served pc pc' else pc' = pc
      end
  end.

(** The target is the slot it is said to be. *)
Lemma route_target_slot raw u b i pc :
  route_of raw u b = RtTarget i pc -> conns b !! i = Some pc /\ conn pc <> NULL.
Proof.
  unfold route_of. destruct (classify_fromradio raw) as [|v| |pn p]; try done.
  { repeat case_decide; done. }
  case_decide; [|done]. destruct (proxy_dst p) as [d|]; simpl; [|done].
  unfold owner. case_decide; [done|].
  destruct (list_find _ (conns b)) as [[j q]|] eqn:Hf; [|done]. intros [= <- <-].
  apply list_find_Some in Hf as (Hi & [Hn _] & _). done.
Qed.

(** The slot of the target gets the frame. *)
Lemma enqueue_target b i pc raw :
  ble_wf b -> conns b !! i = Some pc -> conn pc <> NULL ->
  exists r t, ble_gatt_enqueue_fromradio (conn pc) raw b
              = Some (r, b <| conns := <[i := deliver raw pc]> (conns b) |>, t)
    /\ ble_wf (b <| conns := <[i := deliver raw pc]> (conns b) |>).
Proof.
  intros Hw Hi Hc. destruct (enqueue_deliver b i pc raw Hw Hi Hc) as (r & t & E & _).
  exists r, t. split; [done|].
  destruct (bc_slot_ok raw pc) as (Hcp & Hs & Ha);
    [by eapply ble_wf_slot|by eapply ble_wf_armed|].
  unfold bc_slot in *. rewrite decide_False in Hcp, Hs, Ha by done.
  by apply (ble_wf_insert b i pc).
Qed.

Context {W : Type} `{Lc : !Lens W cache, Ls : !Lens W upstream, Lb : !Lens W ble}.
Context `{!Disjoint_lens Lc Ls, !Disjoint_lens Lc Lb, !Disjoint_lens Lb Ls}.

Lemma serve_replay_natural c n : natural Ls (serve_replay c n).
Proof. apply natural_zoom. apply _. Qed.

Lemma broadcast_run raw w :
  ble_wf (lget w) ->
  exists t, broadcast raw w
            = Some (tt, lset ((lget w) <| conns := bc_slot raw <$> conns (lget w) |>) w, t)
    /\ ble_wf ((lget w) <| conns := bc_slot raw <$> conns (lget w) |>).
Proof.
  intros Hw. destruct (broadcast_eq raw (lget w) Hw) as (t & E & Hw').
  unfold broadcast. erewrite run_zoom by exact E. simpl. eauto.
Qed.

(** A program state with the three modules replaced. *)
Definition put (w : W) (c : cache) (u : upstream) (b : ble) : W := lset c (lset u (lset b w)).

Lemma lset_same {S} `{L : !Lens W S} (w : W) (s : S) : lget w = s -> lset s w = w.
Proof. intros <-. apply lset_lget. Qed.

Lemma put_b w b : put w (lget w) (lget w) b = lset b w.
Proof. unfold put. rewrite (lset_same (lset b w)) by by lens_simpl. by rewrite lset_same by by lens_simpl. Qed.
Lemma put_u w u : put w (lget w) u (lget w) = lset u w.
Proof. unfold put. rewrite lset_lget. by rewrite lset_same by by lens_simpl. Qed.
Lemma put_cu w c u : put w c u (lget w) = lset c (lset u w).
Proof. unfold put. by rewrite lset_lget. Qed.
Lemma put_same w : put w (lget w) (lget w) (lget w) = w.
Proof. by rewrite put_b, lset_lget. Qed.

(** The waiting phones, served in the whole program. *)
Lemma serve_pending_replays w :
  ble_wf (lget w) -> up_wf (lget w) -> s_state (lget w) <> UPSTREAM_CACHE_READY ->
  exists b' t,
    mfor (serve serve_replay (s_serve_cb (lget w))) (pending (lget w)) (up_ready w)
      = Some (tt, lset b' (up_ready w), t)
    /\ ble_wf b' /\ b' = (lget w) <| conns := conns b' |>
    /\ length (conns b') = length (conns (lget w))
    /\ forall i pc, conns (lget w) !! i = Some pc -> exists pc', conns b' !! i = Some pc' /\
         if decide (s_serve_cb (lget w) = true /\ conn pc ∈ pending (lget w))
         then served pc pc' else pc' = pc.
Proof.
  intros Hw Hu Hst. set (l := pending (lget w)).
  assert (lget (up_ready w) = lget w :> ble) as Eb by (unfold up_ready; by lens_simpl).
  destruct (s_serve_cb (lget w)).
  - destruct (replay_all l (lget w) Hw (up_nonnull _ Hu Hst) (up_nodup _ Hu Hst)) as (b' & t & E & Hw' & Hbc & Hl & Hs).
    exists b', t. split.
    { change (serve serve_replay true) with (fun c => zoom (ble_gatt_replay_cached_burst c 0) : M W unit).
      rewrite mfor_zoom. apply zoom_eq. by rewrite Eb. }
    split_and!; try done. intros i pc Hi. destruct (Hs i pc Hi) as (pc' & Hi' & Hsv).
    exists pc'. split; [done|]. destruct (decide (conn pc ∈ l)).
    + by rewrite decide_True.
    + by rewrite decide_False by (by intros [_ ?]).
  - exists (lget w), []. split.
    { rewrite lset_same by done. clear. induction l; [done|]. simpl. by rewrite run_ret. }
    split_and!; try done; [by destruct (lget w : ble)|].
    intros i pc Hi. exists pc. split; [done|]. by rewrite decide_False by (by intros [? _]).
Qed.

(** A frame of the burst. *)
Lemma dispatch_consumed raw v i w :
  ble_wf (lget w) -> up_wf (lget w) -> cache_wf (lget w) -> bytes_ok raw -> zlen raw < 65536 ->
  classify_fromradio raw = RfMeta v -> v <> FromRadio_packet_tag -> which_variant i = v ->
  s_state (lget w) = UPSTREAM_FETCHING ->
  exists c' u' b' t, router_dispatch raw i w = Some (tt, put w c' u' b', t)
    /\ routed raw (lget w) (lget w) (lget w) c' u' b' /\ cache_wf c' /\ up_wf u' /\ ble_wf b'.
Proof.
  intros Hb Hu Hc Hok Hz Hcl Hv Hi Hs.
  assert (forall w' t, upstream_on_fromradio serve_replay raw i w = Some (true, w', t) ->
    router_dispatch raw i w = Some (tt, w', t)) as Hd.
  { intros w' t E. unfold router_dispatch. rewrite run_zoom_gets.
    unfold upstream_get_state. rewrite decide_True by done.
    erewrite run_bind by exact E. simpl. by rewrite app_nil_r. }
  unfold routed, route_of. rewrite Hcl. rewrite (decide_True (P := s_state _ = _)) by done.
  destruct (up_action_of (lget w) raw v) eqn:Ha.
  - exfalso. unfold up_action_of in Ha. rewrite decide_True in Ha by done. by case_decide.
  - subst v. destruct (on_fromradio_store serve_replay w raw i Hc Hok Hz Ha)
      as (c' & _ & Wc' & Hr & Hf & E).
    exists c', (account (lget w) (which_variant i) raw), (lget w), [].
    rewrite put_cu. split_and!; eauto 10; [|by destruct Hu].
    exists (which_variant i). by rewrite Ha.
  - subst v. destruct (serve_pending_replays w Hb Hu ltac:(by rewrite Hs)) as (b' & t & E & Wb & Hbc & _ & Hsv).
    destruct (on_fromradio_finish serve_replay serve_replay_natural w raw i _ t Hu Ha E)
      as (u' & E' & Hst & Hpc & Hzp & _ & Hn & Hcb & Har & Hkn & Hkp).
    destruct (up_wf_live (lget w) u') as [Hwf' Hp]; try done; [by rewrite Hs|].
    exists ((lget w) <| s_ready := 1 |>), u', b', t. split_and!; try done.
    + apply Hd. rewrite E'. unfold put, up_ready.
      by rewrite (lset_comm (L1 := Lc) (L2 := Ls)), (lset_comm (L1 := Lc) (L2 := Lb)).
    + exists (which_variant i). rewrite Ha. by split_and!.
    + by destruct Hc.
Qed.

Lemma dispatch_broadcast raw w :
  ble_wf (lget w) -> up_wf (lget w) -> cache_wf (lget w) ->
  route_of raw (lget w) (lget w) = RtBroadcast ->
  exists c' u' b' t, broadcast raw w = Some (tt, put w c' u' b', t)
    /\ routed raw (lget w) (lget w) (lget w) c' u' b' /\ cache_wf c' /\ up_wf u' /\ ble_wf b'.
Proof.
  intros Hb Hu Hc Hr. destruct (broadcast_run raw w Hb) as (t & E & Hw').
  eexists (lget w), (lget w), _, t. rewrite put_b. split_and!; [exact E| |done..].
  unfold routed. by rewrite Hr.
Qed.

(** A frame that is not a packet, once the fetch is over. *)
Lemma dispatch_meta raw v i w :
  ble_wf (lget w) -> up_wf (lget w) -> cache_wf (lget w) ->
  classify_fromradio raw = RfMeta v -> v <> FromRadio_packet_tag -> which_variant i = v ->
  s_state (lget w) <> UPSTREAM_FETCHING ->
  exists c' u' b' t, router_dispatch raw i w = Some (tt, put w c' u' b', t)
    /\ routed raw (lget w) (lget w) (lget w) c' u' b' /\ cache_wf c' /\ up_wf u' /\ ble_wf b'.
Proof.
  intros Hb Hu Hc Hcl Hv Hi Hs. subst v.
  assert (route_of raw (lget w) (lget w)
    = if decide (which_variant i = FromRadio_queueStatus_tag
                 /\ s_keepalive_pending (lget w) = true) then RtSwallow else RtBroadcast) as Hr.
  { unfold route_of. by rewrite Hcl, decide_False. }
  unfold router_dispatch. rewrite run_zoom_gets. unfold upstream_get_state.
  rewrite (decide_False (P := s_state _ = _)) by done. rewrite run_ret.
  rewrite (decide_True (P := which_variant i <> _)) by done.
  destruct (decide (which_variant i = FromRadio_queueStatus_tag)) as [Hq|Hq].
  2: { rewrite decide_False in Hr by tauto. rewrite run_ret. by apply dispatch_broadcast. }
  unfold upstream_swallow_live_queuestatus.
  destruct (s_keepalive_pending (lget w)) eqn:Hk.
  - rewrite decide_True in Hr by done.
    erewrite run_zoom by (rewrite run_gets; unfold id; rewrite Hk, run_modify; done).
    simpl. rewrite <- put_u. eexists _, _, _, []. split; [done|].
    unfold routed. rewrite Hr. split_and!; try done. by destruct Hu.
  - rewrite decide_False in Hr by by intros [_ ?].
    erewrite run_zoom by (rewrite run_gets; unfold id; rewrite Hk; done).
    rewrite lset_lget. destruct (dispatch_broadcast raw w Hb Hu Hc Hr)
      as (c' & u' & b' & t & E & H1). rewrite E. simpl. eauto 10.
Qed.

(** A packet is never consumed, also during the fetch. *)
Lemma dispatch_packet_start raw i w :
  which_variant i = FromRadio_packet_tag ->
  router_dispatch raw i w
  = (if negb (is_decoded i) then broadcast raw
     else if decide (portnum i = PROXY_PORTNUM) then
       hdr <- oget (proxy_header_parse (payload_bytes i) (payload_len i)) ;;
       match hdr with
       | None => broadcast raw
       | Some hdr =>
           oget (route_trace_dn i) ;;;
           b <- zoom (gets (id : ble -> ble)) ;;
           c <- oget (ble_gatt_get_conn_by_proxy_id (hdr_dst hdr) b) ;;
           if decide (c <> NULL) then zoom (ble_gatt_enqueue_fromradio c raw) ;;; ret tt
           else broadcast raw
       end
     else broadcast raw) w.
Proof.
  intros Hv. unfold router_dispatch. rewrite run_zoom_gets.
  rewrite (decide_False (P := which_variant i <> _)) by (by intros []).
  match goal with |- bind (if _ then _ else _) ?k w = _ => assert (forall m : M W bool,
    m w = Some (false, w, []) -> bind m k w = k false w) as Hb end.
  { intros m E. unfold bind at 1. rewrite E. match goal with
    |- match ?r with _ => _ end = _ => by destruct r as [[[]]|] end. }
  apply Hb. destruct (decide (upstream_get_state _ = _)); [|done]. apply on_fromradio_pass.
  unfold up_action_of. rewrite decide_False; [done|]. by intros [_ []].
Qed.

(** A decoded proxy packet. *)
Lemma dispatch_proxy raw i p w :
  ble_wf (lget w) -> up_wf (lget w) -> cache_wf (lget w) ->
  classify_fromradio raw = RfData PROXY_PORTNUM p -> zlen p < 65536 ->
  which_variant i = FromRadio_packet_tag -> is_decoded i = true -> portnum i = PROXY_PORTNUM ->
  mem_read (payload_bytes i) 0 (payload_len i) = Some p -> payload_len i = zlen p ->
  bytes_ok p ->
  exists c' u' b' t, router_dispatch raw i w = Some (tt, put w c' u' b', t)
    /\ routed raw (lget w) (lget w) (lget w) c' u' b' /\ cache_wf c' /\ up_wf u' /\ ble_wf b'.
Proof.
  intros Hb Hu Hc Hcl Hz Hv Hd Hp Hm Hl Hok.
  assert (route_of raw (lget w) (lget w)
    = match (d ← proxy_dst p; owner d (lget w)) with
      | Some (i, pc) => RtTarget i pc | None => RtBroadcast end) as Hr
    by (unfold route_of; by rewrite Hcl, decide_True).
  rewrite dispatch_packet_start, Hd by done. cbn [negb].
  rewrite (decide_True (P := portnum i = _)) by done.
  destruct (parse_dst (payload_bytes i) (payload_len i) p) as (r & E & Hdst & Hid);
    [done|done|by rewrite Hl|done|].
  rewrite E, run_oget. destruct r as [h|]; simpl in Hdst; rewrite <- Hdst in Hr; simpl in Hr.
  2: by apply dispatch_broadcast.
  destruct (route_trace_parsed _ _ _ _ Hm E) as [line El].
  unfold route_trace_dn. rewrite El, run_oget.
  rewrite run_zoom_gets. unfold id.
  destruct (lookup_owner (lget w) (hdr_dst h) Hb (Hid h eq_refl)) as [Eo Ho].
  rewrite Eo, run_oget. destruct (owner _ _) as [[k pc]|].
  - destruct (Ho k pc eq_refl) as (Hk & Hn & _). rewrite decide_True by done.
    destruct (enqueue_target (lget w) k pc raw Hb Hk Hn) as (rc & t & E' & Hw').
    erewrite run_zoom by exact E'. simpl.
    eexists (lget w), (lget w), _, _. rewrite put_b. split; [done|].
    unfold routed. rewrite Hr. by split_and!.
  - rewrite decide_False by (by intros []). by apply dispatch_broadcast.
Qed.

Lemma dispatch_routed raw i w :
  ble_wf (lget w) -> up_wf (lget w) -> cache_wf (lget w) -> bytes_ok raw -> zlen raw < 65536 ->
  proto_decode_fromradio raw = (rc_ok, i) ->
  exists c' u' b' t, router_dispatch raw i w = Some (tt, put w c' u' b', t)
    /\ routed raw (lget w) (lget w) (lget w) c' u' b' /\ cache_wf c' /\ up_wf u' /\ ble_wf b'.
Proof.
  intros Hb Hu Hc Hok Hz Hdec. pose proof (decode_fromradio_classified raw) as Hcl.
  pose proof (decode_fromradio_payload raw i Hdec) as (_ & _ & Hpl).
  destruct (classify_fromradio raw) as [|v| |pn p] eqn:Ecl.
  - by rewrite Hdec in Hcl.
  - destruct Hcl as [Hv E]. rewrite Hdec in E. injection E as ->.
    destruct (decide (s_state (lget w) = UPSTREAM_FETCHING)).
    + by eapply dispatch_consumed.
    + by eapply dispatch_meta.
  - destruct Hcl as (i' & E & Hv & Hd & _). rewrite Hdec in E. injection E as <-.
    rewrite dispatch_packet_start, Hd by done. apply dispatch_broadcast; [done..|].
    unfold route_of. by rewrite Ecl.
  - destruct Hcl as (i' & E & Hv & Hd & Hp & Hm & Hl & Hpok). rewrite Hdec in E.
    injection E as <-. destruct (decide (pn = PROXY_PORTNUM)) as [->|Hn].
    + eapply dispatch_proxy; try done. lia.
    + rewrite dispatch_packet_start, Hd by done. cbn [negb].
      rewrite decide_False by by rewrite Hp. apply dispatch_broadcast; [done..|].
      unfold route_of. by rewrite Ecl, decide_False.
Qed.
End Routed.
