(* ===== verification/World.v ===== *)
(** * World: the static variables of the whole program

    One record per source file with state; each component reaches its own part
    through a lens, and no two parts overlap. *)

From stdpp Require Import prelude.
From S2P Require Import Prelude Nanopb ConfigCache Zephyr UartMeshtastic UpstreamSession.
From S2P Require Import BleGatt.

Local Open Scope Z_scope.

Section World.
Context `{!RingBuf RING_BUF_SIZE, !MsgQ tx_entry TX_QUEUE_DEPTH}.

Record world := mk_world {
  w_cache : cache;              (* config_cache.c *)
  w_uart : uart;                (* uart_meshtastic.c *)
  w_upstream : upstream;        (* upstream_session.c *)
  w_ble : ble;                  (* ble_gatt.c *)
}.

(** The variables when the program starts. *)
Definition world_boot : world := mk_world cache_init uart_boot upstream_boot ble_boot.

#[export] Instance lens_cache : Lens world cache.
Proof.
  refine {| lget := w_cache; lset c w := mk_world c (w_uart w) (w_upstream w) (w_ble w) |};
    by intros; try destruct w.
Defined.
#[export] Instance lens_uart : Lens world uart.
Proof.
  refine {| lget := w_uart; lset u w := mk_world (w_cache w) u (w_upstream w) (w_ble w) |};
    by intros; try destruct w.
Defined.
#[export] Instance lens_upstream : Lens world upstream.
Proof.
  refine {| lget := w_upstream; lset s w := mk_world (w_cache w) (w_uart w) s (w_ble w) |};
    by intros; try destruct w.
Defined.
#[export] Instance lens_ble : Lens world ble.
Proof.
  refine {| lget := w_ble; lset b w := mk_world (w_cache w) (w_uart w) (w_upstream w) b |};
    by intros; try destruct w.
Defined.

#[export] Instance disjoint_cache_uart : Disjoint_lens lens_cache lens_uart.
Proof. by split. Qed.
#[export] Instance disjoint_cache_upstream : Disjoint_lens lens_cache lens_upstream.
Proof. by split. Qed.
#[export] Instance disjoint_cache_ble : Disjoint_lens lens_cache lens_ble.
Proof. by split. Qed.
#[export] Instance disjoint_uart_upstream : Disjoint_lens lens_uart lens_upstream.
Proof. by split. Qed.
#[export] Instance disjoint_ble_uart : Disjoint_lens lens_ble lens_uart.
Proof. by split. Qed.
#[export] Instance disjoint_ble_upstream : Disjoint_lens lens_ble lens_upstream.
Proof. by split. Qed.
End World.
