(* ===== verification/Main.v ===== *)
(** * Main: the two callbacks that join the modules, and the boot sequence
    (src/src/main.c)

    [on_fromradio_uart] is what the UART driver calls with a frame of the node,
    [on_toradio_ble] what the GATT server calls with a write of a phone.  Of
    [ROUTE_TRACE] the reads are kept (RouteTrace); the other log lines have no
    effect and are left out.  The final loop of [main], which only sleeps, is the
    result [None] of the model. *)

From stdpp Require Import prelude.
From S2P Require Import Prelude ProxyProtocol Nanopb ConfigCache Zephyr UartMeshtastic.
From S2P Require Import ProtoHandler RouteTrace UpstreamSession BleGatt Router World.

Local Open Scope Z_scope.

Section Program.
Context `{Nanopb, !RingBuf RING_BUF_SIZE, !MsgQ tx_entry TX_QUEUE_DEPTH}.
Context {W : Type} `{!Lens W cache, !Lens W uart, !Lens W upstream, !Lens W ble}.

Definition on_fromradio_uart (payload : list Z) : M W unit :=
  let '(err, info) := proto_decode_fromradio payload in
  if decide (err <> rc_ok) then zoom (ble_gatt_broadcast_fromradio payload) ;;; ret tt
  else router_dispatch payload info.

Definition on_toradio_ble (c : bt_conn) (data : list Z) : M W unit :=
  let '(err, ti) := proto_decode_toradio data in
  if decide (err <> rc_ok) then zoom (uart_meshtastic_tx data) ;;; ret tt
  else if has_want_config ti then
    st <- zoom (gets upstream_get_state) ;;
    if decide (st = UPSTREAM_CACHE_READY \/ st = UPSTREAM_LIVE)
    then zoom (ble_gatt_replay_cached_burst c (want_config_id ti))
    else ble_gatt_park_pending c (want_config_id ti)
  else if has_heartbeat ti then zoom (ble_gatt_reply_queuestatus c)
  else
    oget (route_trace_up ti) ;;;
    err <- zoom (uart_meshtastic_tx data) ;;
    if decide (err = rc_err ENOMEM) then ret tt
    else if decide (err <> rc_ok) then ret tt
    else zoom upstream_keepalive_reschedule.

(** What the devices and the kernel answer during the boot. *)
Record boot_env := {
  be_ble_leds : bool;           (* the LEDs of ble_gatt.c are ready *)
  be_bt_enable : rc;            (* bt_enable *)
  be_adv : rc;                  (* bt_le_adv_start *)
  be_uart : uart_init_env;
  be_rand : Z;                  (* sys_rand32_get *)
}.

(** [Some err] is [return err]; [None] is the final loop. *)
Definition main (env : boot_env) : M W (option rc) :=
  err <- zoom (ble_gatt_init (be_ble_leds env)) ;;
  if decide (err <> rc_ok) then ret (Some err)
  else
    emit IoBtEnable ;;;
    if decide (be_bt_enable env <> rc_ok) then ret (Some (be_bt_enable env))
    else
      err <- zoom (ble_gatt_start_advertising (be_adv env)) ;;
      if decide (err <> rc_ok) then ret (Some err)
      else
        err <- zoom (uart_meshtastic_init (be_uart env)) ;;
        if decide (err <> rc_ok) then ret (Some err)
        else
          zoom (upstream_set_serve_cb true) ;;;
          upstream_session_start (be_rand env) ;;;
          ret None.
End Program.

(** ** What the callbacks do *)

Section Callbacks.
Context `{NanopbOk, !RingBuf RING_BUF_SIZE, !MsgQ tx_entry TX_QUEUE_DEPTH}.
Context `{!MsgQOk tx_entry TX_QUEUE_DEPTH}.
Context {W : Type} `{Lc : !Lens W cache, Lu : !Lens W uart, Ls : !Lens W upstream,
  Lb : !Lens W ble}.
Context `{!Disjoint_lens Lc Ls, !Disjoint_lens Lc Lb, !Disjoint_lens Lb Ls,
  !Disjoint_lens Lb Lu, !Disjoint_lens Lu Ls, !Disjoint_lens Lc Lu}.
Implicit Types w : W.

Lemma fromradio_uart_routed raw w :
  ble_wf (lget w) -> up_wf (lget w) -> cache_wf (lget w) -> bytes_ok raw -> zlen raw < 65536 ->
  exists c' u' b' t, on_fromradio_uart raw w = Some (tt, put w c' u' b', t)
    /\ routed raw (lget w) (lget w) (lget w) c' u' b' /\ cache_wf c' /\ up_wf u' /\ ble_wf b'.
Proof.
  intros Hb Hu Hc Hok Hz. unfold on_fromradio_uart.
  pose proof (decode_fromradio_classified raw) as Hcl.
  destruct (proto_decode_fromradio raw) as [r i] eqn:Hdec.
  destruct (decide (r <> rc_ok)) as [Hr|Hr].
  - apply dispatch_broadcast; [done..|]. unfold route_of.
    destruct (classify_fromradio raw) as [|v| |pn p]; [done|..]; exfalso; apply Hr.
    + by destruct Hcl as [_ [= -> _]].
    + by destruct Hcl as (? & [= -> _] & _).
    + by destruct Hcl as (? & [= -> _] & _).
  - apply dispatch_routed; try done. rewrite Hdec. f_equal. by apply dec_stable.
Qed.

(** The session and the cache agree on whether the config is available. *)
Definition ready_agrees (c : cache) (u : upstream) : Prop :=
  cache_is_ready c = bool_decide (s_state u = UPSTREAM_CACHE_READY \/ s_state u = UPSTREAM_LIVE).

(** [data] is handed to the UART driver: what changes in its state [q], and
    whether it was accepted. *)
Definition forwarded (data : list Z) (q q' : uart) (accepted : bool) : Prop :=
  if decide (zlen data <= MESHTASTIC_MAX_PAYLOAD
             /\ zlen (mq_contents (tx_msgq q)) < TX_QUEUE_DEPTH)
  then accepted = true
       /\ mq_contents (tx_msgq q') = mq_contents (tx_msgq q) ++ [mk_tx_entry data (zlen data)]
       /\ q' = q <| tx_msgq := tx_msgq q' |>
  else accepted = false /\ q' = q.

Lemma forward_run {A} data (k : rc -> M W A) w :
  uart_tx_ok (lget w) ->
  exists r q a, forwarded data (lget w) q a /\ uart_tx_ok q
    /\ (a = true <-> r = rc_ok)
    /\ bind (zoom (uart_meshtastic_tx data)) k w
       = (fun x => (x.1.1, x.1.2, (if a then [IoSubmitTx] else []) ++ x.2)) <$> k r (lset q w).
Proof.
  intros Hu. pose proof (uart_meshtastic_tx_eq data (lget w) Hu) as E. unfold forwarded.
  case_decide as Hl; [|case_decide as Hf].
  - exists (rc_err EMSGSIZE), (lget w), false. rewrite decide_False by lia. split_and!; try done.
    by erewrite run_zoom by exact E.
  - exists (rc_err ENOMEM), (lget w), false. rewrite decide_False by lia. split_and!; try done.
    by erewrite run_zoom by exact E.
  - destruct E as (q & Hq & Hok & E). exists rc_ok, ((lget w : uart) <| tx_msgq := q |>), true.
    rewrite decide_True by lia. split; [split_and!; [done|exact Hq|done]|].
    split; [done|]. split; [done|]. by erewrite run_zoom by exact E.
Qed.

(** A phone that asked before the config was there. *)
Lemma park_run c n w i pc :
  ble_wf (lget w) -> up_wf (lget w) -> c <> NULL -> fits 32 n ->
  cache_is_ready (lget w) = false ->
  find_slot c (lget w) = Some i -> conns (lget w) !! i = Some pc ->
  exists u', let b' := (lget w : ble) <| conns :=
               <[i := pc <| pc_state := PHONE_PENDING |> <| pc_nonce := n |>]> (conns (lget w)) |> in
    ble_gatt_park_pending c n w = Some (tt, lset u' (lset b' w), [])
    /\ ble_wf b' /\ up_wf u' /\ pending u' = park_spec (pending (lget w)) c
    /\ s_state u' = s_state (lget w) /\ same_setup (lget w) u'
    /\ u' = (lget w : upstream) <| s_pending := s_pending u' |> <| s_pending_count := s_pending_count u' |>.
Proof.
  intros Hb Hu Hc Hn Hr Hf Hi. unfold ble_gatt_park_pending. rewrite run_zoom_gets. unfold id.
  rewrite Hf. set (pc' := pc <| pc_state := PHONE_PENDING |> <| pc_nonce := n |>).
  set (b' := (lget w : ble) <| conns := <[i := pc']> (conns (lget w)) |>).
  erewrite run_zoom by by apply upd_slot_eq.
  change (_ <| conns := <[i := _]> (conns (lget w)) |>) with b'.
  destruct (on_pending_park (fun c n => zoom (ble_gatt_replay_cached_burst c n)) (lset b' w) c)
    as (p & k & E & Hwf & Hp); [by lens_simpl|done|by lens_simpl|].
  assert (lget (lset b' w) = lget w :> upstream) as Eu by by lens_simpl. rewrite Eu in *.
  eexists. cbv zeta. rewrite E. simpl. split_and!; try done.
  apply (ble_wf_insert _ i pc); try done. destruct (ble_wf_slot _ _ _ Hb Hi). by split.
Qed.

(** What the phone of slot [i] asked for, [n] being its nonce. *)
Definition want_config_effect (n : Z) (c : bt_conn) (u u' : upstream) (pc pc' : proxy_conn) : Prop :=
  conn pc' = c /\ pkts pc' = pkts pc /\ pc_proxy_id pc' = pc_proxy_id pc
  /\ staged pc' = staged pc /\ staged_len pc' = staged_len pc
  /\ if decide (s_state u = UPSTREAM_CACHE_READY \/ s_state u = UPSTREAM_LIVE)
     then u' = u /\ pc_state pc' = PHONE_REPLAYING /\ replay_cursor pc' = 0
          /\ pc_nonce pc' = (if decide (n = 0) then pc_nonce pc else n)
          /\ fromnum pc' = u32 (fromnum pc + 1)
     else s_state u' = s_state u /\ pending u' = park_spec (pending u) c
          /\ pc_state pc' = PHONE_PENDING /\ pc_nonce pc' = n /\ fromnum pc' = fromnum pc
          /\ u' = u <| s_pending := s_pending u' |> <| s_pending_count := s_pending_count u' |>.

Lemma want_config_run c data n w i pc :
  ble_wf (lget w) -> up_wf (lget w) -> ready_agrees (lget w) (lget w) -> c <> NULL ->
  find_slot c (lget w) = Some i -> conns (lget w) !! i = Some pc ->
  classify_toradio data = PfWantConfig n ->
  exists u' pc' t, let b' := (lget w : ble) <| conns := <[i := pc']> (conns (lget w)) |> in
    on_toradio_ble c data w = Some (tt, lset u' (lset b' w), t)
    /\ want_config_effect n c (lget w) u' pc pc' /\ ble_wf b' /\ up_wf u'
    /\ same_setup (lget w) u' /\ IoSubmitTx ∉ t.
Proof.
  intros Hb Hu Hr Hc Hf Hi Hcl. pose proof (decode_toradio_classified data) as Hd.
  rewrite Hcl in Hd. destruct Hd as [Hn Hd].
  unfold on_toradio_ble, want_config_effect. rewrite Hd.
  rewrite (decide_False (P := rc_ok <> rc_ok)) by (by intros []). cbn [has_want_config set].
  rewrite run_zoom_gets. unfold upstream_get_state. unfold ready_agrees in Hr.
  destruct (decide (s_state (lget w) = UPSTREAM_CACHE_READY \/ s_state (lget w) = UPSTREAM_LIVE))
    as [Hs|Hs].
  - pose proof (replay_burst_eq (lget w) c n Hb Hn) as E. rewrite Hf in E.
    destruct E as (pc0 & f & l & E). cbv zeta in E.
    destruct E as (Hi0 & Hpc & E & Hw' & Hs' & Ha & Hp). rewrite Hi in Hi0. injection Hi0 as <-.
    eexists (lget w), _, _. cbv zeta. split; [erewrite zoom_eq by exact E|].
    { f_equal. f_equal. f_equal. rewrite (lset_same (L := Ls)); [done|by lens_simpl]. }
    split_and!; try done. rewrite !not_elem_of_cons. split_and!; try done. apply not_elem_of_nil.
  - destruct (park_run c n w i pc) as (u' & E & Hw' & Hu' & Hp & Hst & Hsm & Hup); try done.
    { by rewrite Hr, bool_decide_false. }
    eexists u', _, []. cbv zeta. split; [exact E|]. split_and!; try done.
    + by destruct (find_slot_lookup _ _ _ Hf) as (q & Hq & <-); simplify_eq.
    + apply not_elem_of_nil.
Qed.

(** A write of a phone with slot [i], from start to end. *)
Definition on_toradio_effect (data : list Z) (c : bt_conn) (i : nat) (pc : proxy_conn) (w w' : W)
    (t : list io) : Prop :=
  match classify_toradio data with
  | PfWantConfig n =>
      (lget w' : uart) = lget w /\ (IoSubmitTx ∉ t)
      /\ exists pc', conns (lget w') = <[i := pc']> (conns (lget w))
      /\ want_config_effect n c (lget w) (lget w') pc pc'
  | PfHeartbeat =>
      (lget w' : uart) = lget w /\ (lget w' : upstream) = lget w /\ (IoSubmitTx ∉ t)
      /\ exists p, pb_decode_FromRadio p = Some msg_queue_status /\ 0 < zlen p
      /\ conns (lget w') = <[i := deliver p pc]> (conns (lget w))
      /\ (if decide (FROMRADIO_QUEUE_DEPTH <= zlen (pkts pc)) then deliver p pc = pc
          else pkts (deliver p pc) = pkts pc ++ [p])
  | PfOther => exists a, forwarded data (lget w) (lget w') a
      /\ (lget w' : ble) = lget w /\ (lget w' : upstream) = lget w
      /\ t = if (a : bool)
             then IoSubmitTx :: (if s_keepalive_armed (lget w)
                                 then [IoKeepalive UPSTREAM_KEEPALIVE_MS] else [])
             else []
  | PfMalformed => exists a, forwarded data (lget w) (lget w') a
      /\ (lget w' : ble) = lget w /\ (lget w' : upstream) = lget w
      /\ t = if (a : bool) then [IoSubmitTx] else []
  end.

(** The program keeps its invariants. *)
Definition world_ok (w : W) : Prop :=
  ble_wf (lget w) /\ up_wf (lget w) /\ cache_wf (lget w) /\ uart_tx_ok (lget w)
  /\ ready_agrees (lget w) (lget w).

Lemma heartbeat_run c data w i pc :
  ble_wf (lget w) -> find_slot c (lget w) = Some i -> conns (lget w) !! i = Some pc ->
  classify_toradio data = PfHeartbeat ->
  exists b' t, on_toradio_ble c data w = Some (tt, lset b' w, t) /\ ble_wf b'
    /\ (IoSubmitTx ∉ t) /\ toradio_handler_set b' = toradio_handler_set (lget w)
    /\ exists p, pb_decode_FromRadio p = Some msg_queue_status /\ 0 < zlen p
    /\ conns b' = <[i := deliver p pc]> (conns (lget w))
    /\ (if decide (FROMRADIO_QUEUE_DEPTH <= zlen (pkts pc)) then deliver p pc = pc
        else pkts (deliver p pc) = pkts pc ++ [p]).
Proof.
  intros Hb Hf Hi Hcl. pose proof (decode_toradio_classified data) as Hd. rewrite Hcl in Hd.
  unfold on_toradio_ble. rewrite Hd. rewrite decide_False by (by intros []).
  cbn [has_want_config has_heartbeat set].
  destruct (reply_queuestatus_run (lget w) c i pc Hb Hf Hi)
    as (b' & t & E & Hw' & _ & Ht & Hh & p & Hp & Hz & _ & Hc).
  exists b', t. split; [by apply zoom_eq|]. split; [done|]. split.
  2: { split; [done|]. exists p. split; [done|]. split; [lia|]. split; [done|].
       apply deliver_pkts; [exact (ble_wf_slot _ _ _ Hb Hi)|unfold FROMRADIO_MAX_PKT_SIZE; lia]. }
  destruct Ht as [->|[m ->]]; rewrite !not_elem_of_cons; split_and!; try done; apply not_elem_of_nil.
Qed.

(** Everything but want_config and heartbeat goes to the node. *)
Lemma forward_packet_run c data w :
  uart_tx_ok (lget w) -> classify_toradio data = PfOther \/ classify_toradio data = PfMalformed ->
  exists q a, forwarded data (lget w) q a /\ uart_tx_ok q
    /\ on_toradio_ble c data w
       = Some (tt, lset q w,
               if (a : bool) then IoSubmitTx ::
                 (if bool_decide (classify_toradio data = PfOther) && s_keepalive_armed (lget w)
                  then [IoKeepalive UPSTREAM_KEEPALIVE_MS] else [])
               else []).
Proof.
  intros Hu Hcl. pose proof (decode_toradio_classified data) as Hd.
  unfold on_toradio_ble. destruct Hcl as [Hcl|Hcl]; rewrite Hcl in Hd |- *.
  - destruct Hd as (ti & Eti & Hwc & Hhb & _). rewrite Eti, decide_False by (by intros []).
    rewrite Hwc, Hhb. destruct (route_trace_up_total data _ ti Eti) as [line El].
    rewrite El, run_oget. rewrite bool_decide_true by done. cbn [andb].
    destruct (forward_run data (fun err =>
        if decide (err = rc_err ENOMEM) then ret tt
        else if decide (err <> rc_ok) then ret tt else zoom upstream_keepalive_reschedule) w Hu)
      as (r & q & a & Hf & Hq & Ha & ->).
    exists q, a. split; [done|]. split; [done|]. destruct a.
    + assert (r = rc_ok) as -> by by apply Ha. rewrite decide_False by done.
      rewrite decide_False by (by intros []). unfold zoom, upstream_keepalive_reschedule.
      rewrite run_gets. unfold id. lens_simpl. destruct (s_keepalive_armed (lget w)); simpl;
        rewrite (lset_same (L := Ls)); try done; by lens_simpl.
    + case_decide; [done|]. rewrite decide_True; [done|].
      intros Hr. apply Ha in Hr. done.
  - rewrite Hd. rewrite decide_True by done. rewrite bool_decide_false by done. cbn [andb].
    destruct (forward_run data (fun _ => ret tt) w Hu) as (r & q & a & Hf & Hq & Ha & ->).
    exists q, a. split; [done|]. split; [done|]. by destruct a.
Qed.

Lemma toradio_effect c data w i pc :
  world_ok w -> c <> NULL -> find_slot c (lget w) = Some i -> conns (lget w) !! i = Some pc ->
  exists w' t, on_toradio_ble c data w = Some (tt, w', t) /\ world_ok w'
    /\ on_toradio_effect data c i pc w w' t /\ (lget w' : cache) = lget w
    /\ same_setup (lget w) (lget w')
    /\ toradio_handler_set (lget w') = toradio_handler_set (lget w).
Proof.
  intros (Hb & Hs & Hc & Hu & Hr) Hcn Hf Hi. unfold on_toradio_effect, world_ok.
  destruct (classify_toradio data) eqn:Hcl.
  - destruct (forward_packet_run c data w Hu (or_intror Hcl)) as (q & a & Hq & Hok & E).
    eexists _, _. split; [exact E|]. rewrite Hcl, bool_decide_false by done. simpl.
    lens_simpl. split_and!; eauto.
  - destruct (want_config_run c data nonce w i pc) as (u' & pc' & t & E & He & Hb' & Hs' & Hsm & Ht);
      try done.
    eexists _, _. split; [exact E|]. lens_simpl. split_and!; eauto.
    unfold ready_agrees, want_config_effect in *.
    destruct He as (_ & _ & _ & _ & _ & He). case_decide; destruct He as [He _]; by rewrite He.
  - destruct (heartbeat_run c data w i pc) as (b' & t & E & Hb' & Ht & Hh & p & H1 & Hz & H2 & H3);
      try done.
    eexists _, _. split; [exact E|]. lens_simpl. split_and!; eauto 10.
  - destruct (forward_packet_run c data w Hu (or_introl Hcl)) as (q & a & Hq & Hok & E).
    eexists _, _. split; [exact E|]. rewrite Hcl, bool_decide_true by done. simpl.
    lens_simpl. split_and!; eauto.
Qed.

(** A write of a connection that has no slot reaches no phone. *)
Lemma toradio_untracked c data w :
  world_ok w -> find_slot c (lget w) = None ->
  exists w' t, on_toradio_ble c data w = Some (tt, w', t) /\ world_ok w'
    /\ (lget w' : cache) = lget w /\ (lget w' : upstream) = lget w
    /\ conns (lget w') = conns (lget w)
    /\ toradio_handler_set (lget w') = toradio_handler_set (lget w)
    /\ match classify_toradio data with
       | PfOther | PfMalformed => exists a, forwarded data (lget w) (lget w') a
       | _ => (lget w' : uart) = lget w
       end.
Proof.
  intros Hok Hf. pose proof Hok as (Hb & Hs & Hc & Hu & Hr).
  pose proof (decode_toradio_classified data) as Hd.
  destruct (classify_toradio data) eqn:Hcl.
  - destruct (forward_packet_run c data w Hu (or_intror Hcl)) as (q & a & Hq & Hqok & E).
    eexists _, _. split; [exact E|]. unfold world_ok. lens_simpl. split_and!; eauto.
  - destruct Hd as [Hn Hd]. exists w, []. split; [|by split_and!].
    unfold on_toradio_ble. rewrite Hd. rewrite decide_False by (by intros []).
    cbn [has_want_config set]. rewrite run_zoom_gets. case_decide.
    + pose proof (replay_burst_eq (lget w) c nonce Hb Hn) as E. rewrite Hf in E.
      erewrite zoom_eq by exact E. by rewrite lset_lget.
    + unfold ble_gatt_park_pending. rewrite run_zoom_gets. unfold id. by rewrite Hf.
  - destruct (reply_queuestatus_eq (lget w) c Hb) as (qs & l & Hw' & Hl & _ & p & _ & Hz & _ & E).
    erewrite run_bind in E by by apply enqueue_no_slot.
    unfold on_toradio_ble. rewrite Hd. rewrite decide_False by (by intros []).
    eexists _, _. split; [apply zoom_eq; exact E|]. unfold world_ok. lens_simpl. by split_and!.
  - destruct (forward_packet_run c data w Hu (or_introl Hcl)) as (q & a & Hq & Hqok & E).
    eexists _, _. split; [exact E|]. unfold world_ok. lens_simpl. split_and!; eauto.
Qed.

Lemma fromradio_uart_ok raw w :
  world_ok w -> bytes_ok raw -> zlen raw < 65536 ->
  exists w' t, on_fromradio_uart raw w = Some (tt, w', t) /\ world_ok w'
    /\ routed raw (lget w) (lget w) (lget w) (lget w') (lget w') (lget w')
    /\ (lget w' : uart) = lget w.
Proof.
  intros (Hb & Hs & Hc & Hu & Hr) Hok Hz.
  destruct (fromradio_uart_routed raw w Hb Hs Hc Hok Hz)
    as (c' & u' & b' & t & E & Hrt & Hc' & Hs' & Hb').
  eexists _, _. split; [exact E|]. unfold world_ok, put. lens_simpl. split_and!; try done.
  unfold routed in Hrt. unfold ready_agrees, cache_is_ready in *.
  destruct (route_of _ _ _); try (destruct_and!; by subst).
  destruct Hrt as (v & _ & Hrt). destruct (up_action_of _ _ _); [done| |].
  - destruct Hrt as (_ & -> & -> & _). done.
  - destruct Hrt as (-> & -> & _). symmetry. apply bool_decide_eq_true_2. by right.
Qed.
End Callbacks.

(** ** Booting *)

Section Boot.
Context `{NanopbOk, !RingBuf RING_BUF_SIZE, !MsgQ tx_entry TX_QUEUE_DEPTH}.
Context `{!MsgQOk tx_entry TX_QUEUE_DEPTH}.
Context {W : Type} `{Lc : !Lens W cache, Lu : !Lens W uart, Ls : !Lens W upstream,
  Lb : !Lens W ble}.
Context `{!Disjoint_lens Lc Ls, !Disjoint_lens Lc Lb, !Disjoint_lens Lb Ls,
  !Disjoint_lens Lb Lu, !Disjoint_lens Lu Ls, !Disjoint_lens Lc Lu}.
Implicit Types w : W.

(** The static variables as the loader leaves them. *)
Definition at_boot w : Prop :=
  (lget w : cache) = cache_init /\ (lget w : uart) = uart_boot
  /\ (lget w : upstream) = upstream_boot /\ (lget w : ble) = ble_boot.

(** The first service that fails, in the order they are started. *)
Definition uart_init_error (env : uart_init_env) : option rc :=
  if negb (ui_device_ready env) then Some (rc_err ENODEV)
  else if decide (ui_callback_set env <> rc_ok) then Some (ui_callback_set env)
  else if decide (ui_rx_enable env <> rc_ok) then Some (ui_rx_enable env)
  else None.
Definition boot_error (env : boot_env) : option rc :=
  if decide (be_bt_enable env <> rc_ok) then Some (be_bt_enable env)
  else if decide (be_adv env <> rc_ok /\ be_adv env <> rc_err EALREADY) then Some (be_adv env)
  else uart_init_error (be_uart env).

Definition init_trace (leds : bool) : list io :=
  (if leds then [IoGpioConfigure led0; IoGpioConfigure led1;
                 IoBlink ble_blinker LED_BLINK_PERIOD_MS] else [])
  ++ (IoMutexInit <$> seq 0 (Z.to_nat MAX_BLE_CONNECTIONS)).

Lemma ble_init_eq leds b :
  ble_gatt_init leds b = Some (rc_ok, b <| toradio_handler_set := true |>, init_trace leds).
Proof. by destruct leds. Qed.

Definition uart_init_trace (env : uart_init_env) : list io :=
  (if ui_leds_ready env then [IoGpioConfigure led2; IoGpioConfigure led3;
                              IoBlink uart_blinker LED_BLINK_PERIOD_MS] else [])
  ++ if negb (ui_device_ready env) then []
     else IoUartCallbackSet ::
          if decide (ui_callback_set env <> rc_ok) then []
          else [IoUartRxEnable 0 UART_DMA_BUF_SIZE UART_RX_TIMEOUT_US].

(** The receiver is idle and registered, whether the devices answer or not. *)
Lemma uart_init_eq env :
  uart_meshtastic_init env uart_boot
  = Some (default rc_ok (uart_init_error env), uart_boot <| fromradio_cb_set := true |>,
          uart_init_trace env).
Proof.
  unfold uart_meshtastic_init, uart_init_error, uart_init_trace.
  destruct env as [leds ready cb rx]. simpl.
  destruct leds, ready; simpl; try done; case_decide; try done; case_decide; try done;
    repeat f_equal; by apply dec_stable.
Qed.

(** Starting a driver never queues a message. *)
Lemma init_traces_quiet leds env :
  IoSubmitTx ∉ init_trace leds ++ IoBtEnable :: IoAdvStart :: uart_init_trace env.
Proof.
  apply (bool_decide_unpack _). unfold uart_init_trace.
  destruct leds, (ui_leds_ready env), (ui_device_ready env); simpl; try exact I;
    case_decide; exact I.
Qed.

Lemma start_advertising_run adv_err b :
  ble_gatt_start_advertising adv_err b
  = Some (if decide (adv_err <> rc_ok /\ adv_err <> rc_err EALREADY) then adv_err else rc_ok, b,
          [IoAdvStart]).
Proof. unfold ble_gatt_start_advertising. rewrite run_emit. by case_decide. Qed.

(** Everything before the session is started. *)
Lemma main_eq env w :
  at_boot w ->
  let w1 := lset (ble_boot <| toradio_handler_set := true |>) w in
  let t1 := init_trace (be_ble_leds env) ++ [IoBtEnable] in
  main env w
  = match boot_error env with
    | Some e =>
        if decide (be_bt_enable env <> rc_ok) then Some (Some e, w1, t1)
        else if decide (be_adv env <> rc_ok /\ be_adv env <> rc_err EALREADY)
        then Some (Some e, w1, t1 ++ [IoAdvStart])
        else Some (Some e, lset (uart_boot <| fromradio_cb_set := true |>) w1,
                   t1 ++ IoAdvStart :: uart_init_trace (be_uart env))
    | None =>
        (fun r => (None, r.1.2, t1 ++ IoAdvStart :: uart_init_trace (be_uart env) ++ r.2))
        <$> upstream_session_start (be_rand env)
              (lset (upstream_boot <| s_serve_cb := true |>)
                (lset (uart_boot <| fromradio_cb_set := true |>) w1))
    end.
Proof.
  intros (Ec & Eu & Es & Eb). cbv zeta. set (w1 := lset _ w). unfold main, boot_error.
  erewrite run_zoom by (rewrite Eb; apply ble_init_eq). fold w1.
  rewrite decide_False by (by intros []). rewrite run_emit.
  destruct (decide (be_bt_enable env <> rc_ok)); [done|].
  assert (forall k : rc -> M W (option rc),
    bind (zoom (ble_gatt_start_advertising (be_adv env))) k w1
    = (fun r => (r.1.1, r.1.2, IoAdvStart :: r.2))
      <$> k (if decide (be_adv env <> rc_ok /\ be_adv env <> rc_err EALREADY)
             then be_adv env else rc_ok) w1) as Hadv.
  { intros k. erewrite run_zoom by apply start_advertising_run. by rewrite lset_lget. }
  rewrite Hadv. destruct (decide (be_adv env <> rc_ok /\ be_adv env <> rc_err EALREADY)) as [[Ha _]|Ha].
  { rewrite decide_True by done. simpl. by rewrite <- app_assoc. }
  rewrite decide_False by (by intros []).
  assert (lget w1 = uart_boot) as Eu1 by (subst w1; by lens_simpl).
  erewrite run_zoom by (rewrite Eu1; apply uart_init_eq).
  destruct (uart_init_error (be_uart env)) as [e|] eqn:He; simpl.
  - rewrite decide_True.
    { simpl. by rewrite app_nil_r, <- app_assoc. }
    unfold uart_init_error in He.
    destruct (ui_device_ready _); simpl in He; [|by injection He as <-].
    destruct (decide (ui_callback_set _ <> _)); [by injection He as <-|].
    destruct (decide (ui_rx_enable _ <> _)); [by injection He as <-|done].
  - unfold upstream_set_serve_cb. rewrite run_zoom_modify.
    assert (lget (lset (uart_boot <| fromradio_cb_set := true |>) w1) = upstream_boot) as ->
      by (subst w1; by lens_simpl).
    unfold bind. destruct (upstream_session_start _ _) as [[[[] w2] t2]|]; [|done].
    simpl. by rewrite app_nil_r, <- !app_assoc.
Qed.

Lemma uart_registered_ok : uart_tx_ok (uart_boot <| fromradio_cb_set := true |>).
Proof. destruct uart_boot_tx_ok. by split. Qed.
Lemma ble_registered_wf : ble_wf (ble_boot <| toradio_handler_set := true |>).
Proof. destruct ble_boot_wf. by split. Qed.

(** The program is in a good state wherever the boot stops. *)
Lemma boot_worlds_ok w :
  at_boot w ->
  let w1 := lset (ble_boot <| toradio_handler_set := true |>) w in
  let w2 := lset (uart_boot <| fromradio_cb_set := true |>) w1 in
  world_ok w1 /\ world_ok w2 /\ toradio_handler_set (lget w2) = true
  /\ (lget w1 : upstream) = upstream_boot /\ (lget w2 : upstream) = upstream_boot.
Proof.
  intros (Ec & Eu & Es & Eb). cbv zeta. unfold world_ok, ready_agrees. lens_simpl.
  rewrite Ec, Es, Eu. pose proof ble_registered_wf. pose proof cache_init_wf.
  pose proof uart_registered_ok. pose proof uart_boot_tx_ok. pose proof upstream_boot_wf.
  by split_and!.
Qed.

Lemma boot_session w rand :
  at_boot w -> fits 32 rand ->
  exists w', upstream_session_start rand
      (lset (upstream_boot <| s_serve_cb := true |>)
        (lset (uart_boot <| fromradio_cb_set := true |>)
          (lset (ble_boot <| toradio_handler_set := true |>) w)))
    = Some (tt, w', [IoSubmitTx; IoKeepaliveInit; IoKeepalive UPSTREAM_KEEPALIVE_MS])
    /\ world_ok w' /\ (lget w' : upstream) = up_fetching (upstream_boot <| s_serve_cb := true |>) rand
    /\ (lget w' : ble) = ble_boot <| toradio_handler_set := true |>
    /\ (lget w' : uart) = uart_boot <| fromradio_cb_set := true |> <| tx_msgq := tx_msgq (lget w') |>
    /\ fromradio_cb_set (lget w') = true /\ s_serve_cb (lget w') = true
    /\ rx_idle (rx_sm (lget w')) /\ frames_of (lget w') = []
    /\ s_state (lget w') = UPSTREAM_FETCHING /\ nonce_ok (s_nonce (lget w'))
    /\ exists p, mq_contents (tx_msgq (lget w')) = [mk_tx_entry p (zlen p)]
       /\ pb_decode_ToRadio p = Some (msg_want_config (s_nonce (lget w'))).
Proof.
  intros (Ec & Eu & Es & Eb) Hr. set (b1 := ble_boot <| toradio_handler_set := true |>).
  set (u1 := uart_boot <| fromradio_cb_set := true |>).
  set (s1 := upstream_boot <| s_serve_cb := true |>). set (w1 := lset s1 _).
  assert (lget w1 = u1) as E1 by (subst w1; by lens_simpl).
  assert (lget w1 = s1) as E2 by (subst w1; by lens_simpl).
  assert ((lget w1 : cache) = cache_init) as E3 by (subst w1; by lens_simpl).
  assert (lget w1 = b1) as E4 by (subst w1; by lens_simpl).
  pose proof (session_start_eq w1 rand) as E. rewrite E1 in E.
  specialize (E uart_registered_ok Hr).
  rewrite decide_False in E by (subst u1; simpl; rewrite mq_empty_ok, zlen_nil;
    unfold TX_QUEUE_DEPTH; lia).
  destruct E as (q & p & Hp & Hz & Hq & Hok & E).
  rewrite E2, E3 in E. eexists. split; [exact E|].
  pose proof (boot_nonce_ok rand Hr). pose proof (cache_begin_wf _ cache_init_wf).
  assert (up_wf (up_fetching s1 rand)).
  { destruct upstream_boot_wf. split; try done; intros _; [apply NoDup_nil_2|apply not_elem_of_nil]. }
  unfold world_ok. lens_simpl. rewrite E4. pose proof ble_registered_wf.
  split; [by split_and!|]. do 4 (split; [done|]). split; [done|].
  split; [by repeat split|]. do 3 (split; [done|]).
  exists p. split; [|done]. simpl. rewrite Hq. subst u1. simpl. by rewrite mq_empty_ok.
Qed.
End Boot.

(** ** Properties *)

Section Properties.
Context `{NanopbOk, !RingBuf RING_BUF_SIZE, !MsgQ tx_entry TX_QUEUE_DEPTH}.
Context `{!MsgQOk tx_entry TX_QUEUE_DEPTH}.
Context {W : Type} `{Lc : !Lens W cache, Lu : !Lens W uart, Ls : !Lens W upstream,
  Lb : !Lens W ble}.
Context `{!Disjoint_lens Lc Ls, !Disjoint_lens Lc Lb, !Disjoint_lens Lb Ls,
  !Disjoint_lens Lb Lu, !Disjoint_lens Lu Ls, !Disjoint_lens Lc Lu}.
Implicit Types w : W.

(** C24: every frame of the node goes where [route_of] says and nowhere else.
    While the config is being fetched a frame that is no packet is for the proxy
    and no phone gets it: it is kept for the cache, as far as there is room, or
    it ends the burst, and then every waiting phone is served.  Once the config
    is there the queueStatus that answers the proxy's own heartbeat is dropped,
    and every other frame that is no packet is broadcast.  At any time malformed
    and encrypted frames, packets of other ports, and proxy packets with a bad
    header or a destination nobody registered are broadcast; any other proxy
    packet goes to the phone that registered its destination and to no other.  A
    phone gets a frame only while it fits and there is room in its queue: else
    it is lost for that phone, also if it is the only one addressed.  The UART
    module is not touched, and all invariants are kept. *)
Theorem on_fromradio_uart_routes raw w :
  world_ok w -> bytes_ok raw -> zlen raw < 65536 ->
  exists w' t, on_fromradio_uart raw w = Some (tt, w', t) /\ world_ok w'
    /\ routed raw (lget w) (lget w) (lget w) (lget w') (lget w') (lget w')
    /\ (lget w' : uart) = lget w.
Proof. apply fromradio_uart_ok. Qed.

(** C23: what the proxy does with a write of a phone.  A want_config never
    reaches the UART: the phone is armed for a replay with its own nonce if
    the config is there, otherwise it is parked with its nonce and joins the
    waiting phones.  A heartbeat never reaches the UART: the phone gets a
    queueStatus.  Everything else is offered to the UART driver unchanged and
    touches no phone; if accepted, a well-formed packet also puts off the
    keepalive.  All invariants are kept. *)
Theorem on_toradio_ble_spec c data w i pc :
  world_ok w -> c <> NULL -> find_slot c (lget w) = Some i -> conns (lget w) !! i = Some pc ->
  exists w' t, on_toradio_ble c data w = Some (tt, w', t) /\ world_ok w'
    /\ on_toradio_effect data c i pc w w' t /\ (lget w' : cache) = lget w
    /\ same_setup (lget w) (lget w').
Proof.
  intros Hw Hc Hf Hi. destruct (toradio_effect c data w i pc Hw Hc Hf Hi)
    as (w' & t & E & Hw' & He & Hk & Hs & _). eauto 10.
Qed.

(** C31: booting.  Whatever the devices answer, [main] returns the first error,
    in the order the services are started, or enters its loop; all mutexes
    are initialised before Bluetooth is enabled.  After an error no message
    is ever queued and the session stays in BOOT; otherwise exactly one
    message is queued, after the receiver was enabled, it decodes to
    want_config with the session's nonce, the session is FETCHING into an
    empty cache, and every callback is registered. *)
Theorem main_boots env w :
  at_boot w -> fits 32 (be_rand env) ->
  exists w' t2, main env w
      = Some (boot_error env, w', init_trace (be_ble_leds env) ++ IoBtEnable :: t2)
    /\ world_ok w' /\ toradio_handler_set (lget w') = true
    /\ match boot_error env with
       | Some _ => (lget w' : upstream) = upstream_boot /\ IoSubmitTx ∉ t2
       | None =>
           t2 = IoAdvStart :: uart_init_trace (be_uart env)
                ++ [IoSubmitTx; IoKeepaliveInit; IoKeepalive UPSTREAM_KEEPALIVE_MS]
           /\ fromradio_cb_set (lget w') = true /\ s_serve_cb (lget w') = true
           /\ rx_idle (rx_sm (lget w')) /\ frames_of (lget w') = []
           /\ s_state (lget w') = UPSTREAM_FETCHING /\ nonce_ok (s_nonce (lget w'))
           /\ exists p, mq_contents (tx_msgq (lget w')) = [mk_tx_entry p (zlen p)]
              /\ pb_decode_ToRadio p = Some (msg_want_config (s_nonce (lget w')))
       end.
Proof.
  intros Hw Hr. rewrite (main_eq env w Hw).
  pose proof (init_traces_quiet (be_ble_leds env) (be_uart env)) as Hq.
  rewrite not_elem_of_app, !not_elem_of_cons in Hq. destruct Hq as (_ & _ & _ & Hq).
  destruct (boot_error env) as [e|].
  - destruct (boot_worlds_ok w Hw) as (Ow1 & Ow2 & Hh & Hs1 & Hs2).
    repeat case_decide; rewrite <- ?app_assoc; simpl.
    all: eexists _, _; split; [reflexivity|].
    all: split; [done|]; split; [by lens_simpl|]; split; [done|].
    all: rewrite ?not_elem_of_cons; split_and?; try done; apply not_elem_of_nil.
  - destruct (boot_session w (be_rand env) Hw Hr) as (w' & E & Hw' & H1).
    rewrite E. simpl. rewrite <- app_assoc. eexists _, _. split; [reflexivity|].
    destruct H1 as (_ & Hb & _ & ? & ? & ? & ? & ? & ? & ?). rewrite Hb. split_and!; done.
Qed.
End Properties.

(** ** The properties at concrete inputs *)

Module Demo.
#[local] Existing Instances demo_nanopb demo_nanopb_ok list_ring list_ring_ok list_msgq
  list_msgq_ok.

(** Phone 11, registered as 1.2.3.4, and phone 22, before the config is there. *)
Definition w0 : world := mk_world cache_init uart_boot upstream_boot BleGatt.Demo.b3.

Lemma w0_ok : world_ok w0.
Proof.
  unfold world_ok. pose proof BleGatt.Demo.b3_wf. pose proof cache_init_wf.
  pose proof uart_boot_tx_ok. pose proof upstream_boot_wf. by split_and!.
Qed.

(** A proxy packet from 5.5.5.5 to 1.2.3.4. *)
Definition to1234 : list Z := [2; 9; 9; 4; 0; 1; 1; 5; 5; 5; 5; 1; 2; 3; 4; 65].

Lemma to1234_route : route_of to1234 upstream_boot BleGatt.Demo.b3 = RtTarget 0 BleGatt.Demo.slot11.
Proof. vm_compute. reflexivity. Qed.

Lemma on_fromradio_uart_routes_witness :
  exists w' t, on_fromradio_uart to1234 w0 = Some (tt, w', t)
    /\ (pkts <$> conns (w_ble w')) = [[to1234]; []; []; []; []; []].
Proof.
  destruct (on_fromradio_uart_routes to1234 w0 w0_ok ltac:(by_eval) ltac:(by_eval))
    as (w' & t & E & _ & Hr & _).
  exists w', t. split; [exact E|]. unfold routed in Hr.
  change (lget (Lens := lens_upstream) w0) with upstream_boot in Hr.
  change (lget (Lens := lens_ble) w0) with BleGatt.Demo.b3 in Hr.
  rewrite to1234_route in Hr. destruct Hr as (_ & _ & Hb).
  change (lget (Lens := lens_ble) w') with (w_ble w') in Hb. rewrite Hb. vm_compute. reflexivity.
Defined.

Lemma on_toradio_ble_spec_witness :
  exists w' t, on_toradio_ble 11 (3 :: le32 69420) w0 = Some (tt, w', t)
    /\ w_uart w' = uart_boot /\ pending (w_upstream w') = [11].
Proof.
  destruct (on_toradio_ble_spec 11 (3 :: le32 69420) w0 0 BleGatt.Demo.slot11 w0_ok
              ltac:(done) eq_refl eq_refl) as (w' & t & E & _ & Hf & _).
  exists w', t. split; [exact E|].
  assert (classify_toradio (3 :: le32 69420) = PfWantConfig 69420) as Hc
    by (vm_compute; reflexivity).
  unfold on_toradio_effect in Hf. rewrite Hc in Hf.
  destruct Hf as (Hu & _ & pc' & _ & _ & _ & _ & _ & _ & Hw). split; [exact Hu|].
  rewrite decide_False in Hw by by intros [?|?]. destruct Hw as (_ & Hp & _). exact Hp.
Defined.

Definition env_ok : boot_env :=
  {| be_ble_leds := true; be_bt_enable := rc_ok; be_adv := rc_ok;
     be_uart := {| ui_leds_ready := true; ui_device_ready := true;
                   ui_callback_set := rc_ok; ui_rx_enable := rc_ok |};
     be_rand := 1 |}.

Lemma main_boots_witness :
  exists w' t, main env_ok world_boot = Some (None, w', t)
    /\ s_state (w_upstream w') = UPSTREAM_FETCHING.
Proof.
  destruct (main_boots env_ok world_boot ltac:(by split_and!) ltac:(by_eval))
    as (w' & t & E & _ & _ & _ & _ & _ & _ & _ & Hs & _).
  eexists w', _. split; [exact E|exact Hs].
Defined.
End Demo.
