(* ===== verification/System.v ===== *)
(** * System: the program among phones, node and kernel

    [event] is what the surroundings may do once [main] is in its loop: the
    Bluetooth stack calls a callback, the UART driver reports, the kernel runs
    a work item.  [step] runs the handler of an event; handlers run one at a
    time.  [reachable] worlds are those any sequence of enabled events leads to
    from a successful boot. *)

From stdpp Require Import prelude.
From S2P Require Import Prelude ProxyProtocol Nanopb ConfigCache Zephyr UartMeshtastic.
From S2P Require Import ProtoHandler RouteTrace UpstreamSession BleGatt BleReplay Router World Main.

Local Open Scope Z_scope.

Section System.
Context `{Nanopb, GattRead, !RingBuf RING_BUF_SIZE, !MsgQ tx_entry TX_QUEUE_DEPTH}.

(** An attribute callback gets the connection, and the length and offset (or
    the bytes and offset) of the request; the last argument of the others is
    what the call they make answers. *)
Inductive event :=
  | EvConnected (c : bt_conn) (err : Z) (adv_err : rc)
  | EvDisconnected (c : bt_conn) (adv_err : rc)
  | EvReadFromRadio (c : bt_conn) (len offset : Z)
  | EvReadFromNum (c : bt_conn) (len offset : Z)
  | EvReadLogRadio (c : bt_conn) (len offset : Z)
  | EvWriteToRadio (c : bt_conn) (buf : list Z) (offset : Z)
  | EvWriteNodeReg (c : bt_conn) (buf : list Z) (offset : Z)
  | EvUart (evt : uart_event)
  | EvRxWork
  | EvTxWork (tx_err : rc)
  | EvKeepalive
  | EvBleLeds
  | EvUartLeds.

Definition step (e : event) : M world unit :=
  match e with
  | EvConnected c err adv_err => zoom (on_connected c err adv_err)
  | EvDisconnected c adv_err => zoom (on_disconnected c adv_err)
  | EvReadFromRadio c len offset => fromradio_read c len offset ;;; ret tt
  | EvReadFromNum c len offset => zoom (fromnum_read c len offset) ;;; ret tt
  | EvReadLogRadio c len offset => zoom (logradio_read c len offset) ;;; ret tt
  | EvWriteToRadio c buf offset => toradio_write on_toradio_ble c buf offset ;;; ret tt
  | EvWriteNodeReg c buf offset => zoom (node_reg_write c buf offset) ;;; ret tt
  | EvUart evt => zoom (uart_cb evt)
  | EvRxWork => rx_work_handler on_fromradio_uart
  | EvTxWork tx_err => zoom (tx_work_handler tx_err)
  | EvKeepalive => keepalive_work_handler
  | EvBleLeds => zoom ble_led_blink_work
  | EvUartLeds => zoom led_blink_work
  end.

(** What the surroundings guarantee: a connection object is not NULL and is
    not handed out again while the program holds a reference to it; buffers
    hold bytes; lengths and offsets are unsigned; the keepalive runs only once
    it was armed. *)
Definition enabled (w : world) (e : event) : Prop :=
  match e with
  | EvConnected c err _ => c <> NULL /\ Forall (fun pc => conn pc <> c) (conns (w_ble w))
  | EvDisconnected c _ => c <> NULL
  | EvReadFromRadio c len offset | EvReadFromNum c len offset | EvReadLogRadio c len offset =>
      c <> NULL /\ 0 <= len /\ 0 <= offset
  | EvWriteToRadio c buf offset | EvWriteNodeReg c buf offset =>
      c <> NULL /\ bytes_ok buf /\ 0 <= offset
  | EvUart (UART_RX_RDY data) => bytes_ok data
  | EvKeepalive => s_keepalive_armed (w_upstream w) = true
  | _ => True
  end.

#[export] Instance enabled_dec w e : Decision (enabled w e).
Proof. destruct e as [| | | | | | |[]| | | | |]; simpl; apply _. Defined.

Inductive reachable : world -> Prop :=
  | reach_boot env w t :
      fits 32 (be_rand env) -> main env world_boot = Some (None, w, t) -> reachable w
  | reach_step w e w' t :
      reachable w -> enabled w e -> step e w = Some (tt, w', t) -> reachable w'.

(** A boot, and a sequence of events, run; [None] if an event is not enabled. *)
Definition run_boot (env : boot_env) : option world :=
  match main env world_boot with Some (None, w, _) => Some w | _ => None end.
Fixpoint run_events (evs : list event) (w : world) : option world :=
  match evs with
  | [] => Some w
  | e :: evs =>
      if decide (enabled w e) then
        match step e w with Some (_, w', _) => run_events evs w' | None => None end
      else None
  end.

Lemma run_boot_reachable env w : fits 32 (be_rand env) -> run_boot env = Some w -> reachable w.
Proof.
  unfold run_boot. intros Hr E. destruct (main env world_boot) as [[[[e|] w'] t]|] eqn:Em; try done.
  injection E as ->. by eapply reach_boot.
Qed.
Lemma run_events_reachable evs w w' :
  reachable w -> run_events evs w = Some w' -> reachable w'.
Proof.
  revert w. induction evs as [|e evs IH]; intros w Hw; simpl; [by intros [= <-]|].
  case_decide as He; [|done]. destruct (step e w) as [[[[] w1] t]|] eqn:E; [|done].
  apply IH. by eapply reach_step.
Qed.
End System.

(** ** The invariant *)

Definition frame_size_ok (f : list Z) : Prop := 0 < zlen f <= MESHTASTIC_MAX_PAYLOAD.

(** The config is there. *)
Definition published (st : upstream_state) : Prop :=
  st = UPSTREAM_CACHE_READY \/ st = UPSTREAM_LIVE.

(** A phone is replayed to only when the config is there. *)
Definition replaying_ok (st : upstream_state) (l : list proxy_conn) : Prop :=
  Forall (fun pc => pc_state pc = PHONE_REPLAYING -> published st) l.

Section Invariant.
Context `{Nanopb, !RingBuf RING_BUF_SIZE, !RingBufOk RING_BUF_SIZE}.
Context `{!MsgQ tx_entry TX_QUEUE_DEPTH, !MsgQOk tx_entry TX_QUEUE_DEPTH}.

(** The callbacks are registered. *)
Definition registered (w : world) : Prop :=
  toradio_handler_set (w_ble w) = true /\ s_serve_cb (w_upstream w) = true
  /\ fromradio_cb_set (w_uart w) = true.

(** A queued message that restarts the node's config session is the proxy's own. *)
Definition own_session (nonce : Z) (e : tx_entry) : Prop :=
  forall n, classify_toradio (te_payload e) = PfWantConfig n -> n = nonce.

Record rx_side_ok (u : uart) : Prop := {
  rs_buf : zlen (rx_payload (rx_sm u)) = MESHTASTIC_MAX_PAYLOAD;
  rs_payload : bytes_ok (rx_payload (rx_sm u));
  rs_ring : zlen (rb_contents (rx_ring_buf u)) <= RING_BUF_SIZE;
  rs_bytes : bytes_ok (rb_contents (rx_ring_buf u));
}.

(** What holds at all times from power-on, also while a handler is interrupted. *)
Record sys_ok (w : world) : Prop := {
  so_world : world_ok w;
  so_rx : rx_side_ok (w_uart w);
  so_frames : Forall (fun f => frame_size_ok f.2) (frames_of (w_cache w));
  so_registered : s_state (w_upstream w) <> UPSTREAM_BOOT -> registered w;
  so_replaying : replaying_ok (s_state (w_upstream w)) (conns (w_ble w));
  so_tx : Forall (own_session (s_nonce (w_upstream w))) (mq_contents (tx_msgq (w_uart w)));
}.

(** What holds between handlers, once the program has booted. *)
Record at_rest (w : world) : Prop := {
  ar_sys : sys_ok w;
  ar_state : s_state (w_upstream w) = UPSTREAM_FETCHING \/ s_state (w_upstream w) = UPSTREAM_LIVE;
  ar_machine : rx_ok (rx_sm (w_uart w));
}.

Lemma at_rest_registered w : at_rest w -> registered w.
Proof. intros [Hs Hst _]. apply (so_registered _ Hs). destruct Hst as [->| ->]; done. Qed.
End Invariant.

(** ** Small updates *)

Section Effects.
Context `{Nanopb, !RingBuf RING_BUF_SIZE, !MsgQ tx_entry TX_QUEUE_DEPTH}.
Context `{!MsgQOk tx_entry TX_QUEUE_DEPTH}.

(** The phone whose session an event may change. *)
Definition actor (e : event) : option bt_conn :=
  match e with
  | EvConnected c _ _ | EvDisconnected c _ | EvReadFromRadio c _ _
  | EvWriteToRadio c _ _ | EvWriteNodeReg c _ _ => Some c
  | _ => None
  end.

(** No connected phone but [a] sees its session change. *)
Definition others_kept (a : option bt_conn) (l l' : list proxy_conn) : Prop :=
  forall i pc, l !! i = Some pc -> conn pc <> NULL -> a <> Some (conn pc) ->
  exists pc', l' !! i = Some pc' /\ same_session pc pc'.

(** Once the config is there it stays, and so does every other phone's session. *)
Definition live_kept (a : option bt_conn) (w w' : world) : Prop :=
  s_state (w_upstream w) = UPSTREAM_LIVE ->
  w_cache w' = w_cache w /\ s_state (w_upstream w') = UPSTREAM_LIVE
  /\ others_kept a (conns (w_ble w)) (conns (w_ble w')).

(** No connected phone of [l'] waits that did not wait in [l]. *)
Definition waits_kept (l l' : list proxy_conn) : Prop :=
  forall i pc', l' !! i = Some pc' -> conn pc' <> NULL -> pc_state pc' = PHONE_PENDING ->
  exists j pc, l !! j = Some pc /\ conn pc = conn pc' /\ pc_state pc = PHONE_PENDING.

(** The connection objects of the phones are among those of the pool [P]. *)
Definition conns_in (P : list bt_conn) (l : list proxy_conn) : Prop :=
  Forall (fun pc => conn pc <> NULL -> conn pc ∈ P) l.

(** Every phone that waits is in the queue of the session, which holds only
    objects of the pool; once the session is LIVE it is empty. *)
Record waiting (P : list bt_conn) (u : upstream) (l : list proxy_conn) : Prop := {
  wt_pool : conns_in P l;
  wt_queue : Forall (fun c => c = NULL \/ c ∈ P) (pending u);
  wt_waits : forall i pc, l !! i = Some pc -> conn pc <> NULL -> pc_state pc = PHONE_PENDING ->
    conn pc ∈ pending u;
  wt_live : s_state u = UPSTREAM_LIVE -> s_pending_count u = 0;
}.

(** What everybody but the boot and the receiver does to the phones that wait:
    once the config is there none is added and the queue is left alone; before,
    nobody who waits is lost, if there are no more connection objects than
    entries of the queue. *)
Record phones_kept (u u' : upstream) (l l' : list proxy_conn) : Prop := {
  pk_queue : published (s_state u) ->
    s_pending u' = s_pending u /\ s_pending_count u' = s_pending_count u;
  pk_waits : published (s_state u) -> waits_kept l l';
  pk_waiting : forall P, zlen P <= CONFIG_BT_MAX_CONN -> waiting P u l -> conns_in P l' ->
    waiting P u' l';
}.

(** What only the boot and the receiver change: the session's nonce and state,
    the registrations, the receive machine; and no want_config of another
    session is queued. *)
Record kept (w w' : world) : Prop := {
  k_nonce : s_nonce (w_upstream w') = s_nonce (w_upstream w);
  k_state : s_state (w_upstream w') = s_state (w_upstream w);
  k_handler : toradio_handler_set (w_ble w') = toradio_handler_set (w_ble w);
  k_serve : s_serve_cb (w_upstream w') = s_serve_cb (w_upstream w);
  k_callback : fromradio_cb_set (w_uart w') = fromradio_cb_set (w_uart w);
  k_machine : rx_sm (w_uart w') = rx_sm (w_uart w);
  k_phones : phones_kept (w_upstream w) (w_upstream w') (conns (w_ble w)) (conns (w_ble w'));
  k_tx : forall n, Forall (own_session n) (mq_contents (tx_msgq (w_uart w))) ->
    Forall (own_session n) (mq_contents (tx_msgq (w_uart w')));
}.

Lemma waits_kept_refl l : waits_kept l l.
Proof. intros i pc Hi _ Hp. by exists i, pc. Qed.

(** Slot [i] changes, and does not begin to wait. *)
Lemma waits_kept_insert l i pc pc' :
  l !! i = Some pc ->
  (conn pc' <> NULL -> pc_state pc' = PHONE_PENDING -> conn pc = conn pc' /\ pc_state pc = PHONE_PENDING) ->
  waits_kept l (<[i := pc']> l).
Proof.
  intros Hi Hp j q Hj Hn Hq. destruct (decide (i = j)) as [<-|Hne].
  - rewrite list_lookup_insert_eq in Hj by by eapply lookup_lt_Some. injection Hj as <-.
    destruct (Hp Hn Hq). by exists i, pc.
  - rewrite list_lookup_insert_ne in Hj by done. by exists j, q.
Qed.

Lemma phones_kept_same u u' l l' :
  s_state u' = s_state u -> s_pending u' = s_pending u -> s_pending_count u' = s_pending_count u ->
  waits_kept l l' -> phones_kept u u' l l'.
Proof.
  intros Hs Hp Hn Hw. assert (pending u' = pending u) as Hpe by (unfold pending; by rewrite Hp, Hn).
  split; [done|done|]. intros P _ [_ Hq Hwt Hl] Hin. split; rewrite ?Hpe; try done.
  - intros i pc' Hi Hc Hst. destruct (Hw i pc' Hi Hc Hst) as (j & pc & Hj & Ec & Hpc).
    rewrite <- Ec in Hc |- *. by apply (Hwt j).
  - rewrite Hs, Hn. done.
Qed.
Lemma phones_kept_refl u l : phones_kept u u l l.
Proof. apply phones_kept_same; try done. apply waits_kept_refl. Qed.

Lemma kept_refl w : kept w w.
Proof. split; try done. apply phones_kept_refl. Qed.

Lemma same_session_trans pc1 pc2 pc3 :
  same_session pc1 pc2 -> same_session pc2 pc3 -> same_session pc1 pc3.
Proof. unfold same_session. intros. destruct_and!. split_and!; congruence. Qed.

Lemma others_kept_refl a l : others_kept a l l.
Proof. intros i pc Hi _ _. exists pc. split; [done|apply same_session_refl]. Qed.

Lemma others_kept_trans a l1 l2 l3 :
  others_kept a l1 l2 -> others_kept a l2 l3 -> others_kept a l1 l3.
Proof.
  intros H1 H2 i pc Hi Hn Ha. destruct (H1 i pc Hi Hn Ha) as (pc2 & Hi2 & Hs).
  pose proof Hs as [Hc _].
  destruct (H2 i pc2 Hi2) as (pc3 & Hi3 & Hs'); [congruence..|].
  exists pc3. split; [done|]. by eapply same_session_trans.
Qed.

(** Only slot [i] changes, and it is free or the actor's. *)
Lemma others_kept_insert a l i pc pc' :
  l !! i = Some pc -> conn pc = NULL \/ a = Some (conn pc) -> others_kept a l (<[i := pc']> l).
Proof.
  intros Hi Hc j q Hj Hn Ha. destruct (decide (i = j)) as [<-|Hne].
  - rewrite Hi in Hj. injection Hj as <-. by destruct Hc.
  - exists q. rewrite list_lookup_insert_ne by done. split; [done|apply same_session_refl].
Qed.

Lemma others_kept_deliver a l i pc data :
  l !! i = Some pc -> others_kept a l (<[i := deliver data pc]> l).
Proof.
  intros Hi j q Hj _ _. destruct (decide (i = j)) as [<-|Hne].
  - rewrite Hi in Hj. injection Hj as <-. rewrite list_lookup_insert_eq by by eapply lookup_lt_Some.
    eexists. split; [done|]. apply deliver_same.
  - exists q. rewrite list_lookup_insert_ne by done. split; [done|apply same_session_refl].
Qed.

Lemma bc_slot_same data pc : same_session pc (bc_slot data pc).
Proof. unfold bc_slot. case_decide; [apply same_session_refl|apply deliver_same]. Qed.

Lemma others_kept_broadcast a l data : others_kept a l (bc_slot data <$> l).
Proof.
  intros i pc Hi _ _. exists (bc_slot data pc).
  rewrite list_lookup_fmap, Hi. split; [done|apply bc_slot_same].
Qed.

Lemma live_kept_refl a w : live_kept a w w.
Proof. intros Hs. split_and!; try done. apply others_kept_refl. Qed.

Lemma live_kept_trans a w1 w2 w3 :
  live_kept a w1 w2 -> live_kept a w2 w3 -> live_kept a w1 w3.
Proof.
  intros H1 H2 Hs. destruct (H1 Hs) as (Hc & Hs2 & Ho). destruct (H2 Hs2) as (Hc' & Hs3 & Ho').
  split_and!; [congruence|done|by eapply others_kept_trans].
Qed.

Lemma replaying_insert st l i pc :
  replaying_ok st l -> (pc_state pc = PHONE_REPLAYING -> published st) ->
  replaying_ok st (<[i := pc]> l).
Proof. intros Hl Hp. by apply Forall_insert. Qed.

Lemma replaying_at st l i pc :
  replaying_ok st l -> l !! i = Some pc -> pc_state pc = PHONE_REPLAYING -> published st.
Proof. intros Hl Hi. by apply (Forall_lookup_1 _ _ _ _ Hl Hi). Qed.

Lemma replaying_broadcast st l data : replaying_ok st l -> replaying_ok st (bc_slot data <$> l).
Proof.
  intros Hl. apply Forall_fmap. eapply Forall_impl; [exact Hl|]. intros pc Hp. simpl.
  destruct (bc_slot_same data pc) as (_ & -> & _). done.
Qed.

Lemma replaying_live l : replaying_ok UPSTREAM_LIVE l.
Proof. apply Forall_true. intros pc _. by right. Qed.
End Effects.

(** ** The receiver hands over frames of a good size *)

Lemma rx_step_frames sm b sm' d :
  rx_ok sm -> bytes_ok (rx_payload sm) -> fits 8 b -> rx_step sm b = Some (sm', d) ->
  bytes_ok (rx_payload sm') /\ Forall (fun p => frame_size_ok p /\ bytes_ok p) (option_list d).
Proof.
  intros W Hb Hf. unfold rx_step.
  destruct (rx_st sm) eqn:Est; try (intros [= <- <-]; repeat case_match; by repeat split).
  destruct (rx_pl _ W Est) as [Hr He]. pose proof (rx_buf _ W) as Hbuf.
  unfold MESHTASTIC_MAX_PAYLOAD in *. rewrite mem_set_ok by lia. simpl. rewrite u16_id by lia.
  assert (bytes_ok (<[Z.to_nat (received_len sm):=b]> (rx_payload sm))) as Hb'
    by by apply Forall_insert.
  case_decide as Hn; [|by intros [= <- <-]].
  rewrite mem_read_0 by (rewrite zlen_insert; lia). simpl. intros [= <- <-]. split; [done|].
  apply Forall_singleton. split; [|by apply Forall_take].
  unfold frame_size_ok, MESHTASTIC_MAX_PAYLOAD. rewrite zlen_take by (rewrite zlen_insert; lia). lia.
Qed.

Lemma rx_run_frames bs sm sm' ds :
  rx_ok sm -> bytes_ok (rx_payload sm) -> bytes_ok bs -> rx_run sm bs = Some (sm', ds) ->
  bytes_ok (rx_payload sm') /\ Forall (fun p => frame_size_ok p /\ bytes_ok p) ds.
Proof.
  revert sm ds. induction bs as [|b bs IH]; intros sm ds W Hb Hbs; simpl; [by intros [= <- <-]|].
  apply Forall_cons in Hbs as [Hf Hbs].
  destruct (rx_step_ok sm b W Hf) as (sm1 & d & E & W1). rewrite E. simpl.
  destruct (rx_step_frames sm b sm1 d W Hb Hf E) as [Hb1 Hd].
  destruct (rx_run sm1 bs) as [[sm2 ds2]|] eqn:E2; [|done]. simpl. intros [= <- <-].
  destruct (IH sm1 ds2 W1 Hb1 Hbs E2) as [Hb2 Hds]. split; [done|by apply Forall_app_2].
Qed.

(** ** Frames of the node *)

Section Receive.
Context `{NanopbOk, !RingBuf RING_BUF_SIZE, !RingBufOk RING_BUF_SIZE}.
Context `{!MsgQ tx_entry TX_QUEUE_DEPTH, !MsgQOk tx_entry TX_QUEUE_DEPTH}.

(** What a dispatched frame leaves alone in the session and the cache. *)
Lemma routed_setup raw c u b c' u' b' :
  routed raw c u b c' u' b' ->
  same_setup u u' /\ toradio_handler_set b' = toradio_handler_set b
  /\ (s_state u' = s_state u \/ s_state u = UPSTREAM_FETCHING /\ s_state u' = UPSTREAM_LIVE).
Proof.
  unfold routed, route_of. intros Hr. destruct (classify_fromradio raw) as [|v| |pn p].
  - by destruct Hr as (-> & -> & ->); auto.
  - destruct (decide (s_state u = UPSTREAM_FETCHING)) as [Hs|_].
    + destruct Hr as (v' & _ & Hr). destruct (up_action_of u raw v'); [done| |].
      * destruct Hr as (-> & -> & _). split_and!; try done. by left.
      * destruct Hr as (_ & Hl & _ & Hm & Hb & _). split; [done|].
        split; [by rewrite Hb|]. by right.
    + destruct (decide (v = FromRadio_queueStatus_tag /\ s_keepalive_pending u = true));
        destruct Hr as (-> & -> & ->); split_and!; try done; by left.
  - by destruct Hr as (-> & -> & ->); auto.
  - destruct (decide (pn = PROXY_PORTNUM)).
    + destruct (d ← proxy_dst p; owner d b) as [[i pc]|];
        destruct Hr as (-> & -> & ->); split_and!; try done; by left.
    + destruct Hr as (-> & -> & ->); split_and!; try done; by left.
Qed.

Lemma add_frames_ok (P : frame -> Prop) fs v raw :
  Forall P fs -> P (v, raw) -> Forall P (add_spec fs v raw).2.
Proof.
  intros Hf Hp. unfold add_spec. case_decide; [done|]. apply Forall_app_2; [done|].
  by apply Forall_singleton.
Qed.

Lemma routed_frames raw c u b c' u' b' :
  routed raw c u b c' u' b' -> frame_size_ok raw ->
  Forall (fun f => frame_size_ok f.2) (frames_of c) ->
  Forall (fun f => frame_size_ok f.2) (frames_of c').
Proof.
  unfold routed. intros Hr Hz Hf.
  destruct (route_of raw u b); try by destruct Hr as (-> & _).
  destruct Hr as (v & _ & Hr). destruct (up_action_of u raw v); [done| |].
  - destruct Hr as (_ & _ & _ & ->). by apply add_frames_ok.
  - by destruct Hr as (-> & _).
Qed.

Lemma routed_replaying raw c u b c' u' b' :
  ble_wf b -> routed raw c u b c' u' b' -> replaying_ok (s_state u) (conns b) ->
  replaying_ok (s_state u') (conns b').
Proof.
  unfold routed. intros Hw Hr Hp. destruct (route_of raw u b) as [| | |i pc] eqn:Ert.
  - destruct Hr as (v & _ & Hr). destruct (up_action_of u raw v); [done| |].
    + by destruct Hr as (-> & -> & _).
    + destruct Hr as (_ & -> & _). apply replaying_live.
  - by destruct Hr as (_ & -> & ->).
  - destruct Hr as (_ & -> & ->). by apply replaying_broadcast.
  - destruct Hr as (_ & -> & ->). apply replaying_insert; [done|].
    destruct (deliver_same raw pc) as (_ & -> & _).
    apply (replaying_at _ _ i pc Hp). by eapply route_target_slot.
Qed.

Lemma routed_live raw c u b c' u' b' :
  routed raw c u b c' u' b' -> s_state u = UPSTREAM_LIVE ->
  c' = c /\ others_kept None (conns b) (conns b').
Proof.
  unfold routed. intros Hr Hs. destruct (route_of raw u b) as [| | |i pc] eqn:Ert.
  - exfalso. destruct Hr as (v & _ & Hr). unfold up_action_of in Hr.
    rewrite decide_False in Hr; [done|]. rewrite Hs. by intros [? _].
  - destruct Hr as (-> & _ & ->). split; [done|apply others_kept_refl].
  - destruct Hr as (-> & _ & ->). split; [done|apply others_kept_broadcast].
  - destruct Hr as (-> & _ & ->). split; [done|]. apply others_kept_deliver.
    by eapply route_target_slot.
Qed.

Lemma fromradio_sys raw w :
  sys_ok w -> frame_size_ok raw -> bytes_ok raw ->
  exists w' t, on_fromradio_uart raw w = Some (tt, w', t) /\ sys_ok w'
    /\ w_uart w' = w_uart w /\ live_kept None w w'
    /\ (s_state (w_upstream w') = s_state (w_upstream w)
        \/ s_state (w_upstream w) = UPSTREAM_FETCHING /\ s_state (w_upstream w') = UPSTREAM_LIVE).
Proof.
  intros [Ho Hrx Hf Hrg Hrp Htx] Hz Hb.
  destruct (fromradio_uart_ok raw w Ho Hb) as (w' & t & E & Ho' & Hr & Hu).
  { unfold frame_size_ok, MESHTASTIC_MAX_PAYLOAD in Hz. lia. }
  exists w', t. split; [done|]. change (w_uart w' = w_uart w) in Hu.
  pose proof (routed_setup _ _ _ _ _ _ _ Hr) as ((Hn & Hcb & _) & Hh' & Hst').
  change (s_nonce (w_upstream w') = s_nonce (w_upstream w)) in Hn.
  change (s_serve_cb (w_upstream w') = s_serve_cb (w_upstream w)) in Hcb.
  change (toradio_handler_set (w_ble w') = toradio_handler_set (w_ble w)) in Hh'.
  split; [|split; [done|split; [|exact Hst']]].
  - split; rewrite ?Hu, ?Hn; try done.
    + by eapply routed_frames.
    + intros Hs'. unfold registered. rewrite Hu, Hcb, Hh'. apply Hrg.
      destruct Hst' as [Hst'|[Hst' _]]; unfold lget in Hst'; simpl in Hst'; [by rewrite <- Hst'|].
      by rewrite Hst'.
    + eapply (routed_replaying raw); [apply Ho|exact Hr|done].
  - intros Hl. destruct (routed_live _ _ _ _ _ _ _ Hr Hl) as [Hc Hk].
    split_and!; try done. destruct Hst' as [Hst'|[_ Hst']]; [|done]. by rewrite <- Hl.
Qed.
End Receive.

(** ** The dispatch does not touch the UART module *)

Section Natural.
Context `{Nanopb, !RingBuf RING_BUF_SIZE, !MsgQ tx_entry TX_QUEUE_DEPTH}.

(** One step of a naturality proof. *)
Ltac natural_step :=
  match goal with
  | |- natural _ (bind _ _) => apply natural_bind; [|intros ?]
  | |- natural _ (ret _) => apply natural_ret
  | |- natural _ (oget _) => apply natural_oget
  | |- natural _ (zoom _) => apply natural_zoom; apply _
  | |- natural _ (match ?x with _ => _ end) => destruct x
  end.
Ltac natural_steps := repeat natural_step.

Lemma serve_loop_natural fuel i : natural lens_uart (serve_loop (W := world) serve_replay fuel i).
Proof.
  revert i. induction fuel as [|fuel IH]; intros i; simpl; [apply natural_oget|].
  unfold serve_one_pending, serve_replay. natural_steps. apply IH.
Qed.

Lemma on_fromradio_natural raw info :
  natural lens_uart (upstream_on_fromradio (W := world) serve_replay raw info).
Proof.
  unfold upstream_on_fromradio, serve_pending_phones. cbv zeta. natural_steps; apply serve_loop_natural.
Qed.

Lemma dispatch_natural raw : natural lens_uart (on_fromradio_uart (W := world) raw).
Proof.
  unfold on_fromradio_uart, router_dispatch, broadcast. natural_steps.
  apply on_fromradio_natural.
Qed.
End Natural.

(** ** Every event, from a good state *)

Section Steps.
Context `{NanopbOk, GattReadOk, !RingBuf RING_BUF_SIZE, !RingBufOk RING_BUF_SIZE}.
Context `{!MsgQ tx_entry TX_QUEUE_DEPTH, !MsgQOk tx_entry TX_QUEUE_DEPTH}.

(** The event runs to its end, keeps the invariant, and keeps the sessions of
    the phones it does not belong to. *)
Definition step_ok (w : world) (e : event) : Prop :=
  exists w' t, step e w = Some (tt, w', t) /\ sys_ok w' /\ live_kept (actor e) w w' /\ kept w w'.

Lemma fromradio_all ds w :
  sys_ok w -> Forall (fun p => frame_size_ok p /\ bytes_ok p) ds ->
  exists w' t, mfor on_fromradio_uart ds w = Some (tt, w', t) /\ sys_ok w'
    /\ w_uart w' = w_uart w /\ live_kept None w w'
    /\ (s_state (w_upstream w') = s_state (w_upstream w)
        \/ s_state (w_upstream w) = UPSTREAM_FETCHING /\ s_state (w_upstream w') = UPSTREAM_LIVE).
Proof.
  revert w. induction ds as [|d ds IH]; intros w Hw Hd; simpl.
  { exists w, []. split_and!; try done; [apply live_kept_refl|by left]. }
  apply Forall_cons in Hd as [[Hz Hb] Hd].
  destruct (fromradio_sys d w Hw Hz Hb) as (w1 & t1 & E1 & Hw1 & Hu1 & Hk1 & Hs1).
  destruct (IH w1 Hw1 Hd) as (w2 & t2 & E2 & Hw2 & Hu2 & Hk2 & Hs2).
  exists w2, (t1 ++ t2). erewrite run_bind by exact E1. rewrite E2.
  split_and!; try done; [congruence|by eapply live_kept_trans|].
  destruct Hs1 as [Hs1|[Hs1 Hs1']], Hs2 as [Hs2|[Hs2 Hs2']]; rewrite ?Hs1, ?Hs1' in *; auto; congruence.
Qed.

(** The world with its GATT module, or its UART module, replaced. *)
Lemma sys_ok_ble w b' :
  sys_ok w -> ble_wf b' -> toradio_handler_set b' = toradio_handler_set (w_ble w) ->
  replaying_ok (s_state (w_upstream w)) (conns b') ->
  sys_ok (mk_world (w_cache w) (w_uart w) (w_upstream w) b').
Proof.
  intros [(? & ? & ? & ? & ?) ? ? Hg ? ?] ? Hh ?. split; try done. unfold registered. simpl. by rewrite Hh.
Qed.

Lemma sys_ok_uart w u' :
  sys_ok w -> uart_tx_ok u' -> rx_side_ok u' -> fromradio_cb_set u' = fromradio_cb_set (w_uart w) ->
  Forall (own_session (s_nonce (w_upstream w))) (mq_contents (tx_msgq u')) ->
  sys_ok (mk_world (w_cache w) u' (w_upstream w) (w_ble w)).
Proof.
  intros [(? & ? & ? & ? & ?) ? ? Hg ? ?] ?? Hh ?. split; try done. unfold registered. simpl. by rewrite Hh.
Qed.

Lemma live_kept_ble a w b' :
  others_kept a (conns (w_ble w)) (conns b') ->
  live_kept a w (mk_world (w_cache w) (w_uart w) (w_upstream w) b').
Proof. intros Ho Hs. by split_and!. Qed.

Lemma live_kept_uart a w u' :
  live_kept a w (mk_world (w_cache w) u' (w_upstream w) (w_ble w)).
Proof. intros Hs. split_and!; try done. apply others_kept_refl. Qed.

Lemma kept_ble w b' :
  toradio_handler_set b' = toradio_handler_set (w_ble w) ->
  waits_kept (conns (w_ble w)) (conns b') ->
  kept w (mk_world (w_cache w) (w_uart w) (w_upstream w) b').
Proof. intros Hh Hw. split; try done. by apply phones_kept_same. Qed.

Lemma kept_uart w u' :
  fromradio_cb_set u' = fromradio_cb_set (w_uart w) -> rx_sm u' = rx_sm (w_uart w) ->
  (forall n, Forall (own_session n) (mq_contents (tx_msgq (w_uart w))) ->
     Forall (own_session n) (mq_contents (tx_msgq u'))) ->
  kept w (mk_world (w_cache w) u' (w_upstream w) (w_ble w)).
Proof. intros Hh Hm Hq. split; try done. apply phones_kept_refl. Qed.

(** An event that stays in the GATT module, or in the UART module. *)
Lemma step_in_ble w e b' t :
  sys_ok w -> step e w = Some (tt, lset b' w, t) ->
  ble_wf b' -> toradio_handler_set b' = toradio_handler_set (w_ble w) ->
  replaying_ok (s_state (w_upstream w)) (conns b') ->
  others_kept (actor e) (conns (w_ble w)) (conns b') ->
  waits_kept (conns (w_ble w)) (conns b') -> step_ok w e.
Proof.
  intros Hw E Hb Hh Hr Ho Hk. eexists _, t. split; [exact E|].
  split; [by apply sys_ok_ble|split; [by apply live_kept_ble|by apply kept_ble]].
Qed.

Lemma step_in_uart w e u' t :
  sys_ok w -> step e w = Some (tt, lset u' w, t) ->
  uart_tx_ok u' -> rx_side_ok u' -> fromradio_cb_set u' = fromradio_cb_set (w_uart w) ->
  rx_sm u' = rx_sm (w_uart w) ->
  (forall n, Forall (own_session n) (mq_contents (tx_msgq (w_uart w))) ->
     Forall (own_session n) (mq_contents (tx_msgq u'))) -> step_ok w e.
Proof.
  intros Hw E Hu Hr Hh Hm Hq. eexists _, t. split; [exact E|].
  split; [apply sys_ok_uart; [done..|apply Hq, Hw]|].
  split; [apply live_kept_uart|by apply kept_uart].
Qed.

Lemma step_nothing w e t : sys_ok w -> step e w = Some (tt, w, t) -> step_ok w e.
Proof.
  intros Hw E. exists w, t. split; [done|]. split; [done|].
  split; [apply live_kept_refl|apply kept_refl].
Qed.

(** The receiver runs from a rested world. *)
Lemma step_rx_work w :
  at_rest w ->
  exists w' t, step EvRxWork w = Some (tt, w', t) /\ at_rest w' /\ live_kept None w w'.
Proof.
  intros Hr. pose proof (at_rest_registered w Hr) as (_ & _ & Hcb). destruct Hr as [Hw Hst Hm].
  pose proof (so_rx _ Hw) as [Hz Hp Hrg Hb]. unfold step.
  destruct (rx_run_ok _ _ Hm Hb) as (sm' & ds & E & Hm').
  destruct (rx_run_frames _ _ _ _ Hm Hp Hb E) as [Hp' Hd].
  destruct (fromradio_all ds w Hw Hd) as (w1 & t & E1 & Hw1 & Hu1 & Hk1 & Hs1).
  destruct (rx_loop_eq on_fromradio_uart dispatch_natural (S (Z.to_nat RING_BUF_SIZE)) w sm' ds w1 t)
    as (rb & Hrb & E2); [done|change (lget w) with (w_uart w); unfold zlen in Hrg; lia|done|done|].
  eexists _, t. split; [exact E2|].
  change (lget (Lens := lens_uart) w) with (w_uart w).
  set (u' := _ <| rx_sm := sm' |>).
  change (lset u' w1) with (mk_world (w_cache w1) u' (w_upstream w1) (w_ble w1)). split; [split|].
  - apply sys_ok_uart; [done| | |by rewrite Hu1|].
    + pose proof (so_world _ Hw) as (_ & _ & _ & Hu & _). destruct Hu. by split.
    + subst u'. split; simpl; rewrite ?Hrb; try done; [apply Hm'|apply Forall_nil_2].
    + pose proof (so_tx _ Hw1) as Ht. rewrite Hu1 in Ht. exact Ht.
  - simpl. destruct Hs1 as [->|[_ ->]]; [done|by right].
  - done.
  - eapply live_kept_trans; [exact Hk1|apply live_kept_uart].
Qed.

Lemma step_uart w evt : sys_ok w -> enabled w (EvUart evt) -> step_ok w (EvUart evt).
Proof.
  intros Hw He. pose proof (so_rx _ Hw) as [Hm Hp Hr Hb].
  pose proof (so_world _ Hw) as (_ & _ & _ & Hu & _).
  assert (forall u' t, uart_cb evt (w_uart w) = Some (tt, u', t) -> uart_tx_ok u' ->
            rx_side_ok u' -> fromradio_cb_set u' = fromradio_cb_set (w_uart w) ->
            rx_sm u' = rx_sm (w_uart w) -> tx_msgq u' = tx_msgq (w_uart w) ->
            step_ok w (EvUart evt)) as Hk.
  { intros u' t E Hu' Hr' Hc Hs Hq. eapply step_in_uart; [exact Hw|unfold step; apply zoom_eq; exact E|done..|].
    by rewrite Hq. }
  destruct evt as [data| | | | | |];
    (eapply Hk; [reflexivity|by destruct Hu|by split|done|done|done]) || idtac.
  eapply Hk; [reflexivity|by destruct Hu| |done|done|done].
  split; try done; simpl; rewrite rb_put_ok.
  - rewrite zlen_app. pose proof (zlen_nonneg data).
    destruct (decide (zlen data <= RING_BUF_SIZE - zlen (rb_contents (rx_ring_buf (w_uart w))))).
    + unfold zlen in *. rewrite length_take. lia.
    + rewrite zlen_take by lia. lia.
  - apply Forall_app_2; [done|]. by apply Forall_take.
Qed.

Lemma step_tx_work w err : sys_ok w -> step_ok w (EvTxWork err).
Proof.
  intros Hw. pose proof (so_rx _ Hw) as [Hm Hp Hr Hb].
  pose proof (so_world _ Hw) as (_ & _ & _ & Hu & _).
  destruct (tx_work_handler_frame err (w_uart w) Hu) as (u' & t & E & Hu' & Hq & E1 & E2 & E3).
  eapply step_in_uart; [done|unfold step; apply zoom_eq; exact E|done|split; by rewrite ?E1, ?E2|done|done|].
  intros n Ht. destruct Hq as [->|[e Hq]]; [done|]. rewrite Hq in Ht. by apply Forall_cons in Ht as [_ ?].
Qed.

Lemma heartbeat_not_want_config n p :
  pb_decode_ToRadio p = Some (msg_heartbeat n) -> classify_toradio p = PfHeartbeat.
Proof.
  intros E. unfold classify_toradio. rewrite E. simpl.
  pose proof ToRadio_tags_NoDup as Hn. rewrite !NoDup_cons, !not_elem_of_cons in Hn.
  destruct_and!. rewrite decide_False by done. by rewrite decide_True.
Qed.

Lemma step_keepalive w : sys_ok w -> step_ok w EvKeepalive.
Proof.
  intros Hw. pose proof Hw as [(Hb & Hs & Hc & Hu & Hr) Hrx Hf Hrg Hrp Htx].
  unfold step_ok, step. pose proof (keepalive_eq w Hs Hu) as E.
  assert (forall u' b, uart_tx_ok u' -> rx_side_ok u' ->
    fromradio_cb_set u' = fromradio_cb_set (w_uart w) -> rx_sm u' = rx_sm (w_uart w) ->
    (forall n, Forall (own_session n) (mq_contents (tx_msgq (w_uart w))) ->
       Forall (own_session n) (mq_contents (tx_msgq u'))) ->
    let w' := mk_world (w_cache w) u'
      ((w_upstream w) <| s_keepalive_nonce := next_nonce (s_keepalive_nonce (w_upstream w)) |>
                    <| s_keepalive_pending := b |>) (w_ble w) in
    sys_ok w' /\ live_kept None w w' /\ kept w w') as Hk.
  { intros u' b Hu' Hr' Hcb Hm Hq' w'.
    assert (registered w' <-> registered w) as Hreg by (unfold registered; simpl; by rewrite Hcb).
    split_and!.
    - split; try done; [|by rewrite Hreg|by apply Hq'].
      split_and!; try done.
      pose proof (next_nonce_ok (s_keepalive_nonce (w_upstream w))). by destruct Hs; split.
    - intros Hs'. split_and!; try done. apply others_kept_refl.
    - split; try done. apply phones_kept_same; try done. apply waits_kept_refl. }
  case_decide.
  - eexists _, _. split; [exact E|]. by apply Hk.
  - destruct E as (q & p & Hp & Hz & Hq & Hok & E). eexists _, _. split; [exact E|].
    apply Hk; [done|by destruct Hrx; split|done|done|]. simpl. rewrite Hq. intros m Hm.
    apply Forall_app_2; [done|]. apply Forall_singleton. intros n. simpl.
    by rewrite (heartbeat_not_want_config _ _ Hp).
Qed.

Lemma step_leds w : sys_ok w -> step_ok w EvBleLeds /\ step_ok w EvUartLeds.
Proof.
  intros Hw. pose proof Hw as [(Hb & Hs & Hc & Hu & Hr) [? ? ? ?] Hf Hrg Hrp Htx]. split.
  - eapply step_in_ble; [done|reflexivity|by destruct Hb|done|done|apply others_kept_refl|apply waits_kept_refl].
  - eapply step_in_uart; [done|reflexivity|by destruct Hu|by split|done..].
Qed.

Lemma step_connected w c err adv_err :
  sys_ok w -> enabled w (EvConnected c err adv_err) -> step_ok w (EvConnected c err adv_err).
Proof.
  intros Hw [Hc Hfresh]. rewrite Forall_forall in Hfresh. pose proof (so_world _ Hw) as (Hb & _).
  pose proof (so_replaying _ Hw) as Hrp.
  destruct (decide (err = 0)) as [->|He].
  2: { apply (step_nothing w _ []); [done|]. unfold step, on_connected.
       rewrite decide_True by done. unfold zoom, ret. by rewrite lset_lget. }
  pose proof (on_connected_eq (w_ble w) c adv_err Hb) as E.
  destruct (find_from (conns (w_ble w)) NULL 0) as [i|].
  - destruct E as (pc & Hi & Hn & Hu & E).
    eapply step_in_ble; [done|unfold step; apply zoom_eq; exact E|by apply ble_wf_connect|done| | |].
    + by apply replaying_insert.
    + by apply (others_kept_insert _ _ _ pc); [|left].
    + by apply (waits_kept_insert _ _ pc).
  - destruct E as [E _]. eapply step_nothing; [done|]. unfold step.
    erewrite zoom_eq by exact E. by destruct w.
Qed.

Lemma step_disconnected w c adv_err :
  sys_ok w -> enabled w (EvDisconnected c adv_err) -> step_ok w (EvDisconnected c adv_err).
Proof.
  intros Hw Hc. pose proof (so_world _ Hw) as (Hb & _).
  pose proof (so_replaying _ Hw) as Hrp.
  pose proof (on_disconnected_eq (w_ble w) c adv_err Hb Hc) as E.
  destruct (find_slot c (w_ble w)) as [i|].
  - destruct E as (pc & Hi & Hpc & E & Hb').
    eapply step_in_ble; [done|unfold step; apply zoom_eq; exact E|done|done|by apply replaying_insert| |].
    + apply (others_kept_insert _ _ _ pc); [done|right; simpl; by rewrite Hpc].
    + by apply (waits_kept_insert _ _ pc).
  - eapply step_nothing; [done|]. unfold step. erewrite zoom_eq by exact E. by destruct w.
Qed.

(** *** Reads *)

Lemma sys_reader w c i pc :
  sys_ok w -> find_slot c (w_ble w) = Some i -> conns (w_ble w) !! i = Some pc ->
  reader w c i pc.
Proof.
  intros Hw Hf Hi. pose proof (so_world _ Hw) as (Hb & _ & Hc & _). split; try done.
  apply (so_frames _ Hw).
Qed.

(** A read that is not fresh changes nothing. *)
Lemma later_read_any w c i pc len off :
  reader w c i pc -> off <> 0 ->
  exists r, fromradio_read c len off w = Some (r, w, [IoLock i; IoUnlock i]).
Proof.
  intros [Hb Hc Hfs Hf Hs] Ho. pose proof (ble_wf_slot _ _ _ Hb Hs) as Hwf.
  pose proof (sw_staged _ Hwf). pose proof (sw_staged_len _ Hwf).
  unfold fromradio_read. rewrite run_zoom_gets. unfold id. rewrite Hf, run_emit.
  rewrite decide_False by done. rewrite run_ret. erewrite run_slot_get by done.
  destruct (decide (0 < staged_len pc)).
  - rewrite mem_read_0 by lia. rewrite run_assoc, run_oget, run_ret, run_emit. simpl. eauto.
  - rewrite run_ret, run_emit. simpl. eauto.
Qed.

(** A run of the event that stays in the GATT module. *)
Definition read_ok (w : world) (c : bt_conn) (w' : world) : Prop :=
  sys_ok w' /\ live_kept (Some c) w w' /\ kept w w'.

Lemma read_sys w c i pc len off :
  sys_ok w -> find_slot c (w_ble w) = Some i -> conns (w_ble w) !! i = Some pc -> 0 <= len ->
  exists r w' t, fromradio_read c len off w = Some (r, w', t) /\ read_ok w c w'.
Proof.
  intros Hw Hf Hi Hl. pose proof (sys_reader w c i pc Hw Hf Hi) as Hrd.
  destruct (decide (off = 0)) as [->|Ho].
  2: { destruct (later_read_any w c i pc len off Hrd Ho) as (r & E).
       exists r, w. eexists. split; [exact E|].
       split; [done|split; [apply live_kept_refl|apply kept_refl]]. }
  destruct (fresh_read w c i pc len Hrd Hl) as (pc' & v & E & Hrd' & _ & Hsame & Hst).
  eexists _, _, _. split; [exact E|].
  change (with_slot i pc' w) with (mk_world (w_cache w) (w_uart w) (w_upstream w)
    ((w_ble w) <| conns := <[i := pc']> (conns (w_ble w)) |>)) in *.
  assert (pc_state pc' = PHONE_PENDING -> pc_state pc = PHONE_PENDING) as Hps.
  { intros Hp'. destruct (decide (pc_state pc = PHONE_REPLAYING)); [|destruct Hst; congruence].
    destruct Hst as [_ Hst]. destruct (to_read _ pc); destruct_and!; congruence. }
  split; [|split; [|apply kept_ble; [done|apply (waits_kept_insert _ _ pc); [done|]]]].
  3: { intros _ Hp'. destruct Hsame as [-> _]. auto. }
  - apply sys_ok_ble; [done|apply Hrd'|done|].
    apply replaying_insert; [apply Hw|]. intros Hp'.
    apply (replaying_at _ _ i pc (so_replaying _ Hw) Hi).
    destruct (decide (pc_state pc = PHONE_REPLAYING)) as [|Hn]; [done|].
    destruct Hst as [Hst _]. by rewrite <- Hst.
  - apply live_kept_ble, (others_kept_insert _ _ _ pc); [done|right].
    destruct (find_slot_lookup _ _ _ Hf) as (q & Hq & <-). by simplify_eq.
Qed.

Lemma step_read w c len off :
  sys_ok w -> enabled w (EvReadFromRadio c len off) -> step_ok w (EvReadFromRadio c len off).
Proof.
  intros Hw (Hc & Hl & Ho). destruct (find_slot c (w_ble w)) as [i|] eqn:Hf.
  - destruct (find_slot_lookup _ _ _ Hf) as (pc & Hi & _).
    destruct (read_sys w c i pc len off Hw Hf Hi Hl) as (r & w' & t & E & Hk).
    exists w'. eexists. split; [|exact Hk]. unfold step. by erewrite run_bind by exact E.
  - apply (step_nothing w _ []); [done|].
    unfold step, fromradio_read. rewrite run_assoc, run_zoom_gets. unfold id.
    change (lget w) with (w_ble w). by rewrite Hf.
Qed.

Lemma step_read_num w c len off :
  sys_ok w -> step_ok w (EvReadFromNum c len off) /\ step_ok w (EvReadLogRadio c len off).
Proof.
  intros Hw. pose proof (so_world _ Hw) as (Hb & _).
  assert (forall e (r : att_res (list Z)) b' t m, step e w = (zoom m ;;; ret tt) w ->
    m (w_ble w) = Some (r, b', t) -> ble_wf b' ->
    toradio_handler_set b' = toradio_handler_set (w_ble w) -> conns b' = conns (w_ble w) ->
    step_ok w e) as Hk.
  { intros e r b' t m Ee E Hb' Hh Hc. eapply step_in_ble.
    - done.
    - rewrite Ee. erewrite run_zoom by exact E. reflexivity.
    - done.
    - done.
    - rewrite Hc. apply Hw.
    - rewrite Hc. apply others_kept_refl.
    - rewrite Hc. apply waits_kept_refl. }
  split.
  - unfold fromnum_read. destruct (find_slot c (w_ble w)) as [i|] eqn:Hf.
    + destruct (find_slot_lookup _ _ _ Hf) as (pc & Hi & _). eapply Hk; [reflexivity|..].
      * unfold fromnum_read. rewrite run_gets. unfold id. rewrite Hf, run_modify.
        erewrite run_get_slot by (simpl; exact Hi). reflexivity.
      * by destruct Hb.
      * done.
      * done.
    + eapply Hk; [reflexivity| |done..]. unfold fromnum_read. rewrite run_gets. unfold id. by rewrite Hf.
  - eapply Hk; [reflexivity|reflexivity|done..].
Qed.

(** *** Writes *)

Lemma step_node_reg w c buf off :
  sys_ok w -> enabled w (EvWriteNodeReg c buf off) -> step_ok w (EvWriteNodeReg c buf off).
Proof.
  intros Hw (Hc & Hb & Ho). pose proof (so_world _ Hw) as (Hbw & _).
  destruct (node_reg_run (w_ble w) c buf off Hbw Hb Ho) as (r & b' & E & Hb' & Hr).
  assert (step (EvWriteNodeReg c buf off) w = Some (tt, lset b' w, [])) as Es.
  { unfold step. by erewrite run_zoom by exact E. }
  assert (b' = w_ble w -> step_ok w (EvWriteNodeReg c buf off)) as Hsame.
  { intros ->. eapply step_nothing; [done|]. rewrite Es. by destruct w. }
  destruct (decide (off = 0 /\ zlen buf = PROXY_ID_SIZE)) as [_|_]; [|by apply Hsame, Hr].
  destruct Hr as [_ Hr]. destruct (find_slot c (w_ble w)) as [i|] eqn:Hf; [|by apply Hsame].
  destruct (find_slot_lookup _ _ _ Hf) as (q & Hq & Hqc). destruct Hr as (pc & Hi & ->). simplify_eq.
  eapply step_in_ble; [done|exact Es|done|done| | |].
  - apply replaying_insert; [apply Hw|]. simpl. apply (replaying_at _ _ _ _ (so_replaying _ Hw) Hi).
  - by apply (others_kept_insert _ _ _ pc); [|right].
  - by apply (waits_kept_insert _ _ pc).
Qed.

(** What handing a packet to the driver changes in the UART module. *)
Lemma forwarded_kept data q q' a :
  forwarded data q q' a -> (forall m, classify_toradio data <> PfWantConfig m) -> rx_side_ok q ->
  rx_side_ok q' /\ fromradio_cb_set q' = fromradio_cb_set q /\ rx_sm q' = rx_sm q
  /\ forall n, Forall (own_session n) (mq_contents (tx_msgq q)) ->
       Forall (own_session n) (mq_contents (tx_msgq q')).
Proof.
  unfold forwarded. intros Hf Hd [? ? ? ?]. case_decide.
  - destruct Hf as (_ & Hq & ->). split; [by split|]. split; [done|]. split; [done|].
    intros n Hn. simpl. rewrite Hq. apply Forall_app_2; [done|]. apply Forall_singleton.
    intros m Hm. by destruct (Hd m).
  - by destruct Hf as (_ & ->).
Qed.

(** What a write of a phone does to the parts that others rely on. *)
Definition write_ok (w : world) (c : bt_conn) (w' : world) : Prop :=
  sys_ok w' /\ live_kept (Some c) w w' /\ kept w w'.

Lemma toradio_untracked_sys c data w :
  sys_ok w -> find_slot c (w_ble w) = None ->
  exists w' t, on_toradio_ble c data w = Some (tt, w', t) /\ write_ok w c w'.
Proof.
  intros Hw Hf. pose proof Hw as [Ho Hrx Hfr Hrg Hrp Htx].
  destruct (toradio_untracked c data w Ho Hf)
    as (w' & t & E & Ho' & Hk & Hu & Hcs & Hh' & Hcl).
  change (w_cache w' = w_cache w) in Hk. change (w_upstream w' = w_upstream w) in Hu.
  change (conns (w_ble w') = conns (w_ble w)) in Hcs.
  change (toradio_handler_set (w_ble w') = toradio_handler_set (w_ble w)) in Hh'.
  assert (rx_side_ok (w_uart w') /\ fromradio_cb_set (w_uart w') = fromradio_cb_set (w_uart w)
    /\ rx_sm (w_uart w') = rx_sm (w_uart w)
    /\ forall n, Forall (own_session n) (mq_contents (tx_msgq (w_uart w))) ->
         Forall (own_session n) (mq_contents (tx_msgq (w_uart w')))) as (R1 & R2 & R3 & R4).
  { destruct (classify_toradio data) eqn:Ed;
      first [change (w_uart w' = w_uart w) in Hcl; by rewrite Hcl
            |destruct Hcl as [a Hfw]; eapply forwarded_kept; [exact Hfw|by rewrite Ed|done]]. }
  assert (registered w' <-> registered w) as Hreg by (unfold registered; by rewrite Hu, R2, Hh').
  exists w', t. split; [done|]. split_and!.
  - split; rewrite ?Hk, ?Hu, ?Hcs, ?Hreg; try done. by apply R4.
  - intros Hl. rewrite Hk, Hu, Hcs. split_and!; try done. apply others_kept_refl.
  - split; rewrite ?Hu, ?Hcs; try done. apply phones_kept_refl.
Qed.

(** A phone that asks before the config is there joins the queue. *)
Lemma park_kept u u' l i pc pc' :
  up_wf u -> ~ published (s_state u) -> l !! i = Some pc -> conn pc' <> NULL ->
  s_state u' = s_state u -> pending u' = park_spec (pending u) (conn pc') ->
  phones_kept u u' l (<[i := pc']> l).
Proof.
  intros Hu Hpub Hi Hn Hs Hp. split; [done|done|]. intros P HP [_ Hq Hwt _] Hin.
  assert (conn pc' ∈ P) as HcP.
  { eapply (Forall_lookup_1 _ _ i pc' Hin); [|done].
    apply list_lookup_insert_eq. by eapply lookup_lt_Some. }
  assert ((NULL ∉ pending u) /\ NoDup (pending u)) as [Hnn Hnd].
  { split; apply Hu; intros E; apply Hpub; by left. }
  assert (forall c, c ∈ pending u -> c ∈ P) as Hsub.
  { intros c Hc. rewrite Forall_forall in Hq. by destruct (Hq c Hc) as [->|]. }
  assert (conn pc' ∈ pending u' /\ forall c, c ∈ pending u -> c ∈ pending u') as [Hc' Hin'].
  { rewrite Hp. unfold park_spec. case_decide as Hd; [|split; [|intros c ?]; apply elem_of_app; by auto using list_elem_of_here].
    split; [|done]. destruct (decide (conn pc' ∈ pending u)) as [|Hni]; [done|]. destruct Hd as [|Hfull]; [done|].
    assert (length (conn pc' :: pending u) <= length P)%nat as Hlen.
    { apply submseteq_length, NoDup_submseteq; [by apply NoDup_cons|]. intros c [->|Hc]%elem_of_cons; auto. }
    simpl in Hlen. unfold zlen in *. lia. }
  split; [done| | |rewrite Hs; intros Hl; exfalso; apply Hpub; by right].
  - rewrite Forall_forall in Hq |- *. intros c Hc. rewrite Hp in Hc. unfold park_spec in Hc.
    case_decide; [by apply Hq|]. apply elem_of_app in Hc as [Hc| ->%list_elem_of_singleton]; [by apply Hq|by right].
  - intros j q Hj Hnq Hpq. destruct (decide (i = j)) as [<-|Hne].
    + rewrite list_lookup_insert_eq in Hj by by eapply lookup_lt_Some. by injection Hj as <-.
    + rewrite list_lookup_insert_ne in Hj by done. by apply Hin', (Hwt j).
Qed.

(** The effect of a tracked phone's write on the session and the slots. *)
Lemma toradio_effect_slots c data w w' t i pc :
  sys_ok w -> conns (w_ble w) !! i = Some pc -> conn pc = c -> c <> NULL ->
  on_toradio_effect data c i pc w w' t ->
  s_state (w_upstream w') = s_state (w_upstream w)
  /\ replaying_ok (s_state (w_upstream w)) (conns (w_ble w'))
  /\ others_kept (Some c) (conns (w_ble w)) (conns (w_ble w'))
  /\ phones_kept (w_upstream w) (w_upstream w') (conns (w_ble w)) (conns (w_ble w')).
Proof.
  intros Hw Hi Hpc Hn He. pose proof (so_replaying _ Hw) as Hrp. unfold on_toradio_effect in He.
  pose proof (so_world _ Hw) as (_ & Hu & _). change (up_wf (w_upstream w)) in Hu.
  destruct (classify_toradio data) eqn:Hcl.
  - destruct He as (a & _ & Hb & Hu2 & _). change (w_ble w' = w_ble w) in Hb.
    change (w_upstream w' = w_upstream w) in Hu2. rewrite Hb, Hu2.
    split_and!; [done|done|apply others_kept_refl|apply phones_kept_refl].
  - destruct He as (_ & _ & pc' & Hcs & Hc' & _ & _ & _ & _ & Hwc).
    change (conns (w_ble w') = <[i:=pc']> (conns (w_ble w))) in Hcs. rewrite Hcs.
    change (lget (Lens := lens_upstream) w) with (w_upstream w) in Hwc.
    change (lget (Lens := lens_upstream) w') with (w_upstream w') in Hwc.
    assert (others_kept (Some c) (conns (w_ble w)) (<[i:=pc']> (conns (w_ble w))))
      by (apply (others_kept_insert _ _ _ pc); [done|right; by rewrite Hpc]).
    case_decide as Hd.
    + destruct Hwc as (-> & Hp & _). split; [done|]. split; [by apply replaying_insert|]. split; [done|].
      apply phones_kept_same; try done. apply (waits_kept_insert _ _ pc); [done|]. by rewrite Hp.
    + destruct Hwc as (Hs2 & Hpd & Hp & _). split; [done|].
      split; [apply replaying_insert; [done|]; by rewrite Hp|]. split; [done|].
      rewrite <- Hc' in Hn, Hpd. by apply (park_kept _ _ _ _ pc).
  - destruct He as (_ & Hu2 & _ & p & _ & _ & Hcs & _). change (w_upstream w' = w_upstream w) in Hu2.
    change (conns (w_ble w') = <[i:=deliver p pc]> (conns (w_ble w))) in Hcs.
    rewrite Hu2, Hcs. destruct (deliver_same p pc) as (Hdc & Hds & _).
    split_and!; [done| |by apply others_kept_deliver|].
    + apply replaying_insert; [done|]. rewrite Hds. by apply (replaying_at _ _ _ _ Hrp Hi).
    + apply phones_kept_same; try done. apply (waits_kept_insert _ _ pc); [done|]. by rewrite Hdc, Hds.
  - destruct He as (a & _ & Hb & Hu2 & _). change (w_ble w' = w_ble w) in Hb.
    change (w_upstream w' = w_upstream w) in Hu2. rewrite Hb, Hu2.
    split_and!; [done|done|apply others_kept_refl|apply phones_kept_refl].
Qed.

Lemma toradio_effect_uart c data w w' t i pc :
  on_toradio_effect data c i pc w w' t -> rx_side_ok (w_uart w) ->
  rx_side_ok (w_uart w') /\ fromradio_cb_set (w_uart w') = fromradio_cb_set (w_uart w)
  /\ rx_sm (w_uart w') = rx_sm (w_uart w)
  /\ forall n, Forall (own_session n) (mq_contents (tx_msgq (w_uart w))) ->
       Forall (own_session n) (mq_contents (tx_msgq (w_uart w'))).
Proof.
  unfold on_toradio_effect. intros He Hrx. destruct (classify_toradio data) eqn:Hcl.
  - destruct He as (a & Hfw & _). eapply forwarded_kept; [exact Hfw|by rewrite Hcl|done].
  - destruct He as (Hu & _). change (w_uart w' = w_uart w) in Hu. by rewrite Hu.
  - destruct He as (Hu & _). change (w_uart w' = w_uart w) in Hu. by rewrite Hu.
  - destruct He as (a & Hfw & _). eapply forwarded_kept; [exact Hfw|by rewrite Hcl|done].
Qed.

Lemma toradio_sys c data w :
  sys_ok w -> c <> NULL ->
  exists w' t, on_toradio_ble c data w = Some (tt, w', t) /\ write_ok w c w'.
Proof.
  intros Hw Hc. pose proof Hw as [Ho Hrx Hfr Hrg Hrp Htx].
  destruct (find_slot c (w_ble w)) as [i|] eqn:Hf; [|by apply toradio_untracked_sys].
  destruct (find_slot_lookup _ _ _ Hf) as (pc & Hi & Hpc).
  destruct (toradio_effect c data w i pc Ho Hc Hf Hi)
    as (w' & t & E & Ho' & He & Hk & (Hn & Hs' & _) & Hh').
  change (w_cache w' = w_cache w) in Hk. change (s_nonce (w_upstream w') = s_nonce (w_upstream w)) in Hn.
  change (s_serve_cb (w_upstream w') = s_serve_cb (w_upstream w)) in Hs'.
  change (toradio_handler_set (w_ble w') = toradio_handler_set (w_ble w)) in Hh'.
  destruct (toradio_effect_slots c data w w' t i pc Hw Hi Hpc Hc He) as (R3 & R4 & R5 & R8).
  destruct (toradio_effect_uart c data w w' t i pc He Hrx) as (R1 & R2 & R6 & R7).
  assert (registered w' <-> registered w) as Hreg by (unfold registered; by rewrite Hs', R2, Hh').
  exists w', t. split; [done|]. split_and!.
  - split; rewrite ?Hk, ?R3, ?Hreg, ?Hn; try done. by apply R7.
  - intros Hl. by rewrite Hk, R3.
  - by split.
Qed.

Lemma step_write w c buf off :
  sys_ok w -> enabled w (EvWriteToRadio c buf off) -> step_ok w (EvWriteToRadio c buf off).
Proof.
  intros Hw (Hc & Hb & Ho). destruct (decide (off = 0)) as [->|Hoff].
  2: { apply (step_nothing w _ []); [done|]. unfold step, toradio_write. by rewrite decide_True. }
  unfold step_ok, step, toradio_write. rewrite decide_False by auto.
  set (w1 := mk_world (w_cache w) (w_uart w) (w_upstream w) ((w_ble w) <| led_toradio_active := 1 |>)).
  assert (sys_ok w1) as Hw1.
  { apply sys_ok_ble; try apply Hw; [|done]. pose proof (so_world _ Hw) as (Hbw & _). by destruct Hbw. }
  assert (live_kept (Some c) w w1) as Hl1 by apply live_kept_ble, others_kept_refl.
  assert (kept w w1) as Hk1 by (apply kept_ble; [done|apply waits_kept_refl]).
  destruct (toradio_sys c buf w1 Hw1 Hc) as (w' & t & E & Hw' & Hl & Hk).
  destruct (toradio_handler_set (w_ble w1)) eqn:Hh.
  - exists w'. eexists. split.
    + rewrite run_assoc, run_zoom_modify. change (lset _ w) with w1.
      rewrite run_assoc, run_zoom_gets. unfold id. change (lget w1) with (w_ble w1).
      rewrite Hh, run_assoc. erewrite run_bind by exact E. reflexivity.
    + split_and!; [done|eapply live_kept_trans; [exact Hl1|exact Hl]|by destruct Hk].
  - exists w1. eexists. split; [|by split_and!].
    rewrite run_assoc, run_zoom_modify. change (lset _ w) with w1.
    rewrite run_assoc, run_zoom_gets. unfold id. change (lget w1) with (w_ble w1).
    rewrite Hh. reflexivity.
Qed.

Lemma at_rest_kept w w' : at_rest w -> sys_ok w' -> kept w w' -> at_rest w'.
Proof. intros [_ Hst Hrx] Hw' [_ Hs _ _ _ Hm _ _]. by split; rewrite ?Hs, ?Hm. Qed.

(** Every event but a run of the receiver. *)
Lemma any_step w e : sys_ok w -> enabled w e -> e <> EvRxWork -> step_ok w e.
Proof.
  intros Hw He Hn. destruct e as [c err adv_err|c adv_err|c len off|c len off|c len off|c buf off
    |c buf off|evt| |err| | |].
  - by apply step_connected.
  - by apply step_disconnected.
  - by apply step_read.
  - by apply step_read_num.
  - by apply step_read_num.
  - by apply step_write.
  - by apply step_node_reg.
  - by apply step_uart.
  - done.
  - by apply step_tx_work.
  - by apply step_keepalive.
  - by apply step_leds.
  - by apply step_leds.
Qed.

Lemma every_step w e :
  at_rest w -> enabled w e ->
  exists w' t, step e w = Some (tt, w', t) /\ at_rest w' /\ live_kept (actor e) w w'.
Proof.
  intros Hr He.
  assert (e = EvRxWork \/ e <> EvRxWork) as [->|Hn] by (destruct e; auto); [by apply step_rx_work|].
  destruct (any_step w e (ar_sys _ Hr) He Hn) as (w' & t & E & Hw' & Hl & Hk).
  exists w', t. split; [done|]. split; [|done]. by apply (at_rest_kept w).
Qed.
End Steps.

(** ** Reachable worlds *)

Section Reachable.
Context `{NanopbOk, GattReadOk, !RingBuf RING_BUF_SIZE, !RingBufOk RING_BUF_SIZE}.
Context `{!MsgQ tx_entry TX_QUEUE_DEPTH, !MsgQOk tx_entry TX_QUEUE_DEPTH}.

Lemma want_config_nonce n p m :
  pb_decode_ToRadio p = Some (msg_want_config n) -> classify_toradio p = PfWantConfig m -> m = n.
Proof.
  intros E. unfold classify_toradio. rewrite E. simpl. rewrite decide_True by done. by intros [= <-].
Qed.

Lemma boot_sys env w t :
  fits 32 (be_rand env) -> main env world_boot = Some (None, w, t) -> at_rest w.
Proof.
  intros Hr E. assert (at_boot world_boot) as Hb by by split_and!.
  rewrite (main_eq env world_boot Hb) in E.
  destruct (boot_error env) as [e|]; [repeat case_decide; done|].
  destruct (boot_session world_boot (be_rand env) Hb Hr) as (w' & E' & Hok & _ & Hbl & Hu & Hx).
  rewrite E' in E. simpl in E. injection E as <- _.
  destruct Hx as (Hcb & Hsv & [Hrx _] & Hf & Hst & _ & p & Hq & Hp).
  change (w_ble w' = ble_boot <| toradio_handler_set := true |>) in Hbl.
  change (w_uart w' = uart_boot <| fromradio_cb_set := true |> <| tx_msgq := tx_msgq (w_uart w') |>)
    in Hu.
  split; [split|by left|exact Hrx].
  - done.
  - rewrite Hu. split; simpl; rewrite ?rb_empty_ok; by try by_eval.
  - change (frames_of (w_cache w') = []) in Hf. rewrite Hf. apply Forall_nil_2.
  - intros _. split_and!; [by rewrite Hbl|done|done].
  - rewrite Hbl. repeat (apply Forall_cons_2; [done|]). apply Forall_nil_2.
  - change (mq_contents (tx_msgq (w_uart w')) = [mk_tx_entry p (zlen p)]) in Hq. rewrite Hq.
    apply Forall_singleton. intros m. simpl. by apply want_config_nonce.
Qed.

Lemma reachable_rest w : reachable w -> at_rest w.
Proof.
  induction 1 as [env w t Hr E|w e w' t _ IH He E]; [by eapply boot_sys|].
  destruct (every_step w e IH He) as (w2 & t2 & E2 & Hw2 & _). rewrite E in E2. by simplify_eq.
Qed.

(** Between handlers a phone is replayed to only when the session is LIVE. *)
Lemma replaying_rest w i pc :
  at_rest w -> conns (w_ble w) !! i = Some pc -> pc_state pc = PHONE_REPLAYING ->
  s_state (w_upstream w) = UPSTREAM_LIVE.
Proof.
  intros [Hs Hst _] Hi Hp. destruct (replaying_at _ _ _ _ (so_replaying _ Hs) Hi Hp), Hst; congruence.
Qed.

(** *** Properties *)

(** No reachable world has undefined behaviour ahead of it.  After a
    successful boot, whatever connects, disconnects, reads, writes, arrives or
    runs, in whatever order, every enabled event runs to its end: no access
    leaves its array, no loop runs past its bound, and the invariants of all
    modules hold again afterwards. *)
Theorem system_safe w e :
  reachable w -> enabled w e ->
  exists w' t, step e w = Some (tt, w', t) /\ world_ok w' /\ reachable w'.
Proof.
  intros Hw He. destruct (every_step w e (reachable_rest w Hw) He) as (w' & t & E & Hw' & _).
  exists w', t. split; [done|]. split; [apply (ar_sys _ Hw')|]. by eapply reach_step.
Qed.

(** The node's config session is the proxy's alone.  In every reachable
    world, a message waiting for the UART that the node would read as
    want_config carries the nonce the proxy chose at boot; so no phone can
    restart the node's session, however many phones ask for the config. *)
Theorem node_session_is_own w e n :
  reachable w -> e ∈ mq_contents (tx_msgq (w_uart w)) ->
  classify_toradio (te_payload e) = PfWantConfig n -> n = s_nonce (w_upstream w).
Proof.
  intros Hw He. pose proof (so_tx _ (ar_sys _ (reachable_rest w Hw))) as Hq.
  rewrite Forall_forall in Hq. by apply Hq.
Qed.

(** A phone is replayed to only from a complete cache.  In every reachable
    world a phone in a replay finds the session LIVE and the cache published,
    and has its closing frame encoded for its own nonce; before that the
    cache is not served to anyone. *)
Theorem replay_needs_ready w i pc :
  reachable w -> conns (w_ble w) !! i = Some pc -> pc_state pc = PHONE_REPLAYING ->
  s_state (w_upstream w) = UPSTREAM_LIVE /\ cache_is_ready (w_cache w) = true
  /\ pb_decode_FromRadio (take (Z.to_nat (cc_len pc)) (cc_frame pc))
     = Some (msg_config_complete (pc_nonce pc)).
Proof.
  intros Hw Hi Hp. pose proof (ar_sys _ (reachable_rest w Hw)) as Hs.
  pose proof (so_world _ Hs) as (Hb & _ & _ & _ & Hr).
  pose proof (replaying_rest w i pc (reachable_rest w Hw) Hi Hp) as Hl. split; [done|]. split.
  - unfold ready_agrees in Hr. etrans; [exact Hr|]. apply bool_decide_eq_true_2. by right.
  - by apply (ble_wf_armed _ _ _ Hb Hi).
Qed.

End Reachable.

(** ** A replay among other events *)

Section Reads.
Context `{NanopbOk, GattReadOk, !RingBuf RING_BUF_SIZE, !RingBufOk RING_BUF_SIZE}.
Context `{!MsgQ tx_entry TX_QUEUE_DEPTH, !MsgQOk tx_entry TX_QUEUE_DEPTH}.
(** States [X] over a world, in which others take steps. *)
Context {X : Type} (wd : X -> world) (put_world : world -> X -> X).
Context (other : option bt_conn -> X -> X -> Prop).

(** What phone [c] sees: its reads of FROMRADIO, each fresh one logged with the
    length asked and the value got, and any steps of others in between. *)
Inductive reads (c : bt_conn) : X -> list (Z * list Z) -> X -> Prop :=
  | reads_nil x : reads c x [] x
  | reads_fresh x len v w1 t log x2 :
      0 <= len -> fromradio_read c len 0 (wd x) = Some (att_ok v, w1, t) ->
      reads c (put_world w1 x) log x2 -> reads c x ((len, v) :: log) x2
  | reads_more x len off r w1 t log x2 :
      0 <= len -> off <> 0 -> fromradio_read c len off (wd x) = Some (r, w1, t) ->
      reads c (put_world w1 x) log x2 -> reads c x log x2
  | reads_other x a x1 log x2 :
      a <> Some c -> other a x x1 -> reads c x1 log x2 -> reads c x log x2.

Lemma same_session_to_read (k : cache) pc pc' :
  same_session pc pc' -> to_read k pc' = to_read k pc.
Proof.
  intros (_ & _ & Hn & Hc & Hf & Hl & _). unfold to_read, remaining, test_of, closing.
  by rewrite Hn, Hc, Hf, Hl.
Qed.

Lemma sys_find w i pc :
  sys_ok w -> conns (w_ble w) !! i = Some pc -> conn pc <> NULL ->
  find_slot (conn pc) (w_ble w) = Some i.
Proof.
  intros Hw Hi Hn. pose proof (so_world _ Hw) as (Hb & _). by apply find_slot_unique; [apply Hb|..].
Qed.

(** The steps keep an invariant of the states, and with a LIVE session every
    other phone's session and the cache. *)
Context (Inv : X -> Prop).
Hypothesis Hsys : forall x, Inv x -> sys_ok (wd x).
Hypothesis Hput : forall w x, wd (put_world w x) = w.
Hypothesis Hread : forall x w', Inv x -> sys_ok w' -> kept (wd x) w' -> Inv (put_world w' x).
Hypothesis Hother : forall a x x', Inv x -> other a x x' -> Inv x' /\ live_kept a (wd x) (wd x').

Lemma reads_replay c x log x' i pc :
  reads c x log x' -> Inv x -> s_state (w_upstream (wd x)) = UPSTREAM_LIVE ->
  conns (w_ble (wd x)) !! i = Some pc -> conn pc = c -> c <> NULL -> pc_state pc = PHONE_REPLAYING ->
  forall k y full, log !! k = Some y -> (to_read (w_cache (wd x)) pc ++ [[]]) !! k = Some full ->
  y.2 = take (Z.to_nat y.1) full.
Proof.
  intros Hrd. revert pc. induction Hrd as [x|x len v w1 t log x2 Hlen E _ IH
    |x len off r w1 t log x2 Hlen Ho E _ IH|x a x1 log x2 Ha He _ IH];
    intros pc Hx Hlive Hi Hc Hn Hp k y full Hk Hfull; [done|..];
    pose proof (Hsys x Hx) as Hw;
    pose proof (sys_find _ i pc Hw Hi ltac:(by rewrite Hc)) as Hf; rewrite Hc in Hf;
    pose proof (sys_reader _ c i pc Hw Hf Hi) as Hr.
  - destruct (fresh_read _ c i pc len Hr Hlen) as (pc' & u & E' & Hr' & _ & Hsame & Hst).
    rewrite E in E'. injection E' as -> -> ->. rewrite decide_True in Hst by done.
    destruct Hst as [_ Hst]. change (lget (Lens := lens_cache) (wd x)) with (w_cache (wd x)) in Hst.
    destruct (to_read (w_cache (wd x)) pc) as [|u' us] eqn:Etr.
    + destruct k as [|k]; [|done]. injection Hk as <-. injection Hfull as <-.
      destruct Hst as [-> _]. done.
    + destruct Hst as (-> & Hus & Hp'). destruct k as [|k].
      { injection Hk as <-. by injection Hfull as <-. }
      destruct (read_sys _ c i pc len 0 Hw Hf Hi Hlen) as (r & w3 & t3 & E3 & Hw3 & _ & Hk3).
      rewrite E in E3. injection E3 as <- <- <-. pose proof (Hread x _ Hx Hw3 Hk3) as Hx3.
      apply (IH pc') with (k := k); rewrite ?Hput; try done.
      * exact (rd_slot _ _ _ _ Hr').
      * destruct Hsame as [-> _]. done.
      * change (w_cache (with_slot i pc' (wd x))) with (w_cache (wd x)). subst us. exact Hfull.
  - destruct (later_read_any _ c i pc len off Hr Ho) as (r' & E'). rewrite E in E'.
    injection E' as -> -> ->.
    destruct (read_sys _ c i pc len off Hw Hf Hi Hlen) as (r & w3 & t3 & E3 & Hw3 & _ & Hk3).
    rewrite E in E3. injection E3 as <- <- <-.
    apply (IH pc) with (k := k); rewrite ?Hput; try done. by apply Hread.
  - destruct (Hother a x x1 Hx He) as [Hx1 Hk1]. destruct (Hk1 Hlive) as (Hcc & Hl1 & Hok).
    destruct (Hok i pc Hi) as (pc' & Hi' & Hs); [by rewrite Hc|by rewrite Hc|].
    pose proof Hs as (Hc' & Hst' & _).
    apply (IH pc' Hx1 Hl1 Hi') with (k := k); try done; [congruence|congruence|].
    by rewrite Hcc, (same_session_to_read _ _ _ Hs).
Qed.

(** A replay that was just armed, from the start. *)
Lemma replay_from_start c x log x' i pc :
  reads c x log x' -> Inv x -> s_state (w_upstream (wd x)) = UPSTREAM_LIVE ->
  conns (w_ble (wd x)) !! i = Some pc -> conn pc = c -> c <> NULL -> pc_state pc = PHONE_REPLAYING ->
  replay_cursor pc = 0 ->
  exists cc, pb_decode_FromRadio cc = Some (msg_config_complete (pc_nonce pc))
    /\ forall k len v full, log !! k = Some (len, v) ->
       ((segment (pc_nonce pc) (frames_of (w_cache (wd x)))).*2 ++ [cc] ++ [[]]) !! k = Some full ->
       v = take (Z.to_nat len) full.
Proof.
  intros Hrd Hx Hlive Hi Hc Hn Hp Hcur. pose proof (so_world _ (Hsys x Hx)) as (Hb & _ & Hcw & _).
  exists (closing pc). split; [apply (ble_wf_armed _ _ _ Hb Hi Hp)|].
  intros k len v full Hk Hfull.
  apply (reads_replay c x log x' i pc Hrd Hx Hlive Hi Hc Hn Hp k (len, v) full Hk).
  by rewrite to_read_start, <- app_assoc.
Qed.
End Reads.

Section Isolation.
Context `{NanopbOk, GattReadOk, !RingBuf RING_BUF_SIZE, !RingBufOk RING_BUF_SIZE}.
Context `{!MsgQ tx_entry TX_QUEUE_DEPTH, !MsgQOk tx_entry TX_QUEUE_DEPTH}.

(** Events, run to their end. *)
Definition event_of (a : option bt_conn) (w w' : world) : Prop :=
  exists e t, enabled w e /\ actor e = a /\ step e w = Some (tt, w', t).

(** A phone's replay is its own.  In a reachable world take a phone whose
    replay has just been armed, and let it read FROMRADIO while anything else
    happens in between: other phones connect, ask, read and go, frames arrive
    and are broadcast, to this phone too.  Its successive fresh reads still
    return exactly the cached frames of its own segment in burst order, then
    the config_complete with its own nonce, then the empty value, each cut
    only to the length it asked for. *)
Theorem replay_isolated w c i pc log w' :
  reachable w -> conns (w_ble w) !! i = Some pc -> conn pc = c -> c <> NULL ->
  pc_state pc = PHONE_REPLAYING -> replay_cursor pc = 0 ->
  reads id (fun w _ => w) event_of c w log w' ->
  exists cc, pb_decode_FromRadio cc = Some (msg_config_complete (pc_nonce pc))
    /\ forall k len v full, log !! k = Some (len, v) ->
       ((segment (pc_nonce pc) (frames_of (w_cache w))).*2 ++ [cc] ++ [[]]) !! k = Some full ->
       v = take (Z.to_nat len) full.
Proof.
  intros Hw Hi Hc Hn Hp Hcur Hrd. pose proof (reachable_rest w Hw) as Hr.
  apply (replay_from_start id (fun w _ => w) event_of at_rest) with (c := c) (log := log) (x' := w') (i := i); try done.
  - by intros x [].
  - intros x w1 Hx Hw1 Hk. by apply (at_rest_kept x).
  - intros a x x1 Hx (e & t & He & <- & E). destruct (every_step x e Hx He) as (x2 & t2 & E2 & Hx2 & Hl).
    rewrite E in E2. by injection E2 as <- <-.
  - by apply (replaying_rest w i pc).
Qed.
End Isolation.

(** ** The properties at concrete inputs *)

Module Demo.
#[local] Existing Instances demo_nanopb demo_nanopb_ok list_ring list_ring_ok list_msgq
  list_msgq_ok list_gatt_read list_gatt_read_ok.

(** The proxy boots with nonce 2. *)
Definition w0 : world := default world_boot (run_boot Main.Demo.env_ok).

Lemma w0_run : run_boot Main.Demo.env_ok = Some w0.
Proof. vm_compute. reflexivity. Qed.
Lemma w0_reachable : reachable w0.
Proof. apply (run_boot_reachable Main.Demo.env_ok); [by_eval|exact w0_run]. Qed.

(** Phone 11 asks for the config before it is there; then the node sends two
    frames and the terminator. *)
Definition burst : list Z := frame_of [3; 1; 2] ++ frame_of [4; 8] ++ frame_of (7 :: le32 2).
Definition evs_live : list event :=
  [EvConnected 11 0 rc_ok; EvWriteToRadio 11 (3 :: le32 69420) 0;
   EvUart (UART_RX_RDY burst); EvRxWork].
Definition w_live : world := default world_boot (run_events evs_live w0).

Lemma w_live_run : run_events evs_live w0 = Some w_live.
Proof. vm_compute. reflexivity. Qed.
Lemma w_live_reachable : reachable w_live.
Proof. apply (run_events_reachable evs_live w0); [exact w0_reachable|exact w_live_run]. Qed.

Definition slot11 : proxy_conn := default conn_boot (conns (w_ble w_live) !! 0%nat).
Lemma slot11_at : conns (w_ble w_live) !! 0%nat = Some slot11.
Proof. vm_compute. reflexivity. Qed.
Lemma slot11_state : conn slot11 = 11 /\ pc_state slot11 = PHONE_REPLAYING
  /\ replay_cursor slot11 = 0 /\ pc_nonce slot11 = 69420.
Proof. vm_compute. by split_and!. Qed.

Lemma system_safe_witness :
  exists w' t, step (EvDisconnected 11 rc_ok) w_live = Some (tt, w', t) /\ reachable w'.
Proof.
  destruct (system_safe w_live (EvDisconnected 11 rc_ok) w_live_reachable ltac:(done))
    as (w' & t & E & _ & Hr).
  exists w', t. split; [exact E|exact Hr].
Defined.

Lemma node_session_is_own_witness : 2 = s_nonce (w_upstream w0).
Proof.
  apply (node_session_is_own w0 (mk_tx_entry (3 :: le32 2) 5) 2 w0_reachable).
  - assert (mq_contents (tx_msgq (w_uart w0)) = [mk_tx_entry (3 :: le32 2) 5]) as ->
      by (vm_compute; reflexivity). apply list_elem_of_singleton. reflexivity.
  - vm_compute. reflexivity.
Defined.

Lemma replay_needs_ready_witness : s_state (w_upstream w_live) = UPSTREAM_LIVE.
Proof.
  destruct (replay_needs_ready w_live 0 slot11 w_live_reachable slot11_at) as (Hl & _);
    [apply slot11_state|exact Hl].
Defined.

(** Its first read, and the world after it. *)
Definition w_read : world :=
  match fromradio_read 11 512 0 w_live with Some (_, w, _) => w | None => w_live end.
Lemma first_read :
  fromradio_read 11 512 0 w_live = Some (att_ok [3; 1; 2], w_read, [IoLock 0; IoUnlock 0]).
Proof. vm_compute. reflexivity. Qed.

Lemma replay_isolated_witness :
  exists cc, pb_decode_FromRadio cc = Some (msg_config_complete 69420)
    /\ forall full,
       ((segment 69420 (frames_of (w_cache w_live))).*2 ++ [cc] ++ [[]]) !! 0%nat = Some full ->
       [3; 1; 2] = take 512 full.
Proof.
  destruct slot11_state as (Hc & Hp & Hcur & Hn).
  destruct (replay_isolated w_live 11 0 slot11 [(512, [3; 1; 2])] w_read w_live_reachable slot11_at
              Hc ltac:(done) Hp Hcur) as (cc & Hd & Hl).
  { eapply (reads_fresh id); [done|exact first_read|apply reads_nil]. }
  exists cc. rewrite Hn in Hd, Hl. split; [exact Hd|]. intros full Hf.
  exact (Hl 0%nat 512 [3; 1; 2] full eq_refl Hf).
Defined.
End Demo.
