(* ===== verification/Calls.v ===== *)
(** * Calls: which calls of the kernel each module makes

    [ble_call] are the calls of the functions of ble_gatt.c and [uart_call]
    those of uart_meshtastic.c once reception runs; the other modules make
    their own directly. *)

From stdpp Require Import prelude.
From S2P Require Import Prelude ProxyProtocol Nanopb ConfigCache Zephyr UartMeshtastic.
From S2P Require Import ProtoHandler UpstreamSession BleGatt.

Local Open Scope Z_scope.

Lemma emits_mono {S A} (P Q : io -> Prop) (m : M S A) : emits P m -> (forall e, P e -> Q e) -> emits Q m.
Proof. intros Hm HPQ s a s' t E. eapply Forall_impl; [by eapply Hm|exact HPQ]. Qed.

(** Follows the shape of the code. *)
Ltac calls_step :=
  match goal with
  | |- emits _ (bind _ _) => apply emits_bind; [|intros ?]
  | |- emits _ (zoom _) => apply emits_zoom
  | |- emits _ (emit _) => apply emits_emit; unfold led_blink_tick; repeat case_match; exact I
  | |- emits _ (match ?x with _ => _ end) => destruct x
  | |- emits _ _ => solve [eauto with emits]
  end.
Ltac calls := repeat calls_step.

Definition ble_call (e : io) : Prop :=
  match e with
  | IoMutexInit _ | IoLock _ | IoUnlock _ | IoConnRef _ | IoConnUnref _ | IoDisconnect _ | IoAdvStart
  | IoNotify _ _ | IoBlink _ _ | IoGpioConfigure _ | IoGpioToggle _ | IoGpioSet _ _ => True
  | _ => False
  end.

Section Ble.
Context `{Nanopb, GattRead}.
#[local] Abbreviation ble_calls := (emits ble_call).

Lemma calls_get_slot P i : emits P (get_slot i).
Proof. unfold get_slot. calls. Qed.
Lemma calls_upd_slot P i f : emits P (upd_slot i f).
Proof. unfold upd_slot. calls. Qed.
#[local] Hint Resolve calls_get_slot calls_upd_slot : emits.
Lemma calls_stage_queue P i : emits P (stage_queue i).
Proof. unfold stage_queue. calls. Qed.
Lemma calls_register P c id : emits P (ble_gatt_register_proxy_id c id).
Proof. unfold ble_gatt_register_proxy_id. calls. Qed.

Lemma calls_enqueue c data : ble_calls (ble_gatt_enqueue_fromradio c data).
Proof. unfold ble_gatt_enqueue_fromradio. calls. Qed.
Lemma calls_replay c n : ble_calls (ble_gatt_replay_cached_burst c n).
Proof. unfold ble_gatt_replay_cached_burst. calls. Qed.
Lemma calls_advertising err : ble_calls (ble_gatt_start_advertising err).
Proof. unfold ble_gatt_start_advertising. calls. Qed.
#[local] Hint Resolve calls_enqueue calls_replay calls_advertising : emits.
Lemma calls_broadcast_from l data sent : ble_calls (broadcast_from l data sent).
Proof. revert sent. induction l; intros sent; simpl; calls. Qed.
Lemma calls_queuestatus c : ble_calls (ble_gatt_reply_queuestatus c).
Proof. unfold ble_gatt_reply_queuestatus. calls. Qed.
Lemma calls_broadcast data : ble_calls (ble_gatt_broadcast_fromradio data).
Proof. apply calls_broadcast_from. Qed.
Lemma calls_connected c err adv_err : ble_calls (on_connected c err adv_err).
Proof. unfold on_connected, alloc_slot. calls. Qed.
Lemma calls_disconnected c adv_err : ble_calls (on_disconnected c adv_err).
Proof. unfold on_disconnected, free_slot. calls. Qed.
Lemma calls_ble_leds : ble_calls ble_led_blink_work.
Proof. unfold ble_led_blink_work. calls. Qed.
End Ble.

#[export] Hint Resolve calls_get_slot calls_upd_slot calls_stage_queue calls_register : emits.

(** A function of ble_gatt.c makes only calls that satisfy [P]. *)
Ltac ble_calls := apply (emits_mono ble_call); [|by intros []];
  first [apply calls_enqueue | apply calls_replay | apply calls_advertising | apply calls_broadcast
        | apply calls_queuestatus | apply calls_connected | apply calls_disconnected | apply calls_ble_leds].
#[export] Hint Extern 3 (emits _ _) => ble_calls : emits.
