(* ===== verification/UartDma.v ===== *)
(** * UartDma: the memory the UART driver fills

    [UART_RX_RDY] names a range of one of the two buffers of [dma_buf], which
    the hardware writes while the program runs.  Here the buffers are memory
    that the driver and the program share.  The program hands the driver only
    buffers the driver does not hold, so nothing is overwritten before it was
    reported, and the bytes that [uart_cb] puts into the ring are exactly the
    bytes of the line. *)

From stdpp Require Import prelude.
From S2P Require Import Prelude Tracks ProxyProtocol Nanopb ConfigCache Zephyr UartMeshtastic.
From S2P Require Import ProtoHandler RouteTrace UpstreamSession BleGatt BleReplay Router World Main System Calls.

Local Open Scope Z_scope.

(** ** The driver (zephyr/drivers/uart.h, asynchronous API)

    Events as the driver reports them: received data is a range of a buffer. *)
Inductive dma_event :=
  | DmaRxRdy (buf offset len : Z)
  | DmaEvent (e : uart_event).

(** A buffer being filled: how much is in it and how much was reported. *)
Record filling := mk_filling { fl_buf : Z; fl_pos : Z; fl_told : Z }.
#[export] Instance eta_filling : Eta filling := fun f => mk_filling (fl_buf f) (fl_pos f) (fl_told f).

(** The buffers the driver holds: the one it fills and the one it goes on with. *)
Record rx_view := mk_view { rv_cur : option filling; rv_next : option Z }.

(** What the driver may do: bytes of the line go to the buffer that is filled;
    what was not reported yet is reported; a next buffer is asked for when
    there is none; a full buffer that was reported is released and the next one
    filled; reception may stop, and ends when all is reported. *)
Inductive may_raise (mem : list (list Z)) :
    rx_view -> option dma_event -> list Z -> list (list Z) -> rx_view -> Prop :=
  | mr_byte f n buf b :
      mem_get mem (fl_buf f) = Some buf -> fl_pos f < zlen buf -> fits 8 b ->
      may_raise mem (mk_view (Some f) n) None [b]
        (<[Z.to_nat (fl_buf f) := <[Z.to_nat (fl_pos f) := b]> buf]> mem)
        (mk_view (Some (f <| fl_pos := fl_pos f + 1 |>)) n)
  | mr_ready f n :
      fl_told f < fl_pos f ->
      may_raise mem (mk_view (Some f) n) (Some (DmaRxRdy (fl_buf f) (fl_told f) (fl_pos f - fl_told f))) []
        mem (mk_view (Some (f <| fl_told := fl_pos f |>)) n)
  | mr_request f :
      may_raise mem (mk_view (Some f) None) (Some (DmaEvent UART_RX_BUF_REQUEST)) []
        mem (mk_view (Some f) None)
  | mr_switch f n buf :
      mem_get mem (fl_buf f) = Some buf -> fl_pos f = zlen buf -> fl_told f = fl_pos f ->
      may_raise mem (mk_view (Some f) (Some n)) (Some (DmaEvent UART_RX_BUF_RELEASED)) []
        mem (mk_view (Some (mk_filling n 0 0)) None)
  | mr_stopped f n :
      may_raise mem (mk_view (Some f) n) (Some (DmaEvent UART_RX_STOPPED)) [] mem (mk_view (Some f) n)
  | mr_released v :
      may_raise mem v (Some (DmaEvent UART_RX_BUF_RELEASED)) [] mem v
  | mr_disabled f n :
      fl_told f = fl_pos f ->
      may_raise mem (mk_view (Some f) n) (Some (DmaEvent UART_RX_DISABLED)) [] mem (mk_view None None)
  | mr_tx v e :
      e = UART_TX_DONE \/ e = UART_TX_ABORTED ->
      may_raise mem v (Some (DmaEvent e)) [] mem v.

(** A call of the program, answered [err]: [None] if it hands over a buffer the
    driver holds or one that is not there, or starts a reception that runs. *)
Definition view_call (mem : list (list Z)) (err : rc) (e : io) (v : rx_view) : option rx_view :=
  match e with
  | IoUartRxBufRsp n len =>
      buf ← mem_get mem n;
      match v with
      | mk_view (Some f) None =>
          if decide (fl_buf f <> n /\ len = zlen buf) then Some (mk_view (Some f) (Some n)) else None
      | _ => None
      end
  | IoUartRxEnable n len _ =>
      buf ← mem_get mem n;
      match v with
      | mk_view None None =>
          if decide (len = zlen buf) then
            Some (if decide (err = rc_ok) then mk_view (Some (mk_filling n 0 0)) None else v)
          else None
      | _ => None
      end
  | _ => Some v
  end.
Fixpoint view_calls (mem : list (list Z)) (err : rc) (t : list io) (v : rx_view) : option rx_view :=
  match t with
  | [] => Some v
  | e :: t => v' ← view_call mem err e v; view_calls mem err t v'
  end.

(** The driver, and what the program relies on. *)
Class DmaDriver := {
  dma : Type;
  dma_raises : list (list Z) -> dma -> option dma_event -> list Z -> list (list Z) -> dma -> Prop;
  dma_calls : list (list Z) -> rc -> list io -> dma -> dma;
}.
Class DmaDriverOk `{DmaDriver} := {
  dma_view : dma -> rx_view;
  dma_raises_ok mem d e bs mem' d' :
    dma_raises mem d e bs mem' d' -> may_raise mem (dma_view d) e bs mem' (dma_view d');
  dma_calls_ok mem err t d v :
    view_calls mem err t (dma_view d) = Some v -> dma_view (dma_calls mem err t d) = v;
}.

(** ** The callback on memory *)

Definition dma_buf_boot : list (list Z) := replicate 2 (replicate (Z.to_nat UART_DMA_BUF_SIZE) 0).

(** [uart_cb] reads [evt->data.rx.len] bytes from [evt->data.rx.buf + offset]. *)
Definition event_of (mem : list (list Z)) (e : dma_event) : option uart_event :=
  match e with
  | DmaRxRdy k offset len =>
      buf ← mem_get mem k; data ← mem_read buf offset len; Some (UART_RX_RDY data)
  | DmaEvent e => Some e
  end.

Section Dma.
Context `{NanopbOk, GattReadOk, !RingBuf RING_BUF_SIZE, !RingBufOk RING_BUF_SIZE}.
Context `{!MsgQ tx_entry TX_QUEUE_DEPTH, !MsgQOk tx_entry TX_QUEUE_DEPTH, DmaDriverOk}.
Implicit Types (mem : list (list Z)) (d : dma) (v : rx_view) (w : world).

(** The driver fills buffers. *)
Inductive fills : list (list Z) -> dma -> list Z -> list (list Z) -> dma -> Prop :=
  | fills_nil mem d : fills mem d [] mem d
  | fills_cons mem d bs mem1 d1 bs' mem2 d2 :
      dma_raises mem d None bs mem1 d1 -> fills mem1 d1 bs' mem2 d2 ->
      fills mem d (bs ++ bs') mem2 d2.

(** The events of reception. *)
Definition rx_side (e : event) : bool :=
  match e with
  | EvUart (UART_TX_DONE | UART_TX_ABORTED) => false
  | EvUart _ => true
  | _ => false
  end.

(** A boot and what follows: the bytes of the line, the events, the program and
    the driver.  The driver may go on filling until the callback reads. *)
Inductive dma_run (env : boot_env) : list Z -> list event -> world -> list (list Z) -> dma -> Prop :=
  | dr_boot w t d :
      fits 32 (be_rand env) -> main env world_boot = Some (None, w, t) ->
      dma_view d = mk_view None None ->
      dma_run env [] [] w dma_buf_boot (dma_calls dma_buf_boot rc_ok t d)
  | dr_fills line es w mem d bs mem' d' :
      dma_run env line es w mem d -> fills mem d bs mem' d' -> dma_run env (line ++ bs) es w mem' d'
  | dr_event line es w mem d ev bs mem1 d1 bs' mem2 d2 e w' t err :
      dma_run env line es w mem d ->
      dma_raises mem d (Some ev) bs mem1 d1 -> fills mem1 d1 bs' mem2 d2 ->
      event_of mem2 ev = Some e -> step (EvUart e) w = Some (tt, w', t) ->
      dma_run env (line ++ bs ++ bs') (es ++ [EvUart e]) w' mem2 (dma_calls mem2 err t d2)
  | dr_other line es w mem d e w' t :
      dma_run env line es w mem d -> rx_side e = false -> enabled w e ->
      step e w = Some (tt, w', t) -> dma_run env line (es ++ [e]) w' mem d.

(** The bytes reported. *)
Definition data_of (e : event) : list Z :=
  match e with EvUart (UART_RX_RDY data) => data | _ => [] end.
Definition reported (es : list event) : list Z := mjoin (data_of <$> es).

(** What of the driver's buffer is written, and what of that was not reported
    yet. *)
Definition written mem (f : filling) : list Z :=
  take (Z.to_nat (fl_pos f)) (default [] (mem_get mem (fl_buf f))).
Definition unreported mem v : list Z :=
  match rv_cur v with Some f => drop (Z.to_nat (fl_told f)) (written mem f) | None => [] end.

(** ** Invariant *)

Definition bufs_ok mem : Prop :=
  length mem = 2%nat /\ Forall (fun buf => zlen buf = UART_DMA_BUF_SIZE /\ bytes_ok buf) mem.

(** [n] of [f]'s buffer are reported, and the program's index is the buffer
    given last. *)
Record view_ok mem (a : Z) v : Prop := {
  vo_bufs : bufs_ok mem;
  vo_cur : match v with
    | mk_view None n => n = None
    | mk_view (Some f) n =>
        (0 <= fl_told f <= fl_pos f) /\ fl_pos f <= UART_DMA_BUF_SIZE /\ 0 <= fl_buf f < 2 /\ 0 <= a < 2
        /\ match n with None => a = fl_buf f | Some n => n = a /\ a <> fl_buf f end
    end;
}.

Lemma bufs_get mem k : bufs_ok mem -> 0 <= k < 2 ->
  exists buf, mem_get mem k = Some buf /\ zlen buf = UART_DMA_BUF_SIZE /\ bytes_ok buf.
Proof.
  intros [Hl Hb] Hk. destruct (mem_get_Some mem k) as (buf & E & E'); [unfold zlen; lia|].
  exists buf. split; [done|]. exact (Forall_lookup_1 _ _ _ _ Hb E').
Qed.

(** Filling goes on at the end of what is written. *)
Definition filled mem v bs mem' v' : Prop :=
  match v with
  | mk_view None _ => bs = [] /\ mem' = mem /\ v' = v
  | mk_view (Some f) n => exists f', v' = mk_view (Some f') n /\ fl_buf f' = fl_buf f
      /\ fl_told f' = fl_told f /\ written mem' f' = written mem f ++ bs
  end.

Lemma byte_filled mem a f n buf b :
  view_ok mem a (mk_view (Some f) n) -> mem_get mem (fl_buf f) = Some buf -> fl_pos f < zlen buf -> fits 8 b ->
  let mem' := <[Z.to_nat (fl_buf f) := <[Z.to_nat (fl_pos f) := b]> buf]> mem in
  let v' := mk_view (Some (f <| fl_pos := fl_pos f + 1 |>)) n in
  view_ok mem' a v' /\ filled mem (mk_view (Some f) n) [b] mem' v'.
Proof.
  intros [[Hl Hb] (Ht & Hp & Hf & Ha & Hn)] Hg Hlt Hfit. cbv zeta.
  pose proof (mem_get_inv _ _ _ Hg) as Hi. unfold mem_get in Hg. rewrite decide_True in Hg by lia.
  pose proof (Forall_lookup_1 _ _ _ _ Hb Hg) as [Hz Hok]. split.
  - split; simpl.
    + split; [by rewrite length_insert|]. apply Forall_insert; [done|]. split; [by rewrite zlen_insert|].
      by apply Forall_insert.
    + split_and!; try done; lia.
  - eexists. split; [done|]. split; [done|]. split; [done|]. unfold written, mem_get. simpl.
    rewrite !decide_True by lia. rewrite Hg, list_lookup_insert_eq by by eapply lookup_lt_Some. simpl.
    unfold zlen in *. replace (Z.to_nat (fl_pos f + 1)) with (S (Z.to_nat (fl_pos f))) by lia.
    rewrite (take_S_r _ _ b), take_insert_ge; [done|lia|]. apply list_lookup_insert_eq. lia.
Qed.

Lemma filled_trans mem v bs mem1 v1 bs' mem2 v2 :
  filled mem v bs mem1 v1 -> filled mem1 v1 bs' mem2 v2 -> filled mem v (bs ++ bs') mem2 v2.
Proof.
  destruct v as [[f|] n]; simpl; [|by intros (-> & -> & ->)].
  intros (f1 & -> & Eb & Et & Ew) (f2 & -> & Eb2 & Et2 & Ew2). exists f2.
  split; [done|]. split; [congruence|]. split; [congruence|]. by rewrite Ew2, Ew, app_assoc.
Qed.

Lemma fills_filled mem d bs mem' d' a :
  fills mem d bs mem' d' -> view_ok mem a (dma_view d) ->
  view_ok mem' a (dma_view d') /\ filled mem (dma_view d) bs mem' (dma_view d').
Proof.
  induction 1 as [mem d|mem d bs mem1 d1 bs' mem2 d2 Hr _ IH]; intros Hv.
  - split; [done|]. destruct (dma_view d) as [[f|] n]; simpl; [|done]. exists f. by rewrite app_nil_r.
  - apply dma_raises_ok in Hr. inversion Hr as [f n buf b Hg Hlt Hfit Ev| | | | | | |]; subst.
    rewrite <- Ev in Hv. destruct (byte_filled _ _ _ _ _ _ Hv Hg Hlt Hfit) as [Hv1 Hf1].
    match goal with E : _ = dma_view d1 |- _ => rewrite <- E in IH end.
    destruct (IH Hv1) as [Hv2 Hf2]. split; [done|]. by eapply filled_trans.
Qed.

Lemma written_len mem a f n : view_ok mem a (mk_view (Some f) n) -> zlen (written mem f) = fl_pos f.
Proof.
  intros [Hb (Ht & Hp & Hf & _)]. destruct (bufs_get mem (fl_buf f) Hb Hf) as (buf & E & Hz & _).
  unfold written. rewrite E. simpl. apply zlen_take. lia.
Qed.

Lemma filled_unreported mem v bs mem' v' a :
  view_ok mem a v -> filled mem v bs mem' v' -> unreported mem' v' = unreported mem v ++ bs.
Proof.
  intros Hv. destruct v as [[f|] n]; [|by intros (-> & -> & ->)]. intros (f' & -> & _ & Et & Ew).
  unfold unreported. simpl. rewrite Ew, Et. apply drop_app_le.
  pose proof (written_len _ _ _ _ Hv) as Hl. unfold zlen in Hl. pose proof (vo_cur _ _ _ Hv) as Hc. simpl in Hc. lia.
Qed.

(** The callback reads what was written when the event was raised. *)
Lemma ready_read mem a f n bs mem' f' n' :
  view_ok mem a (mk_view (Some f) n) -> view_ok mem' a (mk_view (Some f') n') ->
  fl_buf f' = fl_buf f -> written mem' f' = written mem f ++ bs ->
  event_of mem' (DmaRxRdy (fl_buf f) (fl_told f) (fl_pos f - fl_told f))
  = Some (UART_RX_RDY (drop (Z.to_nat (fl_told f)) (written mem f))).
Proof.
  intros Hv Hv' Eb Ew. pose proof (written_len _ _ _ _ Hv) as Hl. pose proof (written_len _ _ _ _ Hv') as Hl'.
  rewrite Ew, zlen_app in Hl'. pose proof (zlen_nonneg bs) as Hbs.
  destruct Hv as [_ (Ht & Hp & Hf & _)]. destruct Hv' as [Hb' (_ & Hp' & _)].
  destruct (bufs_get mem' (fl_buf f) Hb' Hf) as (buf & E & Hz & _). unfold event_of. rewrite E. simpl.
  rewrite mem_read_ok by lia. simpl. do 2 f_equal. unfold written in Ew at 1. rewrite Eb, E in Ew. simpl in Ew.
  rewrite take_drop_commute. replace (Z.to_nat (fl_told f) + _)%nat with (Z.to_nat (fl_pos f)) by lia.
  f_equal. transitivity (take (Z.to_nat (fl_pos f)) (take (Z.to_nat (fl_pos f')) buf)).
  - rewrite take_take. f_equal. lia.
  - rewrite Ew. apply take_app_length'. unfold zlen in Hl. lia.
Qed.

Lemma bytes_written mem a v : view_ok mem a v -> bytes_ok (unreported mem v).
Proof.
  intros [Hb Hc]. destruct v as [[f|] n]; [|apply Forall_nil_2]. destruct Hc as (_ & _ & Hf & _).
  destruct (bufs_get mem (fl_buf f) Hb Hf) as (buf & E & _ & Hok). unfold unreported, written. simpl.
  rewrite E. by apply Forall_drop, Forall_take.
Qed.

(** ** The callback *)

Lemma cb_ready data u : exists u', uart_cb (UART_RX_RDY data) u = Some (tt, u', [IoSubmitRx])
  /\ active_buf u' = active_buf u.
Proof. by eexists. Qed.
Lemma cb_request u : exists u', uart_cb UART_RX_BUF_REQUEST u
    = Some (tt, u', [IoUartRxBufRsp (Z.lxor (active_buf u) 1) UART_DMA_BUF_SIZE])
  /\ active_buf u' = Z.lxor (active_buf u) 1.
Proof. by eexists. Qed.
Lemma cb_disabled u : exists u', uart_cb UART_RX_DISABLED u
    = Some (tt, u', [IoUartRxEnable 0 UART_DMA_BUF_SIZE UART_RX_TIMEOUT_US])
  /\ active_buf u' = 0.
Proof. by eexists. Qed.
Lemma cb_other e u :
  e = UART_RX_BUF_RELEASED \/ e = UART_RX_STOPPED \/ e = UART_TX_DONE \/ e = UART_TX_ABORTED ->
  exists u' t, uart_cb e u = Some (tt, u', t) /\ active_buf u' = active_buf u /\ (t = [] \/ t = [IoSubmitTx]).
Proof. intros [->|[->|[->| ->]]]; eexists _, _; (split; [reflexivity|split; [done|by eauto]]). Qed.

(** [mem2] and [v2]: what the driver has done when the callback reads. *)
Definition callback_ok mem v mem2 v2 bs (ev : dma_event) (u : uart) : Prop :=
  exists e u' t, event_of mem2 ev = Some e /\ bytes_ok (data_of (EvUart e)) /\ uart_cb e u = Some (tt, u', t)
    /\ forall err, exists v', view_calls mem2 err t v2 = Some v' /\ view_ok mem2 (active_buf u') v'
       /\ unreported mem v ++ bs = data_of (EvUart e) ++ unreported mem2 v'.

Lemma callback_quiet mem v bs mem2 v2 e u :
  (e = UART_RX_BUF_RELEASED \/ e = UART_RX_STOPPED \/ e = UART_TX_DONE \/ e = UART_TX_ABORTED) ->
  view_ok mem2 (active_buf u) v2 -> unreported mem2 v2 = unreported mem v ++ bs ->
  callback_ok mem v mem2 v2 bs (DmaEvent e) u.
Proof.
  intros He Hv2 Hun. destruct (cb_other e u He) as (u' & t & E & Ea & Ht). exists e, u', t.
  assert (data_of (EvUart e) = []) as Hd by (by destruct He as [->|[->|[->| ->]]]).
  rewrite Hd. split; [done|]. split; [apply Forall_nil_2|]. split; [done|]. intros err. exists v2.
  rewrite Ea. split; [by destruct Ht as [-> | ->]|]. split; [done|]. by rewrite Hun.
Qed.

Lemma callback_request mem f bs mem2 v2 u :
  view_ok mem (active_buf u) (mk_view (Some f) None) -> view_ok mem2 (active_buf u) v2 ->
  filled mem (mk_view (Some f) None) bs mem2 v2 ->
  callback_ok mem (mk_view (Some f) None) mem2 v2 bs (DmaEvent UART_RX_BUF_REQUEST) u.
Proof.
  intros Hv Hv2 Hf. pose proof (filled_unreported _ _ _ _ _ _ Hv Hf) as Hun.
  destruct Hf as (f' & -> & Eb & _). destruct Hv2 as [Hb (Ht & Hp & Hfb & Ha & Hn)].
  destruct (cb_request u) as (u' & E & Ea). eexists _, u', _. split; [reflexivity|].
  split; [apply Forall_nil_2|]. split; [exact E|]. intros err.
  assert (0 <= Z.lxor (active_buf u) 1 < 2 /\ fl_buf f' <> Z.lxor (active_buf u) 1) as [Hx Hne].
  { rewrite <- Hn. assert (active_buf u = 0 \/ active_buf u = 1) as [->| ->] by lia; by_eval. }
  destruct (bufs_get mem2 _ Hb Hx) as (buf & Eg & Hz & _). simpl. rewrite Eg. simpl.
  rewrite decide_True by (split; [done|by rewrite Hz]). eexists. split; [reflexivity|].
  rewrite Ea. split; [|by rewrite <- Hun].
  split; [done|]. split_and!; try done; lia.
Qed.

Lemma callback_ready mem f n mem2 f2 bs u :
  view_ok mem (active_buf u) (mk_view (Some f) n) -> view_ok mem2 (active_buf u) (mk_view (Some f2) n) ->
  fl_buf f2 = fl_buf f -> fl_told f2 = fl_pos f -> written mem2 f2 = written mem f ++ bs ->
  callback_ok mem (mk_view (Some f) n) mem2 (mk_view (Some f2) n) bs
    (DmaRxRdy (fl_buf f) (fl_told f) (fl_pos f - fl_told f)) u.
Proof.
  intros Hv Hv2 Eb Et Ew. pose proof (ready_read _ _ _ _ _ _ _ _ Hv Hv2 Eb Ew) as E.
  pose proof (written_len _ _ _ _ Hv) as Hl. pose proof (bytes_written _ _ _ Hv) as Hok.
  pose proof (vo_cur _ _ _ Hv) as (Ht & _).
  unfold unreported in Hok. simpl in Hok. set (data := drop _ _) in *.
  destruct (cb_ready data u) as (u' & Eu & Ea). exists (UART_RX_RDY data), u', [IoSubmitRx].
  split; [exact E|]. split; [exact Hok|]. split; [exact Eu|]. intros err.
  exists (mk_view (Some f2) n). rewrite Ea. split; [done|]. split; [done|].
  unfold unreported. simpl. rewrite Ew, Et. fold data.
  rewrite drop_app_length'; [done|unfold zlen in Hl; lia].
Qed.

Lemma callback_disabled mem f n mem2 v2 bs u :
  view_ok mem (active_buf u) (mk_view (Some f) n) -> fl_told f = fl_pos f ->
  filled mem (mk_view None None) bs mem2 v2 ->
  callback_ok mem (mk_view (Some f) n) mem2 v2 bs (DmaEvent UART_RX_DISABLED) u.
Proof.
  intros Hv Ht (-> & -> & ->). pose proof (written_len _ _ _ _ Hv) as Hl.
  destruct (cb_disabled u) as (u' & E & Ea). eexists _, u', _. split; [reflexivity|].
  split; [apply Forall_nil_2|]. split; [exact E|]. intros err. pose proof (vo_bufs _ _ _ Hv) as Hb.
  destruct (bufs_get mem 0 Hb ltac:(lia)) as (buf & Eg & Hz & _). simpl. rewrite Eg. simpl.
  rewrite decide_True by by rewrite Hz. eexists. split; [reflexivity|]. rewrite Ea. split.
  - split; [done|]. case_decide; simpl; [|done]. unfold UART_DMA_BUF_SIZE. split_and!; lia.
  - unfold unreported at 1. simpl. rewrite drop_ge; [by case_decide|]. unfold zlen in Hl. lia.
Qed.

(** Whatever the driver raises, and however far it fills meanwhile. *)
Lemma callback_runs mem d ev bs mem1 d1 bs' mem2 d2 u :
  view_ok mem (active_buf u) (dma_view d) -> dma_raises mem d (Some ev) bs mem1 d1 ->
  fills mem1 d1 bs' mem2 d2 ->
  bs = [] /\ callback_ok mem (dma_view d) mem2 (dma_view d2) bs' ev u.
Proof.
  intros Hv Hr Hf. apply dma_raises_ok in Hr. pose proof (fills_filled _ _ _ _ _ (active_buf u) Hf) as Hf'. clear Hf.
  generalize dependent (dma_view d). generalize dependent (dma_view d1). intros v1 Hf' v Hv Hr.
  inversion Hr as [|f n Hlt|f|f n buf Hg Hz Ht|f n|v2 |f n Ht|v2 e He]; subst; clear Hr; (split; [done|]).
  - destruct Hf' as [Hv2 (f' & Ev & Eb & Et & Ew)].
    { destruct Hv as [Hb (Ht & Hc)]. split; [done|]. split; [simpl; lia|exact Hc]. }
    rewrite Ev in *. by eapply callback_ready.
  - destruct (Hf' Hv) as [Hv2 Hf]. by apply callback_request.
  - destruct Hf' as [Hv2 (f' & Ev & Eb & Et & Ew)].
    { destruct Hv as [Hb (_ & _ & _ & Ha & -> & _)]. split; [done|]. split_and!; simpl; try done; lia. }
    apply callback_quiet; [by auto|done|]. pose proof (written_len _ _ _ _ Hv) as Hl.
    rewrite Ev. unfold unreported. simpl. rewrite Ew, Et. unfold written at 1. simpl.
    rewrite (drop_ge (written _ _)); [done|]. unfold zlen in Hl. lia.
  - destruct (Hf' Hv) as [Hv2 Hf]. apply callback_quiet; [by auto|done|]. by eapply filled_unreported.
  - destruct (Hf' Hv) as [Hv2 Hf]. apply callback_quiet; [by auto|done|]. by eapply filled_unreported.
  - destruct Hf' as [_ Hf]; [by destruct Hv|]. by apply callback_disabled.
  - destruct (Hf' Hv) as [Hv2 Hf]. apply callback_quiet; [by destruct He; auto|done|]. by eapply filled_unreported.
Qed.

(** ** The rest of the program *)

(** The index of the buffer stays, and the receiver is not called. *)
Definition no_rx_call (e : io) : Prop :=
  match e with IoUartRxEnable _ _ _ | IoUartRxBufRsp _ _ => False | _ => True end.
Definition off_rx (a : Z) (t : list io) (a' : Z) : Prop := a' = a /\ Forall no_rx_call t.
#[local] Instance off_rx_tracking : Tracking off_rx.
Proof. split; [done|]. intros x t y t' z [-> Ht] [-> Ht']. split; [done|by apply Forall_app_2]. Qed.
Definition rx_index (w : world) : Z := active_buf (w_uart w).
Abbreviation off := (tracks rx_index off_rx).

Lemma off_emit {S} (get : S -> Z) e : no_rx_call e -> tracks get off_rx (emit e).
Proof. intros He. apply tracks_emit. intros a. split; [done|by repeat constructor]. Qed.
Lemma off_zoom_uart {A} (m : M uart A) : tracks active_buf off_rx m -> off (zoom m).
Proof. apply tracks_zoom. Qed.
Lemma off_zoom {A T} (L : Lens world T) `{!Disjoint_lens L lens_uart} (m : M T A) :
  emits no_rx_call m -> off (zoom m).
Proof. intros Hm. by apply (tracks_other _ L lens_uart active_buf no_rx_call m Hm). Qed.

#[local] Hint Extern 1 (tracks _ off_rx (emit _)) =>
  apply off_emit; unfold led_blink_tick; repeat case_match; exact I : tracks.
#[local] Hint Extern 1 (tracks _ off_rx (modify _)) => apply tracks_same; [apply _|by intros] : tracks.
#[local] Hint Extern 1 (tracks rx_index _ (zoom _)) => apply off_zoom_uart; solve [tracks] : tracks.
#[local] Hint Extern 2 (tracks rx_index _ (zoom _)) =>
  apply off_zoom; [apply _|solve [calls]] : tracks.

Lemma off_skip_loop fuel i n : off (skip_loop (W := world) fuel i n).
Proof. induction fuel; simpl; tracks. Qed.
#[local] Hint Resolve off_skip_loop : tracks.
Lemma off_fromradio_read c len offset : off (fromradio_read (W := world) c len offset).
Proof. unfold fromradio_read, stage_replay. tracks. Qed.
Lemma off_serve_one c : off (serve_one_pending (W := world) serve_replay c).
Proof. unfold serve_one_pending, serve_replay. tracks. Qed.
#[local] Hint Resolve off_fromradio_read off_serve_one : tracks.
Lemma off_uart_tx p : tracks active_buf off_rx (uart_meshtastic_tx p).
Proof. unfold uart_meshtastic_tx. tracks. Qed.
#[local] Hint Resolve off_uart_tx : tracks.
Lemma off_on_toradio c data : off (on_toradio_ble (W := world) c data).
Proof.
  unfold on_toradio_ble, ble_gatt_park_pending, upstream_on_pending_phone, upstream_keepalive_reschedule,
    serve_one_pending, serve_replay. tracks.
Qed.
Lemma off_serve_loop fuel i : off (serve_loop (W := world) serve_replay fuel i).
Proof. revert i. induction fuel; intros i; simpl; tracks. Qed.
#[local] Hint Resolve off_on_toradio off_serve_loop : tracks.
Lemma off_session raw info : off (upstream_on_fromradio (W := world) serve_replay raw info).
Proof. unfold upstream_on_fromradio, serve_pending_phones, cache_mark_ready, cache_add_frame. cbv zeta. tracks. Qed.
#[local] Hint Resolve off_session : tracks.
Lemma off_fromradio raw : off (on_fromradio_uart (W := world) raw).
Proof.
  unfold on_fromradio_uart, router_dispatch, broadcast, upstream_swallow_live_queuestatus. tracks.
Qed.
#[local] Hint Resolve off_fromradio : tracks.
Lemma off_rx_loop fuel : off (rx_loop (W := world) on_fromradio_uart fuel).
Proof. induction fuel; simpl; [tracks|]. unfold rx_process_byte, put_rx. cbv zeta. tracks. Qed.
#[local] Hint Resolve off_rx_loop : tracks.

Lemma off_step e : rx_side e = false -> off (step e).
Proof.
  intros He. destruct e as [| | | | | | |[]| | | | |]; try done; unfold step, fromnum_read, logradio_read, toradio_write,
    node_reg_write, led_blink_work, uart_cb, rx_work_handler, tx_work_handler, keepalive_work_handler; tracks.
Qed.

(** ** Runs *)

Lemma boot_view env w t :
  fits 32 (be_rand env) -> main env world_boot = Some (None, w, t) ->
  rx_index w = 0
  /\ view_calls dma_buf_boot rc_ok t (mk_view None None) = Some (mk_view (Some (mk_filling 0 0 0)) None).
Proof.
  intros Hr E. assert (at_boot world_boot) as Hb by by split_and!.
  rewrite (main_eq env world_boot Hb) in E.
  destruct (boot_error env) as [e|] eqn:Hbe; [repeat case_decide; done|].
  destruct (boot_session world_boot (be_rand env) Hb Hr) as (w' & E' & _ & _ & _ & Hu & _).
  rewrite E' in E. simpl in E. injection E as <- <-.
  change (w_uart w' = uart_boot <| fromradio_cb_set := true |> <| tx_msgq := tx_msgq (w_uart w') |>) in Hu.
  split; [unfold rx_index; by rewrite Hu|].
  assert (uart_init_trace (be_uart env) = (if ui_leds_ready (be_uart env)
      then [IoGpioConfigure led2; IoGpioConfigure led3; IoBlink uart_blinker LED_BLINK_PERIOD_MS] else [])
    ++ [IoUartCallbackSet; IoUartRxEnable 0 UART_DMA_BUF_SIZE UART_RX_TIMEOUT_US]) as ->.
  { unfold boot_error, uart_init_error in Hbe. unfold uart_init_trace. f_equal.
    destruct (decide (be_bt_enable env <> rc_ok)); [done|]. destruct (decide (_ /\ _)); [done|].
    destruct (ui_device_ready _); [|done]. simpl in *. by destruct (decide (ui_callback_set _ <> rc_ok)). }
  by destruct (be_ble_leds env), (ui_leds_ready (be_uart env)).
Qed.

Lemma dma_run_ok env line es w mem d :
  dma_run env line es w mem d ->
  reachable w /\ view_ok mem (rx_index w) (dma_view d) /\ line = reported es ++ unreported mem (dma_view d).
Proof.
  induction 1 as [w t d Hr E Hd|line es w mem d bs mem' d' _ (Hw & Hv & El) Hf
    |line es w mem d ev bs mem1 d1 bs' mem2 d2 e w' t err _ (Hw & Hv & El) Hr Hf Eev E
    |line es w mem d e w' t _ (Hw & Hv & El) Ho He E].
  - destruct (boot_view env w t Hr E) as [Ea Ec]. rewrite <- Hd in Ec.
    rewrite (dma_calls_ok _ _ _ _ _ Ec), Ea. split; [by eapply reach_boot|]. split; [|done].
    split; [|by split_and!]. split; [done|]. repeat apply Forall_cons_2; try apply Forall_nil_2; by_eval.
  - destruct (fills_filled _ _ _ _ _ _ Hf Hv) as [Hv' Hf']. split; [done|]. split; [done|].
    by rewrite (filled_unreported _ _ _ _ _ _ Hv Hf'), app_assoc, <- El.
  - destruct (callback_runs _ _ _ _ _ _ _ _ _ _ Hv Hr Hf) as (-> & e' & u' & t' & Eev' & Hok & Eu & Hc).
    rewrite Eev in Eev'. injection Eev' as <-.
    assert (w' = lset (Lens := lens_uart) u' w /\ t = t') as [-> ->].
    { simpl in E. unfold zoom in E. change (lget (Lens := lens_uart) w) with (w_uart w) in E. rewrite Eu in E. by injection E as <- <-. }
    destruct (Hc err) as (v' & Ev & Hv' & Eun). rewrite (dma_calls_ok _ _ _ _ _ Ev).
    split; [|split; [exact Hv'|]].
    + eapply reach_step; [exact Hw| |exact E]. destruct e; done.
    + rewrite El. unfold reported. rewrite fmap_app, join_app. simpl. rewrite app_nil_r, <- !app_assoc.
      by rewrite Eun.
  - destruct (off_step e Ho _ _ _ _ E) as [Ea _]. rewrite Ea. split; [by eapply reach_step|].
    split; [done|]. rewrite El. unfold reported. rewrite fmap_app, join_app. simpl.
    destruct e as [| | | | | | |[]| | | | |]; try done; by rewrite !app_nil_r.
Qed.
End Dma.

Section Properties.
Context `{NanopbOk, GattReadOk, !RingBuf RING_BUF_SIZE, !RingBufOk RING_BUF_SIZE}.
Context `{!MsgQ tx_entry TX_QUEUE_DEPTH, !MsgQOk tx_entry TX_QUEUE_DEPTH, DmaDriverOk}.

(** C5: the receiver hears the line.  However the driver fills the buffers,
    reports them, asks for the next one and stops, and whatever else happens:
    the data the callback was given and what is in the buffer still are exactly
    the bytes of the line, none overwritten before it was reported; and each
    event the driver raises is handled, reading inside the buffers, with calls
    that hand the driver only whole buffers that it does not hold. *)
Theorem dma_exact env line es w mem d :
  dma_run env line es w mem d ->
  line = reported es ++ unreported mem (dma_view d)
  /\ forall ev bs mem1 d1 bs' mem2 d2,
       dma_raises mem d (Some ev) bs mem1 d1 -> fills mem1 d1 bs' mem2 d2 ->
       exists e w' t, event_of mem2 ev = Some e /\ enabled w (EvUart e)
         /\ step (EvUart e) w = Some (tt, w', t)
         /\ forall err, is_Some (view_calls mem2 err t (dma_view d2)).
Proof.
  intros (Hw & Hv & El)%dma_run_ok. split; [exact El|]. intros ev bs mem1 d1 bs' mem2 d2 Hr Hf.
  destruct (callback_runs _ _ _ _ _ _ _ _ _ _ Hv Hr Hf) as (_ & e & u' & t & Eev & Hok & Eu & Hc).
  exists e, (lset (Lens := lens_uart) u' w), t. split; [exact Eev|]. split; [by destruct e|].
  split; [by apply zoom_eq|]. intros err. destruct (Hc err) as (v' & Ev & _). by exists v'.
Qed.
End Properties.

(** ** At concrete inputs *)

Module Demo.
#[local] Existing Instances demo_nanopb demo_nanopb_ok list_ring list_ring_ok list_msgq
  list_msgq_ok list_gatt_read list_gatt_read_ok.

(** The driver that does no more than the documentation says. *)
#[local] Instance view_driver : DmaDriver := {|
  dma := rx_view;
  dma_raises := may_raise;
  dma_calls mem err t v := default v (view_calls mem err t v);
|}.
#[local] Instance view_driver_ok : DmaDriverOk.
Proof. refine {| dma_view := (fun v => v) : dma -> rx_view |}; [done|]. intros mem err t d v. simpl. by intros ->. Defined.

Definition boot_trace : list io :=
  match main Main.Demo.env_ok world_boot with Some (_, _, t) => t | None => [] end.
Lemma boot_run : main Main.Demo.env_ok world_boot = Some (None, System.Demo.w0, boot_trace).
Proof. vm_compute. reflexivity. Qed.

Definition filled_with (bs : list Z) (pos : Z) (mem : list (list Z)) : list (list Z) :=
  alter (fun buf => splice buf pos bs) 0%nat mem.
Definition mem2 : list (list Z) := filled_with [148; 195] 0 dma_buf_boot.
Definition mem3 : list (list Z) := filled_with [0] 2 mem2.
Definition heard2 : event := EvUart (UART_RX_RDY [148; 195]).
Definition w1 : world :=
  match step heard2 System.Demo.w0 with Some (_, w, _) => w | None => System.Demo.w0 end.
Definition filling0 (pos told : Z) : dma := mk_view (Some (mk_filling 0 pos told)) None.

Lemma fills2 : fills dma_buf_boot (filling0 0 0) [148; 195] mem2 (filling0 2 0).
Proof.
  apply (fills_cons _ _ [148] (filled_with [148] 0 dma_buf_boot) (filling0 1 0) [195]).
  - exact (mr_byte dma_buf_boot (mk_filling 0 0 0) None (replicate 256 0) 148 ltac:(vm_compute; reflexivity) ltac:(by_eval) ltac:(by_eval)).
  - apply (fills_cons _ _ [195] mem2 (filling0 2 0) []); [|apply fills_nil].
    exact (mr_byte (filled_with [148] 0 dma_buf_boot) (mk_filling 0 1 0) None (148 :: replicate 255 0) 195
      ltac:(vm_compute; reflexivity) ltac:(by_eval) ltac:(by_eval)).
Qed.
Lemma fills3 : fills mem2 (filling0 2 2) [0] mem3 (filling0 3 2).
Proof.
  apply (fills_cons _ _ [0] mem3 (filling0 3 2) []); [|apply fills_nil].
  exact (mr_byte mem2 (mk_filling 0 2 2) None (148 :: 195 :: replicate 254 0) 0 ltac:(vm_compute; reflexivity) ltac:(by_eval) ltac:(by_eval)).
Qed.

(** Two bytes come and are reported; a third comes. *)
Lemma run3 : exists d, dma_run Main.Demo.env_ok [148; 195; 0] [heard2] w1 mem3 d.
Proof.
  pose proof (dr_boot Main.Demo.env_ok _ _ (mk_view None None) ltac:(by_eval) boot_run eq_refl) as H0.
  assert (dma_calls dma_buf_boot rc_ok boot_trace (mk_view None None) = filling0 0 0) as E by (vm_compute; reflexivity).
  rewrite E in H0. pose proof (dr_fills _ _ _ _ _ _ _ _ _ H0 fills2) as H2.
  assert (exists t, step heard2 System.Demo.w0 = Some (tt, w1, t)) as [t Et]
    by (eexists; vm_compute; reflexivity).
  pose proof (dr_event _ _ _ _ _ _ (DmaRxRdy 0 0 2) [] mem2 (filling0 2 2) [0] mem3 (filling0 3 2)
    (UART_RX_RDY [148; 195]) w1 t rc_ok H2 (mr_ready mem2 (mk_filling 0 2 0) None ltac:(by_eval)) fills3
    ltac:(vm_compute; reflexivity) Et) as H3.
  eexists. exact H3.
Qed.

Lemma dma_exact_witness : exists d : dma, unreported mem3 (dma_view d) = [0].
Proof.
  destruct run3 as [d Hd]. exists d. destruct (dma_exact _ _ _ _ _ _ Hd) as [E _].
  change ([148; 195; 0] = [148; 195] ++ unreported mem3 (dma_view d)) in E. by injection E as E.
Defined.
End Demo.
