(* ===== verification/Tasks.v ===== *)
(** * Tasks: handlers that can be switched out

    A handler of a thread is a [task]: a tree of sections, each a run of the
    state monad, between which other threads run.  [exec] runs a task without
    interruption.  [ok] is a rely-guarantee judgement: whatever the others do
    between its sections within the rely [R], the task runs to its end, keeps
    the invariant [Inv] at every cut and itself stays within [G]. *)

From stdpp Require Import prelude.
From S2P Require Import Prelude.

Section Tasks.
Context {S : Type}.

#[warnings="-register-all"]
Inductive task (A : Type) : Type :=
  | Done (a : A)
  | Sect (m : M S (task A)).
#[global] Arguments Done {A} a.
#[global] Arguments Sect {A} m.

(** Induction over the sections that can follow. *)
Fixpoint task_tree_ind {A} (P : task A -> Prop)
  (Hdone : forall a, P (Done a))
  (Hsect : forall m, (forall s p s' t, m s = Some (p, s', t) -> P p) -> P (Sect m))
  (p : task A) : P p :=
  match p with
  | Done a => Hdone a
  | Sect m =>
      Hsect m (fun s p s' t E =>
        match m s as r return (r = Some (p, s', t) -> P p) with
        | Some (p', _, _) => fun E' =>
            eq_ind p' P (task_tree_ind P Hdone Hsect p') p
              (f_equal (fun r => match r with Some (q, _, _) => q | None => p' end) E')
        | None => fun E' => match eq_ind None (fun r => match r with None => True | _ => False end) I _ E' with end
        end E)
  end.

(** One section. *)
Definition act {A} (m : M S A) : task A := Sect (a <- m ;; ret (Done a)).

Fixpoint tbind {A B} (p : task A) (k : A -> task B) : task B :=
  match p with
  | Done a => k a
  | Sect m => Sect (fun s =>
      match m s with
      | Some (p', s', t) => Some (tbind p' k, s', t)
      | None => None
      end)
  end.

(** Without interruption. *)
Fixpoint exec {A} (p : task A) : M S A :=
  match p with
  | Done a => ret a
  | Sect m => fun s =>
      match m s with
      | Some (p', s', t) =>
          match exec p' s' with
          | Some (a, s'', t') => Some (a, s'', t ++ t')
          | None => None
          end
      | None => None
      end
  end.
End Tasks.
Arguments task S A : clear implicits.

Notation "x <~ p ;; q" := (tbind p (fun x => q))
  (at level 100, p at next level, right associativity) : proxy_scope.
Notation "p ;;~ q" := (tbind p (fun _ => q))
  (at level 100, right associativity) : proxy_scope.

(** ** Running *)

Section Exec.
Context {S : Type}.

Lemma exec_act {A} (m : M S A) s : exec (act m) s = m s.
Proof.
  unfold act. simpl. unfold bind. destruct (m s) as [[[a s'] t]|]; [|done]. simpl.
  by rewrite !app_nil_r.
Qed.

Lemma exec_bind {A B} (p : task S A) (k : A -> task S B) s :
  exec (tbind p k) s = bind (exec p) (fun a => exec (k a)) s.
Proof.
  revert s. induction p as [a|m IH] using task_tree_ind; intros s; simpl.
  - by rewrite run_ret.
  - unfold bind. destruct (m s) as [[[p s'] t]|] eqn:E; [|done].
    rewrite (IH _ _ _ _ E). unfold bind. destruct (exec p s') as [[[a s2] t2]|]; [|done].
    destruct (exec (k a) s2) as [[[b s3] t3]|]; [|done]. by rewrite app_assoc.
Qed.

Lemma bind_ext {A B} (m m' : M S A) (k k' : A -> M S B) s :
  m s = m' s -> (forall a s' t, m s = Some (a, s', t) -> k a s' = k' a s') ->
  bind m k s = bind m' k' s.
Proof.
  unfold bind. intros <- Hk. destruct (m s) as [[[a s'] t]|] eqn:E; [|done]. by rewrite (Hk _ _ _ eq_refl).
Qed.

(** A task that is one section followed by another task. *)
Lemma exec_act_bind {A B} (m : M S A) (k : A -> task S B) s :
  exec (tbind (act m) k) s = bind m (fun a => exec (k a)) s.
Proof. rewrite exec_bind. apply bind_ext; [apply exec_act|done]. Qed.

(** The sections a task takes when it is not interrupted. *)
Inductive sections {A} : task S A -> S -> task S A -> S -> Prop :=
  | sections_nil p s : sections p s p s
  | sections_cons m s p s1 t q s2 :
      m s = Some (p, s1, t) -> sections p s1 q s2 -> sections (Sect m) s q s2.

Lemma exec_sections {A} (p : task S A) s a s' t :
  exec p s = Some (a, s', t) -> sections p s (Done a) s'.
Proof.
  revert s t. induction p as [b|m IH] using task_tree_ind; intros s t; simpl.
  - intros [= <- <- _]. constructor.
  - destruct (m s) as [[[p s1] t1]|] eqn:E; [|done].
    destruct (exec p s1) as [[[b s2] t2]|] eqn:E2; [|done]. intros [= <- <- _].
    eapply sections_cons; [exact E|]. by eapply IH.
Qed.
End Exec.

(** ** What every section of a task does *)

Section Traces.
Context {S : Type} (P : S -> list io -> S -> Prop).

#[warnings="-register-all"]
Inductive traced {A} : task S A -> Prop :=
  | traced_done a : traced (Done a)
  | traced_sect m : (forall s p s' t, m s = Some (p, s', t) -> P s t s' /\ traced p) -> traced (Sect m).

Lemma traced_act {A} (m : M S A) :
  (forall s a s' t, m s = Some (a, s', t) -> P s t s') -> traced (act m).
Proof.
  intros Hm. constructor. intros s p s' t. unfold bind. destruct (m s) as [[[a s1] t1]|] eqn:E; [|done].
  simpl. intros [= <- <- <-]. rewrite app_nil_r. split; [by eapply Hm|constructor].
Qed.

Lemma traced_bind {A B} (p : task S A) (k : A -> task S B) :
  traced p -> (forall a, traced (k a)) -> traced (tbind p k).
Proof.
  intros Hp Hk. induction p as [a|m IH] using task_tree_ind; [apply Hk|].
  simpl. constructor. inversion Hp as [|m' Hm]; subst. intros s q s' t.
  destruct (m s) as [[[p s1] t1]|] eqn:E; [|done]. intros [= <- <- <-].
  destruct (Hm _ _ _ _ E) as [Ht Hp']. split; [done|]. by eapply IH.
Qed.

Lemma traced_section {A} (m : M S (task S A)) s p s' t :
  traced (Sect m) -> m s = Some (p, s', t) -> P s t s' /\ traced p.
Proof. inversion 1 as [|? Hm]; subst. apply Hm. Qed.
End Traces.

Create HintDb traced.
#[export] Hint Resolve traced_done traced_bind : traced.

(** ** Ghost state along a task

    [leads Q p y]: from the ghost state [y] each section of [p], run from a
    state that is [good] for the ghost state it starts with, [passes] to a next
    one, and at the end [Q] holds of the result and the ghost state.  Nothing is
    asked of what other threads do in between. *)

Section Ghost.
Context {S Y : Type} (good : Y -> S -> Prop) (passes : Y -> S -> Y -> S -> Prop).

#[warnings="-register-all"]
Inductive leads {A} (Q : A -> Y -> Prop) : task S A -> Y -> Prop :=
  | leads_done a y : Q a y -> leads Q (Done a) y
  | leads_sect m y :
      (forall s p s' t, good y s -> m s = Some (p, s', t) ->
         exists y', passes y s y' s' /\ leads Q p y') ->
      leads Q (Sect m) y.

Lemma leads_act {A} (Q : A -> Y -> Prop) (m : M S A) y :
  (forall s a s' t, good y s -> m s = Some (a, s', t) -> exists y', passes y s y' s' /\ Q a y') ->
  leads Q (act m) y.
Proof.
  intros Hm. constructor. intros s p s' t Hg. unfold bind. destruct (m s) as [[[a s1] t1]|] eqn:E; [|done].
  simpl. intros [= <- <- _]. destruct (Hm s a s1 t1 Hg E) as (y' & Hp & Hq). exists y'.
  split; [done|by constructor].
Qed.

Lemma leads_bind {A B} (Q1 : A -> Y -> Prop) (Q2 : B -> Y -> Prop) p k y :
  leads Q1 p y -> (forall a y', Q1 a y' -> leads Q2 (k a) y') -> leads Q2 (tbind p k) y.
Proof.
  intros Hp Hk. revert y Hp. induction p as [a|m IH] using task_tree_ind; intros y Hp.
  - inversion Hp; subst. by apply Hk.
  - inversion Hp as [|m' y' Hm]; subst. constructor. intros s q s' t Hg.
    destruct (m s) as [[[p s1] t1]|] eqn:E; [|done]. intros [= <- <- <-].
    destruct (Hm s p s1 t1 Hg E) as (y' & Hpa & Hh). exists y'. split; [done|by eapply IH].
Qed.

Lemma leads_section {A} (Q : A -> Y -> Prop) (m : M S (task S A)) y s p s' t :
  leads Q (Sect m) y -> good y s -> m s = Some (p, s', t) -> exists y', passes y s y' s' /\ leads Q p y'.
Proof. inversion 1 as [|? ? Hm]; subst. apply Hm. Qed.

(** A task whose sections leave the ghost state alone. *)
Lemma leads_traced {A} (P : S -> list io -> S -> Prop) (p : task S A) y :
  traced P p -> (forall s t s', good y s -> P s t s' -> passes y s y s') -> leads (fun _ y' => y' = y) p y.
Proof.
  intros Hp HP. induction p as [a|m IH] using task_tree_ind; constructor; [done|].
  intros s q s' t Hg E. exists y. destruct (traced_section _ _ _ _ _ _ Hp E) as [Ht Hq].
  split; [by eapply HP|by eapply IH].
Qed.
End Ghost.

(** ** Among other threads *)

Section Interference.
Context {S : Type} (Inv : S -> Prop) (R G : S -> S -> Prop).
Context `{!PreOrder R}.

#[warnings="-register-all"]
Inductive ok {A} (Q : A -> S -> Prop) : task S A -> S -> Prop :=
  | ok_done a s : (forall s1, R s s1 -> Inv s1 -> Q a s1) -> ok Q (Done a) s
  | ok_sect m s :
      (forall s1, R s s1 -> Inv s1 ->
         exists p s2 t, m s1 = Some (p, s2, t) /\ Inv s2 /\ G s1 s2 /\ ok Q p s2) ->
      ok Q (Sect m) s.

(** The others may run at any cut. *)
Lemma ok_stable {A} (Q : A -> S -> Prop) p s s' : ok Q p s -> R s s' -> ok Q p s'.
Proof.
  intros [a s0 Hq|m s0 Hm] Hr; constructor; intros s1 Hr1 Hi.
  - apply Hq; [by transitivity s'|done].
  - apply Hm; [by transitivity s'|done].
Qed.

Lemma ok_done_now {A} (Q : A -> S -> Prop) a s : ok Q (Done a) s -> Inv s -> Q a s.
Proof. inversion 1 as [? ? Hq|]; subst. intros Hi. by apply Hq. Qed.

Lemma ok_weaken {A} (Q Q' : A -> S -> Prop) p s :
  (forall a s', Q a s' -> Q' a s') -> ok Q p s -> ok Q' p s.
Proof.
  intros HQ. revert s. induction p as [a|m IH] using task_tree_ind; intros s;
    inversion 1 as [? ? Hq|? ? Hm]; subst; constructor; intros s1 Hr Hi.
  - by apply HQ, Hq.
  - destruct (Hm s1 Hr Hi) as (p & s2 & t & E & Hi2 & Hg & Hok).
    exists p, s2, t. split_and!; [done..|]. by eapply IH.
Qed.

Lemma ok_bind {A B} (Q1 : A -> S -> Prop) (Q2 : B -> S -> Prop) p k s :
  Inv s -> ok Q1 p s -> (forall a s', Q1 a s' -> Inv s' -> ok Q2 (k a) s') ->
  ok Q2 (tbind p k) s.
Proof.
  intros Hi Hp Hk. revert s Hi Hp. induction p as [a|m IH] using task_tree_ind; intros s Hi Hp; simpl.
  - apply Hk; [|done]. by apply ok_done_now.
  - inversion Hp as [|m' s' Hm]; subst. constructor. intros s1 Hr Hi1.
    destruct (Hm s1 Hr Hi1) as (p & s2 & t & E & Hi2 & Hg & Hok). rewrite E.
    eexists _, s2, t. split_and!; [done..|]. eapply IH; [exact E|done|done].
Qed.

Lemma ok_act {A} (Q : A -> S -> Prop) m s :
  (forall s1, R s s1 -> Inv s1 -> exists a s2 t, m s1 = Some (a, s2, t) /\ Inv s2 /\ G s1 s2
     /\ forall s3, R s2 s3 -> Inv s3 -> Q a s3) ->
  ok Q (act m) s.
Proof.
  intros Hm. constructor. intros s1 Hr Hi. destruct (Hm s1 Hr Hi) as (a & s2 & t & E & Hi2 & Hg & Hq).
  unfold bind. rewrite E. eexists _, s2, _. split_and!; [done..|]. by constructor.
Qed.

(** Alone, it runs to its end. *)
Lemma ok_exec {A} (Q : A -> S -> Prop) p s :
  ok Q p s -> Inv s -> exists a s' t, exec p s = Some (a, s', t).
Proof.
  revert s. induction p as [a|m IH] using task_tree_ind; intros s Hp Hi; [by exists a, s, []|].
  inversion Hp as [|? ? Hm]; subst. destruct (Hm s) as (p & s2 & t & E & Hi2 & _ & Hok); [reflexivity|done|].
  destruct (IH _ _ _ _ E s2 Hok Hi2) as (a & s3 & t3 & E3). exists a, s3, (t ++ t3). simpl.
  by rewrite E, E3.
Qed.
End Interference.
#[global] Arguments act : simpl never.
#[global] Arguments tbind : simpl never.
#[global] Arguments exec : simpl never.
