(* ===== verification/Threads.v ===== *)
(** * Threads: the handlers, interleaved

    The program runs in the Bluetooth receive thread, the system work queue,
    the main thread, which boots, and the UART interrupt.  The first two are
    cooperative: a handler runs until it calls something that may switch
    threads.  Those calls, [bt_gatt_notify], [bt_le_adv_start] and
    [bt_conn_disconnect], are the last of every handler of the Bluetooth
    thread, so each of these is one section.  A handler of the work queue that
    makes more than one such call is a [task] with a cut after each.  The main
    thread can be preempted, so its tasks have a cut after each statement; a
    call it makes is one section where the others do not look at what the call
    changes step by step ([ble_gatt_init] runs before Bluetooth is up,
    [cache_begin] while the cache is not ready, [uart_meshtastic_tx] puts one
    entry into a kernel queue).

    The interrupt runs at any cut.  Inside a section it makes no difference: it
    only puts bytes into the ring, which the receiver takes one at a time from
    the other end, clears [tx_in_progress], which a section sets only while it
    is clear, picks the next DMA buffer and submits work.

    The decoded message a [fromradio_info] points into is a static that only
    the work queue writes, and only when it decodes the next frame; likewise
    that of a [toradio_info] in the Bluetooth thread.  So the payload is carried
    as a value across the cuts. *)

From stdpp Require Import prelude.
From S2P Require Import Prelude Tasks ProxyProtocol Nanopb ConfigCache Zephyr UartMeshtastic.
From S2P Require Import ProtoHandler RouteTrace UpstreamSession BleGatt BleReplay Router World Main System.

Local Open Scope Z_scope.

(** ** The handlers of the work queue as tasks *)

Section Tasks.
Context `{Nanopb, GattRead, !RingBuf RING_BUF_SIZE, !MsgQ tx_entry TX_QUEUE_DEPTH}.

(** A turn of the loop of [ble_gatt_broadcast_fromradio]. *)
Definition broadcast_turn (i : nat) (data : list Z) (sent : Z) : M ble Z :=
  pc <- get_slot i ;;
  if decide (conn pc <> NULL) then
    err <- ble_gatt_enqueue_fromradio (conn pc) data ;;
    if decide (err <> rc_ok) then ret sent else ret (sent + 1)
  else ret sent.

Fixpoint t_broadcast_from (slots : list nat) (data : list Z) (sent : Z) : task world Z :=
  match slots with
  | [] => Done sent
  | i :: slots =>
      sent <~ act (zoom (broadcast_turn i data sent)) ;;
      t_broadcast_from slots data sent
  end.
Definition t_broadcast (raw : list Z) : task world unit :=
  t_broadcast_from (seq 0 (Z.to_nat MAX_BLE_CONNECTIONS)) raw 0 ;;~ Done tt.

(** [serve_pending_phones]; the second part of a turn runs after a cut. *)
Fixpoint t_serve_loop (fuel : nat) (i : Z) : task world unit :=
  match fuel with
  | O => act (oget None)
  | S fuel =>
      more <~ act (u <- zoom (gets (id : upstream -> upstream)) ;;
                   if decide (i < s_pending_count u) then
                     c <- oget (mem_get (s_pending u) i) ;;
                     serve_one_pending serve_replay c ;;;
                     ret true
                   else ret false) ;;
      if (more : bool) then
        act (u <- zoom (gets (id : upstream -> upstream)) ;;
             p <- oget (mem_set (s_pending u) i NULL) ;;
             zoom (modify (fun u : upstream => u <| s_pending := p |>))) ;;~
        t_serve_loop fuel (u8 (i + 1))
      else Done tt
  end.
Definition t_serve_pending_phones : task world unit :=
  none <~ act (u <- zoom (gets (id : upstream -> upstream)) ;;
               ret (bool_decide (s_pending_count u = 0))) ;;
  if (none : bool) then Done tt
  else
    t_serve_loop (S (Z.to_nat CONFIG_BT_MAX_CONN)) 0 ;;~
    act (zoom (modify (fun u : upstream => u <| s_pending_count := 0 |>))).

(** The branches of [upstream_on_fromradio]; [true] is that the session goes on
    to serve the waiting phones, [false] the value returned. *)
Definition fetch_step (payload : list Z) (info : fromradio_info) : M world (bool + unit) :=
  u <- zoom (gets (id : upstream -> upstream)) ;;
  let v := which_variant info in
  let account := zoom (modify (fun u : upstream =>
                   u <| s_p0 := phase0_account v (zlen payload) (s_p0 u) |>)) in
  let store := account ;;; zoom (cache_add_frame payload v) ;;; ret (inl true) in
  if decide (s_state u <> UPSTREAM_FETCHING) then ret (inl false)
  else if decide (v = FromRadio_packet_tag) then ret (inl false)
  else if decide (v = FromRadio_config_complete_id_tag) then
    match decode_config_complete_nonce payload with
    | None => store
    | Some got_nonce =>
        if decide (got_nonce <> s_nonce u) then store
        else
          account ;;;
          zoom (modify (fun u : upstream =>
            u <| s_p0 := (s_p0 u) <| p0_config_complete_id := got_nonce |> |>)) ;;;
          zoom cache_mark_ready ;;;
          zoom (modify (fun u : upstream => u <| s_state := UPSTREAM_CACHE_READY |>)) ;;;
          ret (inr tt)
    end
  else store.

Definition t_upstream_on_fromradio (payload : list Z) (info : fromradio_info) : task world bool :=
  r <~ act (fetch_step payload info) ;;
  match r with
  | inl taken => Done taken
  | inr _ =>
      t_serve_pending_phones ;;~
      act (zoom (modify (fun u : upstream => u <| s_state := UPSTREAM_LIVE |>))) ;;~
      Done true
  end.

(** The branch of [router_dispatch] for a packet of the proxy's port: whether
    it is left to be broadcast. *)
Definition target_step (raw : list Z) (info : fromradio_info) : M world bool :=
  hdr <- oget (proxy_header_parse (payload_bytes info) (payload_len info)) ;;
  match hdr with
  | None => ret true
  | Some hdr =>
      oget (route_trace_dn info) ;;;
      b <- zoom (gets (id : ble -> ble)) ;;
      c <- oget (ble_gatt_get_conn_by_proxy_id (hdr_dst hdr) b) ;;
      if decide (c <> NULL) then zoom (ble_gatt_enqueue_fromradio c raw) ;;; ret false
      else ret true
  end.

Definition t_router_dispatch (raw : list Z) (info : fromradio_info) : task world unit :=
  st <~ act (zoom (gets upstream_get_state)) ;;
  taken <~ (if decide (st = UPSTREAM_FETCHING) then t_upstream_on_fromradio raw info
            else Done false) ;;
  if (taken : bool) then Done tt
  else if decide (which_variant info <> FromRadio_packet_tag) then
    swallowed <~ act (if decide (which_variant info = FromRadio_queueStatus_tag)
                      then zoom upstream_swallow_live_queuestatus
                      else ret false) ;;
    if (swallowed : bool) then Done tt else t_broadcast raw
  else if negb (is_decoded info) then t_broadcast raw
  else if decide (portnum info = PROXY_PORTNUM) then
    to_all <~ act (target_step raw info) ;;
    if (to_all : bool) then t_broadcast raw else Done tt
  else t_broadcast raw.

Definition t_on_fromradio_uart (payload : list Z) : task world unit :=
  let '(err, info) := proto_decode_fromradio payload in
  if decide (err <> rc_ok) then t_broadcast payload
  else t_router_dispatch payload info.

(** The part of [rx_process_byte] before the callback: the payload to hand
    over, if it is complete and somebody asked for it, and whether the machine
    restarts afterwards. *)
Definition rx_byte_step (byte : Z) : M world (option (list Z) * bool) :=
  u <- zoom (gets id) ;;
  let sm := rx_sm u in
  match rx_st sm with
  | RX_WAIT_PAYLOAD =>
      p <- oget (mem_set (rx_payload sm) (received_len sm) byte) ;;
      let n := u16 (received_len sm + 1) in
      put_rx (sm <| rx_payload := p |> <| received_len := n |>) ;;;
      if decide (n = expected_len sm) then
        if fromradio_cb_set u then d <- oget (mem_read p 0 n) ;; ret (Some d, true)
        else ret (None, true)
      else ret (None, false)
  | _ => rx_process_byte (fun _ => ret tt) byte ;;; ret (None, false)
  end.

Definition rx_restart : M world unit :=
  zoom (modify (fun u => u <| rx_sm := (rx_sm u) <| rx_st := RX_WAIT_MAGIC1 |> |>)).

(** A turn of the loop of [rx_work_handler]: whether there was a byte. *)
Definition t_rx_turn : task world bool :=
  r <~ act (u <- zoom (gets id) ;;
            match ring_buf_get1 (rx_ring_buf u) with
            | None => ret None
            | Some (byte, rb) =>
                zoom (modify (fun u => u <| rx_ring_buf := rb |>)) ;;;
                r <- rx_byte_step byte ;; ret (Some r)
            end) ;;
  match r with
  | None => Done false
  | Some (d, restart) =>
      (match d with Some d => t_on_fromradio_uart d | None => Done tt end) ;;~
      (if (restart : bool) then act rx_restart else Done tt) ;;~
      Done true
  end.
Fixpoint t_rx_loop (fuel : nat) : task world unit :=
  match fuel with
  | O => act (oget None)
  | S fuel => more <~ t_rx_turn ;; if (more : bool) then t_rx_loop fuel else Done tt
  end.

(** [tx_work_handler], with a cut when the driver has the frame: whether the
    driver refused it. *)
Definition tx_start (tx_err : rc) : M uart bool :=
  u <- gets id ;;
  if tx_in_progress u then ret false
  else
    match k_msgq_get (tx_msgq u) with
    | None => ret false
    | Some (entry, q) =>
        modify (fun u => u <| tx_msgq := q |>) ;;;
        b0 <- oget (mem_set (tx_frame_buf u) 0 MESHTASTIC_MAGIC1) ;;
        b1 <- oget (mem_set b0 1 MESHTASTIC_MAGIC2) ;;
        b2 <- oget (mem_set b1 2 (u8 (Z.shiftr (te_len entry) 8))) ;;
        b3 <- oget (mem_set b2 3 (u8 (Z.land (te_len entry) 255))) ;;
        p <- oget (mem_read (te_payload entry) 0 (te_len entry)) ;;
        b4 <- oget (mem_write b3 4 p) ;;
        modify (fun u => u <| tx_frame_buf := b4 |> <| tx_in_progress := true |>) ;;;
        f <- oget (mem_read b4 0 (te_len entry + 4)) ;;
        emit (IoUartTx f TX_TIMEOUT_US) ;;;
        ret (bool_decide (tx_err <> rc_ok))
    end.
Definition tx_abandon : M uart unit :=
  modify (fun u => u <| tx_in_progress := false |>) ;;;
  emit IoSubmitTx.
Definition t_tx_work_handler (tx_err : rc) : task world unit :=
  refused <~ act (zoom (tx_start tx_err)) ;;
  if (refused : bool) then act (zoom tx_abandon) else Done tt.

(** ** The boot as a task

    [ble_gatt_init] runs before Bluetooth is enabled and is one section. *)

Definition t_uart_meshtastic_init (env : uart_init_env) : task world rc :=
  act (zoom (modify (fun u => u <| fromradio_cb_set := true |>))) ;;~
  act (zoom (modify (fun u => u <| rx_sm := (rx_sm u) <| rx_st := RX_WAIT_MAGIC1 |> |>))) ;;~
  act (zoom (modify (fun u => u <| tx_in_progress := false |>))) ;;~
  (if ui_leds_ready env then
     act (zoom (emit (IoGpioConfigure led2) : M uart unit)) ;;~
     act (zoom (emit (IoGpioConfigure led3) : M uart unit)) ;;~
     act (zoom (emit (IoBlink uart_blinker LED_BLINK_PERIOD_MS) : M uart unit))
   else Done tt) ;;~
  if negb (ui_device_ready env) then Done (rc_err ENODEV)
  else
    act (zoom (emit IoUartCallbackSet : M uart unit)) ;;~
    if decide (ui_callback_set env <> rc_ok) then Done (ui_callback_set env)
    else
      act (zoom (modify (fun u => u <| active_buf := 0 |>))) ;;~
      act (zoom (emit (IoUartRxEnable 0 UART_DMA_BUF_SIZE UART_RX_TIMEOUT_US) : M uart unit)) ;;~
      if decide (ui_rx_enable env <> rc_ok) then Done (ui_rx_enable env)
      else Done rc_ok.

Definition t_upstream_session_start (rand : Z) : task world unit :=
  act (zoom (modify (fun u : upstream => u <| s_nonce := rand |>))) ;;~
  act (zoom (modify (fun u : upstream =>
    if decide (s_nonce u = 0 \/ s_nonce u = 1) then u <| s_nonce := 2 |> else u))) ;;~
  u <~ act (zoom (gets (id : upstream -> upstream))) ;;
  let tr := to_radio_init_zero <| tr_which := ToRadio_want_config_id_tag |>
                               <| tr_want_config_id := s_nonce u |> in
  let '(ok, written) := pb_encode_ToRadio tr ToRadio_size in
  buf <~ act (oget (mem_write (replicate (Z.to_nat ToRadio_size) 0) 0 written)) ;;
  if negb ok then Done tt
  else
    act (zoom cache_begin) ;;~
    act (zoom (modify (fun u : upstream => u <| s_p0 := phase0_reset |>))) ;;~
    act (zoom (modify (fun u : upstream => u <| s_pending_count := 0 |>))) ;;~
    p <~ act (oget (mem_read buf 0 (u16 (zlen written)))) ;;
    rc <~ act (zoom (uart_meshtastic_tx p)) ;;
    if decide (rc <> rc_ok) then Done tt
    else
      act (zoom (modify (fun u : upstream => u <| s_state := UPSTREAM_FETCHING |>))) ;;~
      act (emit IoKeepaliveInit) ;;~
      act (zoom (modify (fun u : upstream => u <| s_keepalive_armed := true |>))) ;;~
      act (emit (IoKeepalive UPSTREAM_KEEPALIVE_MS)).

Definition t_main (env : boot_env) : task world (option rc) :=
  err <~ act (zoom (ble_gatt_init (be_ble_leds env))) ;;
  if decide (err <> rc_ok) then Done (Some err)
  else
    act (emit IoBtEnable) ;;~
    if decide (be_bt_enable env <> rc_ok) then Done (Some (be_bt_enable env))
    else
      err <~ act (zoom (ble_gatt_start_advertising (be_adv env))) ;;
      if decide (err <> rc_ok) then Done (Some err)
      else
        err <~ t_uart_meshtastic_init (be_uart env) ;;
        if decide (err <> rc_ok) then Done (Some err)
        else
          act (zoom (upstream_set_serve_cb true)) ;;~
          t_upstream_session_start (be_rand env) ;;~
          Done None.
End Tasks.

(** ** Without interruption the tasks are the handlers *)

Section Sequential.
Context `{Nanopb, GattRead, !RingBuf RING_BUF_SIZE, !MsgQ tx_entry TX_QUEUE_DEPTH}.
Implicit Types w : world.

Lemma zoom_bind {A B} {T : Type} `{L : !Lens world T} (m : M T A) (k : A -> M T B) w :
  zoom (bind m k) w = bind (zoom m) (fun a => zoom (k a)) w.
Proof.
  unfold zoom, bind. destruct (m (lget w)) as [[[a s] t]|]; [|done]. rewrite lget_lset.
  destruct (k a s) as [[[b s'] t']|]; [|done]. by rewrite lset_lset.
Qed.

Lemma zoom_ret {A} {T : Type} `{L : !Lens world T} (a : A) w : zoom (ret a : M T A) w = ret a w.
Proof. unfold zoom, ret. by rewrite lset_lget. Qed.

Lemma exec_done {A} (a : A) w : exec (Done a) w = ret a w.
Proof. done. Qed.

Lemma bind_ret_r {A} (m : M world A) w : bind m ret w = m w.
Proof. unfold bind, ret. destruct (m w) as [[[a w1] t]|]; [|done]. by rewrite app_nil_r. Qed.

Lemma exec_if {A} (b : bool) (p q : task world A) w :
  exec (if b then p else q) w = if b then exec p w else exec q w.
Proof. by destruct b. Qed.

Lemma run_zoom_bind {A B C} {T : Type} `{L : !Lens world T} (m : M T A) (k : A -> M T B)
    (h : B -> M world C) w :
  bind (zoom (bind m k)) h w = bind (zoom m) (fun a => bind (zoom (k a)) h) w.
Proof.
  rewrite <- run_assoc. apply bind_ext; [apply zoom_bind|done].
Qed.
Lemma run_zoom_ret {A C} {T : Type} `{L : !Lens world T} (a : A) (h : A -> M world C) w :
  bind (zoom (ret a : M T A)) h w = h a w.
Proof. rewrite <- (run_ret a h). apply bind_ext; [apply zoom_ret|done]. Qed.

Lemma run_exec_bind {A B C} (p : task world A) (k : A -> task world B) (h : B -> M world C) w :
  bind (exec (tbind p k)) h w = bind (exec p) (fun a => bind (exec (k a)) h) w.
Proof. rewrite <- run_assoc. apply bind_ext; [apply exec_bind|done]. Qed.
Lemma exec_done_bind {A B} (a : A) (k : A -> task world B) w :
  exec (tbind (Done a) k) w = exec (k a) w.
Proof. done. Qed.
Lemma run_exec_done {A C} (a : A) (h : A -> M world C) w : bind (exec (Done a)) h w = h a w.
Proof. apply run_ret. Qed.
Lemma run_exec_act {A C} (m : M world A) (h : A -> M world C) w :
  bind (exec (act m)) h w = bind m h w.
Proof. apply bind_ext; [apply exec_act|done]. Qed.

(** One step of an equality between a task and a run. *)
Ltac seq_step :=
  match goal with
  | |- exec (tbind (act _) _) _ = _ => rewrite exec_act_bind
  | |- exec (tbind (tbind _ _) _) _ = _ => rewrite exec_bind
  | |- exec (tbind (Done _) _) _ = _ => rewrite exec_done_bind
  | |- exec (act _) _ = _ => rewrite exec_act
  | |- bind (exec (tbind _ _)) _ _ = _ => rewrite run_exec_bind
  | |- bind (exec (act _)) _ _ = _ => rewrite run_exec_act
  | |- bind (exec (Done _)) _ _ = _ => rewrite run_exec_done
  | |- exec (Done _) _ = _ => rewrite exec_done
  | |- bind (bind _ _) _ _ = _ => rewrite run_assoc
  | |- _ = bind (bind _ _) _ _ => rewrite run_assoc
  | |- bind (ret _) _ _ = _ => rewrite run_ret
  | |- _ = bind (ret _) _ _ => rewrite run_ret
  | |- bind (zoom (bind _ _)) _ _ = _ => rewrite run_zoom_bind
  | |- _ = bind (zoom (bind _ _)) _ _ => rewrite run_zoom_bind
  | |- bind (zoom (ret _)) _ _ = _ => rewrite run_zoom_ret
  | |- _ = bind (zoom (ret _)) _ _ => rewrite run_zoom_ret
  | |- bind (zoom (if ?b then _ else _)) _ _ = _ => destruct b
  | |- _ = zoom (bind _ _) _ => rewrite zoom_bind
  | |- _ = zoom (ret _) _ => rewrite zoom_ret
  | |- ?x = ?x => reflexivity
  | |- bind ?m _ ?w = bind ?m _ ?w => apply bind_ext; [reflexivity|intros ? ? ? _]
  end.
Ltac seq_steps := repeat seq_step.

Lemma exec_broadcast_from slots data sent w :
  exec (t_broadcast_from slots data sent) w = zoom (broadcast_from slots data sent) w.
Proof.
  revert sent w. induction slots as [|i slots IH]; intros sent w; simpl; unfold broadcast_turn;
    seq_steps.
  all: apply IH.
Qed.

Lemma exec_broadcast raw w : exec (t_broadcast raw) w = broadcast raw w.
Proof.
  unfold t_broadcast, broadcast. rewrite exec_bind. apply bind_ext; [apply exec_broadcast_from|done].
Qed.

Lemma exec_serve_loop fuel i w :
  exec (t_serve_loop fuel i) w = serve_loop serve_replay fuel i w.
Proof.
  revert i w. induction fuel as [|fuel IH]; intros i w; simpl; seq_steps; [done|].
  case_decide; seq_steps. apply IH.
Qed.

Lemma exec_serve_pending_phones w :
  exec t_serve_pending_phones w = serve_pending_phones serve_replay w.
Proof.
  unfold t_serve_pending_phones, serve_pending_phones. seq_steps.
  case_decide; [by rewrite bool_decide_true|rewrite bool_decide_false by done].
  rewrite exec_bind. apply bind_ext; [apply exec_serve_loop|]. intros [] ? ? _. by rewrite exec_act.
Qed.

Lemma exec_upstream_on_fromradio raw info w :
  exec (t_upstream_on_fromradio raw info) w = upstream_on_fromradio serve_replay raw info w.
Proof.
  unfold t_upstream_on_fromradio, fetch_step, upstream_on_fromradio. seq_steps.
  repeat case_decide; seq_steps. destruct (decode_config_complete_nonce raw); [|by seq_steps].
  case_decide; seq_steps. rewrite exec_bind. apply bind_ext; [apply exec_serve_pending_phones|].
  intros [] ? ? _. by seq_steps.
Qed.

Lemma exec_router_dispatch raw info w :
  exec (t_router_dispatch raw info) w = router_dispatch raw info w.
Proof.
  unfold t_router_dispatch, router_dispatch. seq_steps. rewrite exec_bind.
  apply bind_ext; [case_decide; [apply exec_upstream_on_fromradio|done]|].
  intros taken ? ? _. destruct taken; [done|]. case_decide.
  - seq_steps. case_match; [done|apply exec_broadcast].
  - destruct (negb _); [apply exec_broadcast|]. case_decide; [|apply exec_broadcast].
    unfold target_step. seq_steps. case_match; seq_steps; [|apply exec_broadcast].
    case_decide; seq_steps. apply exec_broadcast.
Qed.

Lemma exec_on_fromradio_uart raw w : exec (t_on_fromradio_uart raw) w = on_fromradio_uart raw w.
Proof.
  unfold t_on_fromradio_uart, on_fromradio_uart. destruct (proto_decode_fromradio raw) as [err info].
  case_decide; [apply exec_broadcast|apply exec_router_dispatch].
Qed.

(** Outside of a payload the callback does not matter. *)
Lemma rx_process_byte_no_payload (cb cb' : list Z -> M world unit) byte w :
  rx_st (rx_sm (w_uart w)) <> RX_WAIT_PAYLOAD ->
  rx_process_byte cb byte w = rx_process_byte cb' byte w.
Proof.
  intros Hst. unfold rx_process_byte. rewrite (run_zoom_gets id (fun u => _) w).
  symmetry. rewrite (run_zoom_gets id (fun u => _) w). unfold id.
  change (lget (Lens := lens_uart) w) with (w_uart w). by destruct (rx_st _).
Qed.

(** A byte: what comes before the callback, the callback, what comes after. *)
Lemma rx_byte_split (k : M world bool) byte w :
  bind (rx_byte_step byte) (fun r =>
    match r.1 with Some d => on_fromradio_uart d | None => ret tt end ;;;
    (if r.2 then rx_restart else ret tt) ;;; k) w
  = bind (rx_process_byte on_fromradio_uart byte) (fun _ => k) w.
Proof.
  unfold rx_byte_step. rewrite run_assoc, run_zoom_gets. unfold id.
  change (lget (Lens := lens_uart) w) with (w_uart w).
  destruct (decide (rx_st (rx_sm (w_uart w)) = RX_WAIT_PAYLOAD)) as [Hst|Hst].
  - rewrite Hst. unfold rx_process_byte. symmetry. rewrite run_assoc, run_zoom_gets. unfold id.
    change (lget (Lens := lens_uart) w) with (w_uart w). rewrite Hst. symmetry. seq_steps.
    case_decide; seq_steps; [destruct (fromradio_cb_set _); seq_steps|];
      cbn [fst snd]; unfold rx_restart; seq_steps.
  - rewrite (bind_ext (rx_process_byte on_fromradio_uart byte) (rx_process_byte (fun _ => ret tt) byte)
      _ (fun _ => k)) by (done || by apply rx_process_byte_no_payload).
    transitivity (bind (rx_process_byte (fun _ => ret tt) byte ;;; ret (None : option (list Z), false)) (fun r =>
      match r.1 with Some d => on_fromradio_uart d | None => ret tt end ;;;
      (if r.2 then rx_restart else ret tt) ;;; k) w); [by destruct (rx_st _)|].
    seq_steps. cbn [fst snd]. seq_steps.
Qed.

Lemma exec_rx_turn w :
  exec t_rx_turn w
  = (u <- zoom (gets (id : uart -> uart)) ;;
     match ring_buf_get1 (rx_ring_buf u) with
     | None => ret false
     | Some (byte, rb) =>
         zoom (modify (fun u : uart => u <| rx_ring_buf := rb |>)) ;;;
         rx_process_byte on_fromradio_uart byte ;;;
         ret true
     end) w.
Proof.
  unfold t_rx_turn. seq_steps. destruct (ring_buf_get1 _) as [[byte rb]|]; seq_steps.
  rewrite <- rx_byte_split. apply bind_ext; [done|]. intros [d restart] ? ? _. rewrite run_ret.
  destruct d; rewrite exec_bind; (apply bind_ext; [by rewrite ?exec_on_fromradio_uart|]);
    intros [] ? ? _; destruct restart; by seq_steps.
Qed.

Lemma exec_rx_loop fuel w : exec (t_rx_loop fuel) w = rx_loop on_fromradio_uart fuel w.
Proof.
  revert w. induction fuel as [|fuel IH]; intros w; [done|]. cbn [t_rx_loop rx_loop]. rewrite exec_bind.
  rewrite (bind_ext _ _ _ _ _ (exec_rx_turn w) (fun _ _ _ _ => eq_refl)). seq_steps.
  destruct (ring_buf_get1 _) as [[byte rb]|]; seq_steps. apply IH.
Qed.

Lemma exec_tx_work_handler err w :
  exec (t_tx_work_handler err) w = zoom (tx_work_handler err) w.
Proof.
  unfold t_tx_work_handler, tx_start, tx_work_handler, tx_abandon. seq_steps.
  destruct (k_msgq_get _) as [[entry q]|]; seq_steps.
  destruct (decide (err <> rc_ok)); [rewrite bool_decide_true by done|rewrite bool_decide_false by done];
    by seq_steps.
Qed.

Lemma exec_uart_init env w :
  exec (t_uart_meshtastic_init env) w = zoom (uart_meshtastic_init env) w.
Proof.
  unfold t_uart_meshtastic_init, uart_meshtastic_init. seq_steps.
  destruct (ui_leds_ready env); seq_steps; destruct (negb (ui_device_ready env)); seq_steps;
    repeat (case_decide; seq_steps).
Qed.

Lemma exec_session_start rand w :
  exec (t_upstream_session_start rand) w = upstream_session_start rand w.
Proof.
  unfold t_upstream_session_start, upstream_session_start. seq_steps.
  destruct (pb_encode_ToRadio _ _) as [ok written]. seq_steps. destruct (negb ok); seq_steps.
  case_decide; seq_steps.
Qed.

Lemma exec_main env w : exec (t_main env) w = main env w.
Proof.
  unfold t_main, main. seq_steps. case_decide; seq_steps. case_decide; seq_steps.
  case_decide; seq_steps. rewrite exec_bind. apply bind_ext; [apply exec_uart_init|].
  intros err ? ? _. case_decide; seq_steps. rewrite exec_bind.
  apply bind_ext; [apply exec_session_start|done].
Qed.

(** Cutting the handlers into sections changes nothing but where other
    threads may run.  Without interruption the receiver, the transmitter, the
    dispatch of a frame and the boot, as tasks, are exactly the handlers: the
    same results, the same state and the same calls in the same order, and
    undefined behaviour exactly where the handlers have it. *)
Theorem tasks_are_handlers w :
  (forall raw, exec (t_on_fromradio_uart raw) w = on_fromradio_uart raw w)
  /\ (forall fuel, exec (t_rx_loop fuel) w = rx_loop on_fromradio_uart fuel w)
  /\ (forall tx_err, exec (t_tx_work_handler tx_err) w = zoom (tx_work_handler tx_err) w)
  /\ (forall env, exec (t_main env) w = main env w).
Proof.
  split; [intros; apply exec_on_fromradio_uart|]. split; [intros; apply exec_rx_loop|].
  split; [intros; apply exec_tx_work_handler|intros; apply exec_main].
Qed.
End Sequential.
