(* ===== verification/Locks.v ===== *)
(** * Locks: how the handlers use the slots' mutexes

    [locking h h' m]: from holding [h], [m] uses the mutexes well and ends
    holding [h'].  Every handler, and every section of every task, begins and
    ends with no mutex held; so no thread is switched out while it holds one,
    and none waits for one. *)

From stdpp Require Import prelude.
From S2P Require Import Prelude Tasks ProxyProtocol Nanopb ConfigCache Zephyr UartMeshtastic.
From S2P Require Import ProtoHandler RouteTrace UpstreamSession BleGatt BleReplay Router World Main System Threads.

Local Open Scope Z_scope.

Definition locking {S A} (h h' : option nat) (m : M S A) : Prop :=
  forall s a s' t, m s = Some (a, s', t) -> forall t', locks_ok h (t ++ t') = locks_ok h' t'.

Section Rules.
Context {S : Type}.
Implicit Types h : option nat.

Lemma locking_ret {A} h (a : A) : locking h h (@ret S A a).
Proof. by intros s ? ? ? [= _ _ <-]. Qed.
Lemma locking_gets {A} h (f : S -> A) : locking h h (gets f).
Proof. by intros s ? ? ? [= _ _ <-]. Qed.
Lemma locking_modify h (f : S -> S) : locking h h (modify f).
Proof. by intros s ? ? ? [= _ _ <-]. Qed.
Lemma locking_oget {A} h (o : option A) : locking h h (@oget S A o).
Proof. unfold oget. intros s a s' t. destruct o; [|done]. by intros [= _ _ <-]. Qed.
Lemma locking_bind {A B} h h1 h2 (m : M S A) (k : A -> M S B) :
  locking h h1 m -> (forall a, locking h1 h2 (k a)) -> locking h h2 (bind m k).
Proof.
  intros Hm Hk s b s' t. unfold bind. destruct (m s) as [[[a s1] t1]|] eqn:E; [|done].
  destruct (k a s1) as [[[b2 s2] t2]|] eqn:E2; [|done]. intros [= _ _ <-] t'.
  by rewrite <- app_assoc, (Hm _ _ _ _ E), (Hk _ _ _ _ _ E2).
Qed.
Lemma locking_zoom {W A} `{!Lens W S} h h' (m : M S A) : locking h h' m -> locking h h' (zoom (W := W) m).
Proof.
  intros Hm w a w' t. unfold zoom. destruct (m (lget w)) as [[[b s] u]|] eqn:E; [|done].
  intros [= _ _ <-]. by eapply Hm.
Qed.
Lemma locking_lock i : locking None (Some i) (@emit S (IoLock i)).
Proof. intros s ? ? ? [= _ _ <-] t'. simpl. by rewrite ?bool_decide_true. Qed.
Lemma locking_unlock i : locking (Some i) None (@emit S (IoUnlock i)).
Proof. intros s ? ? ? [= _ _ <-] t'. simpl. by rewrite ?bool_decide_true. Qed.
(** Any other call is made without a mutex. *)
Definition no_lock (e : io) : bool := match e with IoLock _ | IoUnlock _ => false | _ => true end.
Lemma locking_emit e : no_lock e = true -> locking None None (@emit S e).
Proof. intros He s ? ? ? [= _ _ <-] t'. by destruct e. Qed.
Lemma locking_mfor {A} h (f : A -> M S unit) l : (forall x, locking h h (f x)) -> locking h h (mfor f l).
Proof. intros Hf. induction l; simpl; [apply locking_ret|]. by apply (locking_bind _ h). Qed.
End Rules.

Create HintDb locking.

(** Follows the shape of the handler. *)
Ltac locking_step :=
  match goal with
  | |- locking _ _ (ret _) => apply locking_ret
  | |- locking _ _ (gets _) => apply locking_gets
  | |- locking _ _ (modify _) => apply locking_modify
  | |- locking _ _ (oget _) => apply locking_oget
  | |- locking _ _ (zoom _) => apply locking_zoom
  | |- locking _ _ (emit (IoLock _)) => apply locking_lock
  | |- locking _ _ (emit (IoUnlock _)) => apply locking_unlock
  | |- locking _ _ (emit _) => apply locking_emit; repeat case_match; reflexivity
  | |- locking _ _ (mfor _ _) => apply locking_mfor; intros ?
  | |- locking _ _ (bind _ _) => eapply locking_bind; [|intros ?]
  | |- locking _ _ (match ?x with _ => _ end) => destruct x
  | |- locking _ _ (let '(_, _) := ?x in _) => destruct x
  | |- locking _ _ _ => solve [eauto with locking nocore]
  end.
Ltac locking := repeat locking_step.

Section Handlers.
Context `{Nanopb, GattRead, !RingBuf RING_BUF_SIZE, !MsgQ tx_entry TX_QUEUE_DEPTH}.
Abbreviation free := (locking None None).

Lemma locking_upd_slot h i f : locking h h (upd_slot i f).
Proof. unfold upd_slot. locking. Qed.
Lemma locking_get_slot h i : locking h h (get_slot i).
Proof. unfold get_slot. locking. Qed.
#[local] Hint Resolve locking_upd_slot locking_get_slot : locking.

Lemma free_enqueue c data : free (ble_gatt_enqueue_fromradio c data).
Proof. unfold ble_gatt_enqueue_fromradio. locking. Qed.
#[local] Hint Resolve free_enqueue : locking.
Lemma free_broadcast_turn i data sent : free (broadcast_turn i data sent).
Proof. unfold broadcast_turn. locking. Qed.
Lemma free_replay c n : free (ble_gatt_replay_cached_burst c n).
Proof. unfold ble_gatt_replay_cached_burst. locking. Qed.
Lemma free_queuestatus c : free (ble_gatt_reply_queuestatus c).
Proof. unfold ble_gatt_reply_queuestatus. locking. Qed.
Lemma free_advertising err : free (ble_gatt_start_advertising err).
Proof. unfold ble_gatt_start_advertising. locking. Qed.
#[local] Hint Resolve free_broadcast_turn free_replay free_queuestatus free_advertising : locking.

Lemma locking_skip_loop fuel h i n : locking h h (skip_loop (W := world) fuel i n).
Proof. induction fuel; simpl; locking. Qed.
Lemma locking_stage_replay h i : locking h h (stage_replay (W := world) i).
Proof. unfold stage_replay. pose proof locking_skip_loop. locking. Qed.
Lemma locking_stage_queue h i : locking h h (stage_queue i).
Proof. unfold stage_queue. locking. Qed.
#[local] Hint Resolve locking_stage_replay locking_stage_queue : locking.
Lemma free_fromradio_read c len off : free (fromradio_read (W := world) c len off).
Proof. unfold fromradio_read. locking. Qed.

Lemma free_uart_tx p : free (uart_meshtastic_tx p).
Proof. unfold uart_meshtastic_tx. locking. Qed.
Lemma free_serve_one c : free (serve_one_pending (W := world) serve_replay c).
Proof. unfold serve_one_pending, serve_replay. locking. Qed.
#[local] Hint Resolve free_fromradio_read free_uart_tx free_serve_one : locking.
Lemma free_on_toradio c data : free (on_toradio_ble (W := world) c data).
Proof.
  unfold on_toradio_ble, ble_gatt_park_pending, upstream_on_pending_phone, upstream_keepalive_reschedule,
    serve_one_pending. locking.
Qed.
#[local] Hint Resolve free_on_toradio : locking.
Lemma free_uart_cb evt : free (uart_cb evt).
Proof. unfold uart_cb. locking. Qed.
Lemma free_keepalive : free (keepalive_work_handler (W := world)).
Proof. unfold keepalive_work_handler. locking. Qed.

(** The handlers of one section. *)
Lemma free_step e :
  match e with EvRxWork | EvTxWork _ => False | _ => True end -> free (step e).
Proof.
  pose proof free_uart_cb. pose proof free_keepalive.
  destruct e; intros He; try done; unfold step, on_connected, alloc_slot, on_disconnected, free_slot,
    fromnum_read, logradio_read, toradio_write, node_reg_write, ble_gatt_register_proxy_id,
    ble_led_blink_work, led_blink_work, led_blink_tick; locking.
Qed.

(** ** Every section of every task *)

Abbreviation clean := (traced (fun _ t _ => quiet_locks t)).

Lemma clean_act {A} (m : M world A) : free m -> clean (act m).
Proof. intros Hm. apply traced_act. intros s a s' t E t'. by apply (Hm s a s' t). Qed.

Ltac clean_step :=
  match goal with
  | |- clean (tbind _ _) => apply traced_bind; [|intros ?]
  | |- clean (act _) => apply clean_act; locking
  | |- clean (Done _) => apply traced_done
  | |- clean (match ?x with _ => _ end) => destruct x
  | |- clean (let '(_, _) := ?x in _) => destruct x
  | |- clean _ => solve [eauto with traced nocore]
  end.
Ltac clean := repeat clean_step.

Lemma clean_broadcast_from slots data sent : clean (t_broadcast_from slots data sent).
Proof. revert sent. induction slots; intros sent; cbn [t_broadcast_from]; clean. Qed.
#[local] Hint Resolve clean_broadcast_from : traced.
Lemma clean_serve_loop fuel i : clean (t_serve_loop fuel i).
Proof. revert i. induction fuel; intros i; cbn [t_serve_loop]; clean. Qed.
#[local] Hint Resolve clean_serve_loop : traced.

Lemma free_fetch_step raw info : free (fetch_step raw info).
Proof. unfold fetch_step, cache_add_frame, cache_mark_ready. cbv zeta. locking. Qed.
Lemma free_target_step raw info : free (target_step raw info).
Proof. unfold target_step. locking. Qed.
Lemma free_rx_byte_step b : free (rx_byte_step b).
Proof. unfold rx_byte_step, rx_process_byte, put_rx. cbv zeta. locking. Qed.
#[local] Hint Resolve free_fetch_step free_target_step free_rx_byte_step : locking.

Lemma clean_on_fromradio raw : clean (t_on_fromradio_uart raw).
Proof.
  unfold t_on_fromradio_uart, t_router_dispatch, t_upstream_on_fromradio, t_serve_pending_phones,
    t_broadcast, upstream_swallow_live_queuestatus. clean.
Qed.
#[local] Hint Resolve clean_on_fromradio : traced.
Lemma clean_rx_turn : clean t_rx_turn.
Proof. unfold t_rx_turn, rx_restart. clean. Qed.
Lemma clean_tx_work err : clean (t_tx_work_handler err).
Proof. unfold t_tx_work_handler, tx_start, tx_abandon. clean. Qed.
Lemma clean_main env : clean (t_main env).
Proof.
  unfold t_main, t_uart_meshtastic_init, t_upstream_session_start, ble_gatt_init, cache_begin,
    upstream_set_serve_cb. clean.
Qed.
End Handlers.
