(* ===== verification/WorkQueue.v ===== *)
(** * WorkQueue: the handlers of the work queue among the other threads

    What the threads rely on and guarantee ([wq_rely], [main_rely]), and that
    the receiver and the transmitter, interrupted at any of their cuts, run to
    their end and keep [sys_ok] at every cut. *)

From stdpp Require Import prelude.
From S2P Require Import Prelude Tasks ProxyProtocol Nanopb ConfigCache Zephyr UartMeshtastic.
From S2P Require Import ProtoHandler RouteTrace UpstreamSession BleGatt BleReplay Router World Main System Threads.

Local Open Scope Z_scope.

(** ** What the threads rely on *)

Section Rely.
Context `{Nanopb, !RingBuf RING_BUF_SIZE, !MsgQ tx_entry TX_QUEUE_DEPTH}.
Context `{!MsgQOk tx_entry TX_QUEUE_DEPTH}.

(** The work queue: once the session has started only it moves it, nobody else
    breaks the receive machine, and once the config is there nobody touches the
    queue of waiting phones and none begins to wait. *)
Record wq_rely (w w' : world) : Prop := {
  wr_state : s_state (w_upstream w) <> UPSTREAM_BOOT ->
    s_state (w_upstream w') = s_state (w_upstream w);
  wr_machine : rx_ok (rx_sm (w_uart w)) -> rx_ok (rx_sm (w_uart w'));
  wr_queue : published (s_state (w_upstream w)) ->
    s_pending (w_upstream w') = s_pending (w_upstream w)
    /\ s_pending_count (w_upstream w') = s_pending_count (w_upstream w);
  wr_waits : published (s_state (w_upstream w)) -> waits_kept (conns (w_ble w)) (conns (w_ble w'));
}.

(** The main thread: only it starts the session, chooses the nonce and
    registers the callbacks, and nobody else queues a want_config. *)
Record main_rely (w w' : world) : Prop := {
  mr_boot : s_state (w_upstream w) = UPSTREAM_BOOT -> s_state (w_upstream w') = UPSTREAM_BOOT;
  mr_nonce : s_nonce (w_upstream w') = s_nonce (w_upstream w);
  mr_handler : toradio_handler_set (w_ble w') = toradio_handler_set (w_ble w);
  mr_serve : s_serve_cb (w_upstream w') = s_serve_cb (w_upstream w);
  mr_callback : fromradio_cb_set (w_uart w') = fromradio_cb_set (w_uart w);
  mr_tx : forall n, Forall (own_session n) (mq_contents (tx_msgq (w_uart w))) ->
    Forall (own_session n) (mq_contents (tx_msgq (w_uart w')));
}.

(** No phone that waits is lost. *)
Definition waits_step (w w' : world) : Prop :=
  forall P, waiting P (w_upstream w) (conns (w_ble w)) -> waiting P (w_upstream w') (conns (w_ble w')).

Definition wq_guar (w w' : world) : Prop :=
  main_rely w w' /\ live_kept None w w' /\ waits_step w w'.
Definition main_guar (w w' : world) : Prop := wq_rely w w' /\ live_kept None w w'.

#[export] Instance wq_rely_preorder : PreOrder wq_rely.
Proof.
  split; [intros w; split; try done; intros _; apply waits_kept_refl|].
  intros w1 w2 w3 [Hs1 Hm1 Hp1 Hw1] [Hs2 Hm2 Hp2 Hw2].
  assert (published (s_state (w_upstream w1)) -> s_state (w_upstream w2) = s_state (w_upstream w1)) as Hst
    by (intros Hp; apply Hs1; by destruct Hp as [-> | ->]).
  split; [|by auto| |].
  - intros Hs. rewrite Hs2; [by apply Hs1|]. by rewrite Hs1.
  - intros Hp. destruct (Hp1 Hp) as [<- <-]. apply Hp2. by rewrite Hst.
  - intros Hp i pc3 Hi Hn Hpc. destruct (Hw2 ltac:(by rewrite Hst) i pc3 Hi Hn Hpc) as (j & pc2 & Hj & Ec & Hpc2).
    rewrite <- Ec in *. by apply (Hw1 Hp j pc2).
Qed.
#[export] Instance main_rely_preorder : PreOrder main_rely.
Proof.
  split; [by split|]. intros w1 w2 w3 [? ? ? ? ? Ht1] [? ? ? ? ? Ht2]. split; try congruence; auto.
Qed.

Lemma kept_wq_rely w w' : kept w w' -> wq_rely w w'.
Proof. intros [_ Hs _ _ _ Hm [Hq Hw _] _]. split; [by intros _|by rewrite Hm|done..]. Qed.
Lemma kept_main_rely w w' : kept w w' -> main_rely w w'.
Proof. intros [Hn Hs Hh Hv Hc _ _ Ht]. split; try done. by rewrite Hs. Qed.
End Rely.

(** ** The sections of the work queue *)

Section WorkQueue.
Context `{NanopbOk, GattReadOk, !RingBuf RING_BUF_SIZE, !RingBufOk RING_BUF_SIZE}.
Context `{!MsgQ tx_entry TX_QUEUE_DEPTH, !MsgQOk tx_entry TX_QUEUE_DEPTH}.

Abbreviation wq_ok := (ok sys_ok wq_rely wq_guar).

(** What is left after a section of the work queue. *)
Definition after (w w' : world) : Prop := sys_ok w' /\ wq_guar w w'.

Lemma after_refl w : sys_ok w -> after w w.
Proof. intros Hw. split; [done|]. split_and!; [reflexivity|apply live_kept_refl|by intros P]. Qed.

(** A section of the work queue. *)
Lemma ok_section {A} (Q : A -> world -> Prop) m w :
  (forall w1, wq_rely w w1 -> sys_ok w1 -> exists a w2 t, m w1 = Some (a, w2, t) /\ after w1 w2
     /\ forall w3, wq_rely w2 w3 -> sys_ok w3 -> Q a w3) ->
  wq_ok Q (act m) w.
Proof.
  intros Hm. apply ok_act. intros w1 Hr Hw1.
  destruct (Hm w1 Hr Hw1) as (a & w2 & t & E & [Hw2 Hg] & Hq). by exists a, w2, t.
Qed.

(** Every slot keeps its connection and does not begin to wait. *)
Definition slots_kept (l l' : list proxy_conn) : Prop :=
  forall i pc', l' !! i = Some pc' -> exists pc, l !! i = Some pc /\ conn pc = conn pc'
    /\ (pc_state pc' = PHONE_PENDING -> pc_state pc = PHONE_PENDING).

Lemma slots_kept_insert l i pc pc' :
  l !! i = Some pc -> conn pc = conn pc' ->
  (pc_state pc' = PHONE_PENDING -> pc_state pc = PHONE_PENDING) -> slots_kept l (<[i := pc']> l).
Proof.
  intros Hi Hc Hp j q Hj. destruct (decide (i = j)) as [<-|Hne].
  - rewrite list_lookup_insert_eq in Hj by by eapply lookup_lt_Some. injection Hj as <-. by exists pc.
  - rewrite list_lookup_insert_ne in Hj by done. by exists q.
Qed.

(** The queue as it was. *)
Lemma waits_slots w w' :
  slots_kept (conns (w_ble w)) (conns (w_ble w')) ->
  s_pending (w_upstream w') = s_pending (w_upstream w) ->
  s_pending_count (w_upstream w') = s_pending_count (w_upstream w) ->
  (s_state (w_upstream w') = UPSTREAM_LIVE ->
     s_state (w_upstream w) = UPSTREAM_LIVE \/ s_pending_count (w_upstream w) = 0) ->
  waits_step w w'.
Proof.
  intros Hsl Hp Hn Hs P [Hin Hq Hw Hl].
  assert (pending (w_upstream w') = pending (w_upstream w)) as Hpe by (unfold pending; by rewrite Hp, Hn).
  split; rewrite ?Hpe; [|done| |].
  - apply Forall_lookup_2. intros i pc' Hi. destruct (Hsl i pc' Hi) as (pc & Hj & <- & _).
    by apply (Forall_lookup_1 _ _ _ _ Hin Hj).
  - intros i pc' Hi Hn' Hpc. destruct (Hsl i pc' Hi) as (pc & Hj & Ec & Hst). rewrite <- Ec in *.
    apply (Hw i); auto.
  - rewrite Hn. intros Hl'. destruct (Hs Hl'); auto.
Qed.

Lemma slots_kept_refl l : slots_kept l l.
Proof. intros i pc Hi. by exists pc. Qed.

(** No phone of connection [c] waits. *)
Definition no_wait (c : bt_conn) (l : list proxy_conn) : Prop :=
  forall i pc, l !! i = Some pc -> conn pc = c -> pc_state pc <> PHONE_PENDING.

Lemma no_wait_stays c l l' : c <> NULL -> no_wait c l -> waits_kept l l' -> no_wait c l'.
Proof.
  intros Hc Hn Hw i pc Hi Ec Hp. destruct (Hw i pc Hi ltac:(by rewrite Ec) Hp) as (j & q & Hj & Eq & Hq).
  apply (Hn j q Hj); congruence.
Qed.

(** An entry is dropped whose phone does not wait any more; the whole queue, when
    no entry is left. *)
Lemma waits_null w i :
  (forall c, s_pending (w_upstream w) !! i = Some c -> c <> NULL -> no_wait c (conns (w_ble w))) ->
  waits_step w (lset ((w_upstream w) <| s_pending := <[i := NULL]> (s_pending (w_upstream w)) |>) w).
Proof.
  intros Hno P [Hin Hq Hw Hl]. unfold pending in *.
  set (u' := (_ <| s_pending := _ |>)). set (n := Z.to_nat (s_pending_count (w_upstream w))) in *.
  assert (pending u' = <[i := NULL]> (take n (s_pending (w_upstream w)))) as Hpe.
  { subst u'. unfold pending. simpl. fold n. destruct (decide (i < n)%nat).
    - by rewrite take_insert_lt.
    - rewrite take_insert_ge, list_insert_ge by (rewrite ?length_take; lia). done. }
  split; [done| | |done]; simpl.
  - rewrite Hpe. apply Forall_insert; [done|by left].
  - intros k pc Hk Hn Hpc. specialize (Hw k pc Hk Hn Hpc). rewrite Hpe.
    apply list_elem_of_lookup in Hw as [j Hj]. destruct (decide (i = j)) as [<-|Hne].
    + apply lookup_take_Some in Hj as [Hj _]. by destruct (Hno _ Hj Hn k pc Hk eq_refl).
    + apply list_elem_of_lookup. exists j. by rewrite list_lookup_insert_ne.
Qed.

Lemma waits_empty w :
  Forall (eq NULL) (pending (w_upstream w)) ->
  waits_step w (lset ((w_upstream w) <| s_pending_count := 0 |>) w).
Proof.
  intros Hnull P [Hin Hq Hw Hl]. split; [done|apply Forall_nil_2| |done]. simpl.
  intros k pc Hk Hn Hpc. specialize (Hw k pc Hk Hn Hpc). rewrite Forall_forall in Hnull.
  by destruct Hn; symmetry; apply Hnull.
Qed.

Lemma after_ble w b' :
  sys_ok w -> ble_wf b' -> toradio_handler_set b' = toradio_handler_set (w_ble w) ->
  replaying_ok (s_state (w_upstream w)) (conns b') ->
  (s_state (w_upstream w) = UPSTREAM_LIVE -> others_kept None (conns (w_ble w)) (conns b')) ->
  slots_kept (conns (w_ble w)) (conns b') -> after w (lset b' w).
Proof.
  intros Hw Hb Hh Hr Ho Hsl. split; [by apply sys_ok_ble|].
  split; [by split|split; [|by apply waits_slots; auto]].
  intros Hs. split_and!; [done|done|by apply Ho].
Qed.

(** Delivering a packet to a connected phone. *)
Lemma after_deliver w i pc data :
  sys_ok w -> conns (w_ble w) !! i = Some pc -> conn pc <> NULL ->
  exists r t, let b' := (w_ble w) <| conns := <[i := deliver data pc]> (conns (w_ble w)) |> in
    ble_gatt_enqueue_fromradio (conn pc) data (w_ble w) = Some (r, b', t) /\ after w (lset b' w).
Proof.
  intros Hw Hi Hn. pose proof (so_world _ Hw) as (Hb & _).
  destruct (enqueue_target (w_ble w) i pc data Hb Hi Hn) as (r & t & E & Hb').
  exists r, t. split; [exact E|]. destruct (deliver_same data pc) as (Hdc & Hds & _).
  apply after_ble; try done; [|intros _; by apply others_kept_deliver|].
  - apply replaying_insert; [apply Hw|]. rewrite Hds. by apply (replaying_at _ _ _ _ (so_replaying _ Hw) Hi).
  - apply (slots_kept_insert _ _ pc); [done|done|by rewrite Hds].
Qed.

(** The packet was delivered to the phone in slot [i], and nothing else happened. *)
Definition delivered (i : nat) (data : list Z) (w w' : world) : Prop :=
  exists pc, conns (w_ble w) !! i = Some pc /\ conn pc <> NULL
    /\ w' = lset ((w_ble w) <| conns := <[i := deliver data pc]> (conns (w_ble w)) |>) w.

Lemma after_broadcast_turn w i data sent :
  sys_ok w -> (i < Z.to_nat MAX_BLE_CONNECTIONS)%nat ->
  exists n w' t, zoom (broadcast_turn i data sent) w = Some (n, w', t) /\ after w w'
    /\ (w' = w /\ conn <$> conns (w_ble w) !! i = Some NULL \/ delivered i data w w').
Proof.
  intros Hw Hi. pose proof (so_world _ Hw) as (Hb & _). change (ble_wf (w_ble w)) in Hb.
  destruct (lookup_lt_is_Some_2 (conns (w_ble w)) i) as [pc Hpc]; [by rewrite (bw_size _ Hb)|].
  destruct (decide (conn pc <> NULL)) as [Hn|Hn].
  - destruct (after_deliver w i pc data Hw Hpc Hn) as (r & t & E & Ha).
    exists (if decide (r <> rc_ok) then sent else sent + 1). eexists _, _.
    split; [|split; [exact Ha|right; by exists pc]].
    apply zoom_eq. unfold broadcast_turn. erewrite run_get_slot by exact Hpc. rewrite decide_True by done.
    erewrite run_bind by exact E. case_decide; reflexivity.
  - exists sent, w, []. split; [|split; [by apply after_refl|left; split; [done|]]].
    + erewrite zoom_eq; [|unfold broadcast_turn; erewrite run_get_slot by exact Hpc; by rewrite decide_False].
      by destruct w.
    + rewrite Hpc. simpl. f_equal. lia.
Qed.

Lemma ok_broadcast_from slots data sent w :
  Forall (fun i => (i < Z.to_nat MAX_BLE_CONNECTIONS)%nat) slots -> sys_ok w ->
  wq_ok (fun _ _ => True) (t_broadcast_from slots data sent) w.
Proof.
  revert sent w. induction slots as [|i slots IH]; intros sent w Hs Hw; cbn [t_broadcast_from].
  { by constructor. }
  apply Forall_cons in Hs as [Hi Hs]. eapply (ok_bind _ _ _ (fun _ _ => True)); [done| |auto].
  apply ok_section. intros w1 _ Hw1.
  destruct (after_broadcast_turn w1 i data sent Hw1 Hi) as (n & w2 & t & E & Ha & _).
  by exists n, w2, t.
Qed.

Lemma ok_broadcast raw w : sys_ok w -> wq_ok (fun _ _ => True) (t_broadcast raw) w.
Proof.
  intros Hw. unfold t_broadcast. eapply (ok_bind _ _ _ (fun _ _ => True)); [done| |by constructor].
  apply ok_broadcast_from; [|done]. apply Forall_seq. lia.
Qed.

(** *** The waiting phones *)

Lemma after_serve w c :
  sys_ok w -> s_state (w_upstream w) = UPSTREAM_CACHE_READY ->
  exists w' t, serve_one_pending serve_replay c w = Some (tt, w', t) /\ after w w'
    /\ w_upstream w' = w_upstream w /\ (c <> NULL -> no_wait c (conns (w_ble w'))).
Proof.
  intros Hw Hs. destruct (so_registered _ Hw) as (_ & Hv & _); [by rewrite Hs|].
  pose proof (so_world _ Hw) as (Hb & _). change (ble_wf (w_ble w)) in Hb.
  unfold serve_one_pending, serve_replay. rewrite run_zoom_gets. unfold id.
  change (lget (Lens := lens_upstream) w) with (w_upstream w). rewrite Hv. cbn [negb].
  pose proof (replay_burst_eq (w_ble w) c 0 Hb (fits_0 32 ltac:(done))) as E.
  destruct (find_slot c (w_ble w)) as [i|] eqn:Hf.
  - destruct E as (pc & f & l & E). cbv zeta in E. destruct E as (Hi & Hpc & E & Hb' & _).
    eexists _, _. split; [apply zoom_eq; exact E|]. split; [|split; [done|]].
    + apply after_ble; try done; [|by rewrite Hs|by apply (slots_kept_insert _ _ pc)].
      apply replaying_insert; [apply Hw|]. intros _. by left.
    + intros Hn j q Hj Hq. simpl in Hj. destruct (decide (i = j)) as [<-|Hne].
      * rewrite list_lookup_insert_eq in Hj by by eapply lookup_lt_Some. by injection Hj as <-.
      * rewrite list_lookup_insert_ne in Hj by done. destruct Hne.
        apply (bw_distinct _ Hb i j pc q); congruence.
  - eexists w, _. split; [|split; [by apply after_refl|split; [done|]]].
    + erewrite zoom_eq by exact E. by destruct w.
    + intros Hn j q Hj Hq. exfalso. revert Hf. rewrite <- Hq.
      rewrite (sys_find w j q) by (done || by rewrite Hq). done.
Qed.

(** The session with other variables, the state kept. *)
Lemma after_upstream w u' :
  sys_ok w -> up_wf u' -> s_state u' = s_state (w_upstream w) -> s_nonce u' = s_nonce (w_upstream w) ->
  s_serve_cb u' = s_serve_cb (w_upstream w) -> waits_step w (lset u' w) -> after w (lset u' w).
Proof.
  intros [(Hb & Hu & Hc & Ht & Hr) Hrx Hf Hg Hrp Htx] Hu' Hs Hn Hv Hws. split; [split|split; [|split]].
  - split_and!; try done. unfold ready_agrees in *. simpl. by rewrite Hs.
  - done.
  - done.
  - unfold registered. simpl. by rewrite Hs, Hv.
  - simpl. by rewrite Hs.
  - simpl. by rewrite Hn.
  - split; try done. simpl. by rewrite Hs.
  - intros Hl. simpl. rewrite Hs. split_and!; try done. apply others_kept_refl.
  - done.
Qed.

(** The loop is at index [i]: the entries before are dropped. *)
Definition serving (i : Z) (w : world) : Prop :=
  s_state (w_upstream w) = UPSTREAM_CACHE_READY
  /\ Forall (eq NULL) (take (Z.to_nat i) (s_pending (w_upstream w))).
(** Entry [i] has been served. *)
Definition entry_served (i : Z) (w : world) : Prop :=
  serving i w /\ forall c, s_pending (w_upstream w) !! Z.to_nat i = Some c -> c <> NULL ->
    no_wait c (conns (w_ble w)).
Definition drained (w : world) : Prop :=
  s_state (w_upstream w) = UPSTREAM_CACHE_READY /\ Forall (eq NULL) (pending (w_upstream w)).

Lemma ready_stays w w' :
  s_state (w_upstream w) = UPSTREAM_CACHE_READY -> wq_rely w w' ->
  s_state (w_upstream w') = UPSTREAM_CACHE_READY /\ s_pending (w_upstream w') = s_pending (w_upstream w)
  /\ s_pending_count (w_upstream w') = s_pending_count (w_upstream w)
  /\ waits_kept (conns (w_ble w)) (conns (w_ble w')).
Proof.
  intros Hs [Hr _ Hq Hw]. assert (published (s_state (w_upstream w))) as Hp by by left.
  destruct (Hq Hp). split_and!; [rewrite Hr; [done|by rewrite Hs]|done|done|by apply Hw].
Qed.
Lemma serving_stays i w w' : serving i w -> wq_rely w w' -> serving i w'.
Proof. intros [Hs Hn] Hr. destruct (ready_stays w w' Hs Hr) as (? & Hp & _). split; [done|]. by rewrite Hp. Qed.
Lemma entry_served_stays i w w' : entry_served i w -> wq_rely w w' -> entry_served i w'.
Proof.
  intros [Hs Hn] Hr. pose proof Hs as [Hs1 _]. destruct (ready_stays w w' Hs1 Hr) as (? & Hp & _ & Hw).
  split; [by apply (serving_stays _ w)|]. rewrite Hp. intros c Hc Hnn. eapply no_wait_stays; eauto.
Qed.
Lemma drained_stays w w' : drained w -> wq_rely w w' -> drained w'.
Proof.
  intros [Hs Hn] Hr. destruct (ready_stays w w' Hs Hr) as (? & Hp & Hc & _). split; [done|].
  unfold pending. by rewrite Hp, Hc.
Qed.

(** A turn of the loop: the next entry is served, or there is none. *)
Lemma serve_turn i w :
  sys_ok w -> serving i w -> 0 <= i <= CONFIG_BT_MAX_CONN ->
  exists more w' t,
    (u <- zoom (gets (id : upstream -> upstream)) ;;
     if decide (i < s_pending_count u) then
       c <- oget (mem_get (s_pending u) i) ;;
       serve_one_pending serve_replay c ;;;
       ret true
     else ret false) w = Some (more, w', t)
    /\ after w w'
    /\ if (more : bool) then entry_served i w' /\ i < CONFIG_BT_MAX_CONN else drained w'.
Proof.
  intros Hw Hsv Hi. pose proof Hsv as [Hs Hn].
  pose proof (so_world _ Hw) as (_ & Hu & _). change (up_wf (w_upstream w)) in Hu.
  rewrite run_zoom_gets. unfold id. change (lget (Lens := lens_upstream) w) with (w_upstream w).
  case_decide as Hlt.
  - destruct (pending_lookup (w_upstream w) i Hu) as (c & _ & Hc); [lia|].
    destruct (after_serve w c Hw Hs) as (w2 & t & E & Ha & Eu & Hno).
    rewrite Hc, run_oget. exists true, w2. eexists. erewrite run_bind by exact E. split; [reflexivity|].
    split; [exact Ha|]. split; [|pose proof (up_count _ Hu); lia]. split; [unfold serving; by rewrite Eu|].
    rewrite Eu. unfold mem_get in Hc. case_decide; [|done]. intros c' Hc'. by rewrite Hc in Hc'; injection Hc' as <-.
  - exists false, w, []. split; [reflexivity|]. split; [by apply after_refl|]. split; [done|].
    unfold pending. apply (Forall_take _ (Z.to_nat (s_pending_count (w_upstream w)))) in Hn.
    rewrite take_take in Hn. by rewrite Nat.min_l in Hn by lia.
Qed.

(** The entry is dropped. *)
Lemma after_null i w :
  sys_ok w -> entry_served i w -> 0 <= i < CONFIG_BT_MAX_CONN ->
  exists w' t,
    (u <- zoom (gets (id : upstream -> upstream)) ;;
     p <- oget (mem_set (s_pending u) i NULL) ;;
     zoom (modify (fun u : upstream => u <| s_pending := p |>))) w = Some (tt, w', t)
    /\ after w w' /\ serving (i + 1) w'.
Proof.
  intros Hw [[Hs Hn] Hno] Hi. pose proof (so_world _ Hw) as (_ & Hu & _). change (up_wf (w_upstream w)) in Hu.
  pose proof (up_size _ Hu) as Hz.
  rewrite run_zoom_gets. unfold id. change (lget (Lens := lens_upstream) w) with (w_upstream w).
  rewrite mem_set_ok by lia. rewrite run_oget.
  set (u' := (w_upstream w) <| s_pending := <[Z.to_nat i := NULL]> (s_pending (w_upstream w)) |>).
  assert (up_wf u') as Hu'.
  { destruct Hu. split; try done; [by subst u'; simpl; rewrite zlen_insert|..]; intros []; exact Hs. }
  exists (lset u' w), []. split; [reflexivity|].
  split; [apply after_upstream; try done; by apply waits_null|]. split; [exact Hs|]. simpl.
  replace (Z.to_nat (i + 1)) with (S (Z.to_nat i)) by lia.
  erewrite take_S_r by (apply list_lookup_insert_eq; unfold zlen in Hz; lia).
  rewrite take_insert_ge by lia. apply Forall_app_2; [done|]. by apply Forall_singleton.
Qed.

Lemma ok_serve_loop fuel i w :
  sys_ok w -> serving i w ->
  0 <= i <= CONFIG_BT_MAX_CONN -> CONFIG_BT_MAX_CONN - i < Z.of_nat fuel ->
  wq_ok (fun _ => drained) (t_serve_loop fuel i) w.
Proof.
  revert i w. induction fuel as [|fuel IH]; intros i w Hw Hs Hi Hf; [lia|]. cbn [t_serve_loop].
  eapply (ok_bind _ _ _ (fun (more : bool) w =>
    if more then entry_served i w /\ i < CONFIG_BT_MAX_CONN else drained w)); [done| |].
  { apply ok_section. intros w1 Hr Hw1. apply (serving_stays _ _ _ Hs) in Hr.
    destruct (serve_turn i w1 Hw1 Hr Hi) as (more & w2 & t & E & Ha & Hm).
    exists more, w2, t. split; [exact E|]. split; [exact Ha|]. intros w3 Hr3 _.
    destruct more; [destruct Hm; split; [by apply (entry_served_stays _ w2)|done]|by apply (drained_stays w2)]. }
  intros more w1 Hm Hw1. destruct more; [|constructor; intros w2 Hr2 _; by apply (drained_stays w1)].
  destruct Hm as [He Hlt]. eapply (ok_bind _ _ _ (fun _ => serving (i + 1))); [done| |].
  { apply ok_section. intros w2 Hr Hw2. apply (entry_served_stays _ _ _ He) in Hr.
    destruct (after_null i w2 Hw2 Hr) as (w3 & t & E & Ha & Hs3); [lia|].
    exists tt, w3, t. split; [exact E|]. split; [exact Ha|]. intros w4 Hr4 _. by apply (serving_stays _ w3). }
  intros [] w2 Hs2 Hw2. unfold CONFIG_BT_MAX_CONN in *. rewrite u8_id by lia. apply IH; [done|done|lia|lia].
Qed.

(** The session with other variables and another cache, before it is LIVE. *)
Lemma after_session w c' u' :
  sys_ok w -> cache_wf c' -> up_wf u' -> ready_agrees c' u' ->
  Forall (fun f => frame_size_ok f.2) (frames_of c') ->
  s_nonce u' = s_nonce (w_upstream w) -> s_serve_cb u' = s_serve_cb (w_upstream w) ->
  s_state (w_upstream w) <> UPSTREAM_BOOT -> s_state (w_upstream w) <> UPSTREAM_LIVE ->
  (s_state u' = s_state (w_upstream w) \/ published (s_state u')) ->
  s_pending u' = s_pending (w_upstream w) -> s_pending_count u' = s_pending_count (w_upstream w) ->
  (s_state u' = UPSTREAM_LIVE -> s_pending_count u' = 0) ->
  after w (mk_world c' (w_uart w) u' (w_ble w)).
Proof.
  intros [(Hb & Hu & Hc & Ht & Hr) Hrx Hf Hg Hrp Htx] Hc' Hu' Hr' Hf' Hn Hv Hs1 Hs2 Hst Hp Hpc Hl.
  split; [split|split; [|split; [|apply waits_slots]]]; simpl; try done.
  - intros _. unfold registered. simpl. rewrite Hv. by apply Hg.
  - destruct Hst as [->|Hpub]; [done|]. by apply Forall_true.
  - by rewrite Hn.
  - apply slots_kept_refl.
  - rewrite <- Hpc. by right; apply Hl.
Qed.

(** *** A frame *)

(** What [fetch_step] does, by what the session does with the frame. *)
Definition fetched (raw : list Z) (v : Z) (w : world) (r : bool + unit) (w' : world) : Prop :=
  s_nonce (w_upstream w') = s_nonce (w_upstream w) /\ w_uart w' = w_uart w /\ w_ble w' = w_ble w /\
  match up_action_of (w_upstream w) raw v with
  | UpPass => r = inl false /\ w' = w
  | UpStore => r = inl true /\ s_state (w_upstream w') = s_state (w_upstream w)
      /\ frames_of (w_cache w') = (add_spec (frames_of (w_cache w)) v raw).2
  | UpFinish => r = inr tt /\ s_state (w_upstream w') = UPSTREAM_CACHE_READY
      /\ frames_of (w_cache w') = frames_of (w_cache w)
  end.

Lemma fetched_ready raw v w w' :
  fetched raw v w (inr tt) w' -> s_state (w_upstream w') = UPSTREAM_CACHE_READY.
Proof. unfold fetched. by destruct up_action_of; intros (_ & _ & _ & ? & ?); destruct_and?. Qed.

(** The frame is stored, as far as there is room. *)
Lemma after_store w raw v :
  sys_ok w -> frame_size_ok raw -> bytes_ok raw -> s_state (w_upstream w) = UPSTREAM_FETCHING ->
  let u' := account (w_upstream w) v raw in
  exists c', cache_add_frame raw v (w_cache w) = Some ((add_spec (frames_of (w_cache w)) v raw).1, c', [])
    /\ frames_of c' = (add_spec (frames_of (w_cache w)) v raw).2
    /\ after w (mk_world c' (w_uart w) u' (w_ble w)).
Proof.
  intros Hw Hz Hb Hs u'. pose proof Hw as [(_ & Hu & Hc & _ & Hr) _ Hf _ _ _].
  change (up_wf (w_upstream w)) in Hu. change (cache_wf (w_cache w)) in Hc.
  change (ready_agrees (w_cache w) (w_upstream w)) in Hr.
  destruct (cache_add_log (w_cache w) raw v Hc Hb) as (c' & E & Hc' & Hf' & Hr' & _).
  { unfold frame_size_ok, MESHTASTIC_MAX_PAYLOAD in Hz. lia. }
  exists c'. split; [exact E|]. split; [exact Hf'|]. apply after_session; rewrite ?Hs; try done.
  - by destruct Hu; split.
  - unfold ready_agrees, cache_is_ready in *. by rewrite Hr'.
  - rewrite Hf'. apply add_frames_ok; [done|]. exact Hz.
  - by left.
  - intros Hl. change (s_state (w_upstream w) = UPSTREAM_LIVE) in Hl. congruence.
Qed.

(** The config is complete. *)
Lemma after_finish w raw v p :
  sys_ok w -> s_state (w_upstream w) = UPSTREAM_FETCHING ->
  after w (mk_world ((w_cache w) <| s_ready := 1 |>) (w_uart w)
    ((account (w_upstream w) v raw) <| s_p0 := p |> <| s_state := UPSTREAM_CACHE_READY |>) (w_ble w)).
Proof.
  intros Hw Hs. pose proof Hw as [(_ & Hu & Hc & _ & _) _ Hf _ _ _].
  change (up_wf (w_upstream w)) in Hu. change (cache_wf (w_cache w)) in Hc.
  apply after_session; rewrite ?Hs; try done.
  - by destruct Hc.
  - destruct Hu as [? ? _ _ ? Hno]. rewrite Hs in *. split; try done. intros _. by apply Hno.
  - by right; left.
Qed.

Lemma fetch_ok w raw info :
  sys_ok w -> frame_size_ok raw -> bytes_ok raw ->
  exists r w' t, fetch_step raw info w = Some (r, w', t) /\ after w w'
    /\ fetched raw (which_variant info) w r w'.
Proof.
  intros Hw Hz Hb. unfold fetch_step, fetched, up_action_of. rewrite run_zoom_gets. unfold id.
  change (lget (Lens := lens_upstream) w) with (w_upstream w). set (v := which_variant info).
  assert (s_state (w_upstream w) <> UPSTREAM_FETCHING \/ v = FromRadio_packet_tag ->
    ~ (s_state (w_upstream w) = UPSTREAM_FETCHING /\ v <> FromRadio_packet_tag)) as Hpass
    by (intros [] []; contradiction).
  case_decide as Hs.
  { exists (inl false), w, []. split; [done|]. split; [by apply after_refl|]. by rewrite decide_False by auto. }
  case_decide as Hv.
  { exists (inl false), w, []. split; [done|]. split; [by apply after_refl|]. by rewrite decide_False by auto. }
  rewrite (decide_True (P := _ /\ _)) by done.
  destruct (after_store w raw v Hw Hz Hb Hs) as (c' & E & Hf' & Ha). set (store := bind (zoom (modify _)) _).
  assert (store w = Some (inl true, mk_world c' (w_uart w) (account (w_upstream w) v raw) (w_ble w), [])) as Es.
  { subst store. rewrite run_zoom_modify. by erewrite run_zoom by exact E. }
  case_decide as Hv2; [|rewrite decide_False by (by intros []); by eexists _, _, _].
  destruct (decode_config_complete_nonce raw) as [n|];
    [|rewrite decide_False by (by intros []); by eexists _, _, _].
  case_decide as Hn;
    [rewrite decide_False by (intros [_ [= ?]]; by destruct Hn); by eexists _, _, _|].
  rewrite decide_True by by rewrite Hn.
  pose proof (after_finish w raw v ((phase0_account v (zlen raw) (s_p0 (w_upstream w))) <| p0_config_complete_id := n |>)
    Hw Hs) as Hfin.
  eexists _, _, _. split; [|split; [exact Hfin|done]].
  unfold cache_mark_ready. rewrite !run_zoom_modify. reflexivity.
Qed.

(** All waiting phones are served. *)
Definition all_served (w : world) : Prop :=
  s_state (w_upstream w) = UPSTREAM_CACHE_READY /\ s_pending_count (w_upstream w) = 0.

Lemma all_served_stays w w' : all_served w -> wq_rely w w' -> all_served w'.
Proof.
  intros [Hs Hp] Hr. destruct (ready_stays w w' Hs Hr) as (? & _ & Hc & _). split; [done|congruence].
Qed.

Lemma serving_0 w : s_state (w_upstream w) = UPSTREAM_CACHE_READY -> serving 0 w.
Proof. intros Hs. split; [done|apply Forall_nil_2]. Qed.

(** The queue is emptied once every entry is dropped. *)
Lemma after_empty w :
  sys_ok w -> drained w ->
  after w (lset ((w_upstream w) <| s_pending_count := 0 |>) w).
Proof.
  intros Hw [Hs Hn]. pose proof (so_world _ Hw) as (_ & Hu & _).
  apply after_upstream; try done; [|by apply waits_empty].
  destruct Hu as [? ? ? ? ? ?]. split; try done; intros []; exact Hs.
Qed.

Lemma ok_serve_pending_phones w :
  sys_ok w -> serving 0 w -> wq_ok (fun _ => all_served) t_serve_pending_phones w.
Proof.
  intros Hw Hs. unfold t_serve_pending_phones.
  eapply (ok_bind _ _ _ (fun (none : bool) w => serving 0 w /\ (none = true -> all_served w))); [done| |].
  { apply ok_section. intros w1 Hr Hw1. apply (serving_stays _ _ _ Hs) in Hr.
    rewrite run_zoom_gets. eexists _, w1, _. split; [reflexivity|]. split; [by apply after_refl|].
    intros w2 Hr2 _. split; [by apply (serving_stays _ w1)|]. intros Hz%bool_decide_eq_true.
    apply (all_served_stays w1); [|done]. destruct Hr. by split. }
  intros none w1 [Hs1 Hz] Hw1. destruct none.
  { constructor. intros w2 Hr2 _. apply (all_served_stays w1); auto. }
  eapply (ok_bind _ _ _ (fun _ => drained)); [done| |].
  { apply ok_serve_loop; [done|done|by unfold CONFIG_BT_MAX_CONN|unfold CONFIG_BT_MAX_CONN; lia]. }
  intros _ w2 Hs2 Hw2. apply ok_section. intros w3 Hr3 Hw3. apply (drained_stays _ _ Hs2) in Hr3.
  rewrite zoom_modify_eq. eexists _, _, _. split; [reflexivity|].
  split; [by apply after_empty|]. intros w4 Hr4 _. apply (all_served_stays (lset _ w3) w4) in Hr4; [done|].
  destruct Hr3. by split.
Qed.

(** The session goes LIVE. *)
Lemma after_live w :
  sys_ok w -> all_served w -> after w (lset ((w_upstream w) <| s_state := UPSTREAM_LIVE |>) w).
Proof.
  intros Hw [Hs Hz]. assert (pending (w_upstream w) = []) as Hp by (unfold pending; by rewrite Hz). pose proof Hw as [(_ & Hu & Hc & _ & Hr) _ Hf _ _ _].
  apply (after_session w (w_cache w)); rewrite ?Hs; try done.
  - destruct Hu as [? ? _ _ ? Hno]. split; try done.
    + intros _. change (NoDup (pending (w_upstream w))). rewrite Hp. apply NoDup_nil_2.
    + intros _. change (NULL ∉ pending (w_upstream w)). rewrite Hp. apply not_elem_of_nil.
    + intros _. apply Hno. change (s_state (w_upstream w) <> UPSTREAM_BOOT). by rewrite Hs.
  - unfold ready_agrees in *. etrans; [exact Hr|].
    change (lget (Lens := lens_upstream) w) with (w_upstream w). rewrite Hs. done.
  - by right; right.
Qed.

Lemma ok_upstream_on_fromradio raw info w :
  sys_ok w -> frame_size_ok raw -> bytes_ok raw ->
  wq_ok (fun _ _ => True) (t_upstream_on_fromradio raw info) w.
Proof.
  intros Hw Hz Hb. unfold t_upstream_on_fromradio.
  eapply (ok_bind _ _ _ (fun r w => r = inr tt -> s_state (w_upstream w) = UPSTREAM_CACHE_READY)); [done| |].
  { apply ok_section. intros w1 _ Hw1.
    destruct (fetch_ok w1 raw info Hw1 Hz Hb) as (r & w2 & t & E & Ha & Hs).
    exists r, w2, t. split; [done|]. split; [done|]. intros w3 Hr3 _ Er.
    subst r. apply fetched_ready in Hs. by apply (ready_stays w2). }
  intros [taken|[]] w1 Hs1 Hw1; [by constructor|].
  eapply (ok_bind _ _ _ (fun _ => all_served)); [done|apply ok_serve_pending_phones; [done|by apply serving_0, Hs1]|].
  intros _ w2 Hs2 Hw2. eapply (ok_bind _ _ _ (fun _ _ => True)); [done| |by constructor].
  apply ok_section. intros w3 Hr3 Hw3. apply (all_served_stays _ _ Hs2) in Hr3.
  rewrite zoom_modify_eq. eexists _, _, _. split; [reflexivity|]. split; [|done]. by apply after_live.
Qed.

Lemma swallow_eq u :
  upstream_swallow_live_queuestatus u
  = Some (s_keepalive_pending u, u <| s_keepalive_pending := false |>, []).
Proof.
  unfold upstream_swallow_live_queuestatus. rewrite run_gets. unfold id.
  destruct (s_keepalive_pending u) eqn:E; [done|]. destruct u. simpl in E. by subst.
Qed.

Lemma ok_swallow (P : Prop) `{!Decision P} w :
  wq_ok (fun _ _ => True)
    (act (if decide P then zoom upstream_swallow_live_queuestatus else ret false)) w.
Proof.
  apply ok_section. intros w1 _ Hw1. case_decide.
  2: { exists false, w1, []. split; [done|]. split; [by apply after_refl|done]. }
  pose proof (so_world _ Hw1) as (_ & Hu & _).
  eexists _, _, _. split; [apply zoom_eq, swallow_eq|]. split; [|done].
  apply after_upstream; try done; [by destruct Hu|].
  apply waits_slots; auto using slots_kept_refl.
Qed.

(** A proxy packet: the phone that registered its destination gets it. *)
Lemma target_ok raw info p w :
  sys_ok w -> bytes_ok p -> zlen p < 65536 -> payload_len info = zlen p ->
  mem_read (payload_bytes info) 0 (payload_len info) = Some p ->
  exists b w' t, target_step raw info w = Some (b, w', t) /\ after w w'
    /\ match (id ← proxy_dst p; owner id (w_ble w)) with
       | Some (i, _) => b = false /\ delivered i raw w w'
       | None => b = true /\ w' = w
       end.
Proof.
  intros Hw Hb Hz Hl Hp. pose proof (so_world _ Hw) as (Hbw & _). change (ble_wf (w_ble w)) in Hbw.
  destruct (parse_dst _ _ _ Hp Hl ltac:(lia) Hb) as (r & E & Hdst & Hid). rewrite <- Hdst.
  unfold target_step. rewrite E, run_oget.
  destruct r as [hdr|]; simpl; [|eexists _, w, _; split; [reflexivity|split; [by apply after_refl|done]]].
  destruct (route_trace_parsed _ _ _ _ Hp E) as [line Et]. unfold route_trace_dn. rewrite Et, run_oget.
  rewrite run_zoom_gets. unfold id. change (lget (Lens := lens_ble) w) with (w_ble w).
  destruct (lookup_owner (w_ble w) (hdr_dst hdr) Hbw (Hid _ eq_refl)) as [El Ho].
  rewrite El, run_oget. destruct (owner (hdr_dst hdr) (w_ble w)) as [[i pc]|].
  - destruct (Ho i pc eq_refl) as (Hi & Hn & _). rewrite decide_True by done.
    destruct (after_deliver w i pc raw Hw Hi Hn) as (rc & t & Ed & Ha).
    eexists _, _, _. split; [erewrite run_zoom by exact Ed; reflexivity|]. split; [exact Ha|].
    split; [done|]. by exists pc.
  - rewrite decide_False by (intros Hn; by apply Hn). eexists _, w, _.
    split; [reflexivity|split; [by apply after_refl|done]].
Qed.

(** What the dispatcher knows of a proxy packet. *)
Definition info_ok (info : fromradio_info) : Prop :=
  which_variant info = FromRadio_packet_tag -> is_decoded info = true ->
  exists p, bytes_ok p /\ zlen p < 65536 /\ payload_len info = zlen p
    /\ mem_read (payload_bytes info) 0 (payload_len info) = Some p.

Lemma decoded_info_ok raw info : proto_decode_fromradio raw = (rc_ok, info) -> info_ok info.
Proof.
  intros E Hv Hd. pose proof (decode_fromradio_classified raw) as Hcl.
  pose proof (decode_fromradio_payload raw info E) as (_ & _ & Hpl).
  destruct (classify_fromradio raw) as [|v| |pn p].
  - by rewrite E in Hcl.
  - destruct Hcl as [_ Hcl]. rewrite E in Hcl. by injection Hcl as ->.
  - destruct Hcl as (i & Hcl & _ & Hn & _). rewrite E in Hcl. injection Hcl as <-. by rewrite Hn in Hd.
  - destruct Hcl as (i & Hcl & _ & _ & _ & Hm & Hl & Hb). rewrite E in Hcl. injection Hcl as <-.
    exists p. split_and!; try done. lia.
Qed.

Lemma ok_router_dispatch raw info w :
  sys_ok w -> frame_size_ok raw -> bytes_ok raw -> info_ok info ->
  wq_ok (fun _ _ => True) (t_router_dispatch raw info) w.
Proof.
  intros Hw Hz Hb Hi. unfold t_router_dispatch.
  eapply (ok_bind _ _ _ (fun _ _ => True)); [done| |].
  { apply ok_section. intros w1 _ Hw1. exists (upstream_get_state (w_upstream w1)), w1, [].
    split; [by destruct w1|]. split; [by apply after_refl|done]. }
  intros st w1 _ Hw1. eapply (ok_bind _ _ _ (fun _ _ => True)); [done| |].
  { case_decide; [by apply ok_upstream_on_fromradio|by constructor]. }
  intros taken w2 _ Hw2. destruct taken; [by constructor|].
  case_decide as Hv.
  { eapply (ok_bind _ _ _ (fun _ _ => True)); [done|by apply ok_swallow|].
    intros swallowed w3 _ Hw3. destruct swallowed; [by constructor|by apply ok_broadcast]. }
  destruct (is_decoded info) eqn:Hd; [|by apply ok_broadcast]. simpl.
  case_decide; [|by apply ok_broadcast].
  eapply (ok_bind _ _ _ (fun _ _ => True)); [done| |].
  { apply ok_section. intros w3 _ Hw3.
    destruct (Hi Hv Hd) as (p & Hpb & Hpz & Hpl & Hpm).
    destruct (target_ok raw info p w3 Hw3 Hpb Hpz Hpl Hpm) as (b & w4 & t & E & Ha & _).
    by exists b, w4, t. }
  intros to_all w3 _ Hw3. destruct to_all; [by apply ok_broadcast|by constructor].
Qed.

Lemma ok_on_fromradio_uart raw w :
  sys_ok w -> frame_size_ok raw -> bytes_ok raw ->
  wq_ok (fun _ _ => True) (t_on_fromradio_uart raw) w.
Proof.
  intros Hw Hz Hb. unfold t_on_fromradio_uart.
  destruct (proto_decode_fromradio raw) as [err info] eqn:E.
  case_decide as He; [by apply ok_broadcast|]. subst err.
  apply ok_router_dispatch; [done..|]. by eapply decoded_info_ok.
Qed.

(** *** The receiver *)

Lemma after_uart w u' :
  sys_ok w -> uart_tx_ok u' -> rx_side_ok u' -> fromradio_cb_set u' = fromradio_cb_set (w_uart w) ->
  (forall n, Forall (own_session n) (mq_contents (tx_msgq (w_uart w))) ->
     Forall (own_session n) (mq_contents (tx_msgq u'))) ->
  after w (mk_world (w_cache w) u' (w_upstream w) (w_ble w)).
Proof.
  intros Hw Hu Hr Hc Hq. split; [apply sys_ok_uart; [done..|apply Hq, Hw]|].
  split; [by split|split; [apply live_kept_uart|]].
  apply waits_slots; auto using slots_kept_refl.
Qed.

(** Another machine and another ring. *)
Lemma after_rx w sm rb :
  sys_ok w -> zlen (rx_payload sm) = MESHTASTIC_MAX_PAYLOAD -> bytes_ok (rx_payload sm) ->
  zlen (rb_contents rb) <= RING_BUF_SIZE -> bytes_ok (rb_contents rb) ->
  after w (mk_world (w_cache w) ((w_uart w) <| rx_ring_buf := rb |> <| rx_sm := sm |>)
             (w_upstream w) (w_ble w)).
Proof.
  intros Hw Hz Hb Hzr Hbr. pose proof (so_world _ Hw) as (_ & _ & _ & Hu & _).
  apply after_uart; [done|by destruct Hu|by split|done|done].
Qed.

(** What a byte does before the callback. *)
Lemma rx_byte_ok b w :
  rx_ok (rx_sm (w_uart w)) -> bytes_ok (rx_payload (rx_sm (w_uart w))) -> fits 8 b ->
  exists d restart sm,
    rx_byte_step b w
    = Some ((if fromradio_cb_set (w_uart w) then d else None, restart),
            mk_world (w_cache w) ((w_uart w) <| rx_sm := sm |>) (w_upstream w) (w_ble w), [])
    /\ rx_step (rx_sm (w_uart w)) b
       = Some (if (restart : bool) then sm <| rx_st := RX_WAIT_MAGIC1 |> else sm, d)
    /\ zlen (rx_payload sm) = MESHTASTIC_MAX_PAYLOAD /\ bytes_ok (rx_payload sm)
    /\ (restart = false -> rx_ok sm /\ d = None)
    /\ forall x, d = Some x -> frame_size_ok x /\ bytes_ok x.
Proof.
  intros Hm Hb Hf. destruct (rx_step_ok _ b Hm Hf) as (sm & d & E & Hm').
  destruct (rx_step_frames _ b _ _ Hm Hb Hf E) as [Hb' Hd].
  unfold rx_byte_step. rewrite run_zoom_gets. unfold id.
  change (lget (Lens := lens_uart) w) with (w_uart w).
  destruct (decide (rx_st (rx_sm (w_uart w)) = RX_WAIT_PAYLOAD)) as [Hst|Hst].
  - unfold rx_step in E |- *. rewrite Hst in E |- *.
    destruct (mem_set (rx_payload _) _ b) as [p|]; [|done]. simpl in E |- *. rewrite run_oget.
    unfold put_rx. rewrite run_zoom_modify. case_decide as Hn.
    + destruct (mem_read p 0 _) as [x|]; [|done]. simpl in E |- *. injection E as <- <-.
      apply Forall_cons in Hd as [Hd _]. exists (Some x), true.
      destruct (fromradio_cb_set _); [rewrite run_oget|]; eexists; (split; [reflexivity|]);
        split_and!; try done; try apply Hm'; by intros y [= <-].
    + injection E as <- <-. exists None, false. eexists. split; [by destruct (fromradio_cb_set _)|].
      split_and!; try done. apply Hm'.
  - assert (d = None) as ->.
    { unfold rx_step in E. by destruct (rx_st _); try injection E as _ <-. }
    assert (rx_process_byte (W := world) (fun _ => ret tt) b w
      = Some (tt, mk_world (w_cache w) ((w_uart w) <| rx_sm := sm |>) (w_upstream w) (w_ble w), [])) as Ep.
    { erewrite rx_process_byte_eq; [reflexivity|intros _; apply natural_ret|by right|exact E|done]. }
    exists None, false, sm. split; [|split_and!; try done; apply Hm'].
    destruct (rx_st (rx_sm (w_uart w))); try done; erewrite run_bind by exact Ep; by destruct (fromradio_cb_set _).
Qed.

Definition rx_between (r : option (option (list Z) * bool)) (w : world) : Prop :=
  match r with
  | None => rx_ok (rx_sm (w_uart w))
  | Some (d, restart) =>
      (restart = false -> rx_ok (rx_sm (w_uart w)) /\ d = None)
      /\ forall x, d = Some x -> frame_size_ok x /\ bytes_ok x
  end.

Lemma rx_between_stays r w w' : rx_between r w -> wq_rely w w' -> rx_between r w'.
Proof.
  intros Hb [_ Hm _ _]. destruct r as [[d restart]|]; simpl in *; [|by apply Hm].
  destruct Hb as [Hb Hd]. split; [|done]. intros Er. destruct (Hb Er). auto.
Qed.

Lemma ok_rx_turn w :
  sys_ok w -> rx_ok (rx_sm (w_uart w)) ->
  wq_ok (fun _ w => rx_ok (rx_sm (w_uart w))) t_rx_turn w.
Proof.
  intros Hw Hm. unfold t_rx_turn. eapply (ok_bind _ _ _ rx_between); [done| |].
  - apply ok_section. intros w1 [_ Hr _ _] Hw1. specialize (Hr Hm). clear Hm Hw.
    pose proof (so_rx _ Hw1) as [Hz Hp Hzr Hbr].
    rewrite run_zoom_gets. unfold id. change (lget (Lens := lens_uart) w1) with (w_uart w1).
    pose proof (rb_get_ok (rx_ring_buf (w_uart w1))) as Hg. destruct (ring_buf_get1 _) as [[b rb]|].
    2: { exists None, w1, []. split; [done|]. split; [by apply after_refl|]. intros w2 Hr2 _.
         by apply (rx_between_stays None w1). }
    rewrite Hg in Hzr, Hbr. apply Forall_cons in Hbr as [Hb Hbr]. rewrite zlen_cons in Hzr.
    rewrite run_zoom_modify. set (w2 := lset _ w1).
    destruct (rx_byte_ok b w2 Hr Hp Hb) as (d & restart & sm & E & _ & Hz' & Hb' & Hres & Hd).
    eexists _, _, _. split; [by erewrite run_bind by exact E|].
    split; [apply (after_rx w1 sm rb); try done; lia|].
    intros w3 Hr3 _. eapply rx_between_stays; [|exact Hr3].
    destruct (fromradio_cb_set _); [by split|]. split; [intros Er; by destruct (Hres Er)|by intros x [=]].
  - intros r w1 Hb Hw1. destruct r as [[d restart]|]; [|constructor; intros w2 [_ Hr _ _] _; by apply Hr].
    destruct Hb as [Hres Hd].
    eapply (ok_bind _ _ _ (fun _ w => restart = false -> rx_ok (rx_sm (w_uart w)))); [done| |].
    + destruct d as [x|].
      * destruct (Hd x eq_refl) as [Hz Hb]. eapply ok_weaken; [|by apply ok_on_fromradio_uart].
        intros _ w2 _ ->. by destruct (Hres eq_refl).
      * constructor. intros w2 [_ Hr _ _] _ ->. apply Hr. by apply Hres.
    + intros _ w2 Hm2 Hw2.
      eapply (ok_bind _ _ _ (fun _ w => rx_ok (rx_sm (w_uart w)))); [done| |].
      * destruct restart; [|constructor; intros w3 [_ Hr _ _] _; by apply Hr, Hm2].
        apply ok_section. intros w3 _ Hw3. unfold rx_restart. rewrite zoom_modify_eq.
        pose proof (so_rx _ Hw3) as [Hz Hp Hzr Hbr].
        eexists _, _, _. split; [reflexivity|]. split.
        -- by apply (after_rx w3 ((rx_sm (w_uart w3)) <| rx_st := RX_WAIT_MAGIC1 |>)
                       (rx_ring_buf (w_uart w3))).
        -- intros w4 [_ Hr _ _] _. apply Hr. by split.
      * intros _ w3 Hm3 Hw3. constructor. intros w4 [_ Hr _ _] _. by apply Hr.
Qed.

(** *** The transmitter *)

Lemma tx_start_ok err u :
  uart_tx_ok u ->
  exists r u' t, tx_start err u = Some (r, u', t) /\ uart_tx_ok u'
    /\ (exists sent, uart_frames t = frame_of <$> (te_payload <$> sent)
          /\ mq_contents (tx_msgq u) = sent ++ mq_contents (tx_msgq u'))
    /\ rx_sm u' = rx_sm u /\ rx_ring_buf u' = rx_ring_buf u
    /\ fromradio_cb_set u' = fromradio_cb_set u.
Proof.
  intros Hu. pose proof Hu as [Hb Hq Hd]. unfold tx_start. rewrite !run_gets. unfold id.
  destruct (tx_in_progress u); [exists false, u, []; split_and!; try done; by exists []|].
  pose proof (mq_get_ok (tx_msgq u)) as Hg.
  destruct (k_msgq_get _) as [[e q]|]; [|exists false, u, []; split_and!; try done; by exists []].
  rewrite Hg in Hq, Hd |- *. apply Forall_cons in Hq as [[He Hl] Hq].
  destruct (frame_buffer (tx_frame_buf u) (te_payload e))
    as (b0 & b1 & b2 & b3 & b4 & E0 & E1 & E2 & E3 & E4 & Hb4 & Ef); [done|lia|].
  pose proof (zlen_nonneg (te_payload e)).
  rewrite run_modify, He, E0, run_oget, E1, run_oget, E2, run_oget, E3, run_oget.
  rewrite mem_read_0 by lia. unfold zlen at 1. rewrite Nat2Z.id, firstn_all, run_oget, E4, run_oget.
  rewrite run_modify. rewrite Ef, run_oget, run_emit. rewrite zlen_cons in Hd.
  eexists _, _, _. split; [reflexivity|]. split; [split; simpl; [done|done|lia]|].
  split_and!; try done. by exists [e].
Qed.

Lemma ok_tx_work err w :
  sys_ok w -> rx_ok (rx_sm (w_uart w)) ->
  wq_ok (fun _ w => rx_ok (rx_sm (w_uart w))) (t_tx_work_handler err) w.
Proof.
  intros Hw Hm. unfold t_tx_work_handler.
  eapply (ok_bind _ _ _ (fun _ w => rx_ok (rx_sm (w_uart w)))); [done| |].
  - apply ok_section. intros w1 [_ Hr _ _] Hw1. specialize (Hr Hm).
    pose proof (so_world _ Hw1) as (_ & _ & _ & Hu & _). change (uart_tx_ok (w_uart w1)) in Hu.
    pose proof (so_rx _ Hw1) as [Hz Hp Hzr Hbr].
    destruct (tx_start_ok err (w_uart w1) Hu) as (r & u' & t & E & Hu' & Hq & E1 & E2 & E3).
    eexists _, _, _. split; [apply zoom_eq; exact E|]. split.
    + apply after_uart; [done|done|by split; rewrite ?E1, ?E2|done|].
      intros n Ht. destruct Hq as (sent & _ & Hq). rewrite Hq in Ht. by apply Forall_app in Ht as [_ ?].
    + intros w2 [_ Hr2 _ _] _. apply Hr2. simpl. by rewrite E1.
  - intros refused w1 Hm1 Hw1. destruct refused; [|constructor; intros w2 [_ Hr _ _] _; by apply Hr].
    apply ok_section. intros w2 [_ Hr _ _] Hw2. specialize (Hr Hm1).
    pose proof (so_world _ Hw2) as (_ & _ & _ & Hu & _). change (uart_tx_ok (w_uart w2)) in Hu.
    pose proof (so_rx _ Hw2) as [Hz Hp Hzr Hbr].
    eexists tt, (lset ((w_uart w2) <| tx_in_progress := false |>) w2), _.
    split; [apply zoom_eq; reflexivity|]. split.
    + apply after_uart; [done|by destruct Hu|by split|done|done].
    + intros w3 [_ Hr3 _] _. by apply Hr3.
Qed.
End WorkQueue.

