(* ===== verification/BootThread.v ===== *)
(** * BootThread: the main thread among the other threads

    The boot runs with Bluetooth up: phones connect, ask and are broadcast to
    while [main] is still starting the services.  Interrupted at any statement
    it runs to its end and keeps [sys_ok]. *)

From stdpp Require Import prelude.
From S2P Require Import Prelude Tasks ProxyProtocol Nanopb ConfigCache Zephyr UartMeshtastic.
From S2P Require Import ProtoHandler RouteTrace UpstreamSession BleGatt BleReplay Router World Main System Threads WorkQueue.

Local Open Scope Z_scope.

(** ** The boot *)

Section Boot.
Context `{NanopbOk, GattReadOk, !RingBuf RING_BUF_SIZE, !RingBufOk RING_BUF_SIZE}.
Context `{!MsgQ tx_entry TX_QUEUE_DEPTH, !MsgQOk tx_entry TX_QUEUE_DEPTH}.

Abbreviation main_ok := (ok sys_ok main_rely main_guar).

(** What the other threads leave alone. *)
Definition stable (P : world -> Prop) : Prop := forall w w', P w -> main_rely w w' -> P w'.

(** A section of the boot, from what is known before to what is known after. *)
Lemma ok_main_bind {A B} (P : world -> Prop) (P' : A -> world -> Prop) (Q : B -> world -> Prop) m k w :
  stable P -> (forall a, stable (P' a)) -> P w -> sys_ok w ->
  (forall w1, P w1 -> sys_ok w1 -> exists a w2 t,
     m w1 = Some (a, w2, t) /\ sys_ok w2 /\ main_guar w1 w2 /\ P' a w2) ->
  (forall a w2, P' a w2 -> sys_ok w2 -> main_ok Q (k a) w2) ->
  main_ok Q (tbind (act m) k) w.
Proof.
  intros Hst Hst' Hp Hw Hm Hk. eapply (ok_bind _ _ _ P'); [done| |done].
  apply ok_act. intros w1 Hr Hw1. destruct (Hm w1 (Hst _ _ Hp Hr) Hw1) as (a & w2 & t & E & Hw2 & Hg & Hp').
  exists a, w2, t. split_and!; try done. intros w3 Hr3 _. by apply (Hst' a w2).
Qed.

Lemma main_guar_refl w : main_guar w w.
Proof. split; [reflexivity|apply live_kept_refl]. Qed.

(** The kernel is told something. *)
Lemma ok_main_emit {B} (P : world -> Prop) (Q : B -> world -> Prop) (m : M world unit) k w :
  stable P -> P w -> sys_ok w -> (forall w1, exists t, m w1 = Some (tt, w1, t)) ->
  (forall w2, P w2 -> sys_ok w2 -> main_ok Q (k tt) w2) ->
  main_ok Q (tbind (act m) k) w.
Proof.
  intros Hst Hp Hw Hm Hk. eapply (ok_main_bind P (fun _ => P)); try done; [|by intros []].
  intros w1 Hp1 Hw1. destruct (Hm w1) as [t E]. exists tt, w1, t. split_and!; try done. apply main_guar_refl.
Qed.

(** Something is read or computed. *)
Lemma ok_main_read {A B} (P : world -> Prop) (f : A -> Prop) (Q : B -> world -> Prop) m k w :
  stable P -> P w -> sys_ok w -> (forall w1, P w1 -> exists a, m w1 = Some (a, w1, []) /\ f a) ->
  (forall a w2, f a -> P w2 -> sys_ok w2 -> main_ok Q (k a) w2) ->
  main_ok Q (tbind (act m) k) w.
Proof.
  intros Hst Hp Hw Hm Hk. eapply (ok_main_bind P (fun a w => f a /\ P w)); try done.
  - intros a w1 w2 [Ha Hp1] Hr. split; [done|by apply (Hst w1)].
  - intros w1 Hp1 Hw1. destruct (Hm w1 Hp1) as (a & E & Ha). exists a, w1, [].
    split_and!; try done. apply main_guar_refl.
  - intros a w2 [Ha Hp2] Hw2. by apply Hk.
Qed.

(** Until the session starts: the registrations so far, the nonce, and no
    want_config in the queue. *)
Record booting (h sv cb : bool) (n : Z) (w : world) : Prop := {
  bo_state : s_state (w_upstream w) = UPSTREAM_BOOT;
  bo_handler : toradio_handler_set (w_ble w) = h;
  bo_serve : s_serve_cb (w_upstream w) = sv;
  bo_callback : fromradio_cb_set (w_uart w) = cb;
  bo_nonce : s_nonce (w_upstream w) = n;
  bo_tx : forall m, Forall (own_session m) (mq_contents (tx_msgq (w_uart w)));
}.
Lemma booting_stable h sv cb n : stable (booting h sv cb n).
Proof.
  intros w w' [Hs Hh Hv Hc Hn Ht] [Hs' Hn' Hh' Hv' Hc' Ht']. split; try congruence; auto.
Qed.

(** Nothing that happens in the BOOT state is noticed by the work queue. *)
Lemma boot_section w w' :
  sys_ok w -> s_state (w_upstream w) = UPSTREAM_BOOT ->
  world_ok w' -> rx_side_ok (w_uart w') -> Forall (fun f => frame_size_ok f.2) (frames_of (w_cache w')) ->
  s_state (w_upstream w') = UPSTREAM_BOOT
  \/ s_state (w_upstream w') = UPSTREAM_FETCHING /\ registered w' ->
  conns (w_ble w') = conns (w_ble w) ->
  Forall (own_session (s_nonce (w_upstream w'))) (mq_contents (tx_msgq (w_uart w'))) ->
  (rx_ok (rx_sm (w_uart w)) -> rx_ok (rx_sm (w_uart w'))) ->
  sys_ok w' /\ main_guar w w'.
Proof.
  intros Hw Hs Ho Hr Hf Hst Hc Ht Hm. split; [split; try done|split; [split; try done|]].
  - destruct Hst as [->|[_ Hg]]; [done|by intros _].
  - rewrite Hc. pose proof (so_replaying _ Hw) as Hp. rewrite Hs in Hp.
    eapply Forall_impl; [exact Hp|]. intros pc Hq Hpc. by destruct (Hq Hpc).
  - intros Hp. rewrite Hs in Hp. by destruct Hp.
  - by rewrite Hs; intros [].
  - intros Hl. by rewrite Hs in Hl.
Qed.

Lemma boot_uart w u' :
  sys_ok w -> s_state (w_upstream w) = UPSTREAM_BOOT -> uart_tx_ok u' -> rx_side_ok u' ->
  Forall (own_session (s_nonce (w_upstream w))) (mq_contents (tx_msgq u')) ->
  (rx_ok (rx_sm (w_uart w)) -> rx_ok (rx_sm u')) ->
  sys_ok (mk_world (w_cache w) u' (w_upstream w) (w_ble w))
  /\ main_guar w (mk_world (w_cache w) u' (w_upstream w) (w_ble w)).
Proof.
  intros Hw Hs Hu Hr Ht Hm. pose proof (so_world _ Hw) as (? & ? & ? & ? & ?).
  apply boot_section; try done; [apply Hw|by left].
Qed.

Lemma boot_upstream w s' :
  sys_ok w -> s_state (w_upstream w) = UPSTREAM_BOOT -> up_wf s' ->
  s_state s' = UPSTREAM_BOOT \/ s_state s' = UPSTREAM_FETCHING
    /\ registered (mk_world (w_cache w) (w_uart w) s' (w_ble w)) ->
  Forall (own_session (s_nonce s')) (mq_contents (tx_msgq (w_uart w))) ->
  sys_ok (mk_world (w_cache w) (w_uart w) s' (w_ble w))
  /\ main_guar w (mk_world (w_cache w) (w_uart w) s' (w_ble w)).
Proof.
  intros Hw Hs Hu Hst Ht. pose proof (so_world _ Hw) as (? & ? & ? & ? & Hr).
  apply boot_section; try done; [|apply Hw..].
  split_and!; try done. unfold ready_agrees in *. etrans; [exact Hr|].
  change (lget (Lens := lens_upstream) w) with (w_upstream w). rewrite Hs.
  simpl. by destruct Hst as [->|[-> _]].
Qed.

(** A statement that sets variables of the UART module, or of the session. *)
Lemma ok_main_uart {B} h sv cb cb' n (f : uart -> uart) (Q : B -> world -> Prop) k w :
  sys_ok w -> booting h sv cb n w ->
  (forall u, uart_tx_ok u -> uart_tx_ok (f u)) -> (forall u, rx_side_ok u -> rx_side_ok (f u)) ->
  (forall u, rx_ok (rx_sm u) -> rx_ok (rx_sm (f u))) -> (forall u, tx_msgq (f u) = tx_msgq u) ->
  (forall u, fromradio_cb_set u = cb -> fromradio_cb_set (f u) = cb') ->
  (forall w2, booting h sv cb' n w2 -> sys_ok w2 -> main_ok Q (k tt) w2) ->
  main_ok Q (tbind (act (zoom (modify f))) k) w.
Proof.
  intros Hw Hb Hu Hr Hm Hq Hc Hk.
  eapply (ok_main_bind _ (fun _ => booting h sv cb' n)); [apply booting_stable|intros _; apply booting_stable
    |exact Hb|done| |by intros []].
  intros w1 [Hs Hh Hv Hcb Hn Ht] Hw1. pose proof (so_world _ Hw1) as (_ & _ & _ & Htx & _).
  destruct (boot_uart w1 (f (w_uart w1))) as [Hw2 Hg]; [done|done|by apply Hu|by apply Hr, Hw1
    |rewrite Hq; apply Ht|apply Hm|].
  eexists tt, _, []. split; [apply zoom_modify_eq|]. split; [exact Hw2|]. split; [exact Hg|].
  split; try done; simpl; [by apply Hc|]. by rewrite Hq.
Qed.

Lemma ok_main_upstream {B} h sv sv' cb n n' (f : upstream -> upstream) (Q : B -> world -> Prop) k w :
  sys_ok w -> booting h sv cb n w ->
  (forall u, s_state u = UPSTREAM_BOOT -> up_wf u -> up_wf (f u)) -> (forall u, s_state (f u) = s_state u) ->
  (forall u, s_serve_cb u = sv -> s_serve_cb (f u) = sv') -> (forall u, s_nonce u = n -> s_nonce (f u) = n') ->
  (forall w2, booting h sv' cb n' w2 -> sys_ok w2 -> main_ok Q (k tt) w2) ->
  main_ok Q (tbind (act (zoom (modify f))) k) w.
Proof.
  intros Hw Hb Hu Hst Hsv Hnn Hk.
  eapply (ok_main_bind _ (fun _ => booting h sv' cb n')); [apply booting_stable|intros _; apply booting_stable
    |exact Hb|done| |by intros []].
  intros w1 [Hs Hh Hv Hcb Hn Ht] Hw1. pose proof (so_world _ Hw1) as (_ & Hup & _).
  destruct (boot_upstream w1 (f (w_upstream w1))) as [Hw2 Hg]; [done|done|by apply Hu
    |left; by rewrite Hst|apply Ht|].
  eexists tt, _, []. split; [apply zoom_modify_eq|]. split; [exact Hw2|]. split; [exact Hg|].
  split; try done; simpl; [by rewrite Hst|by apply Hsv|by apply Hnn].
Qed.

Lemma ok_uart_init env sv n w :
  sys_ok w -> booting true sv false n w ->
  main_ok (fun _ => booting true sv true n) (t_uart_meshtastic_init env) w.
Proof.
  intros Hw Hb. unfold t_uart_meshtastic_init.
  assert (forall {B} (Q : B -> world -> Prop) e k w1, booting true sv true n w1 -> sys_ok w1 ->
    (forall w2, booting true sv true n w2 -> sys_ok w2 -> main_ok Q (k tt) w2) ->
    main_ok Q (tbind (act (zoom (emit e : M uart unit))) k) w1) as Hemit.
  { intros B Q e k w1 Hb1 Hw1. eapply ok_main_emit; [apply booting_stable|exact Hb1|done|].
    intros w2. exists [e]. by destruct w2. }
  assert (forall r w1, booting true sv true n w1 -> main_ok (fun (_ : rc) => booting true sv true n) (Done r) w1)
    as Hdone by (intros r w1 Hb1; constructor; intros w2 Hr _; by apply (booting_stable _ _ _ _ w1)).
  assert (forall {B} (Q : B -> world -> Prop) cb f k w1, booting true sv cb n w1 -> sys_ok w1 ->
    (forall u, uart_tx_ok u -> uart_tx_ok (f u)) -> (forall u, rx_side_ok u -> rx_side_ok (f u)) ->
    (forall u, rx_ok (rx_sm u) -> rx_ok (rx_sm (f u))) -> (forall u, tx_msgq (f u) = tx_msgq u) ->
    (forall u, fromradio_cb_set u = cb -> fromradio_cb_set (f u) = true) ->
    (forall w2, booting true sv true n w2 -> sys_ok w2 -> main_ok Q (k tt) w2) ->
    main_ok Q (tbind (act (zoom (modify f))) k) w1) as Hset by (intros; by eapply ok_main_uart).
  eapply Hset; [exact Hb|done|by intros u []; split..|done|done|]. clear w Hw Hb. intros w Hb Hw.
  eapply Hset; [exact Hb|done|by intros u []; split..|done|done|]. clear w Hw Hb. intros w Hb Hw.
  eapply Hset; [exact Hb|done|by intros u []; split..|done|done|]. clear w Hw Hb. intros w Hb Hw.
  eapply (ok_bind _ _ _ (fun _ => booting true sv true n)); [done| |clear w Hw Hb; intros _ w Hb Hw].
  { assert (main_ok (fun _ => booting true sv true n) (Done tt) w) as Hend
      by (constructor; intros w2 Hr _; by apply (booting_stable _ _ _ _ w)).
    destruct (ui_leds_ready env); [|done].
    apply Hemit; [done..|]. clear w Hw Hb Hend. intros w Hb Hw.
    apply Hemit; [done..|]. clear w Hw Hb. intros w Hb Hw.
    apply ok_act. intros w1 Hr Hw1. exists tt, w1. eexists. split; [by destruct w1|].
    split; [done|]. split; [apply main_guar_refl|]. intros w2 Hr2 _.
    apply (booting_stable _ _ _ _ w1); [by apply (booting_stable _ _ _ _ w)|done]. }
  destruct (negb _); [by apply Hdone|]. apply Hemit; [done..|]. clear w Hw Hb. intros w Hb Hw.
  case_decide; [by apply Hdone|].
  eapply Hset; [exact Hb|done|by intros u []; split..|done|done|]. clear w Hw Hb. intros w Hb Hw.
  apply Hemit; [done..|]. clear w Hw Hb. intros w Hb Hw. case_decide; by apply Hdone.
Qed.

(** Ready to fetch: the want_config is queued. *)
Record asked (w : world) : Prop := {
  as_state : s_state (w_upstream w) = UPSTREAM_BOOT;
  as_registered : registered w;
  as_nonce : nonce_ok (s_nonce (w_upstream w));
}.
Lemma asked_stable : stable asked.
Proof.
  intros w w' [Hs (Hh & Hv & Hc) Hn] [Hs' Hn' Hh' Hv' Hc' _]. split; [by apply Hs'| |by rewrite Hn'].
  unfold registered. split_and!; congruence.
Qed.
Lemma true_stable : stable (fun _ => True).
Proof. by intros w w'. Qed.

(** The end of [upstream_session_start], once the want_config is queued. *)
Lemma ok_session_fetch w :
  sys_ok w -> asked w ->
  main_ok (fun _ _ => True)
    (act (zoom (modify (fun u : upstream => u <| s_state := UPSTREAM_FETCHING |>))) ;;~
     act (emit IoKeepaliveInit) ;;~
     act (zoom (modify (fun u : upstream => u <| s_keepalive_armed := true |>))) ;;~
     act (emit (IoKeepalive UPSTREAM_KEEPALIVE_MS))) w.
Proof.
  intros Hw Ha.
  eapply (ok_main_bind _ (fun _ _ => True)); [apply asked_stable|intros _; apply true_stable|exact Ha|done| |].
  { intros w1 [Hs Hg Hn] Hw1. pose proof (so_world _ Hw1) as (_ & Hu & _).
    destruct (boot_upstream w1 ((w_upstream w1) <| s_state := UPSTREAM_FETCHING |>)) as [Hw2 Hgu]; try done.
    - destruct Hu as [? ? Hnd Hnn ? _]. split; try done.
      + intros _. apply Hnd. change (s_state (w_upstream w1) <> UPSTREAM_CACHE_READY). by rewrite Hs.
      + intros _. apply Hnn. change (s_state (w_upstream w1) <> UPSTREAM_CACHE_READY). by rewrite Hs.
    - by right.
    - apply Hw1.
    - eexists tt, _, []. split; [apply zoom_modify_eq|]. by split_and!. }
  clear w Hw Ha. intros [] w _ Hw.
  eapply ok_main_emit; [apply true_stable|done|done|intros w1; by eexists|]. clear w Hw. intros w _ Hw.
  eapply (ok_main_bind _ (fun _ _ => True)); [apply true_stable|intros _; apply true_stable|done|done| |].
  { intros w1 _ Hw1. pose proof (so_world _ Hw1) as (_ & Hu & _).
    destruct (after_upstream w1 ((w_upstream w1) <| s_keepalive_armed := true |>)) as [Hw2 (_ & Hl & _)]; try done.
    { by destruct Hu. }
    { apply waits_slots; auto using slots_kept_refl. }
    eexists tt, _, []. split; [apply zoom_modify_eq|]. split; [exact Hw2|]. split; [|done]. split; [split; try done; intros _; apply waits_kept_refl|exact Hl]. }
  clear w Hw. intros [] w _ Hw. apply ok_act. intros w1 _ Hw1. eexists tt, w1, _. split; [done|].
  split; [done|]. split; [apply main_guar_refl|done].
Qed.

(** The cache is reset. *)
Lemma boot_cache h sv cb n w :
  sys_ok w -> booting h sv cb n w ->
  exists w' t, zoom cache_begin w = Some (tt, w', t) /\ sys_ok w' /\ main_guar w w'
    /\ booting h sv cb n w'.
Proof.
  intros Hw Hb. pose proof Hb as [Hs _ _ _ _ _].
  pose proof (so_world _ Hw) as (Hbl & Hup & Hc & Htx & Hrd).
  destruct (boot_section w (lset (cache_cleared (w_cache w)) w)) as [Hw2 Hg]; try done.
  - split_and!; try done; [by apply cache_begin_wf|]. unfold ready_agrees. simpl. by rewrite Hs.
  - apply Hw.
  - by left.
  - apply Hw.
  - eexists _, []. split; [apply zoom_eq, cache_begin_eq|]. split_and!; try done. by destruct Hb.
Qed.

(** The want_config is queued, or refused. *)
Lemma boot_ask n p w :
  sys_ok w -> booting true true true n w -> nonce_ok n -> zlen p <= 16 ->
  pb_decode_ToRadio p = Some (msg_want_config n) ->
  exists r w' t, zoom (uart_meshtastic_tx p) w = Some (r, w', t) /\ sys_ok w' /\ main_guar w w'
    /\ asked w'.
Proof.
  intros Hw Hb Hno Hz Hd. pose proof Hb as [Hs Hh Hv Hcb Hn Ht].
  pose proof (so_world _ Hw) as (_ & _ & _ & Htx & _). change (uart_tx_ok (w_uart w)) in Htx.
  pose proof (uart_meshtastic_tx_eq p (w_uart w) Htx) as Hq.
  rewrite decide_False in Hq by (unfold MESHTASTIC_MAX_PAYLOAD; lia). case_decide.
  - exists (rc_err ENOMEM), w, []. split; [erewrite zoom_eq by exact Hq; by destruct w|].
    split; [done|]. split; [apply main_guar_refl|]. split; [done|by split_and!|by rewrite Hn].
  - destruct Hq as (q & Hq & Hok & E).
    destruct (boot_uart w ((w_uart w) <| tx_msgq := q |>)) as [Hw2 Hg]; try done.
    + by destruct (so_rx _ Hw).
    + simpl. rewrite Hq. apply Forall_app_2; [apply Ht|]. apply Forall_singleton.
      intros m. simpl. rewrite Hn. by apply want_config_nonce.
    + eexists _, _, _. split; [apply zoom_eq; exact E|]. split; [done|]. split; [exact Hg|].
      split; [done|by split_and!|]. simpl. by rewrite Hn.
Qed.

Lemma ok_session_start rand w :
  sys_ok w -> fits 32 rand -> booting true true true 0 w ->
  main_ok (fun _ _ => True) (t_upstream_session_start rand) w.
Proof.
  intros Hw Hr Hb. destruct (want_config_ok rand Hr) as (p & b & Ep & Ew & Er & Hl & Hd).
  unfold t_upstream_session_start.
  eapply (ok_main_upstream _ _ true _ _ rand); [done|exact Hb|by intros u ? []; split|done|done|done|].
  clear w Hw Hb. intros w Hb Hw.
  eapply (ok_main_upstream _ _ true _ _ (boot_nonce rand)); [done|exact Hb| | | | |].
  { intros u Hs []. case_decide; by split. }
  { intros u. by case_decide. }
  { intros u <-. by case_decide. }
  { intros u <-. unfold boot_nonce. by case_decide. }
  clear w Hw Hb. intros w Hb Hw. set (B := booting true true true (boot_nonce rand)) in *.
  eapply (ok_main_read B (fun u => s_nonce u = boot_nonce rand)); [apply booting_stable|exact Hb|done| |].
  { intros w1 Hb1. exists (w_upstream w1). split; [by destruct w1|apply Hb1]. }
  clear w Hw Hb. intros u w Hu Hb Hw. rewrite Hu.
  change (to_radio_init_zero <| tr_which := _ |> <| tr_want_config_id := _ |>)
    with (msg_want_config (boot_nonce rand)). rewrite Ep, Ew.
  eapply (ok_main_read B (eq b)); [apply booting_stable|exact Hb|done|intros w1 _; by exists b|].
  clear w Hw Hb. intros ? w <- Hb Hw. cbn [negb].
  eapply (ok_main_bind B (fun _ => B)); [apply booting_stable|intros _; apply booting_stable|exact Hb|done| |].
  { intros w1 Hb1 Hw1. exists tt. by apply boot_cache. }
  clear w Hw Hb. intros [] w Hb Hw.
  eapply ok_main_upstream; [done|exact Hb|by intros v ? []; split|done|done|done|].
  clear w Hw Hb. intros w Hb Hw.
  eapply ok_main_upstream; [done|exact Hb| |done|done|done|].
  { intros v Hs [? ? ? ? ? ?]. split; try done; intros _; unfold pending; simpl;
      [apply NoDup_nil_2|apply not_elem_of_nil]. }
  clear w Hw Hb. intros w Hb Hw. rewrite Er.
  eapply (ok_main_read B (eq p)); [apply booting_stable|exact Hb|done|intros w1 _; by exists p|].
  clear w Hw Hb. intros ? w <- Hb Hw.
  eapply (ok_main_bind B (fun _ => asked)); [apply booting_stable|intros _; apply asked_stable|exact Hb|done| |].
  { intros w1 Hb1 Hw1. apply (boot_ask (boot_nonce rand)); [done|done|by apply boot_nonce_ok|lia|done]. }
  clear w Hw Hb. intros rc w Ha Hw. case_decide; [by constructor|]. by apply ok_session_fetch.
Qed.

Lemma power_on_ok : sys_ok world_boot /\ booting false false false 0 world_boot.
Proof.
  destruct (boot_worlds_ok world_boot) as (_ & _ & _ & _ & _); [by split_and!|].
  split; [split|split]; try done.
  - split_and!; [apply ble_boot_wf|apply upstream_boot_wf|apply cache_init_wf|apply uart_boot_tx_ok|done].
  - split; simpl; rewrite ?rb_empty_ok; by try by_eval.
  - repeat (apply Forall_cons_2; [done|]). apply Forall_nil_2.
  - simpl. rewrite mq_empty_ok. apply Forall_nil_2.
  - intros m. simpl. rewrite mq_empty_ok. apply Forall_nil_2.
Qed.

Lemma ok_t_main env w :
  sys_ok w -> fits 32 (be_rand env) -> booting false false false 0 w ->
  main_ok (fun _ _ => True) (t_main env) w.
Proof.
  intros Hw Hr Hb. unfold t_main. set (B := booting true false false 0).
  eapply (ok_main_bind _ (fun r w => r = rc_ok /\ B w)); [apply booting_stable| |exact Hb|done| |].
  { intros r w1 w2 [-> Hb1] Hr2. split; [done|by apply (booting_stable _ _ _ _ w1)]. }
  { intros w1 Hb1 Hw1. pose proof Hb1 as [Hs _ _ _ _ _].
    pose proof (so_world _ Hw1) as (Hbl & Hup & Hc & Htx & Hrd).
    destruct (boot_section w1 (lset ((w_ble w1) <| toradio_handler_set := true |>) w1)) as [Hw2 Hg]; try done;
      try apply Hw1; [|by left|].
    { split_and!; try done. by destruct Hbl. }
    eexists _, _, _. split; [apply zoom_eq, ble_init_eq|]. split; [done|]. split; [exact Hg|].
    split; [done|]. by destruct Hb1. }
  clear w Hw Hb. intros ? w [-> Hb] Hw. rewrite decide_False by (by intros []).
  eapply ok_main_emit; [apply booting_stable|exact Hb|done|intros w1; by eexists|].
  clear w Hw Hb. intros w Hb Hw. case_decide; [by constructor|].
  eapply (ok_main_bind B (fun _ => B)); [apply booting_stable|intros _; apply booting_stable|exact Hb|done| |].
  { intros w1 Hb1 Hw1. eexists _, w1, _. split; [|split; [done|split; [apply main_guar_refl|done]]].
    erewrite zoom_eq by apply start_advertising_run. by rewrite lset_lget. }
  clear w Hw Hb. intros err w Hb Hw. case_decide; [by constructor|].
  eapply (ok_bind _ _ _ (fun _ => booting true false true 0)); [done|by apply ok_uart_init|].
  clear w Hw Hb. intros r w Hb Hw. case_decide; [by constructor|].
  eapply (ok_main_upstream _ _ true _ _ 0); [done|exact Hb|by intros v ? []; split|done|done|done|].
  clear w Hw Hb. intros w Hb Hw.
  eapply (ok_bind _ _ _ (fun _ _ => True)); [done|by apply ok_session_start|]. by constructor.
Qed.
End Boot.
