(* ===== verification/Schedule.v ===== *)
(** * Schedule: every interleaving of the threads

    [cstep] is a step of one thread, or of the interrupt, labelled with the event
    it serves, if any.  [creachable] are the configurations
    any schedule leads to from power-on, the boot included.  The invariant
    [sys_ok] of System holds at every cut; what a thread knows across a cut is
    kept by the rely-guarantee judgements of WorkQueue and BootThread. *)

From stdpp Require Import prelude.
From S2P Require Import Prelude Tasks ProxyProtocol Nanopb ConfigCache Zephyr UartMeshtastic.
From S2P Require Import ProtoHandler RouteTrace UpstreamSession BleGatt BleReplay Router World Main System Threads WorkQueue BootThread Locks.

Local Open Scope Z_scope.

(** ** Configurations *)

Section Schedule.
Context `{Nanopb, GattRead, !RingBuf RING_BUF_SIZE, !MsgQ tx_entry TX_QUEUE_DEPTH}.

(** The work queue is idle, runs a work item, or is in a turn of the loop of
    [rx_work_handler]. *)
Inductive wq_state :=
  | WqIdle
  | WqRun (p : task world unit)
  | WqRx (p : task world bool).

Record config := mk_config {
  cf_world : world;
  cf_wq : wq_state;
  cf_main : task world (option rc);
}.

(** The events whose handler is one section, and those of them that are work
    items. *)
Definition one_section (e : event) : bool :=
  match e with EvRxWork | EvTxWork _ => false | _ => true end.
Definition work_item (e : event) : bool :=
  match e with EvKeepalive | EvBleLeds | EvUartLeds => true | _ => false end.

(** A step of the Bluetooth thread, the interrupt or a short work item; of the
    work queue; of the main thread.  [t] are the calls the step makes. *)
Inductive cstep : config -> option event -> list io -> config -> Prop :=
  | cs_event w q m e w' t :
      one_section e = true -> (work_item e = true -> q = WqIdle) -> enabled w e ->
      step e w = Some (tt, w', t) ->
      cstep (mk_config w q m) (Some e) t (mk_config w' q m)
  | cs_tx w m tx_err :
      cstep (mk_config w WqIdle m) None [] (mk_config w (WqRun (t_tx_work_handler tx_err)) m)
  | cs_run w s p w' m t :
      s w = Some (p, w', t) ->
      cstep (mk_config w (WqRun (Sect s)) m) None t (mk_config w' (WqRun p) m)
  | cs_run_end w m : cstep (mk_config w (WqRun (Done tt)) m) None [] (mk_config w WqIdle m)
  | cs_rx w m : cstep (mk_config w WqIdle m) None [] (mk_config w (WqRx t_rx_turn) m)
  | cs_rx_run w s p w' m t :
      s w = Some (p, w', t) ->
      cstep (mk_config w (WqRx (Sect s)) m) None t (mk_config w' (WqRx p) m)
  | cs_rx_next w m :
      cstep (mk_config w (WqRx (Done true)) m) None [] (mk_config w (WqRx t_rx_turn) m)
  | cs_rx_end w m : cstep (mk_config w (WqRx (Done false)) m) None [] (mk_config w WqIdle m)
  | cs_main w q s p w' t :
      s w = Some (p, w', t) ->
      cstep (mk_config w q (Sect s)) None t (mk_config w' q p).

Definition power_on (env : boot_env) : config := mk_config world_boot WqIdle (t_main env).

Inductive creachable : config -> Prop :=
  | cr_power_on env : fits 32 (be_rand env) -> creachable (power_on env)
  | cr_step cf a t cf' : creachable cf -> cstep cf a t cf' -> creachable cf'.

(** A section a thread has to run next. *)
Definition next_section (cf : config) (runs : Prop) : Prop :=
  (exists s, cf_wq cf = WqRun (Sect s) /\ runs = is_Some (s (cf_world cf)))
  \/ (exists s, cf_wq cf = WqRx (Sect s) /\ runs = is_Some (s (cf_world cf)))
  \/ (exists s, cf_main cf = Sect s /\ runs = is_Some (s (cf_world cf))).
End Schedule.

(** ** Running a schedule *)

Section Run.
Context `{Nanopb, GattRead, !RingBuf RING_BUF_SIZE, !MsgQ tx_entry TX_QUEUE_DEPTH}.

(** Who goes next: an event of one section, a work item, the work queue or the
    main thread with its next section. *)
Inductive choice :=
  | ChEvent (e : event)
  | ChTx (tx_err : rc)
  | ChRx
  | ChWq
  | ChMain.

Definition wq_idle (q : wq_state) : bool := match q with WqIdle => true | _ => false end.

(** The step, with its event and its calls. *)
Definition choose_out (ch : choice) (cf : config) : option (option event * list io * config) :=
  let '(mk_config w q m) := cf in
  match ch with
  | ChEvent e =>
      if one_section e && (negb (work_item e) || wq_idle q) then
        if decide (enabled w e) then
          match step e w with Some (_, w', t) => Some (Some e, t, mk_config w' q m) | None => None end
        else None
      else None
  | ChTx err =>
      if wq_idle q then Some (None, [], mk_config w (WqRun (t_tx_work_handler err)) m) else None
  | ChRx => if wq_idle q then Some (None, [], mk_config w (WqRx t_rx_turn) m) else None
  | ChWq =>
      match q with
      | WqIdle => None
      | WqRun (Done _) => Some (None, [], mk_config w WqIdle m)
      | WqRun (Sect s) =>
          match s w with Some (p, w', t) => Some (None, t, mk_config w' (WqRun p) m) | None => None end
      | WqRx (Done more) => Some (None, [], mk_config w (if more then WqRx t_rx_turn else WqIdle) m)
      | WqRx (Sect s) =>
          match s w with Some (p, w', t) => Some (None, t, mk_config w' (WqRx p) m) | None => None end
      end
  | ChMain =>
      match m with
      | Done _ => None
      | Sect s => match s w with Some (p, w', t) => Some (None, t, mk_config w' q p) | None => None end
      end
  end.
Definition choose (ch : choice) (cf : config) : option config := snd <$> choose_out ch cf.
Fixpoint run_schedule (chs : list choice) (cf : config) : option config :=
  match chs with
  | [] => Some cf
  | ch :: chs => cf ← choose ch cf; run_schedule chs cf
  end.

Lemma choose_out_step ch cf a t cf' : choose_out ch cf = Some (a, t, cf') -> cstep cf a t cf'.
Proof.
  destruct cf as [w q m], ch as [e|err| | |]; simpl.
  - destruct (one_section e && _) eqn:Eb; [|done].
    apply andb_true_iff in Eb as [H1 H2]. case_decide as He; [|done].
    destruct (step e w) as [[[[] w'] t']|] eqn:E; [|done]. intros [= <- <- <-].
    apply cs_event; try done. intros Hwi. rewrite Hwi in H2. by destruct q.
  - destruct q; try done. intros [= <- <- <-]. apply cs_tx.
  - destruct q; try done. intros [= <- <- <-]. apply cs_rx.
  - destruct q as [|[[]|s]|[[]|s]]; simpl; try done; try (intros [= <- <- <-]; by constructor);
      destruct (s w) as [[[p w'] t']|] eqn:E; try done; intros [= <- <- <-]; by econstructor.
  - destruct m as [r|s]; [done|]. destruct (s w) as [[[p w'] t']|] eqn:E; [|done]. intros [= <- <- <-].
    by apply cs_main.
Qed.
Lemma choose_step ch cf cf' : choose ch cf = Some cf' -> exists a t, cstep cf a t cf'.
Proof.
  unfold choose. destruct (choose_out ch cf) as [[[a t] cf1]|] eqn:E; [|done]. intros [= <-].
  exists a, t. by apply (choose_out_step ch).
Qed.

Lemma run_schedule_reach chs cf cf' : creachable cf -> run_schedule chs cf = Some cf' -> creachable cf'.
Proof.
  revert cf. induction chs as [|ch chs IH]; intros cf Hc; simpl; [by intros [= <-]|].
  destruct (choose ch cf) as [cf1|] eqn:E; [|done]. simpl. apply IH.
  destruct (choose_step ch cf cf1 E) as (a & t & Hs). by eapply cr_step.
Qed.
End Run.

(** ** The invariant *)

Section Invariant.
Context `{NanopbOk, GattReadOk, !RingBuf RING_BUF_SIZE, !RingBufOk RING_BUF_SIZE}.
Context `{!MsgQ tx_entry TX_QUEUE_DEPTH, !MsgQOk tx_entry TX_QUEUE_DEPTH}.

(** The receive machine is in a good state whenever the work queue is done. *)
Definition wq_runs {A} : task world A -> world -> Prop :=
  ok sys_ok wq_rely wq_guar (fun _ w => rx_ok (rx_sm (w_uart w))).
Definition main_runs : task world (option rc) -> world -> Prop :=
  ok sys_ok main_rely main_guar (fun _ _ => True).

Lemma wq_runs_stable {A} (p : task world A) w w' : wq_runs p w -> wq_rely w w' -> wq_runs p w'.
Proof. intros Hp Hr. exact (ok_stable _ _ _ _ _ _ _ Hp Hr). Qed.
Lemma main_runs_stable p w w' : main_runs p w -> main_rely w w' -> main_runs p w'.
Proof. intros Hp Hr. exact (ok_stable _ _ _ _ _ _ _ Hp Hr). Qed.
Lemma wq_runs_done {A} (a : A) w : wq_runs (Done a) w -> sys_ok w -> rx_ok (rx_sm (w_uart w)).
Proof. intros Hr Hw. exact (ok_done_now _ _ _ _ _ _ Hr Hw). Qed.

Definition wq_fine (q : wq_state) (w : world) : Prop :=
  match q with
  | WqIdle => rx_ok (rx_sm (w_uart w))
  | WqRun p => wq_runs p w
  | WqRx p => wq_runs p w
  end.

Record config_ok (cf : config) : Prop := {
  co_sys : sys_ok (cf_world cf);
  co_wq : wq_fine (cf_wq cf) (cf_world cf);
  co_main : main_runs (cf_main cf) (cf_world cf);
}.

Lemma wq_fine_stable q w w' : wq_fine q w -> wq_rely w w' -> wq_fine q w'.
Proof.
  intros Hq Hr. destruct q; simpl in *; [by apply Hr| |]; by eapply wq_runs_stable.
Qed.

(** A section that is about to run does run. *)
Lemma wq_section {A} (s : M world (task world A)) w :
  wq_runs (Sect s) w -> sys_ok w ->
  exists p w' t, s w = Some (p, w', t) /\ sys_ok w' /\ wq_guar w w' /\ wq_runs p w'.
Proof. inversion 1 as [|? ? Hm]; subst. intros Hw. by apply Hm. Qed.
Lemma main_section s w :
  main_runs (Sect s) w -> sys_ok w ->
  exists p w' t, s w = Some (p, w', t) /\ sys_ok w' /\ main_guar w w' /\ main_runs p w'.
Proof. inversion 1 as [|? ? Hm]; subst. intros Hw. by apply Hm. Qed.

(** An event of one section. *)
Lemma event_step w e :
  sys_ok w -> one_section e = true -> enabled w e -> step_ok w e.
Proof. intros Hw He Hn. apply any_step; [done|done|by intros ->]. Qed.

(** Every step keeps the invariant, and with a LIVE session the cache and every
    other phone's session. *)
Lemma cstep_ok cf l t cf' :
  config_ok cf -> cstep cf l t cf' -> config_ok cf' /\ live_kept (l ≫= actor) (cf_world cf) (cf_world cf').
Proof.
  intros [Hw Hq Hm] Hs. destruct Hs as [w q m e w' t H1' H2' He E|w m err|w s p w' m t E|w m|w m
    |w s p w' m t E|w m|w m|w q s p w' t E]; simpl in *.
  - destruct (event_step w e Hw H1' He) as (w2 & t2 & E2 & Hw2 & Hl & Hk). rewrite E in E2.
    injection E2 as <- <-. split; [split; simpl|done]; [done| |].
    + apply (wq_fine_stable q w); [done|by apply kept_wq_rely].
    + by eapply main_runs_stable; [|apply kept_main_rely].
  - split; [split; simpl|apply live_kept_refl]; [done|by apply ok_tx_work|done].
  - destruct (wq_section s w Hq Hw) as (p2 & w2 & t2 & E2 & Hw2 & (Hg & Hl & _) & Hp). rewrite E in E2.
    injection E2 as <- <- <-. split; [split; simpl|done]; [done|done|].
    by eapply main_runs_stable.
  - split; [split; simpl|apply live_kept_refl]; [done| |done]. by eapply wq_runs_done.
  - split; [split; simpl|apply live_kept_refl]; [done|by apply ok_rx_turn|done].
  - destruct (wq_section s w Hq Hw) as (p2 & w2 & t2 & E2 & Hw2 & (Hg & Hl & _) & Hp). rewrite E in E2.
    injection E2 as <- <- <-. split; [split; simpl|done]; [done|done|].
    by eapply main_runs_stable.
  - eapply wq_runs_done in Hq; [|done].
    split; [split; simpl|apply live_kept_refl]; [done|by apply ok_rx_turn|done].
  - eapply wq_runs_done in Hq; [|done]. split; [by split|apply live_kept_refl].
  - destruct (main_section s w Hm Hw) as (p2 & w2 & t2 & E2 & Hw2 & [Hg Hl] & Hp). rewrite E in E2.
    injection E2 as <- <- <-. split; [split; simpl|done]; [done| |done].
    by apply (wq_fine_stable q w).
Qed.

Lemma creachable_ok cf : creachable cf -> config_ok cf.
Proof.
  induction 1 as [env Hr|cf a t cf' _ IH Hs].
  - destruct power_on_ok as [Hw Hb]. split; [done|by split|by apply ok_t_main].
  - by destruct (cstep_ok cf a t cf' IH Hs).
Qed.
End Invariant.

(** ** What every section does *)

Section Traced.
Context `{Nanopb, GattRead, !RingBuf RING_BUF_SIZE, !MsgQ tx_entry TX_QUEUE_DEPTH}.
Context (P : world -> list io -> world -> Prop).
Hypothesis Pnil : forall w, P w [] w.
Hypothesis Ptx : forall err, traced P (t_tx_work_handler err).
Hypothesis Prx : traced P t_rx_turn.

Definition wq_traced (q : wq_state) : Prop :=
  match q with
  | WqIdle => True
  | WqRun p => traced P p
  | WqRx p => traced P p
  end.
Definition config_traced (cf : config) : Prop := wq_traced (cf_wq cf) /\ traced P (cf_main cf).

(** A step of a thread; events are not concerned. *)
Lemma cstep_traced cf l t cf' :
  wq_traced (cf_wq cf) -> cstep cf l t cf' ->
  wq_traced (cf_wq cf')
  /\ (traced P (cf_main cf) -> traced P (cf_main cf') /\ (l = None -> P (cf_world cf) t (cf_world cf'))).
Proof.
  intros Hq Hs. destruct Hs as [w q m e w' t H1' H2' He E|w m err|w s p w' m t E|w m|w m
    |w s p w' m t E|w m|w m|w q s p w' t E]; simpl in *; try done.
  - destruct (traced_section _ s w p w' t Hq E). by split.
  - destruct (traced_section _ s w p w' t Hq E). by split.
  - split; [done|]. intros Hm. by destruct (traced_section _ s w p w' t Hm E).
Qed.

Lemma creachable_wq_traced cf : creachable cf -> wq_traced (cf_wq cf).
Proof. induction 1 as [env _|cf a t cf' _ IH Hs]; [done|]. by destruct (cstep_traced cf a t cf' IH Hs). Qed.

(** Of every step, if the events do it as well. *)
Hypothesis Pevent : forall w e w' t,
  one_section e = true -> enabled w e -> step e w = Some (tt, w', t) -> P w t w'.

Lemma cstep_all_traced cf l t cf' :
  config_traced cf -> cstep cf l t cf' -> config_traced cf' /\ P (cf_world cf) t (cf_world cf').
Proof.
  intros [Hq Hm] Hs. destruct (cstep_traced cf l t cf' Hq Hs) as [Hq' Hm']. destruct (Hm' Hm) as [Hm1 HP].
  split; [done|]. destruct l as [e|]; [|by apply HP].
  inversion Hs as [w q m e' w' t' H1' H2' He E| | | | | | | |]; subst. by eapply Pevent.
Qed.
End Traced.

(** ** The mutexes *)

Section Clean.
Context `{Nanopb, GattRead, !RingBuf RING_BUF_SIZE, !MsgQ tx_entry TX_QUEUE_DEPTH}.

Definition config_clean : config -> Prop := config_traced (fun _ t _ => quiet_locks t).

Lemma cstep_clean cf a t cf' :
  config_clean cf -> cstep cf a t cf' -> config_clean cf' /\ quiet_locks t.
Proof.
  apply (cstep_all_traced (fun _ t _ => quiet_locks t)); [done|apply clean_tx_work|apply clean_rx_turn|].
  intros w e w' t1 H1' _ E t'. eapply free_step; [|exact E]. by destruct e.
Qed.

Lemma creachable_clean cf : creachable cf -> config_clean cf.
Proof.
  induction 1 as [env Hr|cf a t cf' _ IH Hs]; [split; [done|apply clean_main]|].
  by destruct (cstep_clean cf a t cf' IH Hs).
Qed.
End Clean.

(** ** The handlers finish *)

Section Finish.
Context `{NanopbOk, GattReadOk, !RingBuf RING_BUF_SIZE, !RingBufOk RING_BUF_SIZE}.
Context `{!MsgQ tx_entry TX_QUEUE_DEPTH, !MsgQOk tx_entry TX_QUEUE_DEPTH}.

Definition sched (cf cf' : config) : Prop := exists a t, cstep cf a t cf'.










End Finish.

(** ** Properties *)

Section Properties.
Context `{NanopbOk, GattReadOk, !RingBuf RING_BUF_SIZE, !RingBufOk RING_BUF_SIZE}.
Context `{!MsgQ tx_entry TX_QUEUE_DEPTH, !MsgQOk tx_entry TX_QUEUE_DEPTH}.

(** C11: no interleaving of the threads has undefined behaviour.  From power-on,
    the boot included, whatever the Bluetooth thread, the work queue, the main
    thread and the UART interrupt do in whatever order, wherever a thread was
    switched out: the invariants of all modules hold, the next section of every
    thread runs to its end, and so does the handler of every enabled event. *)
Theorem threads_safe cf :
  creachable cf ->
  world_ok (cf_world cf)
  /\ (forall runs, next_section cf runs -> runs)
  /\ (forall e, one_section e = true -> enabled (cf_world cf) e ->
        exists w' t, step e (cf_world cf) = Some (tt, w', t)).
Proof.
  intros [Hw Hq Hm]%creachable_ok. split; [apply Hw|]. split.
  - intros runs [(s & Es & ->)|[(s & Es & ->)|(s & Es & ->)]].
    + rewrite Es in Hq. destruct (wq_section s _ Hq Hw) as (p & w' & t & E & _). by exists (p, w', t).
    + rewrite Es in Hq. destruct (wq_section s _ Hq Hw) as (p & w' & t & E & _). by exists (p, w', t).
    + rewrite Es in Hm. destruct (main_section s _ Hm Hw) as (p & w' & t & E & _). by exists (p, w', t).
  - intros e H1' He. destruct (event_step _ e Hw H1' He) as (w' & t & E & _). eauto.
Qed.

(** C13: in every interleaving the node's config session is the proxy's alone.
    From power-on on, at every switch of threads, a message waiting for the
    UART that the node would read as want_config carries the proxy's nonce. *)
Theorem threads_own_session cf e n :
  creachable cf -> e ∈ mq_contents (tx_msgq (w_uart (cf_world cf))) ->
  classify_toradio (te_payload e) = PfWantConfig n -> n = s_nonce (w_upstream (cf_world cf)).
Proof.
  intros Hc He. pose proof (so_tx _ (co_sys _ (creachable_ok cf Hc))) as Hq.
  rewrite Forall_forall in Hq. by apply Hq.
Qed.

(** C14: in every interleaving a phone is replayed to only from the complete
    cache.  At every switch of threads a phone in a replay finds the cache
    published, the session past FETCHING, and its closing frame encoded for its
    own nonce. *)
Theorem threads_replay_ready cf i pc :
  creachable cf -> conns (w_ble (cf_world cf)) !! i = Some pc -> pc_state pc = PHONE_REPLAYING ->
  published (s_state (w_upstream (cf_world cf))) /\ cache_is_ready (w_cache (cf_world cf)) = true
  /\ pb_decode_FromRadio (take (Z.to_nat (cc_len pc)) (cc_frame pc))
     = Some (msg_config_complete (pc_nonce pc)).
Proof.
  intros Hc Hi Hp. pose proof (co_sys _ (creachable_ok cf Hc)) as Hw.
  pose proof (so_world _ Hw) as (Hb & _ & _ & _ & Hr).
  pose proof (replaying_at _ _ _ _ (so_replaying _ Hw) Hi Hp) as Hpub. split; [done|]. split.
  - unfold ready_agrees in Hr. etrans; [exact Hr|]. by apply bool_decide_eq_true_2.
  - by apply (ble_wf_armed _ _ _ Hb Hi).
Qed.

(** A step of which [a] is the phone whose session it may change. *)
Definition thread_step (a : option bt_conn) (cf cf' : config) : Prop :=
  exists l t, a = l ≫= actor /\ cstep cf l t cf'.
Definition put_world (w : world) (cf : config) : config := mk_config w (cf_wq cf) (cf_main cf).

Lemma put_world_self cf : put_world (cf_world cf) cf = cf.
Proof. by destruct cf. Qed.

(** C10: a phone's replay is its own, in every interleaving.  Once the session
    is LIVE, take a phone whose replay was just armed, and let it read
    FROMRADIO while the threads do anything else in between, switched at any
    of their cuts: other phones connect, ask, read and go, frames arrive and
    are broadcast, to this phone too.  Its successive fresh reads return
    exactly the cached frames of its own segment in burst order, then the
    config_complete with its own nonce, then the empty value, each cut only to
    the length it asked for. *)
Theorem threads_replay_isolated cf c i pc log cf' :
  creachable cf -> s_state (w_upstream (cf_world cf)) = UPSTREAM_LIVE ->
  conns (w_ble (cf_world cf)) !! i = Some pc -> conn pc = c -> c <> NULL ->
  pc_state pc = PHONE_REPLAYING -> replay_cursor pc = 0 ->
  reads cf_world put_world thread_step c cf log cf' ->
  exists cc, pb_decode_FromRadio cc = Some (msg_config_complete (pc_nonce pc))
    /\ forall k len v full, log !! k = Some (len, v) ->
       ((segment (pc_nonce pc) (frames_of (w_cache (cf_world cf)))).*2 ++ [cc] ++ [[]]) !! k = Some full ->
       v = take (Z.to_nat len) full.
Proof.
  intros Hcf Hl Hi Hc Hn Hp Hcur Hrd.
  apply (replay_from_start cf_world put_world thread_step config_ok)
    with (c := c) (log := log) (x' := cf') (i := i); try done.
  - by intros x [].
  - intros x w' [_ Hq Hm] Hw' Hk. split; [done|by eapply wq_fine_stable; [|apply kept_wq_rely]|].
    by eapply main_runs_stable; [|apply kept_main_rely].
  - intros a x x' Hx (l & t & -> & Hs). by apply (cstep_ok x l t).
  - by apply creachable_ok.
Qed.

(** Once [main] has reached its loop no step loses a phone that waits, if the
    stack has no more connection objects than the queue has entries. *)
Lemma cstep_waiting P cf a t cf' r :
  config_ok cf -> cf_main cf = Done r -> cstep cf a t cf' -> zlen P <= CONFIG_BT_MAX_CONN ->
  conns_in P (conns (w_ble (cf_world cf'))) ->
  waiting P (w_upstream (cf_world cf)) (conns (w_ble (cf_world cf))) ->
  waiting P (w_upstream (cf_world cf')) (conns (w_ble (cf_world cf'))) /\ cf_main cf' = Done r.
Proof.
  intros [Hw Hq Hm] Hr Hs HP Hin Hwt. destruct Hs as [w q m e w' t H1' H2' He E|w m err|w s p w' m t E|w m
    |w m|w s p w' m t E|w m|w m|w q s p w' t E]; simpl in *; try done; (split; [|done]).
  - destruct (event_step w e Hw H1' He) as (w2 & t2 & E2 & _ & _ & Hk). rewrite E in E2.
    injection E2 as <- <-. by apply (pk_waiting _ _ _ _ (k_phones _ _ Hk)).
  - destruct (wq_section s w Hq Hw) as (p2 & w2 & t2 & E2 & _ & (_ & _ & Hws) & _). rewrite E in E2.
    injection E2 as <- <- <-. by apply Hws.
  - destruct (wq_section s w Hq Hw) as (p2 & w2 & t2 & E2 & _ & (_ & _ & Hws) & _). rewrite E in E2.
    injection E2 as <- <- <-. by apply Hws.
Qed.

(** A step of any thread, the phones being connected through objects of the
    pool [P]. *)
Definition pool_step (P : list bt_conn) (cf cf' : config) : Prop :=
  sched cf cf' /\ conns_in P (conns (w_ble (cf_world cf'))).

Lemma waiting_kept P cf cf' r :
  rtc (pool_step P) cf cf' -> config_ok cf -> cf_main cf = Done r -> zlen P <= CONFIG_BT_MAX_CONN ->
  waiting P (w_upstream (cf_world cf)) (conns (w_ble (cf_world cf))) ->
  waiting P (w_upstream (cf_world cf')) (conns (w_ble (cf_world cf'))).
Proof.
  intros Hs. induction Hs as [|cf cf1 cf' [(a & t & Hs) Hin] _ IH]; [done|]. intros Hc Hr HP Hwt.
  destruct (cstep_waiting P cf a t cf1 r Hc Hr Hs HP Hin Hwt). apply IH; try done.
  by destruct (cstep_ok cf a t cf1 Hc Hs).
Qed.

(** C12: no phone that waits in the queue is forgotten, in any interleaving.
    Let the stack have no more than CONFIG_BT_MAX_CONN connection objects [P].
    [main] has reached its loop, and at that moment [waiting] holds: every
    connected phone that waits for the config is in the session's queue (a phone
    that asked while [main] was booting is not, and such a phone is lost), the
    slots and the queue hold connections of [P] only, and if the session is LIVE
    already the queue is empty.  From there on let phones connect, ask and go and
    the burst arrive in any order, at any of the threads' cuts: a connected phone
    that still waits for the config has its connection in the queue, and once the
    session is LIVE none waits any more. *)
Theorem threads_no_phone_forgotten P cf cf' i pc :
  creachable cf -> cf_main cf = Done None ->
  waiting P (w_upstream (cf_world cf)) (conns (w_ble (cf_world cf))) ->
  zlen P <= CONFIG_BT_MAX_CONN -> rtc (pool_step P) cf cf' ->
  conns (w_ble (cf_world cf')) !! i = Some pc -> conn pc <> NULL -> pc_state pc = PHONE_PENDING ->
  conn pc ∈ pending (w_upstream (cf_world cf')) /\ s_state (w_upstream (cf_world cf')) <> UPSTREAM_LIVE.
Proof.
  intros Hc%creachable_ok Hm Hw HP Hs Hi Hn Hp.
  destruct (waiting_kept P cf cf' None Hs Hc Hm HP Hw) as [_ _ Hwt Hl].
  pose proof (Hwt i pc Hi Hn Hp) as Hin. split; [exact Hin|]. intros Hlive.
  revert Hin. unfold pending. rewrite Hl by done. apply not_elem_of_nil.
Qed.

(** C18: no mutex is held across a switch of threads.  In every interleaving
    each step takes a slot's mutex only when it holds none, makes no other call
    that is traced (to the kernel, the drivers or the Bluetooth stack) before it
    has released it, and ends with none held; so no thread ever waits for a
    mutex another holds, and the threads cannot deadlock.  What does run under a
    slot's mutex takes none and does not wait: the copy that [bt_gatt_attr_read]
    makes, the readers of the cache, and a line of the log. *)
Theorem threads_locks cf a t cf' :
  creachable cf -> cstep cf a t cf' -> locks_ok None t = true.
Proof.
  intros Hc Hs. destruct (cstep_clean cf a t cf' (creachable_clean cf Hc) Hs) as [_ Ht].
  specialize (Ht []). by rewrite app_nil_r in Ht.
Qed.

End Properties.

(** ** At concrete inputs *)

Module Demo.
#[local] Existing Instances demo_nanopb demo_nanopb_ok list_ring list_ring_ok list_msgq
  list_msgq_ok list_gatt_read list_gatt_read_ok.

Definition start : config := power_on Main.Demo.env_ok.
Lemma start_reach : creachable start.
Proof. apply cr_power_on. by_eval. Qed.

(** The boot takes 26 sections of the main thread; the first three start
    advertising. *)
Definition booted : config := default start (run_schedule (replicate 26 ChMain) start).
Lemma booted_run : run_schedule (replicate 26 ChMain) start = Some booted.
Proof. vm_compute. reflexivity. Qed.
Lemma booted_reach : creachable booted.
Proof. exact (run_schedule_reach _ _ _ start_reach booted_run). Qed.

(** Phone 11 asks while the node's burst is being fetched. *)
Definition fetch : list choice := [ChEvent (EvUart (UART_RX_RDY System.Demo.burst)); ChRx].
Definition ask11 : list choice :=
  [ChEvent (EvConnected 11 0 rc_ok); ChEvent (EvWriteToRadio 11 (3 :: le32 69420) 0)].
Definition served : config :=
  default start (run_schedule (ask11 ++ fetch ++ replicate 61 ChWq) booted).
Lemma served_run : run_schedule (ask11 ++ fetch ++ replicate 61 ChWq) booted = Some served.
Proof. vm_compute. reflexivity. Qed.
Lemma served_reach : creachable served.
Proof. exact (run_schedule_reach _ _ _ booted_reach served_run). Qed.
Definition served11 : proxy_conn := default conn_boot (conns (w_ble (cf_world served)) !! 0%nat).
Lemma served11_at : conns (w_ble (cf_world served)) !! 0%nat = Some served11.
Proof. vm_compute. reflexivity. Qed.
Lemma served11_state : conn served11 = 11 /\ pc_state served11 = PHONE_REPLAYING
  /\ replay_cursor served11 = 0 /\ pc_nonce served11 = 69420.
Proof. vm_compute. by split_and!. Qed.

Lemma threads_safe_witness :
  exists w' t, step (EvDisconnected 11 rc_ok) (cf_world served) = Some (tt, w', t).
Proof.
  destruct (threads_safe served served_reach) as (_ & _ & He).
  apply (He (EvDisconnected 11 rc_ok)); [reflexivity|done].
Defined.

Lemma threads_own_session_witness : 2 = s_nonce (w_upstream (cf_world booted)).
Proof.
  apply (threads_own_session booted (mk_tx_entry (3 :: le32 2) 5) 2 booted_reach).
  - assert (mq_contents (tx_msgq (w_uart (cf_world booted))) = [mk_tx_entry (3 :: le32 2) 5]) as ->
      by (vm_compute; reflexivity). apply list_elem_of_singleton. reflexivity.
  - vm_compute. reflexivity.
Defined.

Lemma threads_replay_ready_witness : published (s_state (w_upstream (cf_world served))).
Proof.
  destruct (threads_replay_ready served 0 served11 served_reach served11_at) as (Hp & _);
    [apply served11_state|exact Hp].
Defined.

(** Phone 11 has asked and waits for the burst. *)
Definition connected11 : config :=
  default start (choose (ChEvent (EvConnected 11 0 rc_ok)) booted).
Definition waiting11 : config :=
  default start (choose (ChEvent (EvWriteToRadio 11 (3 :: le32 69420) 0)) connected11).

(** The phone is in the queue, and the burst has not come yet. *)
Lemma waiting11_waits :
  waiting [11; 12] (w_upstream (cf_world waiting11)) (conns (w_ble (cf_world waiting11))).
Proof.
  split; [by_eval|by_eval| |by vm_compute].
  assert (Forall (fun pc => pc_state pc = PHONE_PENDING -> conn pc ∈ pending (w_upstream (cf_world waiting11)))
    (conns (w_ble (cf_world waiting11)))) as Hw by by_eval.
  intros i pc Hi _. by apply (Forall_lookup_1 _ _ _ _ Hw Hi).
Qed.
Lemma waiting11_run : run_schedule (replicate 26 ChMain ++ ask11) start = Some waiting11.
Proof. vm_compute. reflexivity. Qed.

(** Phone 12 connects and asks too. *)
Definition connected12 : config :=
  default start (choose (ChEvent (EvConnected 12 0 rc_ok)) waiting11).
Definition waiting12 : config :=
  default start (choose (ChEvent (EvWriteToRadio 12 (3 :: le32 69421) 0)) connected12).
Definition waiter12 : proxy_conn := default conn_boot (conns (w_ble (cf_world waiting12)) !! 1%nat).

Lemma waiting12_pool : rtc (pool_step [11; 12]) waiting11 waiting12.
Proof.
  eapply rtc_l with connected12; [|eapply rtc_l with waiting12; [|apply rtc_refl]].
  - split; [apply (choose_step (ChEvent (EvConnected 12 0 rc_ok))); vm_compute; reflexivity|].
    apply (bool_decide_unpack _). vm_compute. exact I.
  - split; [apply (choose_step (ChEvent (EvWriteToRadio 12 (3 :: le32 69421) 0))); vm_compute; reflexivity|].
    apply (bool_decide_unpack _). vm_compute. exact I.
Qed.

Lemma threads_no_phone_forgotten_witness :
  12 ∈ pending (w_upstream (cf_world waiting12))
  /\ s_state (w_upstream (cf_world waiting12)) <> UPSTREAM_LIVE.
Proof.
  apply (threads_no_phone_forgotten [11; 12] waiting11 waiting12 1 waiter12).
  - exact (run_schedule_reach _ _ _ start_reach waiting11_run).
  - vm_compute. reflexivity.
  - exact waiting11_waits.
  - done.
  - exact waiting12_pool.
  - vm_compute. reflexivity.
  - vm_compute. done.
  - vm_compute. reflexivity.
Defined.

Definition after_read : config :=
  match fromradio_read 11 512 0 (cf_world served) with
  | Some (_, w, _) => put_world w served
  | None => served
  end.
Lemma served_read :
  fromradio_read 11 512 0 (cf_world served)
  = Some (att_ok [3; 1; 2], cf_world after_read, [IoLock 0; IoUnlock 0]).
Proof. vm_compute. reflexivity. Qed.

Lemma threads_replay_isolated_witness :
  exists cc, pb_decode_FromRadio cc = Some (msg_config_complete 69420)
    /\ forall full,
       ((segment 69420 (frames_of (w_cache (cf_world served)))).*2 ++ [cc] ++ [[]]) !! 0%nat = Some full ->
       [3; 1; 2] = take 512 full.
Proof.
  destruct served11_state as (Hc & Hp & Hcur & Hn).
  destruct (threads_replay_isolated served 11 0 served11 [(512, [3; 1; 2])]
              (put_world (cf_world after_read) served) served_reach ltac:(vm_compute; reflexivity)
              served11_at Hc ltac:(done) Hp Hcur) as (cc & Hd & Hl).
  { eapply reads_fresh; [done|exact served_read|apply reads_nil]. }
  exists cc. rewrite Hn in Hd, Hl. split; [exact Hd|]. intros full Hf.
  exact (Hl 0%nat 512 [3; 1; 2] full eq_refl Hf).
Defined.

Lemma threads_locks_witness : locks_ok None [IoLock 0; IoUnlock 0] = true.
Proof.
  apply (threads_locks (put_world (cf_world served) served) (Some (EvReadFromRadio 11 512 0)) [IoLock 0; IoUnlock 0]
    (put_world (cf_world after_read) served)).
  - rewrite put_world_self. exact served_reach.
  - apply (cs_event _ _ _ (EvReadFromRadio 11 512 0)); [done|done|done|vm_compute; reflexivity].
Defined.

End Demo.
