(* ===== verification/Receiver.v ===== *)
(** * Receiver: the frames the receiver hands over, in every interleaving

    The receiver takes bytes from the ring one at a time and holds at most one
    frame, which it hands over in the sections of [on_fromradio_uart] while other
    threads run in between.  This file follows the bytes and the frame through
    the sections of the work queue, for any effect [R] that handing over frames
    has on the rest of the state, and any job that is left to do once a frame is
    handed over; Deliver and Fetch say what they are. *)

From stdpp Require Import prelude.
From S2P Require Import Prelude Tasks ProxyProtocol Nanopb ConfigCache Zephyr UartMeshtastic.
From S2P Require Import ProtoHandler RouteTrace UpstreamSession BleGatt BleReplay Router World Main System Threads WorkQueue BootThread Schedule.

Local Open Scope Z_scope.

(** What the receiver has in hand: a frame not handed over yet, whether the
    machine is to restart behind it, and what is left to do for a frame that was
    handed over. *)
Record flight (Job : Type) := mk_flight { fl_frame : option (list Z); fl_restart : bool; fl_job : Job }.
Arguments mk_flight {Job} _ _ _.
Arguments fl_frame {Job} _.
Arguments fl_restart {Job} _.
Arguments fl_job {Job} _.

Section Receiver.
(** The jobs; [idle] is that nothing is left to do. *)
Context {Job : Type} (idle : Job).
Definition grounded : flight Job := mk_flight None false idle.
Definition holding (d : list Z) (r : bool) : flight Job := mk_flight (Some d) r idle.
Definition handed (r : bool) : flight Job := mk_flight None r idle.

Context `{NanopbOk, GattReadOk, !RingBuf RING_BUF_SIZE, !RingBufOk RING_BUF_SIZE}.
Context `{!MsgQ tx_entry TX_QUEUE_DEPTH, !MsgQOk tx_entry TX_QUEUE_DEPTH}.

Definition line_of (w : world) : list Z := rb_contents (rx_ring_buf (w_uart w)).
(** The bytes that left the ring. *)
Definition taken (w w' : world) : list Z :=
  take (length (line_of w) - length (line_of w')) (line_of w).

Lemma taken_self w : taken w w = [].
Proof. unfold taken. by rewrite Nat.sub_diag. Qed.
Lemma taken_grows w w' : (length (line_of w) <= length (line_of w'))%nat -> taken w w' = [].
Proof. intros Hl. unfold taken. by replace (_ - _)%nat with 0%nat by lia. Qed.

(** The machine, as it will be once the frame is handled. *)
Definition machine (y : flight Job) (w : world) : rx_machine :=
  let sm := rx_sm (w_uart w) in if fl_restart y then sm <| rx_st := RX_WAIT_MAGIC1 |> else sm.

(** [J j] is what a client knows of the state while the job [j] is to do;
    [R j w ds j' w'] what it says of handing over the frames [ds]. *)
Context (J : Job -> world -> Prop) (R : Job -> world -> list (list Z) -> Job -> world -> Prop).
Hypothesis Jboot : forall b w, J b w -> s_state (w_upstream w) <> UPSTREAM_BOOT.
Hypothesis Juart : forall b w u, J b w -> J b (mk_world (w_cache w) u (w_upstream w) (w_ble w)).
Hypothesis Ruart : forall b w u, J b w -> R b w [] b (mk_world (w_cache w) u (w_upstream w) (w_ble w)).

(** One frame at a time. *)
Definition single (y : flight Job) : Prop := fl_frame y = None \/ fl_job y = idle.

Record good (y : flight Job) (w : world) : Prop := {
  gd_sys : sys_ok w;
  gd_known : J (fl_job y) w;
  gd_machine : rx_ok (machine y w);
  gd_single : single y;
}.

(** From [w] to [w'] the machine takes [bs], and the frames [ds] are handed over. *)
Definition account (y : flight Job) (w : world) (bs : list Z) (ds : list (list Z)) (y' : flight Job) (w' : world) : Prop :=
  exists new, rx_run (machine y w) bs = Some (machine y' w', new)
    /\ option_list (fl_frame y) ++ new = ds ++ option_list (fl_frame y').

Lemma account_refl y w : account y w [] [] y w.
Proof. exists []. by rewrite app_nil_r. Qed.
Lemma account_trans y w bs ds y1 w1 bs' ds' y' w' :
  account y w bs ds y1 w1 -> account y1 w1 bs' ds' y' w' -> account y w (bs ++ bs') (ds ++ ds') y' w'.
Proof.
  intros (n1 & E1 & F1) (n2 & E2 & F2). exists (n1 ++ n2). rewrite rx_run_app, E1. simpl. rewrite E2.
  split; [done|]. by rewrite app_assoc, F1, <- app_assoc, F2, app_assoc.
Qed.

(** What is still in the receiver's hands. *)
Lemma account_rest y w bs ds y' w' :
  fl_frame y = None -> fl_restart y = false -> account y w bs ds y' w' ->
  rx_run (rx_sm (w_uart w)) bs = Some (machine y' w', ds ++ option_list (fl_frame y'))
  /\ (length (option_list (fl_frame y')) <= 1)%nat.
Proof.
  intros Ef Er (new & E & Eq). unfold machine in E at 1. rewrite Er in E. rewrite Ef in Eq. simpl in Eq. subst new.
  split; [exact E|]. destruct (fl_frame y'); simpl; lia.
Qed.

(** A section of the work queue. *)
Definition passes (y : flight Job) (w : world) (y' : flight Job) (w' : world) : Prop :=
  exists bs ds, line_of w = bs ++ line_of w' /\ account y w bs ds y' w'
    /\ R (fl_job y) w ds (fl_job y') w' /\ J (fl_job y') w' /\ single y'.
#[local] Abbreviation recv := (leads good passes).

(** Nothing is taken or handed over. *)
Lemma passes_still y y' w w' :
  w_uart w' = w_uart w -> fl_restart y' = fl_restart y -> fl_frame y' = fl_frame y ->
  R (fl_job y) w [] (fl_job y') w' -> J (fl_job y') w' -> single y' -> passes y w y' w'.
Proof.
  intros Eu Er Ef HR HJ Hy. exists [], []. unfold line_of. rewrite Eu. split; [done|]. split; [|done].
  exists []. unfold machine. rewrite Eu, Er, Ef. split; [done|]. by rewrite app_nil_r.
Qed.

(** The frame is handed over. *)
Lemma passes_hand d r s s' w w' :
  w_uart w' = w_uart w -> R s w [d] s' w' -> J s' w' -> passes (mk_flight (Some d) r s) w (mk_flight None r s') w'.
Proof.
  intros Eu HR HJ. exists [], [d]. unfold line_of. rewrite Eu. split; [done|].
  split; [|split; [done|]; split; [done|by left]].
  exists []. unfold machine. by rewrite Eu.
Qed.

Lemma R_refl b w : J b w -> R b w [] b w.
Proof. intros HJ. pose proof (Ruart b w (w_uart w) HJ) as HR. by destruct w. Qed.
Lemma passes_refl y w : good y w -> passes y w y w.
Proof. intros [_ HJ _ Hy]. apply passes_still; try done. by eapply R_refl. Qed.

(** *** The receiver *)

Lemma recv_uart {A} (m : M uart A) y y' :
  fl_frame y' = fl_frame y -> fl_job y' = fl_job y ->
  (forall w a u' t, good y w -> m (w_uart w) = Some (a, u', t) -> rx_ring_buf u' = rx_ring_buf (w_uart w)
     /\ machine y' (mk_world (w_cache w) u' (w_upstream w) (w_ble w)) = machine y w) ->
  recv (fun _ y2 => y2 = y') (act (zoom m)) y.
Proof.
  intros Ef Es Hm. apply leads_act. intros w a w' t Hg. unfold zoom.
  change (lget (Lens := lens_uart) w) with (w_uart w).
  destruct (m (w_uart w)) as [[[b u'] t']|] eqn:E; [|done]. intros [= _ <- _].
  destruct (Hm w b u' t' Hg E) as [E1 E2]. exists y'. split; [|done]. destruct Hg as [_ HJ _ Hy].
  change (lset u' w) with (mk_world (w_cache w) u' (w_upstream w) (w_ble w)).
  exists [], []. unfold line_of. simpl. rewrite E1. split; [done|]. rewrite Es. split; [|split; [by apply Ruart|split; [by apply Juart|]]; unfold single; by rewrite Ef, Es].
  exists []. rewrite E2, Ef. split; [done|]. by rewrite app_nil_r.
Qed.

Lemma recv_restart : recv (fun _ y => y = grounded) (act rx_restart) (handed true).
Proof. apply recv_uart; [done..|]. intros w [] u' t _. by intros [= <- _]. Qed.

(** A byte leaves the ring and the machine takes it. *)
Lemma recv_take :
  recv (fun r y => match r with
                   | None => y = grounded
                   | Some (d, restart) => y = mk_flight d restart idle
                       /\ forall x, d = Some x -> frame_size_ok x /\ bytes_ok x
                   end)
    (act (u <- zoom (gets (id : uart -> uart)) ;;
          match ring_buf_get1 (rx_ring_buf u) with
          | None => ret None
          | Some (byte, rb) =>
              zoom (modify (fun u => u <| rx_ring_buf := rb |>)) ;;;
              r <- rx_byte_step byte ;; ret (Some r)
          end)) grounded.
Proof.
  apply leads_act. intros w r w' t Hg. rewrite run_zoom_gets. unfold id.
  change (lget (Lens := lens_uart) w) with (w_uart w).
  pose proof (so_rx _ (gd_sys _ _ Hg)) as [_ Hp _ Hbr]. pose proof (gd_machine _ _ Hg) as Hm.
  pose proof (gd_known _ _ Hg) as HJ. simpl in HJ.
  destruct (so_registered _ (gd_sys _ _ Hg) (Jboot _ _ HJ)) as (_ & _ & Hcb).
  pose proof (rb_get_ok (rx_ring_buf (w_uart w))) as Hrb. destruct (ring_buf_get1 _) as [[b rb]|].
  2: { intros [= <- <- _]. exists grounded. split; [by apply passes_refl|done]. }
  rewrite Hrb in Hbr. apply Forall_cons in Hbr as [Hb _]. rewrite run_zoom_modify. set (w1 := lset _ w).
  destruct (rx_byte_ok b w1 Hm Hp Hb) as (d & restart & sm & E & Es & _ & _ & _ & Hd).
  erewrite run_bind by exact E. change (fromradio_cb_set (w_uart w1)) with (fromradio_cb_set (w_uart w)).
  rewrite Hcb. intros [= <- <- _]. exists (mk_flight d restart idle). split; [|by split].
  exists [b], []. split; [exact Hrb|]. split; [|split; [by apply (Ruart idle)|split; [by apply Juart|by right]]].
  exists (option_list d ++ []). split; [|by rewrite app_nil_r].
  change (rx_run (rx_sm (w_uart w1)) [b] = Some (if restart then sm <| rx_st := RX_WAIT_MAGIC1 |> else sm, option_list d ++ [])).
  by rewrite rx_run_cons, Es.
Qed.

Hypothesis dispatch : forall d r, frame_size_ok d -> bytes_ok d ->
  recv (fun _ y => y = handed r) (t_on_fromradio_uart d) (holding d r).

Lemma recv_rx_turn : recv (fun _ y => y = grounded) t_rx_turn grounded.
Proof.
  unfold t_rx_turn. eapply leads_bind; [apply recv_take|].
  intros [[d restart]|] y; [intros [-> Hd]|intros ->; by constructor].
  eapply (leads_bind _ _ (fun _ y => y = handed restart)).
  { destruct d as [d|]; [|by constructor]. destruct (Hd d eq_refl). by apply dispatch. }
  intros _ y ->. eapply (leads_bind _ _ (fun _ y => y = grounded)); [|intros _ y ->; by constructor].
  destruct restart; [by apply recv_restart|by constructor].
Qed.

Lemma recv_tx_work err : recv (fun _ y => y = grounded) (t_tx_work_handler err) grounded.
Proof.
  unfold t_tx_work_handler. eapply (leads_bind _ _ (fun _ y => y = grounded)).
  - apply recv_uart; [done..|]. intros w a u' t Hg E.
    pose proof (so_world _ (gd_sys _ _ Hg)) as (_ & _ & _ & Hu & _). change (uart_tx_ok (w_uart w)) in Hu.
    destruct (tx_start_ok err _ Hu) as (r & u2 & t2 & E2 & _ & _ & E3 & E4 & _).
    rewrite E in E2. injection E2 as <- <- _. by split; [|unfold machine; simpl; rewrite E3].
  - intros refused y' ->. destruct refused; [|by constructor].
    apply recv_uart; [done..|]. intros w [] u' t _. unfold tx_abandon. rewrite run_modify. by intros [= <- _].
Qed.

(** ** Configurations *)

Definition wq_recv (q : wq_state) (y : flight Job) : Prop :=
  match q with
  | WqIdle => y = grounded
  | WqRun p => recv (fun _ y => y = grounded) p y
  | WqRx p => recv (fun _ y => y = grounded) p y
  end.

(** After the boot, with [y] in the receiver's hands. *)
Record in_hand (y : flight Job) (cf : config) : Prop := {
  ih_config : config_ok cf;
  ih_good : good y (cf_world cf);
  ih_wq : wq_recv (cf_wq cf) y;
  ih_main : exists r, cf_main cf = Done r;
}.

Lemma in_hand_idle cf r :
  config_ok cf -> cf_wq cf = WqIdle -> cf_main cf = Done r -> J idle (cf_world cf) -> in_hand grounded cf.
Proof.
  intros Hcf Hq Hm HJ. pose proof Hcf as [Hw Hf _]. rewrite Hq in Hf.
  split; [done|split; try done; by left|by rewrite Hq|by exists r].
Qed.
Lemma in_hand_at_idle y cf : in_hand y cf -> cf_wq cf = WqIdle -> y = grounded.
Proof. intros [_ _ Hq _] E. by rewrite E in Hq. Qed.

Lemma machine_ok y w bs ds y' w' :
  good y w -> line_of w = bs ++ line_of w' -> account y w bs ds y' w' -> rx_ok (machine y' w').
Proof.
  intros [Hw _ Hm _] El (new & E & _).
  pose proof (rs_bytes _ (so_rx _ Hw)) as Hb. change (bytes_ok (line_of w)) in Hb. rewrite El in Hb.
  apply Forall_app in Hb as [Hb _]. destruct (rx_run_ok _ _ Hm Hb) as (sm' & ds' & E' & Hm').
  rewrite E in E'. by injection E' as -> _.
Qed.

(** A section that a thread takes. *)
Lemma section_account {A} (Q : A -> flight Job -> Prop) y w s p w1 t :
  good y w -> recv Q (Sect s) y -> s w = Some (p, w1, t) -> sys_ok w1 ->
  exists y1 ds, good y1 w1 /\ recv Q p y1 /\ account y w (taken w w1) ds y1 w1
    /\ R (fl_job y) w ds (fl_job y1) w1.
Proof.
  intros Hg Hh E Hw1. destruct (leads_section _ _ _ _ _ _ _ _ _ Hh Hg E) as (y1 & (bs & ds & El & Ha & HR & HJ & Hy1) & Hp).
  exists y1, ds. split; [split; try done; by eapply machine_ok|]. split; [done|]. split; [|done].
  assert (taken w w1 = bs) as ->; [|done].
  unfold taken. rewrite El, length_app. replace (_ - _)%nat with (length bs) by lia. by rewrite take_app_length.
Qed.

(** A step of a thread that serves no event. *)
Lemma thread_account y cf t cf1 :
  in_hand y cf -> cstep cf None t cf1 ->
  exists y1 ds, in_hand y1 cf1
    /\ account y (cf_world cf) (taken (cf_world cf) (cf_world cf1)) ds y1 (cf_world cf1)
    /\ R (fl_job y) (cf_world cf) ds (fl_job y1) (cf_world cf1).
Proof.
  intros [Hcf Hg Hq [r Hr]] Hs. destruct (cstep_ok _ _ _ _ Hcf Hs) as [Hcf1 _].
  pose proof (co_sys _ Hcf1) as Hw1.
  assert (forall q m, cf1 = mk_config (cf_world cf) q m -> cf_main cf = m -> wq_recv q y ->
    exists y1 ds, in_hand y1 cf1
      /\ account y (cf_world cf) (taken (cf_world cf) (cf_world cf1)) ds y1 (cf_world cf1)
      /\ R (fl_job y) (cf_world cf) ds (fl_job y1) (cf_world cf1)) as Hstay.
  { intros q m -> Em Hq'. exists y, []. simpl. rewrite taken_self. split; [split; try done; simpl; rewrite <- Em; by exists r|].
    split; [apply account_refl|]. eapply R_refl, Hg. }
  inversion Hs as [|w m err|w s p w' m t' E|w m|w m|w s p w' m t' E|w m|w m|w q s p w' t' E]; subst; simpl in *; try done.
  - subst y. eapply Hstay; [done..|]. apply recv_tx_work.
  - destruct (section_account _ y w s p w' t Hg Hq E Hw1) as (y1 & ds & Hg1 & Hh & Ha & HR).
    exists y1, ds. split; [|done]. split; try done. by exists r.
  - eapply Hstay; [done..|]. by inversion Hq; subst.
  - subst y. eapply Hstay; [done..|]. apply recv_rx_turn.
  - destruct (section_account _ y w s p w' t Hg Hq E Hw1) as (y1 & ds & Hg1 & Hh & Ha & HR).
    exists y1, ds. split; [|done]. split; try done. by exists r.
  - inversion Hq; subst. eapply Hstay; [done..|]. apply recv_rx_turn.
  - inversion Hq; subst. by eapply Hstay.
Qed.

(** An event, after which the client knows as much. *)
Lemma event_account y cf e t cf1 :
  in_hand y cf -> cstep cf (Some e) t cf1 -> J (fl_job y) (cf_world cf1) ->
  in_hand y cf1 /\ account y (cf_world cf) [] [] y (cf_world cf1).
Proof.
  intros [Hcf Hg Hq [r Hr]] Hs HJ. destruct (cstep_ok _ _ _ _ Hcf Hs) as [Hcf1 _].
  inversion Hs as [w q m e' w' t' Hone Hwi He E| | | | | | | |]; subst; simpl in *.
  destruct (event_step w e (co_sys _ Hcf) Hone He) as (w2 & t2 & E2 & Hw2 & _ & Hk). rewrite E in E2.
  injection E2 as <- <-. pose proof (k_machine _ _ Hk) as Em.
  assert (machine y w' = machine y w) as Em' by (unfold machine; by rewrite Em).
  split.
  - split; [done| |done|by exists r]. split; [done|done|simpl; rewrite Em'; apply Hg|apply Hg].
  - exists []. rewrite Em'. split; [done|]. by rewrite app_nil_r.
Qed.
End Receiver.
