(* ===== verification/Told.v ===== *)
(** * Told: what the program tells the Bluetooth stack

    Two bookkeeping duties over every interleaving of the threads.  A phone is
    notified of each packet announced to it, once, with the value of its
    counter; and the program holds one reference to the connection object of
    each slot in use and none to any other. *)

From stdpp Require Import prelude.
From S2P Require Import Prelude Tracks Tasks ProxyProtocol Nanopb ConfigCache Zephyr UartMeshtastic.
From S2P Require Import ProtoHandler RouteTrace UpstreamSession BleGatt BleReplay Router World Main System Calls Threads WorkQueue BootThread Locks Schedule.

Local Open Scope Z_scope.

(** ** Calls and slots *)

(** The values [c] is notified of. *)
Definition notes (c : bt_conn) (t : list io) : list Z :=
  omap (fun e => match e with IoNotify c' n => if decide (c' = c) then Some n else None | _ => None end) t.

(** References to [c] taken minus those dropped. *)
Definition ref_of (c : bt_conn) (e : io) : Z :=
  match e with
  | IoConnRef c' => if decide (c' = c) then 1 else 0
  | IoConnUnref c' => if decide (c' = c) then -1 else 0
  | _ => 0
  end.
Definition refs (c : bt_conn) (t : list io) : Z := foldr (fun e n => ref_of c e + n) 0 t.

(** No reference to [c] is taken or dropped: it stays connected. *)
Definition kept_ref (c : bt_conn) (e : io) : Prop :=
  match e with IoConnRef c' | IoConnUnref c' => c' <> c | _ => True end.

Definition plain (e : io) : Prop :=
  match e with IoNotify _ _ | IoConnRef _ | IoConnUnref _ => False | _ => True end.

(** The values that follow [n], each one more modulo 2^32, up to [n']. *)
Fixpoint follows (n : Z) (ns : list Z) (n' : Z) : Prop :=
  match ns with
  | [] => n' = n
  | m :: ns => m = u32 (n + 1) /\ follows m ns n'
  end.

Definition holds (l : list proxy_conn) (c : bt_conn) : Z := zlen (filter (fun pc => conn pc = c) l).

(** What happened to the slots, and what was told of it. *)
Record tells (l : list proxy_conn) (t : list io) (l' : list proxy_conn) : Prop := {
  tl_refs : forall c, c <> NULL -> holds l' c = holds l c + refs c t;
  tl_notes : forall i pc, l !! i = Some pc -> conn pc <> NULL -> Forall (kept_ref (conn pc)) t ->
    exists pc', l' !! i = Some pc' /\ conn pc' = conn pc
      /\ follows (fromnum pc) (notes (conn pc) t) (fromnum pc');
}.

Lemma refs_app c t1 t2 : refs c (t1 ++ t2) = refs c t1 + refs c t2.
Proof. induction t1; simpl; lia. Qed.
Lemma refs_plain c t : Forall plain t -> refs c t = 0.
Proof. induction 1 as [|e t He _ IH]; simpl; [done|]. rewrite IH. by destruct e. Qed.
Lemma notes_plain c t : Forall plain t -> notes c t = [].
Proof. induction 1 as [|e t He _ IH]; simpl; [done|]. by destruct e. Qed.
Lemma follows_app n ns m ns' n' : follows n ns m -> follows m ns' n' -> follows n (ns ++ ns') n'.
Proof.
  revert n. induction ns as [|x ns IH]; intros n; simpl; [by intros ->|]. intros [-> Hf] Hf'. split; [done|auto].
Qed.

Lemma tells_trans l1 t1 l2 t2 l3 : tells l1 t1 l2 -> tells l2 t2 l3 -> tells l1 (t1 ++ t2) l3.
Proof.
  intros [Hr1 Hn1] [Hr2 Hn2]. split.
  - intros c Hc. rewrite Hr2, Hr1, refs_app by done. lia.
  - intros i pc Hi Hc Ht. apply Forall_app in Ht as [Ht1 Ht2].
    destruct (Hn1 i pc Hi Hc Ht1) as (pc1 & Hi1 & Ec1 & Hf1). rewrite <- Ec1 in Hc, Ht2.
    destruct (Hn2 i pc1 Hi1 Hc Ht2) as (pc2 & Hi2 & Ec2 & Hf2).
    exists pc2. split; [done|]. split; [congruence|]. unfold notes in *. rewrite omap_app.
    eapply follows_app; [exact Hf1|]. by rewrite <- Ec1.
Qed.

(** Slots of the same phones with the same counters, and no call that tells. *)
Definition same_nums (l l' : list proxy_conn) : Prop :=
  Forall2 (fun pc pc' => conn pc' = conn pc /\ fromnum pc' = fromnum pc) l l'.

Lemma same_nums_refl l : same_nums l l.
Proof. by apply Forall_Forall2_diag, Forall_true. Qed.

Lemma holds_conns l l' c : conn <$> l' = conn <$> l -> holds l' c = holds l c.
Proof.
  unfold holds. revert l'. induction l as [|p l IH]; intros [|q l'] E; simplify_eq/=; [done|].
  rewrite !filter_cons. specialize (IH l' ltac:(done)). repeat case_decide; rewrite ?zlen_cons; lia || congruence.
Qed.

Lemma same_nums_conns l l' : same_nums l l' -> conn <$> l' = conn <$> l.
Proof. induction 1 as [|pc pc' l l' [E _] _ IH]; [done|]. by rewrite !fmap_cons, E, IH. Qed.

Lemma tells_plain l t l' : same_nums l l' -> Forall plain t -> tells l t l'.
Proof.
  intros Hl Ht. split.
  - intros c _. rewrite (holds_conns l l'), refs_plain by (done || by apply same_nums_conns). lia.
  - intros i pc Hi _ _. destruct (Forall2_lookup_l _ _ _ _ _ Hl Hi) as (pc' & Hi' & Ec & Ef).
    exists pc'. rewrite notes_plain by done. by split_and!.
Qed.

Lemma holds_insert l i pc pc' c :
  l !! i = Some pc ->
  holds (<[i := pc']> l) c
  = holds l c - (if decide (conn pc = c) then 1 else 0) + (if decide (conn pc' = c) then 1 else 0).
Proof.
  revert i. unfold holds. induction l as [|q l IH]; intros [|i] E; simplify_eq/=.
  - rewrite !filter_cons. repeat case_decide; rewrite ?zlen_cons; lia.
  - rewrite !filter_cons. specialize (IH i E). destruct (decide (conn q = c)); rewrite ?zlen_cons, IH; lia.
Qed.

(** One slot changes and one call tells of it. *)
Lemma tells_bump l i pc pc' t :
  distinct l -> l !! i = Some pc -> conn pc' = conn pc -> fromnum pc' = u32 (fromnum pc + 1) ->
  Forall plain t -> tells l (t ++ [IoNotify (conn pc) (fromnum pc')]) (<[i := pc']> l).
Proof.
  intros Hd Hi Hc Hf Ht. assert (forall c, notes c (t ++ [IoNotify (conn pc) (fromnum pc')])
    = if decide (conn pc = c) then [fromnum pc'] else []) as Hn.
  { intros c. unfold notes. rewrite omap_app. fold (notes c t). rewrite notes_plain by done. simpl. by case_decide. }
  split.
  - intros c _. rewrite (holds_insert _ _ pc), refs_app, refs_plain by done. rewrite Hc. simpl. lia.
  - intros j q Hj Hq _. rewrite Hn. destruct (decide (i = j)) as [<-|Hij].
    + rewrite Hi in Hj. injection Hj as <-. exists pc'. rewrite list_lookup_insert_eq by by eapply lookup_lt_Some.
      rewrite decide_True by done. by split_and!.
    + exists q. rewrite list_lookup_insert_ne by done. rewrite decide_False; [by split_and!|].
      intros E. apply Hij. by apply (Hd i j pc q); try congruence.
Qed.

Lemma tells_alloc l i pc pc' :
  l !! i = Some pc -> conn pc = NULL -> conn pc' <> NULL ->
  tells l [IoConnRef (conn pc')] (<[i := pc']> l).
Proof.
  intros Hi Hc Hn. split.
  - intros c Hc'. rewrite (holds_insert _ _ pc) by done. simpl. rewrite decide_False by congruence. lia.
  - intros j q Hj Hq _. exists q. rewrite list_lookup_insert_ne; [by split_and!|]. congruence.
Qed.

Lemma tells_free l i pc pc' :
  distinct l -> l !! i = Some pc -> conn pc' = NULL ->
  tells l (if decide (conn pc <> NULL) then [IoConnUnref (conn pc)] else []) (<[i := pc']> l).
Proof.
  intros Hd Hi Hc. split.
  - intros c Hc'. rewrite (holds_insert _ _ pc), Hc, (decide_False (P := NULL = c)) by congruence.
    destruct (decide (conn pc <> NULL)); simpl; destruct (decide (conn pc = c)); lia.
  - intros j q Hj Hq Ht. exists q. destruct (decide (i = j)) as [<-|Hij].
    + rewrite Hi in Hj. injection Hj as <-. rewrite decide_True in Ht by done. by inversion Ht.
    + rewrite list_lookup_insert_ne by done. split_and!; [done..|]. by case_decide.
Qed.

(** ** Handlers *)

(** Phone [c] is in slot [i]. *)
Definition sits (o : option (nat * bt_conn)) (l : list proxy_conn) : Prop :=
  match o with Some (i, c) => conn <$> l !! i = Some c | None => True end.

(** While the phone sits there, the slots stay distinct and what happens to
    them is told. *)
Definition tells_at (o : option (nat * bt_conn)) (l : list proxy_conn) (t : list io) (l' : list proxy_conn) : Prop :=
  distinct l -> sits o l -> distinct l' /\ sits o l' /\ tells l t l'.
Abbreviation told slots o := (tracks slots (tells_at o)).

Lemma sits_same o l l' : same_nums l l' -> sits o l -> sits o l'.
Proof.
  intros Hl. destruct o as [[i c]|]; [|done]. simpl. rewrite <- !list_lookup_fmap.
  by rewrite (same_nums_conns _ _ Hl).
Qed.
Lemma same_nums_distinct l l' : same_nums l l' -> distinct l -> distinct l'.
Proof.
  intros Hl Hd i j p q Hi Hj E Hn.
  destruct (Forall2_lookup_r _ _ _ _ _ Hl Hi) as (p0 & Hi0 & Ep & _).
  destruct (Forall2_lookup_r _ _ _ _ _ Hl Hj) as (q0 & Hj0 & Eq & _).
  apply (Hd i j p0 q0); congruence.
Qed.

(** No connection or counter changes and nothing is told. *)
Lemma tells_calm o l t l' : same_nums l l' -> Forall plain t -> tells_at o l t l'.
Proof.
  intros Hl Ht Hd Ho. split; [by eapply same_nums_distinct|]. split; [by eapply sits_same|by apply tells_plain].
Qed.
#[local] Instance tells_tracking o : Tracking (tells_at o).
Proof.
  split.
  - intros l. by apply tells_calm; [apply same_nums_refl|].
  - intros l1 t1 l2 t2 l3 H1 H2 Hd Ho. destruct (H1 Hd Ho) as (Hd1 & Ho1 & Ht1).
    destruct (H2 Hd1 Ho1) as (Hd2 & Ho2 & Ht2). split_and!; [done..|]. by eapply tells_trans.
Qed.

Lemma told_emit {S} (slots : S -> list proxy_conn) o e : plain e -> told slots o (emit e).
Proof. intros He. apply tracks_emit. intros l. apply tells_calm; [apply same_nums_refl|by repeat constructor]. Qed.

(** The phone was found in its slot. *)
Lemma told_sits {S A} (slots : S -> list proxy_conn) (m : M S A) s i c a s' t :
  told slots (Some (i, c)) m -> conn <$> slots s !! i = Some c -> m s = Some (a, s', t) ->
  tells_at None (slots s) t (slots s').
Proof. intros Hm Hi E Hd _. by destruct (Hm _ _ _ _ E Hd Hi) as (? & _ & ?). Qed.

#[local] Hint Extern 1 (told _ _ (emit _)) =>
  apply told_emit; unfold led_blink_tick; repeat case_match; exact I : tracks.
#[local] Hint Extern 1 (told _ _ (modify _)) => apply tracks_same; [apply _|by intros] : tracks.

Section Slots.
Context `{Nanopb, GattRead}.

Lemma get_slot_inv i b pc b' t :
  get_slot i b = Some (pc, b', t) -> conns b !! i = Some pc /\ b' = b /\ t = [].
Proof. unfold get_slot. rewrite run_gets. unfold id. destruct (_ !! i); [|done]. by intros [= <- <- <-]. Qed.

Lemma told_get_slot o i : told conns o (get_slot i).
Proof. unfold get_slot. tracks. Qed.

Lemma told_upd_slot o i f :
  (forall pc, conn (f pc) = conn pc /\ fromnum (f pc) = fromnum pc) -> told conns o (upd_slot i f).
Proof.
  intros Hf. apply tracks_modify. intros b. apply tells_calm; [|done]. simpl.
  generalize (conns b). intros l. revert i. induction l as [|pc l IH]; intros [|i]; [constructor..| |];
    constructor; [done|apply same_nums_refl|done|apply IH].
Qed.

(** The counter of the phone's slot goes up, and [k] notifies the phone. *)
Lemma told_announce {A} i c f (k : proxy_conn -> M ble A) :
  (forall pc, conn (f pc) = conn pc /\ fromnum (f pc) = u32 (fromnum pc + 1)) ->
  (forall pc s a s' t, k pc s = Some (a, s', t) -> s' = s /\ t = [IoUnlock i; IoNotify c (fromnum pc)]) ->
  told conns (Some (i, c)) (bind (upd_slot i f) (fun _ => bind (get_slot i) k)).
Proof.
  intros Hf Hk b a b' t. unfold upd_slot. rewrite run_modify. intros E Hd Hc. simpl in Hc.
  apply bind_inv in E as (pc & b1 & t1 & t2 & E1 & E2 & ->). apply get_slot_inv in E1 as (Hi & -> & ->).
  apply Hk in E2 as [-> ->]. simpl in Hi |- *.
  rewrite list_lookup_alter_eq in Hi. destruct (conns b !! i) as [p|] eqn:Hp; [|done].
  injection Hc as <-. injection Hi as <-. destruct (Hf p) as [Hc Hn].
  rewrite (alter_insert_eq _ _ _ p) by done. split_and!.
  - eapply distinct_insert; eauto.
  - rewrite list_lookup_insert_eq by by eapply lookup_lt_Some. simpl. by rewrite Hc.
  - apply (tells_bump _ _ _ _ [IoUnlock i]); try done. by repeat constructor.
Qed.
End Slots.
#[local] Hint Resolve told_get_slot : tracks.
#[local] Hint Extern 1 (told _ _ (upd_slot _ _)) => apply told_upd_slot; by intros : tracks.
#[local] Hint Extern 1 (told _ _ (bind (upd_slot _ _) (fun _ => bind (get_slot _) _))) =>
  apply told_announce; [by intros|]; intros ? ? ? ? ?; rewrite !run_emit; by intros [= _ <- <-] : tracks.

Section Handlers.
Context `{Nanopb, GattRead, !RingBuf RING_BUF_SIZE, !MsgQ tx_entry TX_QUEUE_DEPTH}.
Abbreviation bletold := (told conns None).

Lemma find_sits c b i : find_slot c b = Some i -> conn <$> conns b !! i = Some c.
Proof. intros (pc & -> & <-)%find_slot_lookup. done. Qed.

Lemma told_enqueue c data : bletold (ble_gatt_enqueue_fromradio c data).
Proof.
  unfold ble_gatt_enqueue_fromradio. case_decide; [tracks|]. intros b a b' t. rewrite run_gets. unfold id.
  destruct (find_slot c b) as [i|] eqn:Ef; [|by apply (tracks_ret conns (tells_at None))].
  apply told_sits with i c; [|by apply find_sits]. tracks.
Qed.

Lemma told_replay c n : bletold (ble_gatt_replay_cached_burst c n).
Proof.
  intros b a b' t. unfold ble_gatt_replay_cached_burst. rewrite run_gets. unfold id.
  destruct (find_slot c b) as [i|] eqn:Ef; [|by apply (tracks_ret conns (tells_at None))].
  apply told_sits with i c; [|by apply find_sits]. tracks.
Qed.
#[local] Hint Resolve told_enqueue told_replay : tracks.

Lemma told_broadcast_turn i data sent : bletold (broadcast_turn i data sent).
Proof. unfold broadcast_turn. tracks. Qed.
Lemma told_broadcast_from l data sent : bletold (broadcast_from l data sent).
Proof. revert sent. induction l; intros sent; simpl; tracks. Qed.
Lemma told_queuestatus c : bletold (ble_gatt_reply_queuestatus c).
Proof. unfold ble_gatt_reply_queuestatus. tracks. Qed.
Lemma told_advertising err : bletold (ble_gatt_start_advertising err).
Proof. unfold ble_gatt_start_advertising. tracks. Qed.
Lemma told_stage_queue i : bletold (stage_queue i).
Proof. unfold stage_queue. tracks. Qed.
Lemma told_ble_init leds : bletold (ble_gatt_init leds).
Proof. unfold ble_gatt_init. tracks. Qed.
#[local] Hint Resolve told_broadcast_turn told_broadcast_from told_queuestatus told_advertising
  told_stage_queue told_ble_init : tracks.

(** A phone connects that has no slot. *)
Lemma told_connected c err adv_err b a b' t :
  on_connected c err adv_err b = Some (a, b', t) -> distinct (conns b) ->
  c <> NULL -> Forall (fun pc => conn pc <> c) (conns b) ->
  distinct (conns b') /\ tells (conns b) t (conns b').
Proof.
  unfold on_connected. case_decide.
  { intros [= _ <- <-] Hd _ _. split; [done|]. by apply tells_plain; [apply same_nums_refl|]. }
  intros E Hd Hc Hn. apply bind_inv in E as (slot & b1 & t1 & t2 & E1 & E & ->).
  assert (distinct (conns b1) /\ tells (conns b) t1 (conns b1)) as [Hd1 Ht1].
  { unfold alloc_slot in E1. rewrite run_gets in E1. unfold id in E1.
    destruct (find_from (conns b) NULL 0) as [i|] eqn:Ef.
    - destruct (find_slot_lookup NULL b i Ef) as (pc & Hi & Hp). rewrite run_emit in E1.
      unfold upd_slot in E1. rewrite run_modify in E1. injection E1 as _ <- <-.
      change (conns (b <| conns := ?l |>)) with l. rewrite (alter_insert_eq _ _ _ pc) by done. split.
      + apply (distinct_new _ _ pc); [done..|]. by apply Forall_forall.
      + by apply (tells_alloc (conns b) i pc (fresh_slot c pc)).
    - injection E1 as _ <- <-. split; [done|]. by apply tells_plain; [apply same_nums_refl|]. }
  assert (bletold (match slot with None => emit (IoDisconnect c)
    | Some _ => modify (fun b => b <| active_conn_count := u8 (active_conn_count b + 1) |>) ;;;
        b <- gets id ;;
        if decide (active_conn_count b < MAX_BLE_CONNECTIONS)
        then ble_gatt_start_advertising adv_err ;;; ret tt
        else ret tt end)) as Hm by tracks.
  destruct (Hm _ _ _ _ E Hd1 I) as (Hd2 & _ & Ht2). split; [done|]. by eapply tells_trans.
Qed.

Lemma told_free_slot i : bletold (free_slot i).
Proof.
  intros b a b' t E Hd _. unfold free_slot in E.
  apply bind_inv in E as (pc & b1 & t1 & t2 & E1 & E & ->). apply get_slot_inv in E1 as (Hi & -> & ->).
  assert (exists pc', conn pc' = NULL /\ conns b' = <[i := pc']> (conns b)
    /\ t2 = if decide (conn pc <> NULL) then [IoConnUnref (conn pc)] else []) as (pc' & Hc & -> & ->).
  { unfold upd_slot in E. case_decide as Hn.
    - rewrite run_assoc, run_emit, run_modify in E. injection E as _ <- <-.
      exists (reset_slot (pc <| conn := NULL |>)). split_and!; [done| |done].
      change (alter reset_slot i (alter (fun pc => pc <| conn := NULL |>) i (conns b))
              = <[i := reset_slot (pc <| conn := NULL |>)]> (conns b)).
      rewrite (alter_insert_eq (conns b) i _ pc Hi). erewrite alter_insert_eq by by apply list_lookup_insert_eq, (lookup_lt_Some _ _ pc).
      by rewrite list_insert_insert_eq.
    - rewrite run_ret in E. injection E as _ <- <-. exists (reset_slot pc).
      split_and!; [simpl; lia| |done]. by apply alter_insert_eq. }
  split_and!; [|done|by apply tells_free]. eapply distinct_insert; eauto.
Qed.
#[local] Hint Resolve told_free_slot : tracks.
Lemma told_disconnected c adv_err : bletold (on_disconnected c adv_err).
Proof. unfold on_disconnected. tracks. Qed.
Lemma told_register c id : bletold (ble_gatt_register_proxy_id c id).
Proof. unfold ble_gatt_register_proxy_id. tracks. Qed.
End Handlers.
#[local] Hint Resolve told_enqueue told_replay told_broadcast_turn told_queuestatus told_advertising
  told_stage_queue told_ble_init told_disconnected told_register : tracks.

(** ** The whole program *)

Section Program.
Context `{Nanopb, GattRead, !RingBuf RING_BUF_SIZE, !MsgQ tx_entry TX_QUEUE_DEPTH}.
Definition phone_slots (w : world) : list proxy_conn := conns (w_ble w).
Abbreviation wtold := (told phone_slots None).

Lemma told_zoom_ble {A} (m : M ble A) : told conns None m -> wtold (zoom m).
Proof. apply tracks_zoom. Qed.
(** A module other than the GATT server has no slots. *)
Lemma told_zoom {A T} (L : Lens world T) `{!Disjoint_lens L lens_ble} (m : M T A) :
  emits plain m -> wtold (zoom m).
Proof.
  intros Hm. apply (tracks_other _ L lens_ble conns plain m Hm). intros l t.
  apply tells_calm, same_nums_refl.
Qed.

#[local] Hint Extern 1 (tracks phone_slots _ (zoom _)) => apply told_zoom_ble; solve [tracks] : tracks.
#[local] Hint Extern 2 (tracks phone_slots _ (zoom _)) =>
  apply told_zoom; [apply _|solve [calls]] : tracks.

Lemma told_skip_loop fuel i n : wtold (skip_loop (W := world) fuel i n).
Proof. induction fuel; simpl; tracks.
Qed.
#[local] Hint Resolve told_skip_loop : tracks.
Lemma told_fromradio_read c len off : wtold (fromradio_read (W := world) c len off).
Proof. unfold fromradio_read, stage_replay. tracks. Qed.

Lemma told_serve_one c : wtold (serve_one_pending (W := world) serve_replay c).
Proof. unfold serve_one_pending, serve_replay. tracks. Qed.
#[local] Hint Resolve told_fromradio_read told_serve_one : tracks.
Lemma told_uart_tx p : wtold (zoom (uart_meshtastic_tx p)).
Proof. apply told_zoom; [apply _|]. unfold uart_meshtastic_tx. calls. Qed.
#[local] Hint Resolve told_uart_tx : tracks.
Lemma told_on_toradio c data : wtold (on_toradio_ble (W := world) c data).
Proof.
  unfold on_toradio_ble, ble_gatt_park_pending, upstream_on_pending_phone, upstream_keepalive_reschedule,
    serve_one_pending, serve_replay. tracks.
Qed.
#[local] Hint Resolve told_on_toradio : tracks.
Lemma told_keepalive : wtold (keepalive_work_handler (W := world)).
Proof. unfold keepalive_work_handler. tracks. Qed.
#[local] Hint Resolve told_keepalive : tracks.

(** The handlers of one section, connections apart. *)
Lemma told_step_event e :
  one_section e = true -> (forall c err adv_err, e <> EvConnected c err adv_err) -> wtold (step e).
Proof.
  intros He Hc. destruct e as [c err adv_err| | | | | | | | | | | |]; try done; [by destruct (Hc c err adv_err)|..];
    unfold step, fromnum_read, logradio_read, toradio_write, node_reg_write, ble_led_blink_work,
    led_blink_work, uart_cb; tracks.
Qed.

(** ** Every section of every task *)

Definition telling (w : world) (t : list io) (w' : world) : Prop :=
  distinct (phone_slots w) -> distinct (phone_slots w') /\ tells (phone_slots w) t (phone_slots w').
Abbreviation tells_all := (traced telling).

Lemma tells_act {A} (m : M world A) : wtold m -> tells_all (act m).
Proof.
  intros Hm. apply traced_act. intros w a w' t E Hd. by destruct (Hm w a w' t E Hd I) as (? & _ & ?).
Qed.

Ltac tells_step :=
  match goal with
  | |- tells_all (tbind _ _) => apply traced_bind; [|intros ?]
  | |- tells_all (act _) => apply tells_act; tracks
  | |- tells_all (Done _) => apply traced_done
  | |- tells_all (match ?x with _ => _ end) => destruct x
  | |- tells_all _ => solve [eauto with traced nocore]
  end.
Ltac tells_all := repeat tells_step.

Lemma tells_broadcast_from slots data sent : tells_all (t_broadcast_from slots data sent).
Proof. revert sent. induction slots; intros sent; cbn [t_broadcast_from]; tells_all. Qed.
Lemma tells_serve_loop fuel i : tells_all (t_serve_loop fuel i).
Proof. revert i. induction fuel; intros i; cbn [t_serve_loop]; tells_all. Qed.
#[local] Hint Resolve tells_broadcast_from tells_serve_loop : traced.

Lemma told_fetch_step raw info : wtold (fetch_step raw info).
Proof. unfold fetch_step, cache_add_frame, cache_mark_ready. cbv zeta. tracks. Qed.
Lemma told_target_step raw info : wtold (target_step raw info).
Proof. unfold target_step. tracks. Qed.
Lemma told_rx_byte_step b : wtold (rx_byte_step b).
Proof. unfold rx_byte_step, rx_process_byte, put_rx. cbv zeta. tracks. Qed.
#[local] Hint Resolve told_fetch_step told_target_step told_rx_byte_step : tracks.

Lemma tells_on_fromradio raw : tells_all (t_on_fromradio_uart raw).
Proof.
  unfold t_on_fromradio_uart, t_router_dispatch, t_upstream_on_fromradio, t_serve_pending_phones,
    t_broadcast, upstream_swallow_live_queuestatus. tells_all.
Qed.
#[local] Hint Resolve tells_on_fromradio : traced.
Lemma tells_rx_turn : tells_all t_rx_turn.
Proof. unfold t_rx_turn, rx_restart. tells_all. Qed.
Lemma tells_tx_work err : tells_all (t_tx_work_handler err).
Proof. unfold t_tx_work_handler, tx_start, tx_abandon. tells_all. Qed.
Lemma tells_main env : tells_all (t_main env).
Proof.
  unfold t_main, t_uart_meshtastic_init, t_upstream_session_start, cache_begin, upstream_set_serve_cb.
  tells_all.
Qed.

(** ** Every interleaving *)

Definition config_tells : config -> Prop := config_traced telling.

Lemma event_tells w e w' t :
  one_section e = true -> enabled w e -> step e w = Some (tt, w', t) -> telling w t w'.
Proof.
  intros H1 He E Hd.
  assert ((exists c err adv_err, e = EvConnected c err adv_err)
          \/ forall c err adv_err, e <> EvConnected c err adv_err) as [(c & err & adv_err & ->)|Hc].
  { destruct e; [left; by eauto|right; by intros..]. }
  - simpl in E. unfold zoom in E. destruct (on_connected _ _ _ _) as [[[[] b'] t']|] eqn:E'; [|done].
    injection E as <- <-. destruct He as [Hn Hf]. exact (told_connected _ _ _ _ _ _ _ E' Hd Hn Hf).
  - by destruct (told_step_event e H1 Hc w tt w' t E Hd I) as (? & _ & ?).
Qed.

Lemma cstep_tells cf a t cf' :
  config_tells cf -> cstep cf a t cf' -> config_tells cf' /\ telling (cf_world cf) t (cf_world cf').
Proof.
  apply cstep_all_traced; [|apply tells_tx_work|apply tells_rx_turn|by intros; eapply event_tells].
  intros w Hd. split; [done|]. by apply tells_plain; [apply same_nums_refl|].
Qed.

(** A schedule, and all the calls its steps make. *)
Inductive csteps : config -> list io -> config -> Prop :=
  | csteps_nil cf : csteps cf [] cf
  | csteps_cons cf a t cf1 t' cf' : cstep cf a t cf1 -> csteps cf1 t' cf' -> csteps cf (t ++ t') cf'.

Lemma csteps_tells cf t cf' :
  csteps cf t cf' -> config_tells cf -> telling (cf_world cf) t (cf_world cf').
Proof.
  induction 1 as [cf|cf a t cf1 t' cf' Hs _ IH]; intros Hc Hd.
  - split; [done|]. by apply tells_plain; [apply same_nums_refl|].
  - destruct (cstep_tells _ _ _ _ Hc Hs) as [Hc1 Ht]. destruct (Ht Hd) as [Hd1 Ht1].
    destruct (IH Hc1 Hd1) as [Hd' Ht']. split; [done|]. by eapply tells_trans.
Qed.

Lemma power_on_tells env :
  config_tells (power_on env) /\ distinct (phone_slots (cf_world (power_on env))).
Proof.
  split; [split; [done|apply tells_main]|]. intros i j p q Hi _ _ Hn. destruct Hn.
  change (replicate 6 conn_boot !! i = Some p) in Hi. by apply lookup_replicate in Hi as [-> _].
Qed.

Lemma creachable_tells cf : creachable cf -> config_tells cf /\ distinct (phone_slots (cf_world cf)).
Proof.
  induction 1 as [env _|cf a t cf' _ [Hc Hd] Hs]; [apply power_on_tells|].
  destruct (cstep_tells _ _ _ _ Hc Hs) as [Hc' Ht]. split; [done|]. by apply Ht.
Qed.

Lemma run_schedule_csteps chs cf cf' : run_schedule chs cf = Some cf' -> exists t, csteps cf t cf'.
Proof.
  revert cf. induction chs as [|ch chs IH]; intros cf; simpl.
  { intros [= <-]. exists []. constructor. }
  destruct (choose ch cf) as [cf1|] eqn:E; [|done]. simpl. intros [t' Ht]%IH.
  destruct (choose_step ch cf cf1 E) as (a & t & Hs). exists (t ++ t'). by eapply csteps_cons.
Qed.

Lemma holds_distinct l c :
  distinct l -> c <> NULL -> holds l c = if decide (c ∈ conn <$> l) then 1 else 0.
Proof.
  induction l as [|pc l IH]; intros Hd Hc; [done|]. unfold holds in *. rewrite filter_cons, fmap_cons.
  specialize (IH (distinct_cons _ _ Hd) Hc). destruct (decide (conn pc = c)) as [E|E].
  - rewrite zlen_cons, IH, decide_False, decide_True; [done|by rewrite <- E; left|].
    intros (q & -> & Hq)%list_elem_of_fmap. apply list_elem_of_lookup in Hq as [j Hj].
    assert (conn pc <> NULL) as Hn by congruence. by pose proof (Hd 0%nat (S j) pc q eq_refl Hj E Hn).
  - rewrite IH. apply decide_ext. rewrite elem_of_cons. split; [by right|by intros [->|]].
Qed.
End Program.

Section Properties.
Context `{Nanopb, GattRead, !RingBuf RING_BUF_SIZE, !MsgQ tx_entry TX_QUEUE_DEPTH}.

(** C15: no announcement is lost, in any interleaving.  Take any configuration
    the threads reach and any schedule from there, at any of the cuts.  A phone
    that stays connected stays in its slot, and the values it is notified of
    are the successive values of its counter, each once and in order, up to the
    one it reads at the end. *)
Theorem threads_notified cf t cf' i pc :
  creachable cf -> csteps cf t cf' ->
  conns (w_ble (cf_world cf)) !! i = Some pc -> conn pc <> NULL -> Forall (kept_ref (conn pc)) t ->
  exists pc', conns (w_ble (cf_world cf')) !! i = Some pc' /\ conn pc' = conn pc
    /\ follows (fromnum pc) (notes (conn pc) t) (fromnum pc').
Proof.
  intros [Hc Hd]%creachable_tells Hs Hi Hn Ht. destruct (csteps_tells _ _ _ Hs Hc Hd) as [_ Htl].
  exact (tl_notes _ _ _ Htl i pc Hi Hn Ht).
Qed.

(** C16: connection references are balanced, in any interleaving.  On every
    schedule from power-on, at each of its steps, the references taken to a
    connection object less those dropped are one if the object is in a slot and
    none if it is not; so none leaks, and none is dropped that is not held. *)
Theorem threads_refs env t cf c :
  csteps (power_on env) t cf -> c <> NULL ->
  refs c t = if decide (c ∈ conn <$> conns (w_ble (cf_world cf))) then 1 else 0.
Proof.
  intros Hs Hc. destruct (power_on_tells env) as [Hp Hd]. destruct (csteps_tells _ _ _ Hs Hp Hd) as [Hd' Htl].
  pose proof (tl_refs _ _ _ Htl c Hc) as E. rewrite !holds_distinct in E by done.
  rewrite (decide_False (P := c ∈ conn <$> phone_slots (cf_world (power_on env)))) in E; [exact (eq_sym E)|]. intros (q & -> & Hq)%list_elem_of_fmap. destruct Hc.
  change (q ∈ replicate 6 conn_boot) in Hq. by apply elem_of_replicate in Hq as [-> _].
Qed.
End Properties.

(** ** At concrete inputs *)

Module Demo.
#[local] Existing Instances demo_nanopb demo_nanopb_ok list_ring list_ring_ok list_msgq
  list_msgq_ok list_gatt_read list_gatt_read_ok.
Import Schedule.Demo.

(** Phone 11, whose replay is armed, sends a heartbeat. *)
Definition beat : event := EvWriteToRadio 11 (7 :: le32 1) 0.
Definition after_beat : config :=
  match step beat (cf_world served) with Some (_, w, _) => put_world w served | None => served end.

Lemma beat_run : step beat (cf_world served) = Some (tt, cf_world after_beat, [IoLock 0; IoUnlock 0; IoNotify 11 2]).
Proof. vm_compute. reflexivity. Qed.
Lemma beat_enabled : enabled (cf_world served) beat.
Proof. split; [done|]. split; [|done]. apply (bool_decide_unpack _). vm_compute. exact I. Qed.
Lemma beat_step :
  csteps (put_world (cf_world served) served) ([IoLock 0; IoUnlock 0; IoNotify 11 2] ++ [])
    (put_world (cf_world after_beat) served).
Proof.
  eapply csteps_cons; [|apply csteps_nil].
  exact (cs_event _ _ _ beat _ _ eq_refl ltac:(done) beat_enabled beat_run).
Qed.

Lemma threads_notified_witness :
  exists pc', conns (w_ble (cf_world (put_world (cf_world after_beat) served))) !! 0%nat = Some pc'
    /\ conn pc' = 11 /\ fromnum pc' = 2.
Proof.
  destruct served11_state as [Hc _].
  destruct (threads_notified (put_world (cf_world served) served) _ (put_world (cf_world after_beat) served)
              0 served11 ltac:(rewrite put_world_self; exact served_reach) beat_step ltac:(rewrite put_world_self; exact served11_at))
    as (pc' & Hi & Hc' & Hf).
  - rewrite Hc. done.
  - repeat constructor.
  - exists pc'. rewrite Hc in Hc', Hf. split; [exact Hi|split; [exact Hc'|]]. exact (proj2 Hf).
Defined.

(** Phone 11 connects after the boot and stays. *)
Lemma served_from_start : run_schedule (replicate 26 ChMain ++ ask11 ++ fetch ++ replicate 61 ChWq) start = Some served.
Proof. vm_compute. reflexivity. Qed.

Lemma threads_refs_witness : exists t, csteps start t served /\ refs 11 t = 1 /\ refs 12 t = 0.
Proof.
  destruct (run_schedule_csteps _ _ _ served_from_start) as [t Ht].
  exists t. split; [exact Ht|].
  split; [rewrite (threads_refs Main.Demo.env_ok t served 11 Ht)|rewrite (threads_refs Main.Demo.env_ok t served 12 Ht)];
    first [done|apply decide_True|apply decide_False]; by_eval.
Defined.
End Demo.
