(* ===== verification/Forgotten.v ===== *)
(** * Forgotten: a phone that waits outside the queue

    A phone that asked for the config waits to be served from the session's
    queue.  Nothing but its own request or its departure gets a waiting phone
    that is not in the queue out of that state; and starting the session, which
    empties the queue, puts the phones there that asked before. *)

From stdpp Require Import prelude.
From S2P Require Import Prelude Tracks Tasks ProxyProtocol Nanopb ConfigCache Zephyr UartMeshtastic.
From S2P Require Import ProtoHandler RouteTrace UpstreamSession BleGatt BleReplay Router World Main System Calls Threads WorkQueue BootThread Locks Schedule Told.

Local Open Scope Z_scope.

(** ** The slots *)

Section Slots.
Context (c : bt_conn) (Hc : c <> NULL).

Definition waits (pc : proxy_conn) : Prop := conn pc = c /\ pc_state pc = PHONE_PENDING.
#[export] Instance waits_dec pc : Decision (waits pc).
Proof. unfold waits. apply _. Defined.

(** The phone still waits, for the config it asked for. *)
Definition as_before (pc pc' : proxy_conn) : Prop :=
  conn pc' = conn pc /\ pc_state pc' = pc_state pc /\ pc_nonce pc' = pc_nonce pc.
Definition spared (l l' : list proxy_conn) : Prop :=
  forall i pc, l !! i = Some pc -> waits pc -> exists pc', l' !! i = Some pc' /\ as_before pc pc'.

(** Slot [i] is not that of a phone that waits. *)
Definition not_waiting (o : option nat) (l : list proxy_conn) : Prop :=
  match o with Some i => forall pc, l !! i = Some pc -> ~ waits pc | None => True end.
Definition spares (o : option nat) (l : list proxy_conn) (t : list io) (l' : list proxy_conn) : Prop :=
  not_waiting o l -> not_waiting o l' /\ spared l l'.

Lemma as_before_waits pc pc' : as_before pc pc' -> waits pc -> waits pc'.
Proof. intros (Ec & Es & _) [??]. split; congruence. Qed.
Lemma spared_refl l : spared l l.
Proof. intros i pc Hi _. by exists pc. Qed.
Lemma spared_trans l1 l2 l3 : spared l1 l2 -> spared l2 l3 -> spared l1 l3.
Proof.
  intros H1 H2 i pc Hi Hw. destruct (H1 i pc Hi Hw) as (pc1 & Hi1 & Hs1).
  destruct (H2 i pc1 Hi1) as (pc2 & Hi2 & Hs2); [by eapply as_before_waits|]. exists pc2. split; [done|].
  destruct Hs1 as (? & ? & ?), Hs2 as (? & ? & ?). by split_and!; etrans.
Qed.
#[export] Instance spares_tracking o : Tracking (spares o).
Proof.
  split; [by intros l Hl; split; [|apply spared_refl]|].
  intros l1 t1 l2 t2 l3 H1 H2 Hl. destruct (H1 Hl) as [Hl1 Hs1]. destruct (H2 Hl1) as [Hl2 Hs2].
  split; [done|by eapply spared_trans].
Qed.
Abbreviation leaves get o := (tracks get (spares o)).

Lemma lookup_alter_inv {A} (f : A -> A) i j (l : list A) x :
  alter f i l !! j = Some x -> exists y, l !! j = Some y /\ x = if decide (i = j) then f y else y.
Proof.
  destruct (decide (i = j)) as [<-|Hne].
  - rewrite list_lookup_alter_eq. destruct (l !! i) as [y|]; [|done]. intros [= <-]. by exists y.
  - rewrite list_lookup_alter_ne by done. intros ->. by exists x.
Qed.

(** An update that leaves the session of a waiting phone alone; one of a slot
    that is not a waiting phone's. *)
Lemma leaves_upd_slot o i f :
  (forall pc, conn (f pc) = conn pc /\ pc_state (f pc) = pc_state pc /\ pc_nonce (f pc) = pc_nonce pc) ->
  leaves conns o (upd_slot i f).
Proof.
  intros Hf. apply tracks_modify. intros b Hl. change (conns (b <| conns := ?l |>)) with l. split.
  - destruct o as [j|]; [|done]. intros pc (q & Hq & ->)%lookup_alter_inv. specialize (Hl q Hq).
    case_decide; [|done]. contradict Hl. destruct (Hf q) as (Ec & Es & _). destruct Hl. split; congruence.
  - intros j pc Hj Hw. destruct (decide (i = j)) as [<-|Hne].
    + exists (f pc). rewrite list_lookup_alter_eq, Hj. split; [done|apply Hf].
    + exists pc. by rewrite list_lookup_alter_ne.
Qed.
Lemma leaves_upd_at i f :
  (forall pc, ~ waits pc -> ~ waits (f pc)) -> leaves conns (Some i) (upd_slot i f).
Proof.
  intros Hf. apply tracks_modify. intros b Hl. change (conns (b <| conns := ?l |>)) with l. split.
  - intros pc (q & Hq & ->)%lookup_alter_inv. rewrite decide_True by done. by apply Hf, Hl.
  - intros j pc Hj Hw. destruct (decide (i = j)) as [<-|Hne]; [by destruct (Hl pc Hj)|].
    exists pc. by rewrite list_lookup_alter_ne.
Qed.
Lemma leaves_get_slot o i : leaves conns o (get_slot i).
Proof. unfold get_slot. tracks. Qed.

(** The slot was found not to be a waiting phone's. *)
Lemma leaves_at {S A} (get : S -> list proxy_conn) (m : M S A) s i a s' t :
  leaves get (Some i) m -> not_waiting (Some i) (get s) -> m s = Some (a, s', t) ->
  spares None (get s) t (get s').
Proof. intros Hm Hi E _. by destruct (Hm _ _ _ _ E Hi). Qed.
Lemma other_not_waiting c' b i : c' <> c -> find_slot c' b = Some i -> not_waiting (Some i) (conns b).
Proof.
  intros Hne (q & Hq & Ec)%find_slot_lookup pc Hi [Hw _]. rewrite Hq in Hi. injection Hi as <-. congruence.
Qed.
End Slots.
Abbreviation leaves c get o := (tracks get (spares c o)).

Lemma no_wait_kept c (f : proxy_conn -> proxy_conn) :
  (forall pc, conn (f pc) = conn pc /\ (pc_state (f pc) = PHONE_PENDING -> pc_state pc = PHONE_PENDING)) ->
  forall pc, ~ waits c pc -> ~ waits c (f pc).
Proof. intros Hf pc Hn [Hw Hs]. destruct (Hf pc) as [Ec Hp]. apply Hn. split; [by rewrite <- Ec|auto]. Qed.

#[export] Hint Extern 1 (tracks _ (spares _ _) (emit _)) => apply tracks_emit; intros ? ?; by split; [|apply spared_refl] : tracks.
#[export] Hint Extern 1 (tracks _ (spares _ _) (modify _)) => apply tracks_same; [apply _|by intros] : tracks.
#[export] Hint Extern 1 (tracks _ (spares _ _) (upd_slot _ _)) => apply leaves_upd_slot; by intros : tracks.
#[export] Hint Extern 2 (tracks _ (spares _ (Some _)) (upd_slot _ _)) =>
  apply leaves_upd_at, no_wait_kept; by intros : tracks.
#[export] Hint Resolve leaves_get_slot : tracks.

Section Handlers.
Context `{Nanopb, GattRead, !RingBuf RING_BUF_SIZE, !MsgQ tx_entry TX_QUEUE_DEPTH}.
Context (c : bt_conn) (Hc : c <> NULL).
Abbreviation bleaves := (leaves c conns None).

Lemma leaves_enqueue c' data : bleaves (ble_gatt_enqueue_fromradio c' data).
Proof. unfold ble_gatt_enqueue_fromradio. tracks. Qed.
Lemma leaves_broadcast_turn i data sent : bleaves (broadcast_turn i data sent).
Proof. unfold broadcast_turn. pose proof leaves_enqueue. tracks. Qed.
Lemma leaves_queuestatus c' : bleaves (ble_gatt_reply_queuestatus c').
Proof. unfold ble_gatt_reply_queuestatus. pose proof leaves_enqueue. tracks. Qed.

(** Another phone is replayed to. *)
Lemma leaves_replay c' n : c' <> c -> bleaves (ble_gatt_replay_cached_burst c' n).
Proof.
  intros Hne b a b' t. unfold ble_gatt_replay_cached_burst. rewrite run_gets. unfold id.
  destruct (find_slot c' b) as [i|] eqn:Ef; [|by apply (tracks_ret conns (spares c None))].
  eapply leaves_at; [|by eapply other_not_waiting]. tracks.
Qed.

Lemma leaves_alloc c' : c' <> c -> bleaves (alloc_slot c').
Proof.
  intros Hne b a b' t. unfold alloc_slot. rewrite run_gets. unfold id.
  destruct (find_from (conns b) NULL 0) as [i|] eqn:Ef; [|by apply (tracks_ret conns (spares c None))].
  eapply leaves_at; [|eapply (other_not_waiting c NULL); [congruence|exact Ef]].
  apply tracks_bind; [apply _|tracks|intros _]. apply tracks_bind; [apply _| |intros _; tracks].
  apply leaves_upd_at. intros pc _ [Hw _]. by apply Hne.
Qed.
Lemma leaves_connected c' err adv_err : c' <> c -> bleaves (on_connected c' err adv_err).
Proof.
  intros Hne. pose proof (leaves_alloc c' Hne). unfold on_connected, ble_gatt_start_advertising. tracks.
Qed.
Lemma leaves_disconnected c' adv_err : c' <> c -> bleaves (on_disconnected c' adv_err).
Proof.
  intros Hne b a b' t. unfold on_disconnected. rewrite run_gets. unfold id.
  intros E. apply bind_inv in E as ([] & b1 & t1 & t2 & E1 & E2 & ->).
  eapply (tr_app (conns b) t1 (conns b1)).
  - revert E1. destruct (find_slot c' b) as [i|] eqn:Ef; [|by apply (tracks_ret conns (spares c None))].
    eapply leaves_at; [|by eapply other_not_waiting]. unfold free_slot.
    assert (leaves c conns (Some i) (upd_slot i (fun pc => pc <| conn := NULL |>))).
    { apply leaves_upd_at. intros pc _ [Hw _]. by destruct Hc. }
    tracks.
  - revert E2. assert (bleaves (ble_gatt_start_advertising adv_err ;;; ret tt)) as Ha
      by (unfold ble_gatt_start_advertising; tracks).
    apply Ha.
Qed.
Lemma leaves_register c' id : bleaves (ble_gatt_register_proxy_id c' id).
Proof. unfold ble_gatt_register_proxy_id. tracks. Qed.
Lemma leaves_stage_queue o i : leaves c conns o (stage_queue i).
Proof. unfold stage_queue. tracks. Qed.
End Handlers.

(** ** The whole program *)

Section Program.
Context `{NanopbOk, GattReadOk, !RingBuf RING_BUF_SIZE, !MsgQ tx_entry TX_QUEUE_DEPTH}.
Context (c : bt_conn) (Hc : c <> NULL).

(** The slots, and the queue: [c] stays out of it. *)
Definition lobby (w : world) : list proxy_conn * list bt_conn := (phone_slots w, pending (w_upstream w)).
Definition stays_out (o : option nat) (x : list proxy_conn * list bt_conn) (t : list io)
    (y : list proxy_conn * list bt_conn) : Prop :=
  (c ∉ x.2 -> c ∉ y.2) /\ spares c o x.1 t y.1.
#[local] Instance stays_out_tracking o : Tracking (stays_out o).
Proof.
  split; [intros x; by split; [|apply (tr_nil (R := spares c o))]|].
  intros x t y t' z [Hxy Hs] [Hyz Hs']. split; [auto|by eapply tr_app].
Qed.
Abbreviation out o := (tracks lobby (stays_out o)).

Lemma out_zoom_ble {A} o (m : M ble A) : leaves c conns o m -> out o (zoom m).
Proof.
  intros Hm w a w' t E. pose proof (frames_zoom lens_upstream lens_ble m _ _ _ _ E) as Eu.
  change (w_upstream w' = w_upstream w) in Eu. split; [by unfold lobby; rewrite Eu|].
  exact (tracks_zoom _ conns m Hm _ _ _ _ E).
Qed.
(** A module that has neither the slots nor the queue. *)
Lemma out_zoom {A T} o (L : Lens world T) `{!Disjoint_lens L lens_ble, !Disjoint_lens L lens_upstream} (m : M T A) :
  out o (zoom m).
Proof.
  intros w a w' t E. pose proof (frames_zoom lens_upstream L m _ _ _ _ E) as Eu.
  pose proof (frames_zoom lens_ble L m _ _ _ _ E) as Eb.
  change (w_upstream w' = w_upstream w) in Eu. change (w_ble w' = w_ble w) in Eb.
  unfold lobby, phone_slots. rewrite Eu, Eb. apply (tr_nil (R := stays_out o)).
Qed.
Lemma out_upstream {A} o (m : M upstream A) :
  (forall u a u' t, m u = Some (a, u', t) -> c ∉ pending u -> c ∉ pending u') -> out o (zoom m).
Proof.
  intros Hm w a w' t E. pose proof (frames_zoom lens_ble lens_upstream m _ _ _ _ E) as Eb.
  change (w_ble w' = w_ble w) in Eb. unfold zoom in E.
  destruct (m (lget w)) as [[[b u] t']|] eqn:Em; [|done]. injection E as _ <- _. split.
  - exact (Hm _ _ _ _ Em).
  - unfold lobby, phone_slots. rewrite Eb. apply (tr_nil (R := spares c o)).
Qed.
Lemma out_modify o (f : upstream -> upstream) :
  (forall u, pending (f u) = pending u) -> out o (zoom (modify f)).
Proof. intros Hf. apply out_upstream. intros u ? ? ? [= _ <- _]. by rewrite Hf. Qed.
Lemma out_emit o e : out o (emit e).
Proof. apply tracks_emit. intros x. split; [done|]. intros Hx. by split; [|apply spared_refl]. Qed.
#[local] Hint Resolve out_emit : tracks.
#[local] Hint Extern 1 (tracks lobby _ (zoom (modify _))) => apply out_modify; intros; by try case_decide : tracks.
#[local] Hint Extern 2 (tracks lobby _ (zoom (gets _))) => apply out_upstream; by intros ? ? ? ? [= _ <- _] : tracks.
#[local] Hint Extern 3 (tracks lobby _ (zoom _)) => apply out_zoom; apply _ : tracks.
#[local] Hint Extern 3 (tracks lobby _ (zoom _)) => apply out_zoom_ble; solve [tracks] : tracks.

Lemma out_skip_loop o fuel i n : out o (skip_loop (W := world) fuel i n).
Proof. induction fuel; simpl; tracks. Qed.
#[local] Hint Resolve out_skip_loop leaves_stage_queue : tracks.
Lemma out_stage_replay i : out (Some i) (stage_replay (W := world) i).
Proof. unfold stage_replay. tracks. Qed.
#[local] Hint Resolve out_stage_replay : tracks.

(** A read takes a phone out of a replay, but no phone out of the wait. *)
Lemma out_staging c' i w a w' t off :
  find_slot c' (w_ble w) = Some i ->
  (if decide (off = 0) then
     pc <- zoom (get_slot i) ;;
     if decide (pc_state pc = PHONE_REPLAYING) then stage_replay i else zoom (stage_queue i)
   else ret tt) w = Some (a, w', t) -> stays_out None (lobby w) t (lobby w').
Proof.
  intros Ef. case_decide; [|apply (tracks_ret lobby (stays_out None))].
  pose proof (find_slot_lookup c' (w_ble w) i Ef) as (pc & Hi & _).
  rewrite (run_slot_get w i pc) by exact Hi. case_decide as Hr.
  - intros E. assert (not_waiting c (Some i) (phone_slots w)) as Hn.
    { intros q Hq [_ Hs]. unfold phone_slots in Hq. rewrite Hi in Hq. injection Hq as <-. congruence. }
    destruct (out_stage_replay i _ _ _ _ E) as [Hq Hl]. split; [done|]. intros _. by destruct (Hl Hn).
  - assert (out None (zoom (stage_queue i))) as Hq by tracks. apply Hq.
Qed.
Lemma out_fromradio_read c' len off : out None (fromradio_read (W := world) c' len off).
Proof.
  intros w a w' t. unfold fromradio_read. rewrite run_zoom_gets. unfold id.
  change (lget (Lens := lens_ble) w) with (w_ble w).
  destruct (find_slot c' (w_ble w)) as [i|] eqn:Ef; [|by apply (tracks_ret lobby (stays_out None))].
  intros E. apply bind_inv in E as ([] & w1 & t1 & t2 & E1 & E & ->).
  eapply tr_app; [by eapply out_emit|]. injection E1 as <- _.
  apply bind_inv in E as (r & w2 & t3 & t4 & E2 & E & ->).
  eapply tr_app; [by eapply out_staging|].
  revert E. match goal with |- ?m w2 = _ -> _ => assert (out None m) as Hm by tracks end. apply Hm.
Qed.

(** ** Requests *)

Lemma out_serve_one c' : c' <> c -> out None (serve_one_pending (W := world) serve_replay c').
Proof.
  intros Hne. pose proof (leaves_replay c c' 0 Hne). unfold serve_one_pending, serve_replay. tracks.
Qed.

(** Another phone is put into the queue. *)
Lemma pending_snoc (u : upstream) p c' :
  mem_set (s_pending u) (s_pending_count u) c' = Some p -> s_pending_count u < CONFIG_BT_MAX_CONN ->
  pending (u <| s_pending := p |> <| s_pending_count := u8 (s_pending_count u + 1) |>) = pending u ++ [c'].
Proof.
  unfold mem_set. case_decide as Hn; [|done]. intros [= <-] Hlt. unfold CONFIG_BT_MAX_CONN in Hlt.
  unfold pending. simpl. rewrite u8_id by lia.
  replace (Z.to_nat (s_pending_count u + 1)) with (S (Z.to_nat (s_pending_count u))) by lia.
  erewrite take_S_r by (apply list_lookup_insert_eq; unfold zlen in *; lia).
  by rewrite take_insert_ge by lia.
Qed.
Lemma out_pending_phone c' : c' <> c -> out None (upstream_on_pending_phone (W := world) serve_replay c').
Proof.
  intros Hne. pose proof (out_serve_one c' Hne) as Hs.
  assert (out None (ret tt)) as Hret by tracks. unfold upstream_on_pending_phone. case_decide; [done|].
  apply tracks_bind; [apply _|tracks|intros ready]. destruct ready; [done|].
  intros w a w' t. rewrite run_zoom_gets. unfold id. set (u := lget w).
  destruct (pending_search _ _ _ _ _) as [[]|]; [rewrite run_oget; apply Hret|rewrite run_oget|done].
  case_decide as Hn; [apply Hret|]. destruct (mem_set _ _ _) as [p|] eqn:Ep; [|done].
  rewrite run_oget, zoom_modify_eq. intros [= _ <- <-]. split; [|apply (tr_nil (R := spares c None))].
  simpl. change (lget (Lens := lens_upstream) w) with (w_upstream w) in *. subst u.
  rewrite (pending_snoc _ _ c') by (exact Ep || lia). rewrite elem_of_app, list_elem_of_singleton. intros Hi [?|?]; [done|congruence].
Qed.

(** A request of another phone, or of the phone itself, but for the config. *)
Lemma out_park c' n : c' <> c -> out None (ble_gatt_park_pending (W := world) c' n).
Proof.
  intros Hne w a w' t. unfold ble_gatt_park_pending. rewrite run_zoom_gets. unfold id.
  change (lget (Lens := lens_ble) w) with (w_ble w).
  destruct (find_slot c' (w_ble w)) as [i|] eqn:Ef; [|by apply (tracks_ret lobby (stays_out None))].
  intros E. apply bind_inv in E as ([] & w1 & t1 & t2 & E1 & E & ->).
  eapply tr_app; [|by eapply out_pending_phone]. clear E. revert E1. unfold upd_slot. rewrite zoom_modify_eq.
  intros [= <- <-]. split; [done|]. intros _. split; [done|]. intros j pc Hj Hw.
  exists pc. split; [|done]. change (alter (fun pc => pc <| pc_state := PHONE_PENDING |> <| pc_nonce := n |>) i
    (conns (w_ble w)) !! j = Some pc). rewrite list_lookup_alter_ne; [exact Hj|]. intros ->.
  by destruct (other_not_waiting c c' (w_ble w) j Hne Ef pc Hj).
Qed.

Lemma out_uart_tx o p : out o (zoom (uart_meshtastic_tx p)).
Proof. apply out_zoom; apply _. Qed.
#[local] Hint Resolve out_uart_tx leaves_queuestatus : tracks.

Lemma out_reschedule o : out o (zoom upstream_keepalive_reschedule).
Proof.
  apply out_upstream. intros u a u' t. unfold upstream_keepalive_reschedule. rewrite run_gets.
  destruct (negb _); by intros [= _ <- _].
Qed.
#[local] Hint Resolve out_reschedule : tracks.

(** The phone asks for the config; it goes. *)
Definition asks (e : event) : Prop :=
  match e with
  | EvWriteToRadio c' buf off => c' = c /\ exists n, classify_toradio buf = PfWantConfig n
  | _ => False
  end.
Definition leaves_now (e : event) : Prop :=
  match e with EvDisconnected c' _ => c' = c | _ => False end.

Lemma out_on_toradio c' data :
  (c' = c -> forall n, classify_toradio data <> PfWantConfig n) -> out None (on_toradio_ble (W := world) c' data).
Proof.
  intros Hd. unfold on_toradio_ble. destruct (proto_decode_toradio data) as [err ti] eqn:E.
  case_decide; [tracks|].
  destruct (has_want_config ti) eqn:Hwc.
  - assert (c' <> c) as Hne.
    { intros Hcc. specialize (Hd Hcc). pose proof (decode_toradio_classified data) as Hcl. rewrite E in Hcl.
      destruct (classify_toradio data) as [|n| |]; [by simplify_eq|by destruct (Hd n)|by simplify_eq|].
      destruct Hcl as (i & Ei & Hi & _). simplify_eq. congruence. }
    pose proof (out_park c' (want_config_id ti) Hne). pose proof (leaves_replay c c' (want_config_id ti) Hne).
    tracks.
  - tracks.
Qed.

Lemma out_keepalive : out None (keepalive_work_handler (W := world)).
Proof.
  unfold keepalive_work_handler. tracks.
Qed.
#[local] Hint Resolve out_keepalive out_fromradio_read leaves_register : tracks.

(** What the surroundings ask of the program, the phone's own request for the
    config and its departure apart. *)
Lemma out_event e w w' t i pc :
  one_section e = true -> enabled w e -> ~ asks e -> ~ leaves_now e ->
  phone_slots w !! i = Some pc -> waits c pc ->
  step e w = Some (tt, w', t) -> stays_out None (lobby w) t (lobby w').
Proof.
  intros H1' He Ha Hl Hi Hw. destruct e as [c' err adv_err|c' adv_err|c' len off|c' len off|c' len off|c' buf off
    |c' buf off|evt| |err| | |]; try done; cbn [step].
  - destruct He as [_ Hf]. assert (c' <> c) as Hne.
    { intros ->. destruct Hw as [Ec _]. by apply (Forall_lookup_1 _ _ _ _ Hf Hi). }
    apply out_zoom_ble. by apply leaves_connected.
  - apply out_zoom_ble. by apply leaves_disconnected.
  - assert (out None (fromradio_read c' len off ;;; ret tt)) as Hm by tracks. apply Hm.
  - assert (out None (zoom (fromnum_read c' len off) ;;; ret tt)) as Hm by (unfold fromnum_read; tracks). apply Hm.
  - assert (out None (zoom (logradio_read c' len off) ;;; ret tt)) as Hm by (unfold logradio_read; tracks). apply Hm.
  - assert (out None (toradio_write on_toradio_ble c' buf off ;;; ret tt)) as Hm; [|apply Hm].
    pose proof (out_on_toradio c' buf) as Ht. unfold toradio_write.
    assert (out None (on_toradio_ble c' buf)) by (apply Ht; intros -> n Hn; apply Ha; split; [done|by exists n]).
    tracks.
  - assert (out None (zoom (node_reg_write c' buf off) ;;; ret tt)) as Hm by (unfold node_reg_write; tracks). apply Hm.
  - apply out_zoom; apply _.
  - apply out_keepalive.
  - assert (out None (zoom ble_led_blink_work)) as Hm by (unfold ble_led_blink_work; tracks). apply Hm.
  - apply out_zoom; apply _.
Qed.

(** ** Every section of every task *)

(** The phone waits on, unless it is served, from the queue. *)
Definition waits_on (w : world) (t : list io) (w' : world) : Prop :=
  (c ∉ pending (w_upstream w) -> c ∉ pending (w_upstream w'))
  /\ forall i pc, phone_slots w !! i = Some pc -> waits c pc ->
       exists pc', phone_slots w' !! i = Some pc' /\ conn pc' = c /\ pc_nonce pc' = pc_nonce pc
         /\ (pc_state pc' = PHONE_PENDING \/ pc_state pc' = PHONE_REPLAYING /\ c ∈ pending (w_upstream w)).
Abbreviation steady := (traced waits_on).

Lemma out_waits_on w t w' : stays_out None (lobby w) t (lobby w') -> waits_on w t w'.
Proof.
  intros [Hq Hs]. split; [exact Hq|]. intros i pc Hi Hw. destruct (Hs I) as [_ Hsp].
  destruct (Hsp i pc Hi Hw) as (pc' & Hi' & Ec & Es & En). destruct Hw as [Hw1 Hw2].
  exists pc'. split_and!; [done|congruence|done|left; congruence].
Qed.
Lemma steady_act {A} (m : M world A) : out None m -> steady (act m).
Proof. intros Hm. apply traced_act. intros w a w' t E. by apply out_waits_on, (Hm w a w' t). Qed.

(** The phone itself is served. *)
Definition served_slots (l : list proxy_conn) (t : list io) (l' : list proxy_conn) : Prop :=
  forall i pc, l !! i = Some pc -> conn pc = c -> exists pc', l' !! i = Some pc'
    /\ conn pc' = c /\ pc_nonce pc' = pc_nonce pc
    /\ (pc_state pc' = pc_state pc \/ pc_state pc' = PHONE_REPLAYING).
#[local] Instance served_tracking : Tracking served_slots.
Proof.
  split; [intros l i pc Hi Hw; exists pc; split_and!; try done; by left|].
  intros l1 t1 l2 t2 l3 Hs1 Hs2 i pc Hi Hw. destruct (Hs1 i pc Hi Hw) as (p1 & Hi1 & Hc1 & Hn1 & Hst1).
  destruct (Hs2 i p1 Hi1 Hc1) as (p2 & Hi2 & Hc2 & Hn2 & Hst2). exists p2. split_and!; [done..|congruence|].
  destruct Hst2 as [->|]; [done|by right].
Qed.
Lemma served_upd_slot i f :
  (forall pc, conn (f pc) = conn pc /\ pc_nonce (f pc) = pc_nonce pc
     /\ (pc_state (f pc) = pc_state pc \/ pc_state (f pc) = PHONE_REPLAYING)) ->
  tracks conns served_slots (upd_slot i f).
Proof.
  intros Hf. apply tracks_modify. intros b j pc Hj Hw. change (conns (b <| conns := ?l |>)) with l.
  destruct (decide (i = j)) as [<-|Hne].
  - exists (f pc). rewrite list_lookup_alter_eq, Hj. destruct (Hf pc) as (-> & Hn & Hs). by split_and!.
  - exists pc. rewrite list_lookup_alter_ne by done. split_and!; try done. by left.
Qed.
Lemma served_emit e : tracks conns served_slots (emit e).
Proof. apply tracks_emit. intros l. exact (tr_nil (R := served_slots) l). Qed.
#[local] Hint Resolve served_emit : tracks.
#[local] Hint Extern 1 (tracks _ served_slots (upd_slot _ _)) =>
  apply served_upd_slot; intros; split_and!; try done; by (left + right) : tracks.
Lemma served_replay : tracks conns served_slots (ble_gatt_replay_cached_burst c 0).
Proof.
  intros b a b' t. unfold ble_gatt_replay_cached_burst. rewrite run_gets.
  destruct (find_slot c (id b)) as [i|]; [|by apply (tracks_ret conns served_slots)].
  rewrite decide_False by (by intros []). unfold get_slot.
  match goal with |- ?m b = _ -> _ => assert (tracks conns served_slots m) as Hm by tracks end. apply Hm.
Qed.

(** A turn of the loop that serves the queue. *)
Lemma steady_serve_turn i :
  steady (act (u <- zoom (gets (id : upstream -> upstream)) ;;
               if decide (i < s_pending_count u) then
                 c <- oget (mem_get (s_pending u) i) ;;
                 serve_one_pending serve_replay c ;;;
                 ret true
               else ret false)).
Proof.
  apply traced_act. intros w a w' t. rewrite run_zoom_gets. unfold id.
  change (lget (Lens := lens_upstream) w) with (w_upstream w).
  assert (forall {A} (b : A), out None (ret b)) as Hret by (intros; tracks).
  case_decide as Hn; [|intros E; by apply out_waits_on, (Hret _ false w a w' t)].
  destruct (mem_get _ _) as [c'|] eqn:Ec; [rewrite run_oget|done].
  assert (c' ∈ pending (w_upstream w)) as Hin.
  { unfold mem_get in Ec. case_decide; [|done]. unfold pending. apply list_elem_of_lookup.
    exists (Z.to_nat i). rewrite lookup_take_lt by lia. exact Ec. }
  destruct (decide (c' = c)) as [->|Hne].
  - unfold serve_one_pending. rewrite run_assoc, run_zoom_gets.
    destruct (negb _); [intros E; by apply out_waits_on, (Hret _ true w a w' t)|].
    intros E. apply bind_inv in E as ([] & w1 & t1 & t2 & E1 & E & ->). injection E as _ <- <-.
    pose proof (frames_zoom lens_upstream lens_ble _ _ _ _ _ E1) as Eu. change (w_upstream w1 = w_upstream w) in Eu.
    pose proof (tracks_zoom _ conns _ served_replay _ _ _ _ E1) as Hs. split; [by rewrite Eu|].
    intros j pc Hj [Hw1 Hw2]. destruct (Hs j pc Hj Hw1) as (pc' & Hj' & Ec' & En' & Es').
    exists pc'. split_and!; [done..|]. destruct Es'; [left; congruence|by right].
  - pose proof (out_serve_one c' Hne).
    assert (out None (serve_one_pending (W := world) serve_replay c' ;;; ret true)) as Hm by tracks.
    intros E. by apply out_waits_on, (Hm w a w' t).
Qed.
(** The entry is dropped. *)
Lemma steady_null i :
  steady (act (u <- zoom (gets (id : upstream -> upstream)) ;;
               p <- oget (mem_set (s_pending u) i NULL) ;;
               zoom (modify (fun u : upstream => u <| s_pending := p |>)))).
Proof.
  apply traced_act. intros w a w' t. rewrite run_zoom_gets. unfold id.
  change (lget (Lens := lens_upstream) w) with (w_upstream w).
  destruct (mem_set _ _ _) as [p|] eqn:Ep; [rewrite run_oget, zoom_modify_eq|done].
  intros [= _ <- <-]. apply out_waits_on. split; [|apply (tr_nil (R := spares c None))].
  unfold mem_set in Ep. case_decide; [|done]. injection Ep as <-. simpl. unfold pending. simpl.
  change (lget (Lens := lens_upstream) w) with (w_upstream w).
  intros Hq Hin. apply Hq. apply list_elem_of_lookup in Hin as [j Hj].
  apply lookup_take_Some in Hj as [Hj Hlt]. apply list_elem_of_lookup. exists j.
  rewrite lookup_take_lt by done. destruct (decide (Z.to_nat i = j)) as [<-|Hne].
  - apply list_lookup_insert_Some in Hj as [(_ & Hj & _)|[Hne _]]; [by destruct Hc|done].
  - by rewrite list_lookup_insert_ne in Hj.
Qed.

Ltac steady_step :=
  match goal with
  | |- steady (tbind _ _) => apply traced_bind; [|intros ?]
  | |- steady (Done _) => apply traced_done
  | |- steady (match ?x with _ => _ end) => destruct x
  | |- steady _ => solve [eauto with traced nocore]
  | |- steady (act _) => apply steady_act; tracks
  end.
Ltac steady := repeat steady_step.

Lemma steady_broadcast_from slots data sent : steady (t_broadcast_from slots data sent).
Proof.
  revert sent. induction slots as [|i slots IH]; intros sent; cbn [t_broadcast_from]; [steady|].
  pose proof (leaves_broadcast_turn c i data sent). steady.
Qed.
#[local] Hint Resolve steady_broadcast_from steady_serve_turn steady_null : traced.
Lemma steady_serve_loop fuel i : steady (t_serve_loop fuel i).
Proof. revert i. induction fuel; intros i; cbn [t_serve_loop]; steady. Qed.
#[local] Hint Resolve steady_serve_loop : traced.

Lemma out_fetch_step raw info : out None (fetch_step raw info).
Proof. unfold fetch_step. cbv zeta. tracks. Qed.
Lemma out_target_step raw info : out None (target_step raw info).
Proof.
  unfold target_step. pose proof (fun c' => leaves_enqueue c c' raw). tracks.
Qed.
Lemma out_rx_byte_step b : out None (rx_byte_step b).
Proof. unfold rx_byte_step, rx_process_byte, put_rx. cbv zeta. tracks. Qed.
Lemma out_swallow o : out o (zoom upstream_swallow_live_queuestatus).
Proof.
  apply out_upstream. intros u a u' t. rewrite swallow_eq. by intros [= _ <- _].
Qed.
#[local] Hint Resolve out_fetch_step out_target_step out_rx_byte_step out_swallow : tracks.

Lemma steady_count_reset :
  steady (act (zoom (modify (fun u : upstream => u <| s_pending_count := 0 |>)))).
Proof.
  apply steady_act, out_upstream. intros u a u' t [= _ <- _] _. unfold pending. simpl. apply not_elem_of_nil.
Qed.
#[local] Hint Resolve steady_count_reset : traced.

Lemma steady_on_fromradio raw : steady (t_on_fromradio_uart raw).
Proof.
  unfold t_on_fromradio_uart, t_router_dispatch, t_upstream_on_fromradio, t_serve_pending_phones, t_broadcast.
  steady.
Qed.
#[local] Hint Resolve steady_on_fromradio : traced.
Lemma steady_rx_turn : steady t_rx_turn.
Proof. unfold t_rx_turn, rx_restart. steady. Qed.
Lemma steady_tx_work err : steady (t_tx_work_handler err).
Proof. unfold t_tx_work_handler. steady. Qed.
Lemma leaves_ble_init leds : leaves c conns None (ble_gatt_init leds).
Proof. unfold ble_gatt_init. tracks. Qed.
Lemma steady_main env : steady (t_main env).
Proof.
  pose proof leaves_ble_init.
  unfold t_main, t_uart_meshtastic_init, t_upstream_session_start, upstream_set_serve_cb, ble_gatt_start_advertising.
  steady.
Qed.
End Program.

(** ** The boot empties the queue *)

Section Boot.
Context `{NanopbOk, GattReadOk, !RingBuf RING_BUF_SIZE, !RingBufOk RING_BUF_SIZE}.
Context `{!MsgQ tx_entry TX_QUEUE_DEPTH, !MsgQOk tx_entry TX_QUEUE_DEPTH}.

Definition good (w : world) : Prop := sys_ok w /\ fits 32 (s_nonce (w_upstream w)).
Definition same_state (w w' : world) : Prop := s_state (w_upstream w') = s_state (w_upstream w).

(** The task leaves the session's state alone until [K] holds after one of its
    sections; if that does not happen it ends with [F]. *)
#[warnings="-register-all"]
Inductive before {A} (F : A -> Prop) (K : world -> task world A -> Prop) : task world A -> Prop :=
  | before_end a : F a -> before F K (Done a)
  | before_sect m :
      (forall w p w' t, good w -> m w = Some (p, w', t) -> same_state w w' /\ (before F K p \/ K w' p)) ->
      before F K (Sect m).

Lemma before_act {A B} (F : B -> Prop) K (m : M world A) (k : A -> task world B) :
  (forall w a w' t, good w -> m w = Some (a, w', t) -> same_state w w' /\ (before F K (k a) \/ K w' (k a))) ->
  before F K (tbind (act m) k).
Proof.
  intros Hm. apply before_sect. intros w p w' t Hg. unfold bind.
  destruct (m w) as [[[a w1] t1]|] eqn:E; [|done]. intros [= <- <- _]. by apply (Hm w a w1 t1).
Qed.
(** A part of the task that does not bring it about. *)
Lemma before_pass {A B} (F : B -> Prop) K (p : task world A) (k : A -> task world B) :
  traced (fun w _ w' => same_state w w') p -> (forall a, before F K (k a)) -> before F K (tbind p k).
Proof.
  intros Hp Hk. induction p as [a|m IH] using task_tree_ind; [apply Hk|]. apply before_sect.
  intros w q w' t _. destruct (m w) as [[[p w1] t1]|] eqn:E; [|done]. intros [= <- <- _].
  destruct (traced_section _ _ _ _ _ _ Hp E) as [Hs Hp']. split; [done|]. left. by eapply IH.
Qed.
(** A part that does. *)
Lemma before_in {A B} (F : B -> Prop) (K : world -> Prop) (p : task world A) (k : A -> task world B) :
  before (fun _ => False) (fun w _ => K w) p -> before F (fun w _ => K w) (tbind p k).
Proof.
  intros Hp. induction p as [a|m IH] using task_tree_ind; inversion Hp as [|? Hm]; subst; [done|].
  apply before_sect. intros w q w' t Hg. destruct (m w) as [[[p w1] t1]|] eqn:E; [|done]. intros [= <- <- _].
  destruct (Hm _ _ _ _ Hg E) as [Hs [Hp'|Hk]]; (split; [done|]); [left; by eapply IH|by right].
Qed.

(** *** Which sections leave the state alone *)

Definition the_state (w : world) : upstream_state := s_state (w_upstream w).
Definition unchanged (x : upstream_state) (t : list io) (y : upstream_state) : Prop := y = x.
#[local] Instance unchanged_tracking : Tracking unchanged.
Proof. split; [done|]. unfold unchanged. congruence. Qed.
Abbreviation calm := (tracks the_state unchanged).

Lemma calm_emit e : calm (emit e).
Proof. by apply tracks_emit. Qed.
Lemma calm_modify (f : upstream -> upstream) : (forall u, s_state (f u) = s_state u) -> calm (zoom (modify f)).
Proof. intros Hf w a w' t. rewrite zoom_modify_eq. intros [= _ <- _]. apply Hf. Qed.
Lemma calm_zoom {A T} (L : Lens world T) `{!Disjoint_lens L lens_upstream} (m : M T A) : calm (zoom m).
Proof.
  intros w a w' t E. pose proof (frames_zoom lens_upstream L m _ _ _ _ E) as Eu.
  change (w_upstream w' = w_upstream w) in Eu. unfold unchanged, the_state. by rewrite Eu.
Qed.
#[local] Hint Resolve calm_emit : tracks.
#[local] Hint Extern 1 (tracks the_state _ (zoom (modify _))) => apply calm_modify; intros; by try case_decide : tracks.
#[local] Hint Extern 2 (tracks the_state _ (zoom _)) => apply calm_zoom; apply _ : tracks.
#[local] Hint Extern 3 (tracks the_state _ (zoom _)) => by intros ? ? ? ? [= _ <- _] : tracks.

Abbreviation quiet_state := (traced (fun w _ w' => same_state w w')).
Lemma quiet_state_act {A} (m : M world A) : calm m -> quiet_state (act m).
Proof. intros Hm. apply traced_act. intros w a w' t. apply Hm. Qed.
Ltac quiet_step :=
  match goal with
  | |- quiet_state (tbind _ _) => apply traced_bind; [|intros ?]
  | |- quiet_state (Done _) => apply traced_done
  | |- quiet_state (match ?x with _ => _ end) => destruct x
  | |- quiet_state (act _) => apply quiet_state_act; tracks
  end.
(** The next section is of no interest. *)
Ltac pass := apply before_pass; [repeat quiet_step|intros ?].

Lemma quiet_uart_init env : quiet_state (t_uart_meshtastic_init env).
Proof. unfold t_uart_meshtastic_init. repeat quiet_step. Qed.

(** *** What the boot still does *)

(** It empties the queue of waiting phones. *)
Definition empties {A} (F : A -> Prop) : task world A -> Prop :=
  before F (fun w _ => pending (w_upstream w) = []).
(** It registers the callback that serves them, and then empties it. *)
Definition failed (r : option rc) : Prop := r <> None.
Definition starts : task world (option rc) -> Prop :=
  before failed (fun w p => s_serve_cb (w_upstream w) = true /\ empties failed p).

Lemma empties_session_start rand : empties (fun _ => False) (t_upstream_session_start rand).
Proof.
  unfold t_upstream_session_start, empties. pass. pass.
  apply before_act. intros w u w' t [_ Hf] Eu. injection Eu as <- <- _. split; [done|left]. change (lget (Lens := lens_upstream) w) with (w_upstream w).
  destruct (want_config_encoded (s_nonce (w_upstream w)) Hf) as (p & b & E & _).
  change (to_radio_init_zero <| tr_which := _ |> <| tr_want_config_id := _ |>)
    with (msg_want_config (s_nonce (w_upstream w))). rewrite E. pass. cbn [negb]. pass. pass.
  apply before_act. intros w1 [] w2 t1 _. rewrite zoom_modify_eq. intros [= <- _]. split; [done|]. by right.
Qed.

Lemma starts_main env : starts (t_main env).
Proof.
  unfold t_main, starts. pass. case_decide; [by apply before_end|]. pass.
  case_decide; [by apply before_end|]. pass. case_decide; [by apply before_end|].
  apply before_pass; [apply quiet_uart_init|intros ?]. case_decide; [by apply before_end|].
  apply before_act. intros w [] w' t _ E. unfold upstream_set_serve_cb in E. rewrite zoom_modify_eq in E.
  injection E as <- _. split; [done|]. right. split; [done|]. apply before_in, empties_session_start.
Qed.

(** *** What the boot sets up and keeps: a nonce of 32 bits, the callback *)

Definition set_up (w : world) : Z * bool := (s_nonce (w_upstream w), s_serve_cb (w_upstream w)).
Definition kept_up (x : Z * bool) (t : list io) (y : Z * bool) : Prop :=
  (fits 32 x.1 -> fits 32 y.1) /\ (x.2 = true -> y.2 = true).
#[local] Instance kept_up_tracking : Tracking kept_up.
Proof. split; [by intros x|]. intros x t y t' z [? ?] [? ?]. split; auto. Qed.
Abbreviation keeps_up := (tracks set_up kept_up).
Abbreviation stays_up := (traced (fun w t w' => kept_up (set_up w) t (set_up w'))).

Lemma keeps_emit e : keeps_up (emit e).
Proof. by apply tracks_emit. Qed.
Lemma keeps_modify (f : upstream -> upstream) :
  (forall u, fits 32 (s_nonce u) -> fits 32 (s_nonce (f u))) ->
  (forall u, s_serve_cb u = true -> s_serve_cb (f u) = true) -> keeps_up (zoom (modify f)).
Proof. intros Hf Hs w a w' t. rewrite zoom_modify_eq. intros [= _ <- _]. split; [apply Hf|apply Hs]. Qed.
Lemma keeps_zoom {A T} (L : Lens world T) `{!Disjoint_lens L lens_upstream} (m : M T A) : keeps_up (zoom m).
Proof.
  intros w a w' t E. pose proof (frames_zoom lens_upstream L m _ _ _ _ E) as Eu.
  change (w_upstream w' = w_upstream w) in Eu. unfold set_up. rewrite Eu. by apply (tr_nil (R := kept_up)).
Qed.
#[local] Hint Resolve keeps_emit : tracks.
#[local] Hint Extern 1 (tracks set_up _ (zoom (modify _))) =>
  apply keeps_modify; intros; try case_decide; by_eval || assumption : tracks.
#[local] Hint Extern 2 (tracks set_up _ (zoom _)) => apply keeps_zoom; apply _ : tracks.
#[local] Hint Extern 3 (tracks set_up _ (zoom _)) => by intros ? ? ? ? [= _ <- _] : tracks.

Ltac up_step :=
  match goal with
  | |- stays_up (tbind _ _) => apply traced_bind; [|intros ?]
  | |- stays_up (Done _) => apply traced_done
  | |- stays_up (match ?x with _ => _ end) => destruct x
  | |- stays_up (act ?m) =>
      let Hm := fresh in assert (keeps_up m) as Hm by tracks; apply traced_act; intros ? ? ? ?; apply Hm
  end.
Lemma up_main env : fits 32 (be_rand env) -> stays_up (t_main env).
Proof.
  intros Hr. unfold t_main, t_uart_meshtastic_init, t_upstream_session_start, upstream_set_serve_cb.
  repeat up_step.
Qed.

(** *** Every interleaving *)

(** A step of the main thread, or one that keeps what it relies on. *)
Lemma cstep_others cf l t cf' :
  config_ok cf -> cstep cf l t cf' ->
  cf_main cf' = cf_main cf /\ main_rely (cf_world cf) (cf_world cf')
  \/ exists s, cf_main cf = Sect s /\ s (cf_world cf) = Some (cf_main cf', cf_world cf', t).
Proof.
  intros [Hw Hq Hm] Hs. destruct Hs as [w q m e w' t H1' H2' He E|w m err|w s p w' m t E|w m|w m
    |w s p w' m t E|w m|w m|w q s p w' t E]; simpl in *; try by (left; split; [done|reflexivity]).
  - left. split; [done|]. destruct (event_step w e Hw H1' He) as (w2 & t2 & E2 & _ & _ & Hk).
    rewrite E in E2. injection E2 as <- <-. by apply kept_main_rely.
  - left. split; [done|]. destruct (wq_section s w Hq Hw) as (p2 & w2 & t2 & E2 & _ & (Hg & _) & _).
    rewrite E in E2. by injection E2 as <- <- <-.
  - left. split; [done|]. destruct (wq_section s w Hq Hw) as (p2 & w2 & t2 & E2 & _ & (Hg & _) & _).
    rewrite E in E2. by injection E2 as <- <- <-.
  - right. by exists s.
Qed.

(** What the main thread has still to do, as long as the callback is not
    registered. *)
Record boots (cf : config) : Prop := {
  bs_ok : config_ok cf;
  bs_nonce : fits 32 (s_nonce (w_upstream (cf_world cf)));
  bs_main : stays_up (cf_main cf);
  bs_starts : s_serve_cb (w_upstream (cf_world cf)) = false ->
    s_state (w_upstream (cf_world cf)) = UPSTREAM_BOOT /\ starts (cf_main cf);
}.

Lemma cstep_boots cf l t cf' : boots cf -> cstep cf l t cf' -> boots cf'.
Proof.
  intros [Hok Hn Hm Hb] Hs. destruct (cstep_ok _ _ _ _ Hok Hs) as [Hok' _].
  destruct (cstep_others _ _ _ _ Hok Hs) as [[Em [Hst Hnn _ Hv _ _]]|(s & Em & E)].
  - split; [done|by rewrite Hnn|by rewrite Em|]. rewrite Hv, Em. intros Hf. destruct (Hb Hf). split; [auto|done].
  - rewrite Em in Hm, Hb. destruct (traced_section _ _ _ _ _ _ Hm E) as [[Hn' Hv'] Hm'].
    split; [done|by apply Hn'|done|]. intros Hf.
    destruct (s_serve_cb (w_upstream (cf_world cf))) eqn:Ev;
      [pose proof (Hv' Ev) as Ht; unfold set_up in Ht; simpl in Ht; congruence|].
    destruct (Hb eq_refl) as [Hst Hbf]. inversion Hbf as [|? Hsec]; subst.
    destruct (Hsec _ _ _ _ (conj (co_sys _ Hok) Hn) E) as [Hss [Hp|[Hcb _]]]; [|by rewrite Hcb in Hf].
    split; [by rewrite Hss|done].
Qed.
Lemma creachable_boots cf : creachable cf -> boots cf.
Proof.
  induction 1 as [env Hr|cf a t cf' _ IH Hs]; [|by eapply cstep_boots].
  split; [apply creachable_ok; by constructor|done|by apply up_main|intros _; split; [done|apply starts_main]].
Qed.

(** Everything but phone [c] asking for the config, or going. *)
Definition without (c : bt_conn) (cf cf' : config) : Prop :=
  exists l t, cstep cf l t cf' /\ forall e, l = Some e -> ~ asks c e /\ ~ leaves_now c e.

(** Phone [c] waits in slot [i]; and either the boot has still to empty the
    queue, or the phone is not in it. *)
Record outside (c : bt_conn) (i : nat) (n : Z) (cf : config) : Prop := {
  os_boots : boots cf;
  os_steady : config_traced (waits_on c) cf;
  os_waits : exists pc, conns (w_ble (cf_world cf)) !! i = Some pc /\ waits c pc /\ pc_nonce pc = n;
  os_queue : s_state (w_upstream (cf_world cf)) = UPSTREAM_BOOT
      /\ (starts (cf_main cf) \/ empties failed (cf_main cf))
    \/ c ∉ pending (w_upstream (cf_world cf));
}.

Lemma steady_all c cf a t cf' i pc :
  c <> NULL -> config_traced (waits_on c) cf -> cstep cf a t cf' ->
  (forall e, a = Some e -> ~ asks c e /\ ~ leaves_now c e) ->
  conns (w_ble (cf_world cf)) !! i = Some pc -> waits c pc ->
  config_traced (waits_on c) cf' /\ waits_on c (cf_world cf) t (cf_world cf').
Proof.
  intros Hc [Hq Hm] Hs Ha Hi Hw.
  assert (forall w, waits_on c w [] w) as Hnil.
  { intros w. apply out_waits_on. split; [done|]. apply (tr_nil (R := spares c None)). }
  destruct (cstep_traced (waits_on c) Hnil (fun err => steady_tx_work c err) (steady_rx_turn c Hc) cf a t cf' Hq Hs)
    as [Hq' Hm']. destruct (Hm' Hm) as [Hm1 HP]. split; [done|]. destruct a as [e|]; [|by apply HP].
  destruct (Ha e eq_refl). inversion Hs as [w q m e' w' t' H1' H2' He E| | | | | | | |]; subst.
  apply out_waits_on. by eapply out_event.
Qed.

(** Nothing else brings the phone into the queue, nor out of its wait. *)
Lemma without_outside c i n cf cf' : c <> NULL -> outside c i n cf -> without c cf cf' -> outside c i n cf'.
Proof.
  intros Hc [Hb Hst (pc & Hi & Hw & Hn) Hq] (l & t & Hs & Hl).
  destruct (steady_all c _ _ _ _ i pc Hc Hst Hs Hl Hi Hw) as [Hst' [Hout Hon]].
  pose proof (cstep_boots _ _ _ _ Hb Hs) as Hb'. destruct (Hon i pc Hi Hw) as (pc' & Hi' & Ec & En & Es).
  assert (c ∉ pending (w_upstream (cf_world cf)) -> outside c i n cf') as Hlost.
  { intros Hout'. split; [done|done| |right; by apply Hout]. exists pc'. destruct Es as [Es|[_ ?]]; [|done].
    split; [done|]. split; [by split|congruence]. }
  destruct Hq as [[Hboot Hsm]|Hq]; [|by apply Hlost].
  assert (s_state (w_upstream (cf_world cf')) = UPSTREAM_BOOT
    /\ ((starts (cf_main cf') \/ empties failed (cf_main cf')) \/ pending (w_upstream (cf_world cf')) = []))
    as [Hboot' Hsm'].
  { destruct (cstep_others _ _ _ _ (bs_ok _ Hb) Hs) as [[Em Hr]|(s & Em & E)].
    - rewrite Em. split; [by apply Hr|by left].
    - pose proof (conj (co_sys _ (bs_ok _ Hb)) (bs_nonce _ Hb)) as Hg. rewrite Em in Hsm.
      destruct Hsm as [Hbf|Hbf]; inversion Hbf as [|? Hsec]; subst;
        destruct (Hsec _ _ _ _ Hg E) as [Hss Hk]; (split; [by rewrite Hss|]).
      + left. destruct Hk as [?|[_ ?]]; [by left|by right].
      + destruct Hk as [?|?]; [left; by right|by right]. }
  split; [done|done| |].
  - exists pc'. split; [done|]. split; [|congruence]. split; [done|]. destruct Es as [Es|[Es _]]; [done|].
    pose proof (replaying_at _ _ _ _ (so_replaying _ (co_sys _ (bs_ok _ Hb'))) Hi' Es) as Hp.
    rewrite Hboot' in Hp. by destruct Hp.
  - destruct Hsm' as [?|E]; [by left|]. right. rewrite E. apply not_elem_of_nil.
Qed.

Lemma outside_kept c i n cf cf' : c <> NULL -> rtc (without c) cf cf' -> outside c i n cf -> outside c i n cf'.
Proof. intros Hc. induction 1 as [|cf cf1 cf' Hs _ IH]; [done|]. intros Ho. by eapply IH, without_outside. Qed.

Lemma creachable_steady c cf : c <> NULL -> creachable cf -> config_traced (waits_on c) cf.
Proof.
  intros Hc. induction 1 as [env _|cf a t cf' _ [Hq Hm] Hs]; [split; [done|by apply steady_main]|].
  destruct (cstep_traced (waits_on c)) with (cf := cf) (l := a) (t := t) (cf' := cf') as [Hq' Hm']; try done.
  - intros w. apply out_waits_on. split; [done|]. apply (tr_nil (R := spares c None)).
  - apply steady_tx_work.
  - by apply steady_rx_turn.
  - split; [done|]. by destruct (Hm' Hm).
Qed.

Lemma creachable_outside c i cf pc :
  c <> NULL -> creachable cf -> conns (w_ble (cf_world cf)) !! i = Some pc -> waits c pc ->
  s_serve_cb (w_upstream (cf_world cf)) = false \/ c ∉ pending (w_upstream (cf_world cf)) ->
  outside c i (pc_nonce pc) cf.
Proof.
  intros Hc Hcf Hi Hw Hq. pose proof (creachable_boots cf Hcf) as Hb.
  split; [done|by apply creachable_steady|by exists pc|]. destruct Hq as [Hq|]; [left|by right].
  destruct (bs_starts _ Hb Hq). split; [done|by left].
Qed.

(** C20: a phone that asks while [main] is booting is forgotten.  Advertising is
    up before the session starts, and starting it empties the queue of waiting
    phones.  Take any configuration that any interleaving leads to from power-on,
    in which [main] has not yet registered the callback that serves waiting
    phones, and any connected phone that asked and waits.  Whatever the threads,
    the node, the other phones and this phone do from there, at any of the cuts,
    as long as this phone does not ask again and does not disconnect: once
    [main] is in its loop the phone still waits, in its slot, with the nonce it
    sent, and it is not in the queue; so it is not served when the burst is
    complete, and never after. *)
Theorem early_phone_forgotten cf cf' c i pc :
  creachable cf -> s_serve_cb (w_upstream (cf_world cf)) = false ->
  conns (w_ble (cf_world cf)) !! i = Some pc -> conn pc = c -> c <> NULL -> pc_state pc = PHONE_PENDING ->
  rtc (without c) cf cf' -> cf_main cf' = Done None ->
  (exists pc', conns (w_ble (cf_world cf')) !! i = Some pc' /\ conn pc' = c
     /\ pc_state pc' = PHONE_PENDING /\ pc_nonce pc' = pc_nonce pc)
  /\ c ∉ pending (w_upstream (cf_world cf')).
Proof.
  intros Hcf Hv Hi Ec Hc Hp Hs Hm.
  destruct (outside_kept c i (pc_nonce pc) cf cf' Hc Hs) as [_ _ (pc' & Hi' & [Ec' Hp'] & En) Hq].
  { apply creachable_outside; [done..|by left]. }
  split; [by exists pc'|]. destruct Hq as [[_ Hq]|Hq]; [|done].
  rewrite Hm in Hq. destruct Hq as [Hq|Hq]; inversion Hq as [? Hf|]; subst; by destruct Hf.
Qed.
End Boot.

(** ** At a concrete input *)

Module Demo.
#[local] Existing Instances demo_nanopb demo_nanopb_ok list_ring list_ring_ok list_msgq
  list_msgq_ok list_gatt_read list_gatt_read_ok.
Import Schedule.Demo.

(** Phone 11 connects and asks when only advertising is up; then [main] goes on,
    the burst arrives, and the session is LIVE. *)
Definition early : config := default start (run_schedule (replicate 3 ChMain ++ ask11) start).
Definition early11 : proxy_conn := default conn_boot (conns (w_ble (cf_world early)) !! 0%nat).
Definition rest : list choice := replicate 23 ChMain ++ fetch ++ replicate 57 ChWq.
Definition forgotten : config := default start (run_schedule rest early).
Lemma early_run : run_schedule (replicate 3 ChMain ++ ask11) start = Some early.
Proof.
  assert (bool_decide (is_Some (run_schedule (replicate 3 ChMain ++ ask11) start)) = true) as Hs
    by (vm_compute; reflexivity).
  apply bool_decide_eq_true in Hs as [cf E]. unfold early. by rewrite E.
Qed.
Lemma forgotten_run : run_schedule rest early = Some forgotten.
Proof. vm_compute. reflexivity. Qed.

(** Phone 11 does nothing on this schedule. *)
Definition thread_choice (ch : choice) : bool :=
  match ch with ChEvent (EvUart _) => true | ChEvent _ => false | _ => true end.
Lemma run_without c chs cf cf' :
  forallb thread_choice chs = true -> run_schedule chs cf = Some cf' -> rtc (without c) cf cf'.
Proof.
  revert cf. induction chs as [|ch chs IH]; intros cf Hb; simpl; [by intros [= <-]|].
  simpl in Hb. apply andb_true_iff in Hb as [Hch Hb].
  destruct (choose ch cf) as [cf1|] eqn:E; [|done]. simpl. intros Hr. eapply rtc_l; [|by apply IH].
  unfold choose in E. destruct (choose_out ch cf) as [[[a t] cf2]|] eqn:Eo; [|done]. injection E as <-.
  exists a, t. split; [by apply (choose_out_step ch)|]. intros e ->.
  destruct ch as [e'|err| | |], cf as [w q m]; simpl in Eo.
  - destruct (_ && _); [|done]. case_decide; [|done]. destruct (step _ _) as [[[? ?] ?]|]; [|done].
    injection Eo as -> _ _. destruct e; try done; split; intros [].
  - by destruct q.
  - by destruct q.
  - by destruct q as [|[[]|s]|[[]|s]]; try done; destruct (s w) as [[[? ?] ?]|].
  - destruct m as [|s]; [done|]. by destruct (s w) as [[[? ?] ?]|].
Qed.

Lemma early_phone_forgotten_witness :
  s_state (w_upstream (cf_world forgotten)) = UPSTREAM_LIVE
  /\ exists pc, conns (w_ble (cf_world forgotten)) !! 0%nat = Some pc /\ conn pc = 11
     /\ pc_state pc = PHONE_PENDING.
Proof.
  split; [vm_compute; reflexivity|].
  destruct (early_phone_forgotten early forgotten 11 0 early11) as [(pc & Hi & Hc & Hp & _) _].
  - exact (run_schedule_reach _ _ _ start_reach early_run).
  - vm_compute. reflexivity.
  - vm_compute. reflexivity.
  - vm_compute. reflexivity.
  - done.
  - vm_compute. reflexivity.
  - exact (run_without 11 rest _ _ eq_refl forgotten_run).
  - vm_compute. reflexivity.
  - exists pc. split; [exact Hi|]. split; [exact Hc|exact Hp].
Defined.
End Demo.
