(* ===== verification/GattTable.v ===== *)
(** * GattTable: what a phone sees of the GATT server (the tables of
    src/src/ble_gatt.c)

    The service definition with its UUIDs and attribute indices, the CCC
    callbacks, the connection callbacks and the advertising data.  The macros
    that lay a definition out as attributes and a UUID as bytes are Zephyr's:
    [GattServer] lists what the file uses of them, [GattServerOk] what the
    documentation promises. *)

From stdpp Require Import prelude.
From S2P Require Import Prelude ProxyProtocol Nanopb ConfigCache Zephyr UartMeshtastic.
From S2P Require Import ProtoHandler RouteTrace UpstreamSession BleGatt BleReplay Router World Main System Tasks Threads Schedule.

Local Open Scope Z_scope.

(** ** The declarations *)

(** The arguments of [BT_UUID_128_ENCODE]. *)
Record uuid128 := mk_uuid128 { uu_w32 : Z; uu_w1 : Z; uu_w2 : Z; uu_w3 : Z; uu_w48 : Z }.
#[export] Instance uuid128_eq_dec : EqDecision uuid128.
Proof. solve_decision. Defined.

Definition BT_UUID_MESHTASTIC_SVC_VAL : uuid128 :=
  mk_uuid128 0x6ba1b218 0x15a8 0x461f 0x9fa8 0x5dcae273eafd.
Definition BT_UUID_FROMNUM_VAL : uuid128 :=
  mk_uuid128 0xed9da18c 0xa800 0x4f66 0xa670 0xaa7547e34453.
Definition BT_UUID_FROMRADIO_VAL : uuid128 :=
  mk_uuid128 0x2c55e69e 0x4993 0x11ed 0xb878 0x0242ac120002.
Definition BT_UUID_TORADIO_VAL : uuid128 :=
  mk_uuid128 0xf75c76d2 0x129e 0x4dad 0xa1dd 0x7866124401e7.
Definition BT_UUID_LOGRADIO_VAL : uuid128 :=
  mk_uuid128 0x5a3d6e49 0x06e6 0x4423 0x9944 0xe9de8cdf9547.
Definition BT_UUID_NODE_REG_VAL : uuid128 :=
  mk_uuid128 0x6ba10001 0x15a8 0x461f 0x9fa8 0x5dcae273eafd.

(** [BT_UUID_INIT_128] of each. *)
Definition uuid_meshtastic_svc : uuid128 := BT_UUID_MESHTASTIC_SVC_VAL.
Definition uuid_fromnum : uuid128 := BT_UUID_FROMNUM_VAL.
Definition uuid_fromradio : uuid128 := BT_UUID_FROMRADIO_VAL.
Definition uuid_toradio : uuid128 := BT_UUID_TORADIO_VAL.
Definition uuid_logradio : uuid128 := BT_UUID_LOGRADIO_VAL.
Definition uuid_node_reg : uuid128 := BT_UUID_NODE_REG_VAL.

Inductive chrc_prop :=
  | BT_GATT_CHRC_READ | BT_GATT_CHRC_WRITE | BT_GATT_CHRC_WRITE_WITHOUT_RESP | BT_GATT_CHRC_NOTIFY.
Inductive gatt_perm := BT_GATT_PERM_READ | BT_GATT_PERM_WRITE.
#[export] Instance chrc_prop_eq_dec : EqDecision chrc_prop.
Proof. solve_decision. Defined.
#[export] Instance gatt_perm_eq_dec : EqDecision gatt_perm.
Proof. solve_decision. Defined.

(** The callbacks of a value: a read gets length and offset, a write the bytes
    and the offset; a CCC callback gets the value the phone wrote. *)
Definition read_fn (W : Type) : Type := bt_conn -> Z -> Z -> M W (att_res (list Z)).
Definition write_fn (W : Type) : Type := bt_conn -> list Z -> Z -> M W (att_res Z).
Definition ccc_fn (W : Type) : Type := Z -> M W unit.

(** A line of [BT_GATT_SERVICE_DEFINE]; a NULL callback is [None]. *)
Inductive gatt_decl (W : Type) :=
  | GattPrimaryService (u : uuid128)
  | GattCharacteristic (u : uuid128) (props : list chrc_prop) (perm : list gatt_perm)
      (read : option (read_fn W)) (write : option (write_fn W))
  | GattCcc (changed : ccc_fn W) (perm : list gatt_perm).
Arguments GattPrimaryService {W} u.
Arguments GattCharacteristic {W} u props perm read write.
Arguments GattCcc {W} changed perm.

(** ** What Zephyr makes of them *)

(** [service_attrs] are the attributes of a service; [value_decl] is the
    characteristic whose value an attribute is, [ccc_decl] the CCC it is;
    [bt_uuid_128_encode] the bytes of a UUID. *)
Class GattServer := {
  gatt_attr : Type -> Type;
  service_attrs {W} : list (gatt_decl W) -> list (gatt_attr W);
  value_decl {W} : gatt_attr W -> option (gatt_decl W);
  ccc_decl {W} : gatt_attr W -> option (gatt_decl W);
  bt_uuid_128_encode : uuid128 -> list Z;
}.

(** A service declaration takes one attribute, a characteristic its declaration
    and its value, a CCC one; a UUID is its number in little endian. *)
Class GattServerOk `{GattServer} : Prop := {
  attrs_nil W : service_attrs (W := W) [] = [];
  attrs_cons W (d : gatt_decl W) ds : exists l, service_attrs (d :: ds) = l ++ service_attrs ds
    /\ match d with
       | GattPrimaryService _ => exists a, l = [a] /\ value_decl a = None /\ ccc_decl a = None
       | GattCharacteristic _ _ _ _ _ => exists a v, l = [a; v]
           /\ value_decl a = None /\ ccc_decl a = None /\ value_decl v = Some d /\ ccc_decl v = None
       | GattCcc _ _ => exists a, l = [a] /\ value_decl a = None /\ ccc_decl a = Some d
       end;
  uuid_size u : zlen (bt_uuid_128_encode u) = 16;
}.

(** ** The tables *)

Section Table.
Context `{Nanopb, GattRead, !RingBuf RING_BUF_SIZE, !MsgQ tx_entry TX_QUEUE_DEPTH}.

Definition FROMNUM_ATTR_IDX : nat := 2.
Definition LOGRADIO_ATTR_IDX : nat := 9.

(** Both callbacks only log. *)
Definition fromnum_ccc_changed (value : Z) : M world unit := ret tt.
Definition logradio_ccc_changed (value : Z) : M world unit := ret tt.

Definition meshtastic_svc : list (gatt_decl world) := [
  GattPrimaryService uuid_meshtastic_svc;
  GattCharacteristic uuid_fromnum [BT_GATT_CHRC_READ; BT_GATT_CHRC_NOTIFY]
    [BT_GATT_PERM_READ] (Some (fun c len offset => zoom (fromnum_read c len offset))) None;
  GattCcc fromnum_ccc_changed [BT_GATT_PERM_READ; BT_GATT_PERM_WRITE];
  GattCharacteristic uuid_fromradio [BT_GATT_CHRC_READ]
    [BT_GATT_PERM_READ] (Some fromradio_read) None;
  GattCharacteristic uuid_toradio [BT_GATT_CHRC_WRITE; BT_GATT_CHRC_WRITE_WITHOUT_RESP]
    [BT_GATT_PERM_WRITE] None (Some (toradio_write on_toradio_ble));
  GattCharacteristic uuid_logradio [BT_GATT_CHRC_READ; BT_GATT_CHRC_NOTIFY]
    [BT_GATT_PERM_READ] (Some (fun c len offset => zoom (logradio_read c len offset))) None;
  GattCcc logradio_ccc_changed [BT_GATT_PERM_READ; BT_GATT_PERM_WRITE];
  GattCharacteristic uuid_node_reg [BT_GATT_CHRC_WRITE]
    [BT_GATT_PERM_WRITE] None (Some (fun c buf offset => zoom (node_reg_write c buf offset)))
].

(** [BT_CONN_CB_DEFINE]; the last argument of a callback is what
    [bt_le_adv_start] answers it. *)
Record conn_cb := mk_conn_cb {
  cb_connected : bt_conn -> Z -> rc -> M world unit;
  cb_disconnected : bt_conn -> rc -> M world unit;
}.
Definition conn_callbacks : conn_cb := {|
  cb_connected c err adv_err := zoom (on_connected c err adv_err);
  cb_disconnected c adv_err := zoom (on_disconnected c adv_err);
|}.
End Table.

(** Types and flags of advertising data, from the Bluetooth assigned numbers. *)
Definition BT_DATA_FLAGS : Z := 0x01.
Definition BT_DATA_UUID128_ALL : Z := 0x07.
Definition BT_DATA_NAME_COMPLETE : Z := 0x09.
Definition BT_LE_AD_GENERAL : Z := 0x02.
Definition BT_LE_AD_NO_BREDR : Z := 0x04.

(** "Meshtastic_CA1E", as character codes. *)
Definition CONFIG_BT_DEVICE_NAME : list Z :=
  [77; 101; 115; 104; 116; 97; 115; 116; 105; 99; 95; 67; 65; 49; 69].

(** [struct bt_data]; on air an element is its length, its type and its data. *)
Record bt_data := mk_bt_data { bd_type : Z; bd_data : list Z }.
Definition on_air (l : list bt_data) : list Z :=
  mjoin ((fun d => zlen (bd_data d) + 1 :: bd_type d :: bd_data d) <$> l).

Definition ad `{GattServer} : list bt_data := [
  mk_bt_data BT_DATA_FLAGS [Z.lor BT_LE_AD_GENERAL BT_LE_AD_NO_BREDR];
  mk_bt_data BT_DATA_UUID128_ALL (bt_uuid_128_encode BT_UUID_MESHTASTIC_SVC_VAL)
].
Definition sd : list bt_data := [mk_bt_data BT_DATA_NAME_COMPLETE CONFIG_BT_DEVICE_NAME].

(** ** The layout *)

Section Layout.
Context `{GattServerOk} {W : Type}.
Implicit Types (d : gatt_decl W) (ds : list (gatt_decl W)).

(** What the attributes of a declaration hold. *)
Inductive attr_view :=
  | ViewDeclaration
  | ViewValue (d : gatt_decl W)
  | ViewCcc (d : gatt_decl W).
Definition view (a : gatt_attr W) : attr_view :=
  match value_decl a, ccc_decl a with
  | Some d, _ => ViewValue d
  | None, Some d => ViewCcc d
  | None, None => ViewDeclaration
  end.
Definition decl_views (d : gatt_decl W) : list attr_view :=
  match d with
  | GattPrimaryService _ => [ViewDeclaration]
  | GattCharacteristic _ _ _ _ _ => [ViewDeclaration; ViewValue d]
  | GattCcc _ _ => [ViewCcc d]
  end.

Lemma service_views ds : view <$> service_attrs ds = mjoin (decl_views <$> ds).
Proof.
  induction ds as [|d ds IH]; [by rewrite attrs_nil|].
  destruct (attrs_cons W d ds) as (l & -> & Hl). rewrite fmap_app, IH. simpl. f_equal.
  unfold view. destruct d.
  - by destruct Hl as (a & -> & Hv & Hc); simpl; rewrite Hv, Hc.
  - by destruct Hl as (a & v & -> & Hv & Hc & Hv' & Hc'); simpl; rewrite Hv, Hc, Hv'.
  - by destruct Hl as (a & -> & Hv & Hc); simpl; rewrite Hv, Hc.
Qed.

(** An attribute that holds a value holds it of a characteristic of the
    service. *)
Lemma value_in ds i a d : service_attrs ds !! i = Some a -> value_decl a = Some d -> d ∈ ds.
Proof.
  intros Hi Hd. assert (view a ∈ mjoin (decl_views <$> ds)) as Hin.
  { rewrite <- service_views. apply list_elem_of_fmap_2. by eapply list_elem_of_lookup_2. }
  unfold view in Hin. rewrite Hd in Hin.
  apply list_elem_of_join in Hin as (l & Hl & (d' & -> & Hd')%list_elem_of_fmap).
  apply list_elem_of_In in Hl. destruct d'; simpl in Hl; intuition congruence.
Qed.
End Layout.

(** ** The callbacks are the events *)

Section Requests.
Context `{NanopbOk, GattReadOk, !RingBuf RING_BUF_SIZE, !RingBufOk RING_BUF_SIZE}.
Context `{!MsgQ tx_entry TX_QUEUE_DEPTH, !MsgQOk tx_entry TX_QUEUE_DEPTH, GattServerOk}.

(** What a phone may do with a characteristic, what the stack lets through and
    what there is a callback for agree. *)
Definition chrc_ok (d : gatt_decl world) : Prop :=
  match d with
  | GattCharacteristic _ props perm read write =>
      (BT_GATT_CHRC_READ ∈ props <-> BT_GATT_PERM_READ ∈ perm)
      /\ (BT_GATT_PERM_READ ∈ perm <-> is_Some read)
      /\ (BT_GATT_CHRC_WRITE ∈ props \/ BT_GATT_CHRC_WRITE_WITHOUT_RESP ∈ props
          <-> BT_GATT_PERM_WRITE ∈ perm)
      /\ (BT_GATT_PERM_WRITE ∈ perm <-> is_Some write)
  | _ => True
  end.

(** The UUID of a service or a characteristic. *)
Definition decl_uuid (d : gatt_decl world) : option uuid128 :=
  match d with
  | GattPrimaryService u | GattCharacteristic u _ _ _ _ => Some u
  | GattCcc _ _ => None
  end.

(** A characteristic that notifies is the value at index [i], its CCC next. *)
Definition notifies_at (u : uuid128) (i : nat) : Prop :=
  exists props perm read write changed perm',
    (view <$> service_attrs meshtastic_svc) !! i
      = Some (ViewValue (GattCharacteristic u props perm read write))
    /\ BT_GATT_CHRC_NOTIFY ∈ props
    /\ (view <$> service_attrs meshtastic_svc) !! S i = Some (ViewCcc (GattCcc changed perm'))
    /\ BT_GATT_PERM_WRITE ∈ perm'.

#[local] Instance chrc_ok_dec d : Decision (chrc_ok d).
Proof. destruct d; simpl; apply _. Defined.

Lemma svc_chrc_ok : Forall chrc_ok meshtastic_svc.
Proof. apply (bool_decide_unpack _). vm_compute. exact I. Qed.

(** What a read answers fits the buffer of the request. *)
Definition read_fits (len : Z) (v : att_res (list Z)) : Prop :=
  match v with att_ok l => zlen l <= len | att_error _ => True end.

Lemma attr_read_fits len offset v :
  0 <= len -> 0 <= offset -> read_fits len (bt_gatt_attr_read len offset v).
Proof.
  intros Hl Ho. rewrite gatt_read_ok by done. case_decide; [done|]. unfold read_fits, zlen.
  rewrite length_take. lia.
Qed.

(** The result of every run. *)
Definition yields {A} (Q : A -> Prop) (m : M world A) : Prop :=
  forall w a w' t, m w = Some (a, w', t) -> Q a.

Lemma yields_ret {A} (Q : A -> Prop) a : Q a -> yields Q (ret a).
Proof. by intros Ha w ? ? ? [= <- _ _]. Qed.
Lemma yields_with {A B} (P : A -> Prop) (Q : B -> Prop) (m : M world A) k :
  yields P m -> (forall a, P a -> yields Q (k a)) -> yields Q (bind m k).
Proof.
  intros Hm Hk w b w' t E. unfold bind in E. destruct (m w) as [[[a w1] t1]|] eqn:E1; [|done].
  destruct (k a w1) as [[[b' w2] t2]|] eqn:E2; [|done]. injection E as <- _ _.
  eapply Hk; [|exact E2]. by apply Hm in E1.
Qed.
Lemma yields_bind {A B} (Q : B -> Prop) (m : M world A) k :
  (forall a, yields Q (k a)) -> yields Q (bind m k).
Proof. intros Hk. by apply (yields_with (fun _ => True)). Qed.
Lemma yields_zoom {S A} `{!Lens world S} (Q : A -> Prop) (m : M S A) :
  (forall s a s' t, m s = Some (a, s', t) -> Q a) -> yields Q (zoom m).
Proof.
  intros Hm w a w' t E. unfold zoom in E. destruct (m (lget w)) as [[[a' s'] t']|] eqn:E2; [|done].
  injection E as <- _ _. by apply Hm in E2.
Qed.

(** What a write answers: an error, or all bytes taken. *)
Definition write_answer (buf : list Z) (v : att_res Z) : Prop :=
  match v with att_ok n => n = zlen buf | att_error _ => True end.

Lemma fromradio_read_fits c len off :
  0 <= len -> 0 <= off -> yields (read_fits len) (fromradio_read c len off).
Proof.
  intros Hl Ho. unfold fromradio_read. apply yields_bind. intros b.
  destruct (find_slot c b); [|by apply yields_ret]. do 3 (apply yields_bind; intros ?).
  apply (yields_with (read_fits len)); [case_decide|].
  - apply yields_bind. intros v. by apply yields_ret, attr_read_fits.
  - by apply yields_ret.
  - intros v Hv. apply yields_bind. intros _. by apply yields_ret.
Qed.

Lemma fromnum_read_fits c len off :
  0 <= len -> 0 <= off -> yields (read_fits len) (zoom (fromnum_read c len off)).
Proof.
  intros Hl Ho. apply yields_zoom. intros b v b' t. unfold fromnum_read. rewrite run_gets.
  destruct (find_slot c (id b)) as [i|]; [|by intros [= <- _ _]].
  rewrite run_modify. unfold get_slot. unfold bind. destruct (gets _ _) as [[[]]|]; [|done].
  destruct (oget _ _) as [[[]]|]; [|done]. intros [= <- _ _]. by apply attr_read_fits.
Qed.

Lemma toradio_write_answer c buf off :
  yields (write_answer buf) (toradio_write on_toradio_ble c buf off).
Proof.
  unfold toradio_write. case_decide; [by apply yields_ret|].
  do 3 (apply yields_bind; intros ?). by apply yields_ret.
Qed.

Lemma node_reg_write_answer c buf off :
  yields (write_answer buf) (zoom (node_reg_write c buf off)).
Proof.
  apply yields_zoom. intros b v b' t. unfold node_reg_write. case_decide; [by intros [= <- _ _]|].
  unfold bind. destruct (oget _ _) as [[[]]|]; [|done].
  destruct (ble_gatt_register_proxy_id _ _ _) as [[[]]|]; [|done]. by intros [= <- _ _].
Qed.

(** The handler of a request is the event of that request. *)
Definition read_event (c : bt_conn) (len off : Z) (f : read_fn world) (e : event) : Prop :=
  one_section e = true /\ work_item e = false
  /\ (forall w, c <> NULL -> 0 <= len -> 0 <= off -> enabled w e)
  /\ step e = (f c len off ;;; ret tt).
Definition write_event (c : bt_conn) (buf : list Z) (off : Z) (f : write_fn world) (e : event) : Prop :=
  one_section e = true /\ work_item e = false
  /\ (forall w, c <> NULL -> bytes_ok buf -> 0 <= off -> enabled w e)
  /\ step e = (f c buf off ;;; ret tt).

Definition reads_served (d : gatt_decl world) : Prop :=
  match d with
  | GattCharacteristic _ _ _ (Some f) _ => forall c len off, 0 <= len -> 0 <= off ->
      yields (read_fits len) (f c len off) /\ exists e, read_event c len off f e
  | _ => True
  end.
Definition writes_served (d : gatt_decl world) : Prop :=
  match d with
  | GattCharacteristic _ _ _ _ (Some f) => forall c buf off,
      yields (write_answer buf) (f c buf off) /\ exists e, write_event c buf off f e
  | _ => True
  end.

Lemma svc_reads : Forall reads_served meshtastic_svc.
Proof.
  repeat (apply Forall_cons; split); try done; intros c len off Hl Ho.
  - split; [by apply fromnum_read_fits|]. by exists (EvReadFromNum c len off).
  - split; [by apply fromradio_read_fits|]. by exists (EvReadFromRadio c len off).
  - split; [|by exists (EvReadLogRadio c len off)].
    apply yields_zoom. by intros b v b' t [= <- _ _].
Qed.
Lemma svc_writes : Forall writes_served meshtastic_svc.
Proof.
  repeat (apply Forall_cons; split); try done; intros c buf off.
  - split; [apply toradio_write_answer|]. by exists (EvWriteToRadio c buf off).
  - split; [apply node_reg_write_answer|]. by exists (EvWriteNodeReg c buf off).
Qed.
End Requests.

(** ** Properties *)

Section Properties.
Context `{NanopbOk, GattReadOk, !RingBuf RING_BUF_SIZE, !RingBufOk RING_BUF_SIZE}.
Context `{!MsgQ tx_entry TX_QUEUE_DEPTH, !MsgQOk tx_entry TX_QUEUE_DEPTH, GattServerOk}.

(** A handler that is an event of one section runs, and the program goes on. *)
Lemma request_runs {A} (Q : A -> Prop) (m : M world A) cf e :
  creachable cf -> one_section e = true -> work_item e = false -> enabled (cf_world cf) e ->
  step e = (m ;;; ret tt) -> yields Q m ->
  exists a w' t, m (cf_world cf) = Some (a, w', t) /\ Q a /\ creachable (put_world w' cf).
Proof.
  intros Hc H1' Hwi He Es Hy. pose proof (creachable_ok cf Hc) as Hok.
  destruct (event_step _ e (co_sys _ Hok) H1' He) as (w' & t & E & _).
  assert (creachable (put_world w' cf)) as Hc'.
  { eapply cr_step; [exact Hc|]. destruct cf as [w q p]. apply (cs_event _ _ _ e); try done. congruence. }
  rewrite Es in E. unfold bind in E. destruct (m (cf_world cf)) as [[[a w1] t1]|] eqn:Em; [|done].
  injection E as <- _. exists a, w1, t1. split_and!; try done. by apply Hy in Em.
Qed.

(** C21: every request the stack lets through is served.  A phone may read or
    write any attribute of the service that holds a value, as far as its
    permissions go, in any interleaving of the threads: there is a callback for
    it, it runs to its end, a read answers an error or at most as many bytes as
    were asked for, a write an error or all bytes taken, and the program goes on
    from there. *)
Theorem gatt_requests_served cf i a u props perm read write c off :
  creachable cf -> service_attrs meshtastic_svc !! i = Some a ->
  value_decl a = Some (GattCharacteristic u props perm read write) -> c <> NULL -> 0 <= off ->
  (BT_GATT_PERM_READ ∈ perm -> forall len, 0 <= len -> exists f v w' t, read = Some f
     /\ f c len off (cf_world cf) = Some (v, w', t) /\ read_fits len v /\ creachable (put_world w' cf))
  /\ (BT_GATT_PERM_WRITE ∈ perm -> forall buf, bytes_ok buf -> exists f v w' t, write = Some f
     /\ f c buf off (cf_world cf) = Some (v, w', t) /\ write_answer buf v
     /\ creachable (put_world w' cf)).
Proof.
  intros Hcf Hi Hd Hc Ho. pose proof (value_in _ _ _ _ Hi Hd) as Hin.
  pose proof svc_chrc_ok as Hok. pose proof svc_reads as Hr. pose proof svc_writes as Hw.
  rewrite Forall_forall in Hok, Hr, Hw. specialize (Hok _ Hin). specialize (Hr _ Hin). specialize (Hw _ Hin).
  simpl in Hok, Hr, Hw. destruct Hok as (_ & Hrd & _ & Hwr). split.
  - intros Hp len Hl. apply Hrd in Hp as [f ->]. destruct (Hr c len off Hl Ho) as (Hy & e & H1' & H2' & He & Es).
    destruct (request_runs _ _ cf e Hcf H1' H2' (He _ Hc Hl Ho) Es Hy) as (v & w' & t & ?).
    by exists f, v, w', t.
  - intros Hp buf Hb. apply Hwr in Hp as [f ->]. destruct (Hw c buf off) as (Hy & e & H1' & H2' & He & Es).
    destruct (request_runs _ _ cf e Hcf H1' H2' (He _ Hc Hb Ho) Es Hy) as (v & w' & t & ?).
    by exists f, v, w', t.
Qed.

(** C22: the tables are laid out as the code uses them.  The attribute at
    FROMNUM_ATTR_IDX, through which the phones are notified, is the value of
    FROMNUM, which allows notifications, and its CCC follows; likewise LOGRADIO.
    What a characteristic announces, what the stack lets through and what there
    is a callback for agree; no UUID is used twice; the advertising data and
    the scan response fit the 31 bytes of a packet, name the service the
    server has, and a name that starts with "Meshtastic" and ends in an
    underscore and four hexadecimal digits. *)
Theorem gatt_layout :
  length (service_attrs meshtastic_svc) = 13%nat
  /\ notifies_at uuid_fromnum FROMNUM_ATTR_IDX
  /\ notifies_at uuid_logradio LOGRADIO_ATTR_IDX
  /\ Forall chrc_ok meshtastic_svc
  /\ NoDup (omap decl_uuid meshtastic_svc)
  /\ (exists u, meshtastic_svc !! 0%nat = Some (GattPrimaryService u)
        /\ mk_bt_data BT_DATA_UUID128_ALL (bt_uuid_128_encode u) ∈ ad)
  /\ zlen (on_air ad) <= 31 /\ zlen (on_air sd) <= 31
  /\ exists prefix hex, CONFIG_BT_DEVICE_NAME = prefix ++ 95 :: hex
       /\ prefix = [77; 101; 115; 104; 116; 97; 115; 116; 105; 99]
       /\ length hex = 4%nat /\ Forall (fun c => 48 <= c <= 57 \/ 65 <= c <= 70 \/ 97 <= c <= 102) hex.
Proof.
  assert (forall i, (view <$> service_attrs meshtastic_svc) !! i = mjoin (decl_views <$> meshtastic_svc) !! i)
    as Hv by (intros i; by rewrite service_views).
  split_and!.
  - rewrite <- (length_fmap view), service_views. reflexivity.
  - unfold notifies_at. repeat eexists; [by rewrite Hv|right; left|by rewrite Hv|right; left].
  - unfold notifies_at. repeat eexists; [by rewrite Hv|right; left|by rewrite Hv|right; left].
  - apply svc_chrc_ok.
  - apply (bool_decide_unpack _). vm_compute. exact I.
  - eexists. split; [reflexivity|]. right. left.
  - unfold on_air, ad. simpl. rewrite !zlen_cons, app_nil_r, uuid_size. lia.
  - by vm_compute.
  - exists [77; 101; 115; 104; 116; 97; 115; 116; 105; 99], [67; 65; 49; 69]. split_and!; try done.
    repeat (apply Forall_cons; split); try lia. apply Forall_nil_2.
Qed.
End Properties.

(** ** At concrete inputs *)

Module Demo.
#[local] Existing Instances demo_nanopb demo_nanopb_ok list_ring list_ring_ok list_msgq
  list_msgq_ok list_gatt_read list_gatt_read_ok.

Definition be_bytes (n : nat) (x : Z) : list Z :=
  (fun i => Z.shiftr x (8 * Z.of_nat i) mod 256) <$> seq 0 n.

(** Declarations as their own attributes. *)
#[local] Instance list_server : GattServer := {|
  gatt_attr W := (bool * gatt_decl W)%type;
  service_attrs W := fix attrs (ds : list (gatt_decl W)) := match ds with
    | [] => []
    | (GattCharacteristic _ _ _ _ _ as d) :: ds => (false, d) :: (true, d) :: attrs ds
    | d :: ds => (true, d) :: attrs ds
    end;
  value_decl W a := match a with
    | (true, GattCharacteristic _ _ _ _ _ as d) => Some d
    | _ => None
    end;
  ccc_decl W a := match a with (_, GattCcc _ _ as d) => Some d | _ => None end;
  bt_uuid_128_encode u := be_bytes 6 (uu_w48 u) ++ be_bytes 2 (uu_w3 u) ++ be_bytes 2 (uu_w2 u)
    ++ be_bytes 2 (uu_w1 u) ++ be_bytes 4 (uu_w32 u);
|}.
#[local] Instance list_server_ok : GattServerOk.
Proof.
  split; [done| |done]. intros W d ds. destruct d.
  - eexists [_]. split; [done|]. by eexists.
  - eexists [_; _]. split; [done|]. by eexists _, _.
  - eexists [_]. split; [done|]. by eexists.
Qed.

Lemma gatt_layout_witness : length (service_attrs meshtastic_svc) = 13%nat.
Proof. destruct gatt_layout as (Hl & _). exact Hl. Defined.

(** Phone 11, in its replay, reads FROMRADIO. *)
Definition fromradio_value : gatt_attr world :=
  (true, GattCharacteristic uuid_fromradio [BT_GATT_CHRC_READ] [BT_GATT_PERM_READ]
           (Some fromradio_read) None).

Lemma gatt_requests_served_witness :
  exists v w' t, fromradio_read 11 512 0 (cf_world Schedule.Demo.served) = Some (v, w', t)
    /\ read_fits 512 v.
Proof.
  destruct (gatt_requests_served Schedule.Demo.served 5 fromradio_value _ _ _ _ _ 11 0
    Schedule.Demo.served_reach eq_refl eq_refl) as [Hr _]; [done|lia|].
  destruct (Hr ltac:(left) 512 ltac:(lia)) as (f & v & w' & t & [= <-] & E & Hf & _).
  exists v, w', t. split; [exact E|exact Hf].
Defined.
End Demo.
