(* ===== verification/ProxySpec.v ===== *)
(** * ProxySpec: what the proxy is, without its data structures

    The abstract machine the program implements.  A phone is a mode, a queue of
    packets and the value of its last read; the phones are a finite map from
    connections; the cache is a list of frames; the serial line is the bytes
    heard so far and the queue of payloads to send.  No slots, ring buffers,
    arena, cursors, states of a parser or staging buffers.

    [spec_step p e o p'] says that in state [p] the event [e] may lead to [p']
    with the output [o]. *)

From stdpp Require Import prelude gmap.
From S2P Require Import Prelude ProxyProtocol Nanopb ConfigCache Zephyr UartMeshtastic.
From S2P Require Import ProtoHandler RouteTrace UpstreamSession BleGatt BleReplay Router World Main System.

Local Open Scope Z_scope.

(** ** The state *)

(** [Replaying vs]: the phone still has to read the values [vs] of its replay. *)
Inductive mode :=
  | Fresh
  | Waiting
  | Replaying (vs : list (list Z))
  | Active.

Record phone := mk_phone {
  ph_id : proxy_id;
  ph_nonce : Z;
  ph_mode : mode;
  ph_queue : list (list Z);
  ph_num : Z;                (* packets announced, modulo 2^32 *)
  ph_staged : list Z;        (* the value a long read continues *)
}.
#[export] Instance eta_phone : Eta phone := fun p =>
  mk_phone (ph_id p) (ph_nonce p) (ph_mode p) (ph_queue p) (ph_num p) (ph_staged p).

Record proxy := mk_proxy {
  px_phase : upstream_state;
  px_nonce : Z;                      (* of the session with the node *)
  px_log : list frame;               (* the config burst *)
  px_waiting : list bt_conn;         (* asked before it was complete *)
  px_phones : gmap bt_conn phone;
  px_heard : list Z;                 (* bytes of the node, read *)
  px_line : list Z;                  (* and not read yet *)
  px_uplink : list (list Z);         (* payloads for the node *)
  px_busy : bool;                    (* one is being sent *)
  px_beat : Z;                       (* nonce of the next heartbeat *)
  px_beat_pending : bool;            (* its answer is expected *)
}.
#[export] Instance eta_proxy : Eta proxy := fun p =>
  mk_proxy (px_phase p) (px_nonce p) (px_log p) (px_waiting p) (px_phones p) (px_heard p) (px_line p)
    (px_uplink p) (px_busy p) (px_beat p) (px_beat_pending p).

(** What the surroundings see of a step: the answer to a GATT request, and the
    frames put on the serial line. *)
Inductive answer :=
  | NoAnswer
  | ReadAnswer (v : att_res (list Z))
  | WriteAnswer (v : att_res Z).
Record output := mk_output { o_answer : answer; o_wire : list (list Z) }.
Definition silent : output := mk_output NoAnswer [].
Definition answers (a : answer) : output := mk_output a [].

(** ** Phones *)

Definition new_phone : phone := mk_phone zero_id 0 Fresh [] 0 [].

Definition push (data : list Z) (ph : phone) : phone :=
  if decide (zlen data <= FROMRADIO_MAX_PKT_SIZE /\ zlen (ph_queue ph) < FROMRADIO_QUEUE_DEPTH)
  then ph <| ph_queue := ph_queue ph ++ [data] |> <| ph_num := u32 (ph_num ph + 1) |>
  else ph.

(** A fresh read: the next value of the replay, or of the queue; the value
    after the last is empty. *)
Definition fetch (ph : phone) : phone :=
  match ph_mode ph with
  | Replaying [] => ph <| ph_mode := Active |> <| ph_staged := [] |>
  | Replaying (v :: vs) => ph <| ph_mode := Replaying vs |> <| ph_staged := v |>
  | _ =>
      match ph_queue ph with
      | [] => ph <| ph_staged := [] |>
      | v :: vs => ph <| ph_queue := vs |> <| ph_staged := v |>
      end
  end.

Section Spec.
Context `{Nanopb, GattRead}.

Definition read_value (len offset : Z) (v : list Z) : att_res (list Z) :=
  if decide (v = []) then att_ok [] else bt_gatt_attr_read len offset v.

(** The replay of the log [fs] to a phone that sent the nonce [n]; a phone that
    sends 0 gets the nonce it sent before.  It ends with a config_complete of
    that nonce. *)
Definition replayed (fs : list frame) (n : Z) (ph ph' : phone) : Prop :=
  let n' := if decide (n = 0) then ph_nonce ph else n in
  exists cc, pb_decode_FromRadio cc = Some (msg_config_complete n')
    /\ ph' = ph <| ph_nonce := n' |> <| ph_mode := Replaying ((segment n' fs).*2 ++ [cc]) |>
                <| ph_num := u32 (ph_num ph + 1) |>.

Definition put_phone (c : bt_conn) (ph : phone) (p : proxy) : proxy :=
  p <| px_phones := <[c := ph]> (px_phones p) |>.

(** ** To the node *)

Definition send_up (data : list Z) (p : proxy) : proxy :=
  if decide (zlen data <= MESHTASTIC_MAX_PAYLOAD /\ zlen (px_uplink p) < TX_QUEUE_DEPTH)
  then p <| px_uplink := px_uplink p ++ [data] |> else p.

(** What a phone writes. *)
Definition from_phone (c : bt_conn) (data : list Z) (p p' : proxy) : Prop :=
  match classify_toradio data with
  | PfWantConfig n =>
      match px_phones p !! c with
      | None => p' = p
      | Some ph =>
          if decide (published (px_phase p))
          then exists ph', replayed (px_log p) n ph ph' /\ p' = put_phone c ph' p
          else p' = put_phone c (ph <| ph_nonce := n |> <| ph_mode := Waiting |>)
                      (p <| px_waiting := park_spec (px_waiting p) c |>)
      end
  | PfHeartbeat =>
      match px_phones p !! c with
      | None => p' = p
      | Some ph => exists r, pb_decode_FromRadio r = Some msg_queue_status
          /\ 0 < zlen r /\ p' = put_phone c (push r ph) p
      end
  | PfOther | PfMalformed => p' = send_up data p
  end.

(** ** From the node *)

Definition to_all (raw : list Z) (p : proxy) : proxy :=
  p <| px_phones := push raw <$> px_phones p |>.

(** The last frame of the burst the proxy asked for. *)
Definition ends_burst (raw : list Z) (p : proxy) : Prop :=
  exists m, pb_decode_FromRadio raw = Some m /\ fr_which m = FromRadio_config_complete_id_tag
    /\ fr_config_complete_id m = px_nonce p.

(** The burst is complete: all phones that wait are replayed to. *)
Definition completed (p p' : proxy) : Prop :=
  exists phones, p' = p <| px_phase := UPSTREAM_LIVE |> <| px_waiting := [] |> <| px_phones := phones |>
    /\ forall c, match px_phones p !! c, phones !! c with
                 | Some ph, Some ph' =>
                     if decide (c ∈ px_waiting p) then replayed (px_log p) 0 ph ph' else ph' = ph
                 | None, None => True
                 | _, _ => False
                 end.

(** A packet of the proxy's port for the phone that registered [d]. *)
Definition to_owner (d : proxy_id) (raw : list Z) (p p' : proxy) : Prop :=
  (d <> zero_id /\ exists c ph, px_phones p !! c = Some ph /\ ph_id ph = d
     /\ p' = put_phone c (push raw ph) p)
  \/ ((d = zero_id \/ forall c ph, px_phones p !! c = Some ph -> ph_id ph <> d) /\ p' = to_all raw p).

Definition from_node (raw : list Z) (p p' : proxy) : Prop :=
  match classify_fromradio raw with
  | RfMeta v =>
      if decide (px_phase p = UPSTREAM_FETCHING) then
        (ends_burst raw p /\ completed p p')
        \/ (~ ends_burst raw p /\ p' = p <| px_log := (add_spec (px_log p) v raw).2 |>)
      else if decide (v = FromRadio_queueStatus_tag /\ px_beat_pending p = true)
      then p' = p <| px_beat_pending := false |>
      else p' = to_all raw p
  | RfData pn pl =>
      if decide (pn = PROXY_PORTNUM) then
        match proxy_dst pl with
        | Some d => to_owner d raw p p'
        | None => p' = to_all raw p
        end
      else p' = to_all raw p
  | RfMalformed | RfEncrypted => p' = to_all raw p
  end.

Inductive from_node_all : list (list Z) -> proxy -> proxy -> Prop :=
  | fn_nil p : from_node_all [] p p
  | fn_cons d ds p p1 p2 : from_node d p p1 -> from_node_all ds p1 p2 -> from_node_all (d :: ds) p p2.

(** ** Steps *)

Definition spec_step (p : proxy) (e : event) (o : output) (p' : proxy) : Prop :=
  match e with
  | EvConnected c err _ =>
      o = silent
      /\ p' = if decide (err = 0 /\ Z.of_nat (size (px_phones p)) < MAX_BLE_CONNECTIONS)
              then put_phone c new_phone p else p
  | EvDisconnected c _ => o = silent /\ p' = p <| px_phones := delete c (px_phones p) |>
  | EvReadFromRadio c len offset =>
      match px_phones p !! c with
      | None => o = answers (ReadAnswer (att_error BT_ATT_ERR_UNLIKELY)) /\ p' = p
      | Some ph =>
          let ph' := if decide (offset = 0) then fetch ph else ph in
          o = answers (ReadAnswer (read_value len offset (ph_staged ph'))) /\ p' = put_phone c ph' p
      end
  | EvReadFromNum c len offset =>
      o = answers (ReadAnswer (match px_phones p !! c with
                               | None => att_error BT_ATT_ERR_UNLIKELY
                               | Some ph => bt_gatt_attr_read len offset (le32 (ph_num ph))
                               end)) /\ p' = p
  | EvReadLogRadio c len offset => o = answers (ReadAnswer (att_ok [])) /\ p' = p
  | EvWriteToRadio c buf offset =>
      if decide (offset = 0) then o = answers (WriteAnswer (att_ok (zlen buf))) /\ from_phone c buf p p'
      else o = answers (WriteAnswer (att_error BT_ATT_ERR_INVALID_OFFSET)) /\ p' = p
  | EvWriteNodeReg c buf offset =>
      if decide (offset = 0 /\ zlen buf = PROXY_ID_SIZE) then
        o = answers (WriteAnswer (att_ok (zlen buf)))
        /\ p' = match px_phones p !! c with
                | None => p
                | Some ph => put_phone c (ph <| ph_id := mk_proxy_id buf |>) p
                end
      else o = answers (WriteAnswer (att_error BT_ATT_ERR_INVALID_ATTRIBUTE_LEN)) /\ p' = p
  | EvUart (UART_RX_RDY data) =>
      o = silent
      /\ p' = p <| px_line := px_line p ++ take (Z.to_nat (RING_BUF_SIZE - zlen (px_line p))) data |>
  | EvUart UART_TX_DONE | EvUart UART_TX_ABORTED => o = silent /\ p' = p <| px_busy := false |>
  | EvUart _ => o = silent /\ p' = p
  | EvRxWork =>
      o = silent
      /\ exists ds, deframe (px_heard p ++ px_line p) = deframe (px_heard p) ++ ds
         /\ from_node_all ds (p <| px_heard := px_heard p ++ px_line p |> <| px_line := [] |>) p'
  | EvTxWork tx_err =>
      match px_uplink p with
      | d :: ds =>
          if px_busy p then o = silent /\ p' = p
          else o = mk_output NoAnswer [frame_of d]
               /\ p' = p <| px_uplink := ds |> <| px_busy := bool_decide (tx_err = rc_ok) |>
      | [] => o = silent /\ p' = p
      end
  | EvKeepalive =>
      o = silent
      /\ exists r, pb_decode_ToRadio r = Some (msg_heartbeat (px_beat p))
         /\ zlen r <= MESHTASTIC_MAX_PAYLOAD
         /\ p' = (send_up r p) <| px_beat := next_nonce (px_beat p) |>
                   <| px_beat_pending := bool_decide (zlen (px_uplink p) < TX_QUEUE_DEPTH) |>
  | EvBleLeds | EvUartLeds => o = silent /\ p' = p
  end.

(** After the boot: nobody is connected, and the node is about to be asked for
    its config. *)
Definition spec_init (p : proxy) : Prop :=
  exists n r, nonce_ok n /\ pb_decode_ToRadio r = Some (msg_want_config n)
    /\ zlen r <= MESHTASTIC_MAX_PAYLOAD
    /\ p = mk_proxy UPSTREAM_FETCHING n [] [] ∅ [] [] [r] false 2 false.

(** Runs, with their events and outputs. *)
Inductive spec_run : proxy -> list (event * output) -> proxy -> Prop :=
  | sr_nil p : spec_run p [] p
  | sr_cons p e o p1 es p2 : spec_step p e o p1 -> spec_run p1 es p2 -> spec_run p ((e, o) :: es) p2.
End Spec.
