(* ===== verification/PhoneMap.v ===== *)
(** * PhoneMap: the connection slots as a map from connections to phones

    [phones_of] reads the map of ProxySpec off the array of slots: a slot in
    use is the phone of its connection.  An update of a slot is an insertion or
    a deletion. *)

From stdpp Require Import prelude gmap.
From S2P Require Import Prelude ProxyProtocol Nanopb ConfigCache Zephyr UartMeshtastic.
From S2P Require Import ProtoHandler RouteTrace UpstreamSession BleGatt BleReplay Router World Main System ProxySpec.

Local Open Scope Z_scope.

Section Phones.
Context `{Nanopb}.
Implicit Types (k : cache) (l : list proxy_conn) (m : gmap bt_conn phone).

Definition mode_of k (pc : proxy_conn) : mode :=
  match pc_state pc with
  | PHONE_CONNECTED | PHONE_AWAIT_WANT_CONFIG => Fresh
  | PHONE_PENDING => Waiting
  | PHONE_REPLAYING => Replaying (to_read k pc)
  | PHONE_ACTIVE => Active
  end.

Definition phone_of k (pc : proxy_conn) : phone :=
  mk_phone (pc_proxy_id pc) (pc_nonce pc) (mode_of k pc) (pkts pc) (fromnum pc)
    (take (Z.to_nat (staged_len pc)) (staged pc)).

Definition add_slot k (pc : proxy_conn) m : gmap bt_conn phone :=
  if decide (conn pc = NULL) then m else <[conn pc := phone_of k pc]> m.
Definition phones_of k l : gmap bt_conn phone := foldr (add_slot k) ∅ l.

(** The map, by its lookups. *)
Lemma phones_lookup k l c ph :
  distinct l ->
  phones_of k l !! c = Some ph
  <-> c <> NULL /\ exists i pc, l !! i = Some pc /\ conn pc = c /\ ph = phone_of k pc.
Proof.
  induction l as [|q l IH]; intros Hd; simpl.
  { rewrite lookup_empty. split; [done|]. intros (_ & i & pc & Hi & _). by rewrite lookup_nil in Hi. }
  specialize (IH (distinct_cons _ _ Hd)). unfold add_slot.
  assert (c <> NULL /\ (exists i pc, l !! i = Some pc /\ conn pc = c /\ ph = phone_of k pc)
    -> c <> NULL /\ exists i pc, (q :: l) !! i = Some pc /\ conn pc = c /\ ph = phone_of k pc) as Hs.
  { intros (Hc & i & pc & Hi & Hx). split; [done|]. by exists (S i), pc. }
  destruct (decide (conn q = NULL)) as [Hq|Hq].
  - rewrite IH. split; [done|]. intros (Hc & [|i] & pc & Hi & E & Hp); simplify_eq/=. eauto 10.
  - destruct (decide (conn q = c)) as [<-|Hne].
    + rewrite lookup_insert_eq. split.
      * intros [= <-]. split; [done|]. by exists 0%nat, q.
      * intros (_ & i & pc & Hi & E & ->).
        assert (i = 0%nat) as -> by (eapply (Hd i 0%nat pc q); [done|done|done|by rewrite E]).
        simpl in Hi. by simplify_eq.
    + rewrite lookup_insert_ne by done. rewrite IH. split; [done|].
      intros (Hc & [|i] & pc & Hi & E & Hp); simplify_eq/=. eauto 10.
Qed.

Lemma phones_slot k l i pc :
  distinct l -> l !! i = Some pc -> conn pc <> NULL -> phones_of k l !! conn pc = Some (phone_of k pc).
Proof. intros Hd Hi Hn. apply phones_lookup; [done|]. split; [done|]. by exists i, pc. Qed.

Lemma phones_None k l c :
  distinct l -> phones_of k l !! c = None <-> c = NULL \/ forall i pc, l !! i = Some pc -> conn pc <> c.
Proof.
  intros Hd. rewrite eq_None_not_Some. split.
  - intros Hn. destruct (decide (c = NULL)) as [|Hc]; [by left|right]. intros i pc Hi <-.
    apply Hn. eexists. by eapply phones_slot.
  - intros Hn [ph Hph]. apply phones_lookup in Hph as (Hc & i & pc & Hi & E & _); [|done].
    destruct Hn as [|Hn]; [done|]. by apply (Hn i pc).
Qed.

(** One slot changes. *)
Lemma phones_insert k l i pc pc' :
  distinct l -> distinct (<[i := pc']> l) -> l !! i = Some pc ->
  phones_of k (<[i := pc']> l) = add_slot k pc' (delete (conn pc) (phones_of k l)).
Proof.
  intros Hd Hd' Hi. pose proof (lookup_lt_Some _ _ _ Hi) as Hlt.
  assert (<[i := pc']> l !! i = Some pc') as Hi' by by apply list_lookup_insert_eq.
  apply map_eq. intros c. apply option_eq. intros ph. unfold add_slot.
  rewrite phones_lookup by done.
  destruct (decide (conn pc' = c)) as [Hc'|Hc'].
  - split.
    + intros (Hn & j & q & Hj & Hq & ->). rewrite decide_False by congruence.
      assert (j = i) as -> by (eapply (Hd' j i q pc'); congruence).
      rewrite Hi' in Hj. injection Hj as ->. by rewrite Hq, lookup_insert_eq.
    + destruct (decide (conn pc' = NULL)) as [Hn|Hn].
      * rewrite lookup_delete_Some, phones_lookup by done. by intros (_ & ? & _); subst.
      * rewrite Hc', lookup_insert_eq. intros [= <-]. split; [congruence|]. by exists i, pc'.
  - assert ((if decide (conn pc' = NULL) then delete (conn pc) (phones_of k l)
             else <[conn pc' := phone_of k pc']> (delete (conn pc) (phones_of k l))) !! c
            = delete (conn pc) (phones_of k l) !! c) as -> by (case_decide; [done|by apply lookup_insert_ne]).
    rewrite lookup_delete_Some, phones_lookup by done. split.
    + intros (Hn & j & q & Hj & Hq & ->). assert (i <> j) as Hij by (intros ->; congruence).
      rewrite list_lookup_insert_ne in Hj by done. split; [|split; [done|by exists j, q]].
      intros Hpc. apply Hij. eapply (Hd i j pc q); congruence.
    + intros (Hpc & Hn & j & q & Hj & Hq & ->). split; [done|]. exists j, q.
      rewrite list_lookup_insert_ne; [done|]. intros ->. congruence.
Qed.

(** The slot of a connected phone changes. *)
Lemma phones_update k l i pc pc' :
  distinct l -> l !! i = Some pc -> conn pc' = conn pc -> conn pc <> NULL ->
  phones_of k (<[i := pc']> l) = <[conn pc := phone_of k pc']> (phones_of k l).
Proof.
  intros Hd Hi Hc Hn. rewrite (phones_insert _ _ _ pc); [|done|by eapply distinct_insert; eauto|done].
  unfold add_slot. rewrite decide_False by congruence. by rewrite Hc, insert_delete_eq.
Qed.

(** All slots change, none its connection. *)
Lemma phones_fmap k l f g :
  (forall pc, pc ∈ l -> conn (f pc) = conn pc) ->
  (forall pc, pc ∈ l -> conn pc <> NULL -> phone_of k (f pc) = g (phone_of k pc)) ->
  phones_of k (f <$> l) = g <$> phones_of k l.
Proof.
  intros Hf Hg. induction l as [|pc l IH]; [simpl; by rewrite fmap_empty|].
  change (phones_of k (f <$> pc :: l)) with (add_slot k (f pc) (phones_of k (f <$> l))).
  change (phones_of k (pc :: l)) with (add_slot k pc (phones_of k l)).
  rewrite IH by (intros; first [apply Hf|apply Hg]; [by right|done..]).
  unfold add_slot. rewrite Hf by by left. case_decide as Hn; [done|].
  rewrite Hg; [|by left|done]. by rewrite fmap_insert.
Qed.

Lemma phones_size k l : distinct l -> Z.of_nat (size (phones_of k l)) = in_use l.
Proof.
  induction l as [|pc l IH]; intros Hd; [done|]. unfold in_use in *. simpl.
  specialize (IH (distinct_cons _ _ Hd)). unfold add_slot. rewrite filter_cons.
  destruct (decide (conn pc = NULL)) as [Hn|Hn].
  - rewrite decide_False; [done|]. by intros [].
  - rewrite decide_True by done. rewrite zlen_cons, <- IH, map_size_insert_None; [lia|].
    apply phones_None; [by eapply distinct_cons|]. right. intros i q Hi Hq.
    by pose proof (Hd (S i) 0%nat q pc Hi eq_refl Hq ltac:(by rewrite Hq)).
Qed.

(** The cache matters only to phones in a replay. *)
Lemma phones_cache k k' l :
  (forall pc, pc ∈ l -> pc_state pc = PHONE_REPLAYING -> to_read k' pc = to_read k pc) ->
  phones_of k' l = phones_of k l.
Proof.
  intros Hr. induction l as [|pc l IH]; simpl; [done|].
  rewrite IH by (intros; apply Hr; [by right|done]). unfold add_slot.
  assert (phone_of k' pc = phone_of k pc) as ->; [|done].
  unfold phone_of, mode_of. destruct (pc_state pc) eqn:Es; try done. rewrite Hr; [done|by left|done].
Qed.
End Phones.
