(* ===== verification/Refine.v ===== *)
(** * Refine: the program implements ProxySpec

    [abs] reads the state of ProxySpec off the program's variables.  [observe]
    runs the handler of an event and yields what the surroundings see of it.
    Each handler takes the program from a state to one that is again related,
    along a step of the specification with the same output. *)

From stdpp Require Import prelude gmap.
From S2P Require Import Prelude ProxyProtocol Nanopb ConfigCache Zephyr UartMeshtastic.
From S2P Require Import ProtoHandler RouteTrace UpstreamSession BleGatt BleReplay Router World Main System Calls ProxySpec PhoneMap.

Local Open Scope Z_scope.

(** ** The calls that reach the serial line *)

Section Quiet.
Context `{Nanopb, GattRead, !RingBuf RING_BUF_SIZE, !MsgQ tx_entry TX_QUEUE_DEPTH}.

Definition off_wire (e : io) : Prop := match e with IoUartTx _ _ => False | _ => True end.
#[local] Abbreviation quiet := (emits off_wire).

Lemma quiet_frames {S A} (m : M S A) s a s' t : quiet m -> m s = Some (a, s', t) -> uart_frames t = [].
Proof.
  intros Hm E. pose proof (Hm _ _ _ _ E) as Ht. clear E. induction Ht as [|e t He _ IH]; [done|].
  unfold uart_frames in *. by destruct e.
Qed.

Lemma quiet_uart_tx data : quiet (uart_meshtastic_tx data).
Proof. unfold uart_meshtastic_tx. calls. Qed.
Hint Resolve quiet_uart_tx : emits.

Lemma quiet_pending_phone c : quiet (upstream_on_pending_phone (W := world) serve_replay c).
Proof. unfold upstream_on_pending_phone, serve_one_pending, serve_replay. calls. Qed.
Lemma quiet_toradio c data : quiet (on_toradio_ble (W := world) c data).
Proof.
  unfold on_toradio_ble, ble_gatt_park_pending, upstream_keepalive_reschedule. calls.
  apply quiet_pending_phone.
Qed.

Lemma quiet_read c len off : quiet (fromradio_read (W := world) c len off).
Proof.
  unfold fromradio_read, stage_replay, stage_queue.
  assert (forall fuel i n, quiet (skip_loop (W := world) fuel i n)) as Hs.
  { intros fuel. induction fuel as [|fuel IH]; intros i n; simpl; calls; apply IH. }
  calls; apply Hs.
Qed.

Lemma quiet_session raw info : quiet (upstream_on_fromradio (W := world) serve_replay raw info).
Proof.
  assert (forall fuel i, quiet (serve_loop (W := world) serve_replay fuel i)) as Hs.
  { intros fuel. induction fuel as [|fuel IH]; intros i; simpl; [calls|].
    unfold serve_one_pending, serve_replay. calls; apply IH. }
  unfold upstream_on_fromradio, serve_pending_phones, cache_mark_ready, cache_add_frame. cbv zeta.
  calls; apply Hs.
Qed.
Lemma quiet_fromradio raw : quiet (on_fromradio_uart (W := world) raw).
Proof.
  unfold on_fromradio_uart, router_dispatch, broadcast, upstream_swallow_live_queuestatus.
  calls; apply quiet_session.
Qed.
Lemma quiet_rx : quiet (rx_work_handler (W := world) on_fromradio_uart).
Proof.
  unfold rx_work_handler. generalize (S (Z.to_nat RING_BUF_SIZE)). intros fuel.
  induction fuel as [|fuel IH]; simpl; [calls|].
  unfold rx_process_byte, put_rx. cbv zeta. calls; first [apply quiet_fromradio|apply IH].
Qed.

(** Only the sender's work item puts frames on the line. *)
Lemma quiet_step_event e : (forall err, e <> EvTxWork err) -> quiet (step e).
Proof.
  intros He. destruct e as [c err adv_err|c adv_err|c len off|c len off|c len off|c buf off
    |c buf off|evt| |err| | |]; simpl; try by destruct (He err).
  - calls.
  - calls.
  - calls. apply quiet_read.
  - unfold fromnum_read. calls.
  - unfold logradio_read. calls.
  - unfold toradio_write. calls. apply quiet_toradio.
  - unfold node_reg_write. calls.
  - unfold uart_cb. calls.
  - apply quiet_rx.
  - unfold keepalive_work_handler. calls.
  - calls.
  - unfold led_blink_work. calls.
Qed.
End Quiet.

(** ** Slots as phones *)

Section Slots.
Context `{NanopbOk, GattReadOk}.
Implicit Types (k : cache) (pc : proxy_conn).

Lemma phone_of_same k pc pc' :
  same_session pc pc' ->
  phone_of k pc' = (phone_of k pc) <| ph_queue := pkts pc' |> <| ph_num := fromnum pc' |>.
Proof.
  intros Hs. pose proof Hs as (_ & Est & En & _ & _ & _ & Eg & El & Ei).
  unfold phone_of, mode_of. rewrite Est, En, Eg, El, Ei.
  by rewrite (same_session_to_read k pc pc' Hs).
Qed.

Lemma phone_deliver k data pc :
  slot_wf pc -> phone_of k (deliver data pc) = push data (phone_of k pc).
Proof.
  intros W. pose proof (zlen_pkts _ W) as Hz. rewrite (phone_of_same k pc) by apply deliver_same.
  unfold push. simpl. rewrite Hz. unfold deliver, accepts. case_bool_decide as Ha.
  - destruct Ha as [Hd Hc]. rewrite decide_True by done.
    destruct (push_slot_eq data pc W Hc Hd) as (_ & _ & _ & _ & E & _ & ->). by rewrite E.
  - by rewrite decide_False.
Qed.

(** The value a slot has staged. *)
Lemma staged_value pc v : staged_is pc v -> take (Z.to_nat (staged_len pc)) (staged pc) = v.
Proof. intros [-> E]. exact E. Qed.

Lemma phone_fetch k pc pc' v :
  staged_is pc' v -> same_phone pc pc' ->
  (if decide (pc_state pc = PHONE_REPLAYING)
   then pkts pc' = pkts pc
        /\ match to_read k pc with
           | v' :: vs => v = v' /\ to_read k pc' = vs /\ pc_state pc' = PHONE_REPLAYING
           | [] => v = [] /\ pc_state pc' = PHONE_ACTIVE
           end
   else pc_state pc' = pc_state pc
        /\ match pkts pc with
           | v' :: vs => v = v' /\ pkts pc' = vs
           | [] => v = [] /\ pkts pc' = []
           end) ->
  phone_of k pc' = fetch (phone_of k pc).
Proof.
  intros Hv (_ & Ei & Ef & En & _) Hst. unfold fetch, phone_of, mode_of. simpl.
  rewrite (staged_value _ _ Hv), Ei, Ef, En.
  destruct (decide (pc_state pc = PHONE_REPLAYING)) as [Hr|Hr].
  - rewrite Hr. destruct Hst as [-> Hst]. destruct (to_read k pc) as [|v' vs].
    + by destruct Hst as [-> ->].
    + by destruct Hst as (-> & -> & ->).
  - destruct Hst as [-> Hst]. destruct (pc_state pc) eqn:Es; try done;
      destruct (pkts pc) as [|v' vs] eqn:Ep; destruct Hst as [-> ->]; try done.
Qed.

Lemma read_value_fresh len v : 0 <= len -> read_value len 0 v = att_ok (take (Z.to_nat len) v).
Proof.
  intros Hl. unfold read_value. case_decide as Hv; [by rewrite Hv, take_nil|].
  rewrite gatt_read_ok by done. pose proof (zlen_nonneg v).
  rewrite decide_False by lia. by rewrite drop_0.
Qed.

(** A read further on. *)
Lemma read_value_later {W} `{Lc : !Lens W cache, Lb : !Lens W ble, !Disjoint_lens Lb Lc} (w : W) c i pc len off :
  reader w c i pc -> off <> 0 ->
  fromradio_read c len off w
  = Some (read_value len off (take (Z.to_nat (staged_len pc)) (staged pc)), w, [IoLock i; IoUnlock i]).
Proof.
  intros [Hb Hc Hfs Hf Hs] Ho. pose proof (ble_wf_slot _ _ _ Hb Hs) as Hwf.
  pose proof (sw_staged _ Hwf). pose proof (sw_staged_len _ Hwf).
  unfold fromradio_read. rewrite run_zoom_gets. unfold id. rewrite Hf, run_emit.
  rewrite decide_False by done. rewrite run_ret. erewrite run_slot_get by done. unfold read_value.
  destruct (decide (0 < staged_len pc)).
  - rewrite mem_read_0 by lia. rewrite run_assoc, run_oget, run_ret, run_emit.
    rewrite decide_False; [done|]. intros E.
    pose proof (zlen_take (staged_len pc) (staged pc) ltac:(lia)) as Hz. rewrite E, zlen_nil in Hz. lia.
  - rewrite run_ret, run_emit. assert (staged_len pc = 0) as -> by lia. by rewrite decide_True.
Qed.
End Slots.

(** ** Related states *)

Section Refinement.
Context `{NanopbOk, GattReadOk, !RingBuf RING_BUF_SIZE, !RingBufOk RING_BUF_SIZE}.
Context `{!MsgQ tx_entry TX_QUEUE_DEPTH, !MsgQOk tx_entry TX_QUEUE_DEPTH}.
Implicit Types w : world.

(** The state of the specification, [heard] being the bytes read so far. *)
Definition abs (heard : list Z) w : proxy :=
  mk_proxy (s_state (w_upstream w)) (s_nonce (w_upstream w)) (frames_of (w_cache w))
    (pending (w_upstream w)) (phones_of (w_cache w) (conns (w_ble w)))
    heard (rb_contents (rx_ring_buf (w_uart w)))
    (te_payload <$> mq_contents (tx_msgq (w_uart w))) (tx_in_progress (w_uart w))
    (s_keepalive_nonce (w_upstream w)) (s_keepalive_pending (w_upstream w)).

(** The receive machine has read the bytes heard. *)
Record refines w (p : proxy) : Prop := {
  rf_rest : at_rest w;
  rf_state : p = abs (px_heard p) w;
  rf_bytes : bytes_ok (px_heard p);
  rf_machine : exists sm0, rx_idle sm0
    /\ rx_run sm0 (px_heard p) = Some (rx_sm (w_uart w), deframe (px_heard p));
}.

(** The handler of an event, with its answer. *)
Definition observe (e : event) : M world answer :=
  match e with
  | EvReadFromRadio c len offset =>
      r <- fromradio_read c len offset ;; ret (ReadAnswer r)
  | EvReadFromNum c len offset =>
      r <- zoom (fromnum_read c len offset) ;; ret (ReadAnswer r)
  | EvReadLogRadio c len offset =>
      r <- zoom (logradio_read c len offset) ;; ret (ReadAnswer r)
  | EvWriteToRadio c buf offset =>
      r <- toradio_write on_toradio_ble c buf offset ;; ret (WriteAnswer r)
  | EvWriteNodeReg c buf offset =>
      r <- zoom (node_reg_write c buf offset) ;; ret (WriteAnswer r)
  | _ => step e ;;; ret NoAnswer
  end.

Lemma answered {S A} (m : M S A) (f : A -> answer) s :
  (m ;;; ret tt) s = (fun r => (tt, r.1.2, r.2)) <$> (r <- m ;; ret (f r)) s.
Proof. unfold bind, ret. destruct (m s) as [[[a s'] t]|]; [|done]. simpl. by rewrite app_nil_r. Qed.

Lemma observe_step e w : step e w = (fun r => (tt, r.1.2, r.2)) <$> observe e w.
Proof.
  assert (forall m : M world unit, m w = (fun r => (tt, r.1.2, r.2)) <$> (m ;;; ret NoAnswer) w) as Hu.
  { intros m. unfold bind, ret. destruct (m w) as [[[[] w'] t]|]; [|done]. simpl. by rewrite app_nil_r. }
  destruct e; first [apply answered|apply Hu].
Qed.

(** The handler of [e] runs, along a step of the specification. *)
Definition implements (heard : list Z) w e : Prop :=
  exists a w' t, observe e w = Some (a, w', t)
    /\ spec_step (abs heard w) e (mk_output a (uart_frames t)) (abs heard w').

Lemma implements_quiet heard w e a w' t :
  (forall err, e <> EvTxWork err) -> observe e w = Some (a, w', t) ->
  spec_step (abs heard w) e (answers a) (abs heard w') -> implements heard w e.
Proof.
  intros He E Hs. exists a, w', t. split; [done|].
  assert (step e w = Some (tt, w', t)) as E' by by rewrite observe_step, E.
  by rewrite (quiet_frames _ _ _ _ _ (quiet_step_event e He) E').
Qed.

(** A handler without an answer. *)
Lemma implements_silent heard w e w' t :
  (forall err, e <> EvTxWork err) -> observe e = (step e ;;; ret NoAnswer) ->
  step e w = Some (tt, w', t) ->
  spec_step (abs heard w) e silent (abs heard w') -> implements heard w e.
Proof.
  intros He Eo E Hs. eapply (implements_quiet _ _ _ NoAnswer); [done| |exact Hs].
  rewrite Eo. by erewrite run_bind by exact E.
Qed.

(** *** Connections *)

Lemma refine_connected heard w c err adv_err :
  sys_ok w -> enabled w (EvConnected c err adv_err) -> implements heard w (EvConnected c err adv_err).
Proof.
  intros Hw [Hc Hfresh]. rewrite Forall_forall in Hfresh. pose proof (so_world _ Hw) as (Hb & _). change (ble_wf (w_ble w)) in Hb.
  pose proof (phones_size (w_cache w) _ (bw_distinct _ Hb)) as Hsz.
  destruct (decide (err = 0)) as [->|He].
  2: { apply (implements_silent _ _ _ w []); [done|done| |].
       - unfold step, on_connected. rewrite decide_True by done. unfold zoom, ret. by rewrite lset_lget.
       - split; [done|]. by rewrite decide_False by by intros [? _]. }
  pose proof (on_connected_eq (w_ble w) c adv_err Hb) as E.
  destruct (find_from (conns (w_ble w)) NULL 0) as [i|].
  - destruct E as (pc & Hi & Hn & Hu & E).
    eapply implements_silent; [done|done|unfold step; apply zoom_eq; exact E|].
    split; [done|]. rewrite decide_True by (simpl; rewrite Hsz; done).
    pose proof (ble_wf_connect _ i pc c Hb Hi Hn Hc Hfresh) as Hb'.
    unfold abs, put_phone. simpl. rewrite (phones_insert _ _ _ pc); [|apply Hb|apply Hb'|done].
    unfold add_slot. simpl. rewrite decide_False by done. rewrite Hn, delete_id; [done|].
    apply phones_None; [apply Hb|by left].
  - destruct E as [E Hfull].
    eapply implements_silent; [done|done|unfold step; apply zoom_eq; exact E|].
    split; [done|]. rewrite decide_False; [done|]. simpl. rewrite Hsz. unfold MAX_BLE_CONNECTIONS in *. lia.
Qed.

Lemma abs_phone w i pc :
  ble_wf (w_ble w) -> conns (w_ble w) !! i = Some pc -> conn pc <> NULL ->
  phones_of (w_cache w) (conns (w_ble w)) !! conn pc = Some (phone_of (w_cache w) pc).
Proof. intros Hb. by apply phones_slot, Hb. Qed.

Lemma abs_no_phone w c :
  ble_wf (w_ble w) -> find_slot c (w_ble w) = None ->
  phones_of (w_cache w) (conns (w_ble w)) !! c = None.
Proof.
  intros Hb Hf. apply phones_None; [apply Hb|]. right. intros i pc Hi.
  unfold find_slot in Hf. rewrite find_from_None in Hf. apply Hf. by eapply list_elem_of_lookup_2.
Qed.

(** Slot [i] changes, as the phone's state does. *)
Lemma abs_update heard w i pc pc' ph' :
  ble_wf (w_ble w) -> conns (w_ble w) !! i = Some pc -> conn pc' = conn pc -> conn pc <> NULL ->
  phone_of (w_cache w) pc' = ph' ->
  abs heard (lset ((w_ble w) <| conns := <[i := pc']> (conns (w_ble w)) |>) w)
  = put_phone (conn pc) ph' (abs heard w).
Proof.
  intros Hb Hi Hc Hn <-. unfold abs, put_phone. simpl.
  by rewrite (phones_update _ _ _ pc) by (done || apply Hb).
Qed.

Lemma refine_disconnected heard w c adv_err :
  sys_ok w -> c <> NULL -> implements heard w (EvDisconnected c adv_err).
Proof.
  intros Hw Hc. pose proof (so_world _ Hw) as (Hb & _). change (ble_wf (w_ble w)) in Hb.
  pose proof (on_disconnected_eq (w_ble w) c adv_err Hb Hc) as E.
  destruct (find_slot c (w_ble w)) as [i|] eqn:Hf.
  - destruct E as (pc & Hi & Hpc & E & Hb').
    eapply implements_silent; [done|done|unfold step; apply zoom_eq; exact E|]. split; [done|].
    unfold abs. simpl. rewrite (phones_insert _ _ _ pc); [by rewrite Hpc|apply Hb|apply Hb'|done].
  - eapply implements_silent; [done|done|unfold step; apply zoom_eq; exact E|]. split; [done|].
    unfold abs. simpl. by rewrite delete_id by by apply abs_no_phone.
Qed.

(** *** Reads *)

Lemma refine_read heard w c len off :
  sys_ok w -> enabled w (EvReadFromRadio c len off) -> implements heard w (EvReadFromRadio c len off).
Proof.
  intros Hw (Hc & Hl & Ho). pose proof (so_world _ Hw) as (Hb & _). change (ble_wf (w_ble w)) in Hb.
  destruct (find_slot c (w_ble w)) as [i|] eqn:Hf.
  - destruct (find_slot_lookup _ _ _ Hf) as (pc & Hi & <-).
    pose proof (sys_reader w _ i pc Hw Hf Hi) as Hrd. pose proof (abs_phone w i pc Hb Hi Hc) as Hp.
    destruct (decide (off = 0)) as [->|Hoff].
    + destruct (fresh_read w _ i pc len Hrd Hl) as (pc' & v & E & _ & Hv & Hsame & Hst).
      pose proof (phone_fetch (w_cache w) pc pc' v Hv Hsame Hst) as Hfe.
      eapply (implements_quiet _ _ _ (ReadAnswer _)); [done|cbn [observe]; by erewrite run_bind by exact E|].
      cbn [spec_step]. change (px_phones (abs heard w)) with (phones_of (w_cache w) (conns (w_ble w))).
      rewrite Hp, decide_True by done. rewrite <- Hfe. split.
      * simpl. rewrite (staged_value _ _ Hv). by rewrite read_value_fresh.
      * destruct Hsame as [Hcn _]. by apply (abs_update heard w i pc pc').
    + pose proof (read_value_later w _ i pc len off Hrd Hoff) as E.
      eapply (implements_quiet _ _ _ (ReadAnswer _)); [done|cbn [observe]; by erewrite run_bind by exact E|].
      cbn [spec_step]. change (px_phones (abs heard w)) with (phones_of (w_cache w) (conns (w_ble w))).
      rewrite Hp, decide_False by done. split; [done|].
      unfold put_phone, abs. simpl. by rewrite insert_id.
  - eapply (implements_quiet _ _ _ (ReadAnswer _)); [done| |].
    + cbn [observe]. unfold fromradio_read. rewrite run_assoc, run_zoom_gets. unfold id.
      change (lget w) with (w_ble w). by rewrite Hf.
    + cbn [spec_step]. change (px_phones (abs heard w)) with (phones_of (w_cache w) (conns (w_ble w))).
      by rewrite abs_no_phone.
Qed.

Lemma refine_read_num heard w c len off :
  sys_ok w -> c <> NULL -> implements heard w (EvReadFromNum c len off).
Proof.
  intros Hw Hc. pose proof (so_world _ Hw) as (Hb & _). change (ble_wf (w_ble w)) in Hb.
  destruct (find_slot c (w_ble w)) as [i|] eqn:Hf.
  - destruct (find_slot_lookup _ _ _ Hf) as (pc & Hi & <-).
    eapply (implements_quiet _ _ _ (ReadAnswer _)); [done| |].
    + cbn [observe]. erewrite run_zoom; [reflexivity|].
      unfold fromnum_read. rewrite run_gets. unfold id. change (lget w) with (w_ble w).
      rewrite Hf, run_modify. by erewrite run_get_slot by (simpl; exact Hi).
    + cbn [spec_step]. change (px_phones (abs heard w)) with (phones_of (w_cache w) (conns (w_ble w))).
      by rewrite (abs_phone w i pc).
  - eapply (implements_quiet _ _ _ (ReadAnswer _)); [done| |].
    + cbn [observe]. erewrite run_zoom; [reflexivity|].
      unfold fromnum_read. rewrite run_gets. unfold id. change (lget w) with (w_ble w). by rewrite Hf.
    + cbn [spec_step]. change (px_phones (abs heard w)) with (phones_of (w_cache w) (conns (w_ble w))).
      by rewrite abs_no_phone.
Qed.

Lemma refine_read_log heard w c len off : implements heard w (EvReadLogRadio c len off).
Proof. eapply (implements_quiet _ _ _ (ReadAnswer _)); [done|reflexivity|done]. Qed.

(** *** Registrations *)

Lemma refine_node_reg heard w c buf off :
  sys_ok w -> enabled w (EvWriteNodeReg c buf off) -> implements heard w (EvWriteNodeReg c buf off).
Proof.
  intros Hw (Hc & Hb & Ho). pose proof (so_world _ Hw) as (Hbw & _). change (ble_wf (w_ble w)) in Hbw.
  destruct (node_reg_run (w_ble w) c buf off Hbw Hb Ho) as (r & b' & E & Hb' & Hr).
  eapply (implements_quiet _ _ _ (WriteAnswer _)); [done| |].
  { cbn [observe]. erewrite run_zoom by exact E. reflexivity. }
  cbn [spec_step]. change (px_phones (abs heard w)) with (phones_of (w_cache w) (conns (w_ble w))).
  case_decide as Hd; [|by destruct Hr as [-> ->]].
  destruct Hr as [-> Hr]. destruct Hd as [_ ->]. split; [done|].
  destruct (find_slot c (w_ble w)) as [i|] eqn:Hf; [|by rewrite abs_no_phone, Hr].
  destruct (find_slot_lookup _ _ _ Hf) as (pc & Hi & <-). destruct Hr as (q & Hq & ->). rewrite Hi in Hq. injection Hq as <-.
  rewrite (abs_phone w i pc) by done. by apply abs_update.
Qed.

(** *** Writes *)

(** The parts of the program that [abs] reads. *)
Lemma abs_eq heard w p :
  px_phase p = s_state (w_upstream w) -> px_nonce p = s_nonce (w_upstream w) ->
  px_log p = frames_of (w_cache w) -> px_waiting p = pending (w_upstream w) ->
  px_phones p = phones_of (w_cache w) (conns (w_ble w)) -> px_heard p = heard ->
  px_line p = rb_contents (rx_ring_buf (w_uart w)) ->
  px_uplink p = te_payload <$> mq_contents (tx_msgq (w_uart w)) ->
  px_busy p = tx_in_progress (w_uart w) -> px_beat p = s_keepalive_nonce (w_upstream w) ->
  px_beat_pending p = s_keepalive_pending (w_upstream w) -> abs heard w = p.
Proof. intros. unfold abs. destruct p. simpl in *. by subst. Qed.

Lemma abs_forward heard w w' data a :
  forwarded data (w_uart w) (w_uart w') a -> w_cache w' = w_cache w ->
  w_upstream w' = w_upstream w -> conns (w_ble w') = conns (w_ble w) ->
  abs heard w' = send_up data (abs heard w).
Proof.
  intros Hf Ec Eu Eb. unfold forwarded in Hf. unfold send_up.
  assert (zlen (px_uplink (abs heard w)) = zlen (mq_contents (tx_msgq (w_uart w)))) as Ez
    by (simpl; unfold zlen; by rewrite length_fmap).
  rewrite Ez. case_decide.
  - destruct Hf as (_ & Hq & Hu). apply abs_eq; rewrite ?Ec, ?Eu, ?Eb; try done; rewrite Hu; try done.
    simpl. by rewrite Hq, fmap_app.
  - destruct Hf as (_ & Hu). apply abs_eq; rewrite ?Ec, ?Eu, ?Eb, ?Hu; done.
Qed.

(** A want_config of a connected phone. *)
Lemma refine_want_config heard w w' i pc pc' n :
  sys_ok w -> sys_ok w' -> conns (w_ble w) !! i = Some pc -> conn pc <> NULL ->
  w_uart w' = w_uart w -> w_cache w' = w_cache w -> s_nonce (w_upstream w') = s_nonce (w_upstream w) ->
  conns (w_ble w') = <[i := pc']> (conns (w_ble w)) ->
  want_config_effect n (conn pc) (w_upstream w) (w_upstream w') pc pc' ->
  if decide (published (s_state (w_upstream w)))
  then exists ph', replayed (frames_of (w_cache w)) n (phone_of (w_cache w) pc) ph'
       /\ abs heard w' = put_phone (conn pc) ph' (abs heard w)
  else abs heard w' = put_phone (conn pc) ((phone_of (w_cache w) pc) <| ph_nonce := n |> <| ph_mode := Waiting |>)
         ((abs heard w) <| px_waiting := park_spec (pending (w_upstream w)) (conn pc) |>).
Proof.
  intros Hw Hw' Hi Hn Eu Ec Es Eb (Hcn & Hpk & Hid & Hst & Hsl & He).
  pose proof (so_world _ Hw) as (Hb & _). change (ble_wf (w_ble w)) in Hb.
  pose proof (so_world _ Hw') as (Hb' & _ & Hcw & _). change (ble_wf (w_ble w')) in Hb'.
  change (cache_wf (w_cache w')) in Hcw. rewrite Ec in Hcw.
  assert (conns (w_ble w') !! i = Some pc') as Hi'
    by (rewrite Eb; apply list_lookup_insert_eq; by eapply lookup_lt_Some).
  pose proof (phones_update (w_cache w) _ _ _ pc' (bw_distinct _ Hb) Hi Hcn Hn) as Hph.
  unfold published. case_decide as Hd.
  - destruct He as (Hu & Hr & Hcur & Hno & Hfn).
    exists (phone_of (w_cache w) pc'). split.
    2: { apply abs_eq; rewrite ?Ec, ?Eu, ?Hu, ?Eb, ?Hph; done. }
    exists (closing pc'). split.
    + destruct (ble_wf_armed _ _ _ Hb' Hi' Hr) as [_ Hdec]. unfold closing. rewrite Hdec, Hno. done.
    + unfold phone_of, mode_of. rewrite Hr, Hpk, Hid, Hst, Hsl, Hfn, to_read_start, Hno by done. done.
  - destruct He as (Hs & Hpe & Hp & Hno & Hfn & Hup).
    apply abs_eq; rewrite ?Ec, ?Eu, ?Eb, ?Hph, ?Hpe; try done; try (rewrite Hup; done).
    simpl. f_equal. unfold phone_of, mode_of. by rewrite Hp, Hpk, Hid, Hst, Hsl, Hno, Hfn.
Qed.

Lemma refine_toradio heard w c data :
  sys_ok w -> c <> NULL ->
  exists w' t, on_toradio_ble c data w = Some (tt, w', t)
    /\ from_phone c data (abs heard w) (abs heard w').
Proof.
  intros Hw Hc. pose proof (so_world _ Hw) as Ho. pose proof Ho as (Hb & _). change (ble_wf (w_ble w)) in Hb.
  unfold from_phone. change (px_phones (abs heard w)) with (phones_of (w_cache w) (conns (w_ble w))).
  destruct (find_slot c (w_ble w)) as [i|] eqn:Hf.
  - destruct (find_slot_lookup _ _ _ Hf) as (pc & Hi & <-). rewrite (abs_phone w i pc) by done.
    destruct (toradio_effect _ data w i pc Ho Hc Hf Hi)
      as (w' & t & E & Ho' & He & Hk & (Hn & _) & _).
    destruct (toradio_sys _ data w Hw Hc) as (w2 & t2 & E2 & Hw' & _). rewrite E in E2. injection E2 as <- <-.
    exists w', t. split; [done|]. unfold on_toradio_effect in He. unfold put_phone in *.
    change (w_cache w' = w_cache w) in Hk. change (s_nonce (w_upstream w') = s_nonce (w_upstream w)) in Hn.
    destruct (classify_toradio data) as [|n| |].
    + destruct He as (a & Hfw & Hbe & Hu & _). apply (abs_forward heard w w' data a Hfw Hk Hu). by f_equal.
    + destruct He as (Hu & _ & pc' & Hcs & He).
      by apply (refine_want_config heard w w' i pc pc' n).
    + destruct He as (Hq & Hu & _ & p & Hp & Hz & Hcs & _). exists p. split; [done|]. split; [done|].
      change (w_uart w' = w_uart w) in Hq. change (w_upstream w' = w_upstream w) in Hu.
      change (conns (w_ble w') = <[i := deliver p pc]> (conns (w_ble w))) in Hcs.
      apply abs_eq; rewrite ?Hk, ?Hu, ?Hq, ?Hcs; try done.
      rewrite (phones_update _ _ _ pc); [|apply Hb|done|apply deliver_same|done].
      simpl. by rewrite phone_deliver by by eapply ble_wf_slot.
    + destruct He as (a & Hfw & Hbe & Hu & _). apply (abs_forward heard w w' data a Hfw Hk Hu). by f_equal.
  - rewrite abs_no_phone by done.
    destruct (toradio_untracked c data w Ho Hf) as (w' & t & E & _ & Hk & Hu & Hcs & _ & Hcl).
    exists w', t. split; [done|]. change (w_cache w' = w_cache w) in Hk. change (w_upstream w' = w_upstream w) in Hu.
    change (conns (w_ble w') = conns (w_ble w)) in Hcs.
    assert (w_uart w' = w_uart w -> abs heard w' = abs heard w) as Hs.
    { intros Hq. by apply abs_eq; rewrite ?Hk, ?Hu, ?Hq, ?Hcs. }
    destruct (classify_toradio data) as [|n| |].
    + destruct Hcl as [a Hfw]. by apply (abs_forward heard w w' data a Hfw).
    + by apply Hs.
    + by apply Hs.
    + destruct Hcl as [a Hfw]. by apply (abs_forward heard w w' data a Hfw).
Qed.

Lemma refine_write heard w c buf off :
  sys_ok w -> registered w -> c <> NULL -> implements heard w (EvWriteToRadio c buf off).
Proof.
  intros Hw (Hreg & _) Hc. destruct (decide (off = 0)) as [->|Hoff].
  2: { eapply (implements_quiet _ _ _ (WriteAnswer _)); [done| |].
       - cbn [observe]. unfold toradio_write. rewrite (decide_True (P := off <> 0)) by done. reflexivity.
       - cbn [spec_step]. by rewrite decide_False. }
  set (w1 := mk_world (w_cache w) (w_uart w) (w_upstream w) ((w_ble w) <| led_toradio_active := 1 |>)).
  assert (sys_ok w1) as Hw1.
  { apply sys_ok_ble; try apply Hw; [|done]. pose proof (so_world _ Hw) as (Hbw & _). by destruct Hbw. }
  destruct (refine_toradio heard w1 c buf Hw1 Hc) as (w' & t & E & Hs).
  eapply (implements_quiet _ _ _ (WriteAnswer _)); [done| |].
  - cbn [observe]. unfold toradio_write. rewrite decide_False by (by intros []).
    rewrite run_assoc, run_zoom_modify. change (lset _ w) with w1.
    rewrite run_assoc, run_zoom_gets. unfold id. change (toradio_handler_set (lget w1)) with (toradio_handler_set (w_ble w)).
    rewrite Hreg, run_assoc. erewrite run_bind by exact E. reflexivity.
  - cbn [spec_step]. rewrite decide_True by done. split; [done|exact Hs].
Qed.

(** *** The serial line *)

Lemma refine_uart heard w evt : implements heard w (EvUart evt).
Proof.
  destruct evt as [data| | | | | |];
    (eapply implements_silent; [done|done|reflexivity|done]) || idtac.
  eapply implements_silent; [done|done|reflexivity|]. split; [done|].
  apply abs_eq; try done. simpl. by rewrite rb_put_ok.
Qed.

Lemma refine_tx heard w err : sys_ok w -> implements heard w (EvTxWork err).
Proof.
  intros Hw. pose proof (so_world _ Hw) as (_ & _ & _ & Hu & _).
  pose proof (tx_work_handler_eq err (w_uart w) Hu) as E. unfold implements.
  assert (forall u' t, tx_work_handler err (w_uart w) = Some (tt, u', t) ->
    observe (EvTxWork err) w = Some (NoAnswer, lset u' w, t)) as Ho.
  { intros u' t Et. cbn [observe step]. erewrite run_bind by (apply zoom_eq; exact Et).
    simpl. by rewrite app_nil_r. }
  cbn [spec_step]. change (px_uplink (abs heard w)) with (te_payload <$> mq_contents (tx_msgq (w_uart w))).
  change (px_busy (abs heard w)) with (tx_in_progress (w_uart w)).
  destruct (tx_in_progress (w_uart w)) eqn:Hbusy.
  - eexists _, _, _. split; [by apply Ho|]. destruct (te_payload <$> _); split; try done; by apply abs_eq.
  - destruct (mq_contents (tx_msgq (w_uart w))) as [|e es] eqn:Hq.
    + eexists _, _, _. split; [by apply Ho|]. split; [done|]. by apply abs_eq.
    + destruct E as (u' & E & _ & Hq' & Hp & Hsm & Hrb & Hcb).
      eexists _, _, _. split; [by apply Ho|]. split; [by destruct (decide (err = rc_ok))|].
      by apply abs_eq; simpl; rewrite ?Hq', ?Hp, ?Hsm, ?Hrb.
Qed.

Lemma heartbeat_encoded n :
  nonce_ok n -> exists p, pb_decode_ToRadio p = Some (msg_heartbeat n) /\ zlen p <= 16.
Proof.
  intros [Hn1 Hn2]. destruct (encoder_16 _ _ _ _ (replicate 16 0) 0 (encode_hb_exact n ltac:(split; lia)))
    as (b & l & _ & Hz & _ & Hl & Hd); [done|by_eval|].
  exists (take (Z.to_nat l) b). split; [done|]. rewrite zlen_take; lia.
Qed.

Lemma refine_keepalive heard w : sys_ok w -> implements heard w EvKeepalive.
Proof.
  intros Hw. pose proof (so_world _ Hw) as (_ & Hs & _ & Hu & _).
  pose proof (keepalive_eq w Hs Hu) as E.
  change (lget (Lens := lens_uart) w) with (w_uart w) in E.
  change (lget (Lens := lens_upstream) w) with (w_upstream w) in E.
  assert (zlen (px_uplink (abs heard w)) = zlen (mq_contents (tx_msgq (w_uart w)))) as Ez
    by (simpl; unfold zlen; by rewrite length_fmap).
  case_decide as Hfull.
  - eapply implements_silent; [done|done|exact E|]. split; [done|].
    destruct (heartbeat_encoded _ (up_keepalive _ Hs)) as (p & Hp & Hz).
    exists p. split; [exact Hp|]. split; [unfold MESHTASTIC_MAX_PAYLOAD; lia|].
    rewrite Ez, bool_decide_false by lia. unfold send_up. rewrite Ez, decide_False by lia. done.
  - destruct E as (q & p & Hp & Hz & Hq & _ & E).
    eapply implements_silent; [done|done|exact E|]. split; [done|].
    exists p. split; [exact Hp|]. split; [unfold MESHTASTIC_MAX_PAYLOAD; lia|].
    rewrite Ez, bool_decide_true by lia. unfold send_up. rewrite Ez, decide_True by (unfold MESHTASTIC_MAX_PAYLOAD; lia).
    apply abs_eq; try done. simpl. by rewrite Hq, fmap_app.
Qed.

Lemma refine_leds heard w : implements heard w EvBleLeds /\ implements heard w EvUartLeds.
Proof.
  split; (eapply implements_silent; [done|done|reflexivity|split; [done|by apply abs_eq]]).
Qed.

(** *** Frames of the node *)

(** The state while the receiver runs: it has taken the line's bytes. *)
Definition abs_on (heard line : list Z) w : proxy := (abs heard w) <| px_line := line |>.

Lemma abs_on_all heard line w raw w' :
  w_cache w' = w_cache w -> w_upstream w' = w_upstream w -> w_uart w' = w_uart w ->
  ble_wf (w_ble w) -> conns (w_ble w') = bc_slot raw <$> conns (w_ble w) ->
  abs_on heard line w' = to_all raw (abs_on heard line w).
Proof.
  intros Ec Eu Eq Hb Ecs. unfold abs_on, abs, to_all. simpl. rewrite Ec, Eu, Eq, Ecs.
  erewrite (phones_fmap _ _ _ (push raw)); [done| |].
  - intros pc _. by apply bc_slot_same.
  - intros pc Hin Hn. unfold bc_slot. rewrite decide_False by done. apply phone_deliver.
    apply list_elem_of_lookup in Hin as [i Hi]. by eapply ble_wf_slot.
Qed.

Lemma owner_found heard line w d i pc raw w' :
  ble_wf (w_ble w) -> owner d (w_ble w) = Some (i, pc) ->
  w_cache w' = w_cache w -> w_upstream w' = w_upstream w -> w_uart w' = w_uart w ->
  conns (w_ble w') = <[i := deliver raw pc]> (conns (w_ble w)) ->
  to_owner d raw (abs_on heard line w) (abs_on heard line w').
Proof.
  intros Hb Ho Ec Eu Eq Ecs. unfold owner in Ho. case_decide as Hz; [done|].
  apply list_find_Some in Ho as (Hi & [Hn Hid] & _). left. split; [done|].
  exists (conn pc), (phone_of (w_cache w) pc). split; [by eapply abs_phone|]. split; [done|].
  unfold abs_on, abs, put_phone. simpl. rewrite Ec, Eu, Eq, Ecs.
  rewrite (phones_update _ _ _ pc) by (done || apply Hb || apply deliver_same).
  by rewrite phone_deliver by by eapply ble_wf_slot.
Qed.

Lemma owner_missing heard line w d c ph :
  ble_wf (w_ble w) -> owner d (w_ble w) = None ->
  d <> zero_id -> px_phones (abs_on heard line w) !! c = Some ph -> ph_id ph <> d.
Proof.
  intros Hb Ho Hz Hph <-. unfold owner in Ho. rewrite decide_False in Ho by done.
  apply phones_lookup in Hph as (Hn & i & pc & Hi & <- & ->); [|apply Hb].
  apply list_find_None in Ho. rewrite Forall_forall in Ho.
  by apply (Ho pc); [eapply list_elem_of_lookup_2|].
Qed.

(** The last frame of the burst: the waiting phones are replayed to. *)
Lemma refine_finish heard line w w' :
  sys_ok w -> sys_ok w' -> w_cache w' = (w_cache w) <| s_ready := 1 |> ->
  s_state (w_upstream w') = UPSTREAM_LIVE -> pending (w_upstream w') = [] ->
  s_nonce (w_upstream w') = s_nonce (w_upstream w) ->
  s_keepalive_nonce (w_upstream w') = s_keepalive_nonce (w_upstream w) ->
  s_keepalive_pending (w_upstream w') = s_keepalive_pending (w_upstream w) ->
  w_uart w' = w_uart w ->
  (forall i pc, conns (w_ble w) !! i = Some pc -> exists pc', conns (w_ble w') !! i = Some pc' /\
     if decide (conn pc ∈ pending (w_upstream w)) then served pc pc' else pc' = pc) ->
  completed (abs_on heard line w) (abs_on heard line w').
Proof.
  intros Hw Hw' Ec Es Ep En Ekn Ekp Eu Hs.
  pose proof (so_world _ Hw) as (Hb & _). change (ble_wf (w_ble w)) in Hb.
  pose proof (so_world _ Hw') as (Hb' & _ & Hc' & _). change (ble_wf (w_ble w')) in Hb'.
  change (cache_wf (w_cache w')) in Hc'.
  exists (phones_of (w_cache w') (conns (w_ble w'))). split.
  { unfold abs_on, abs. simpl. by rewrite Es, Ep, En, Ekn, Ekp, Eu, Ec. }
  intros c. change (px_phones (abs_on heard line w)) with (phones_of (w_cache w) (conns (w_ble w))).
  destruct (phones_of (w_cache w) (conns (w_ble w)) !! c) as [ph|] eqn:Hph.
  - apply phones_lookup in Hph as (Hn & i & pc & Hi & <- & ->); [|apply Hb].
    destruct (Hs i pc Hi) as (pc' & Hi' & Hsv).
    assert (conn pc' = conn pc) as Hcn by (case_decide; [apply Hsv|by subst]).
    rewrite <- Hcn in Hn |- *. rewrite (abs_phone w' i pc') by done. rewrite Hcn.
    change (px_waiting (abs_on heard line w)) with (pending (w_upstream w)). case_decide; [|subst pc'; by rewrite Ec].
    destruct Hsv as (_ & Hid & Hpk & Hr & Hcur & Hno & Hfn & Hst & Hsl).
    exists (closing pc'). destruct (ble_wf_armed _ _ _ Hb' Hi' Hr) as [_ Hd]. split.
    + unfold closing. by rewrite Hd, Hno.
    + unfold phone_of, mode_of. rewrite Hr, Hpk, Hid, Hst, Hsl, Hfn, to_read_start, Hno by done.
      by rewrite Ec.
  - apply phones_None in Hph; [|apply Hb].
    assert (phones_of (w_cache w') (conns (w_ble w')) !! c = None) as ->; [|done].
    apply phones_None; [apply Hb'|]. destruct Hph as [|Hph]; [by left|right].
    intros i pc' Hi' Hcn. pose proof (lookup_lt_Some _ _ _ Hi') as Hlt.
    rewrite (bw_size _ Hb'), <- (bw_size _ Hb) in Hlt.
    apply lookup_lt_is_Some in Hlt as [pc Hi]. destruct (Hs i pc Hi) as (q & Hq & Hsv).
    simplify_eq. apply (Hph i pc Hi). by case_decide; [destruct Hsv as [-> _]|subst].
Qed.

(** A frame that is kept for the cache, while nobody is replayed to. *)
Lemma refine_store heard line w w' v raw :
  sys_ok w -> s_state (w_upstream w) = UPSTREAM_FETCHING ->
  w_ble w' = w_ble w -> w_uart w' = w_uart w -> w_upstream w' = account (w_upstream w) v raw ->
  frames_of (w_cache w') = (add_spec (frames_of (w_cache w)) v raw).2 ->
  abs_on heard line w'
  = (abs_on heard line w) <| px_log := (add_spec (px_log (abs_on heard line w)) v raw).2 |>.
Proof.
  intros Hw Hs Eb Eq Eu Ef. unfold abs_on, abs. simpl. rewrite Eb, Eq, Eu, Ef.
  rewrite (phones_cache (w_cache w) (w_cache w')); [done|]. intros pc Hin Hr. exfalso.
  pose proof (so_replaying _ Hw) as Hrp. unfold replaying_ok in Hrp. rewrite Forall_forall in Hrp.
  destruct (Hrp pc Hin Hr); congruence.
Qed.

Lemma ends_burst_iff heard line w raw v :
  classify_fromradio raw = RfMeta v -> s_state (w_upstream w) = UPSTREAM_FETCHING ->
  v <> FromRadio_packet_tag ->
  if decide (v = FromRadio_config_complete_id_tag
             /\ decode_config_complete_nonce raw = Some (s_nonce (w_upstream w)))
  then ends_burst raw (abs_on heard line w) else ~ ends_burst raw (abs_on heard line w).
Proof.
  unfold classify_fromradio, decode_config_complete_nonce, ends_burst. intros Hcl Hs Hv.
  destruct (pb_decode_FromRadio raw) as [m|]; [|done].
  case_decide; [by case_decide|]. injection Hcl as <-. case_decide as Hd.
  - destruct Hd as [Hw Hd]. rewrite decide_False in Hd by by intros []. injection Hd as Hd. by exists m.
  - intros (m' & [= <-] & Hw & Hn). apply Hd. split; [done|].
    rewrite decide_False by by intros []. by f_equal.
Qed.

Lemma meta_variant raw v :
  classify_fromradio raw = RfMeta v -> v <> FromRadio_packet_tag.
Proof.
  unfold classify_fromradio. destruct (pb_decode_FromRadio raw); [|done].
  case_decide; [by case_decide|]. by intros [= <-].
Qed.

Lemma refine_frame heard line w w' raw :
  sys_ok w -> sys_ok w' -> registered w -> w_uart w' = w_uart w ->
  routed raw (w_cache w) (w_upstream w) (w_ble w) (w_cache w') (w_upstream w') (w_ble w') ->
  from_node raw (abs_on heard line w) (abs_on heard line w').
Proof.
  intros Hw Hw' (_ & Hsv & _) Eq Hr. pose proof (so_world _ Hw) as (Hb & _). change (ble_wf (w_ble w)) in Hb.
  assert (w_cache w' = w_cache w -> w_upstream w' = w_upstream w ->
    w_ble w' = (w_ble w) <| conns := bc_slot raw <$> conns (w_ble w) |> ->
    abs_on heard line w' = to_all raw (abs_on heard line w)) as Hall.
  { intros Ec Eu Eb. apply abs_on_all; try done. by rewrite Eb. }
  unfold routed, route_of in Hr. unfold from_node.
  change (px_phase (abs_on heard line w)) with (s_state (w_upstream w)).
  change (px_beat_pending (abs_on heard line w)) with (s_keepalive_pending (w_upstream w)).
  destruct (classify_fromradio raw) as [|v| |pn pl] eqn:Hcl.
  - destruct Hr as (Ec & Eu & Eb). by apply Hall.
  - destruct (decide (s_state (w_upstream w) = UPSTREAM_FETCHING)) as [Hs|Hs].
    + destruct Hr as (v' & [= <-] & Hr). pose proof (meta_variant raw v Hcl) as Hv.
      pose proof (ends_burst_iff heard line w raw v Hcl Hs Hv) as He.
      unfold up_action_of in Hr. rewrite decide_True in Hr by done.
      case_decide as Hd.
      * left. split; [done|]. destruct Hr as (Ec & Es & Ep & (En & _) & _ & [Ekn Ekp] & Hsl).
        apply refine_finish; try done. intros i pc Hi. destruct (Hsl i pc Hi) as (pc' & Hi' & Hpc).
        exists pc'. split; [done|]. destruct (decide (conn pc ∈ pending (w_upstream w))).
        { by rewrite decide_True in Hpc. }
        by rewrite decide_False in Hpc by by intros [_ ?].
      * right. split; [done|]. destruct Hr as (Eb & Eu & _ & Ef). by apply refine_store.
    + destruct (decide (v = FromRadio_queueStatus_tag /\ s_keepalive_pending (w_upstream w) = true)).
      * destruct Hr as (Ec & Eu & Eb). unfold abs_on, abs. simpl. by rewrite Ec, Eu, Eb, Eq.
      * destruct Hr as (Ec & Eu & Eb). by apply Hall.
  - destruct Hr as (Ec & Eu & Eb). by apply Hall.
  - destruct (decide (pn = PROXY_PORTNUM)).
    2: { destruct Hr as (Ec & Eu & Eb). by apply Hall. }
    destruct (proxy_dst pl) as [d|]; simpl in Hr.
    2: { destruct Hr as (Ec & Eu & Eb). by apply Hall. }
    destruct (owner d (w_ble w)) as [[i pc]|] eqn:Ho; destruct Hr as (Ec & Eu & Eb).
    + eapply owner_found; try done. by rewrite Eb.
    + right. split; [|by apply Hall]. destruct (decide (d = zero_id)) as [|Hz]; [by left|right].
      intros c ph Hph. by eapply (owner_missing heard line w d c).
Qed.

Lemma refine_frames heard line ds w :
  sys_ok w -> registered w -> Forall (fun p => frame_size_ok p /\ bytes_ok p) ds ->
  exists w' t, mfor on_fromradio_uart ds w = Some (tt, w', t) /\ sys_ok w' /\ registered w'
    /\ w_uart w' = w_uart w /\ from_node_all ds (abs_on heard line w) (abs_on heard line w').
Proof.
  revert w. induction ds as [|d ds IH]; intros w Hw Hg Hd; simpl.
  { exists w, []. split_and!; try done; by constructor. }
  apply Forall_cons in Hd as [[Hz Hb] Hd].
  destruct (fromradio_sys d w Hw Hz Hb) as (w1 & t1 & E1 & Hw1 & Hu1 & _ & _).
  destruct (fromradio_uart_ok d w (so_world _ Hw) Hb) as (w2 & t2 & E2 & _ & Hr & _).
  { unfold frame_size_ok, MESHTASTIC_MAX_PAYLOAD in Hz. lia. }
  rewrite E1 in E2. injection E2 as <- <-.
  pose proof (refine_frame heard line w w1 d Hw Hw1 Hg Hu1 Hr) as Hf.
  assert (registered w1) as Hg1.
  { pose proof (routed_setup _ _ _ _ _ _ _ Hr) as ((_ & Hcb & _) & Hh & _). unfold registered.
    change (s_serve_cb (w_upstream w1) = s_serve_cb (w_upstream w)) in Hcb.
    change (toradio_handler_set (w_ble w1) = toradio_handler_set (w_ble w)) in Hh.
    by rewrite Hu1, Hcb, Hh. }
  destruct (IH w1 Hw1 Hg1 Hd) as (w3 & t3 & E3 & Hw3 & Hg3 & Hu3 & Hf3).
  exists w3, (t1 ++ t3). erewrite run_bind by exact E1. rewrite E3.
  split_and!; try done; [congruence|]. by econstructor.
Qed.

(** *** Every event *)

Lemma refine_rx w p :
  refines w p ->
  exists w' t p', observe EvRxWork w = Some (NoAnswer, w', t)
    /\ spec_step p EvRxWork (mk_output NoAnswer (uart_frames t)) p'
    /\ p' = abs (px_heard p') w' /\ bytes_ok (px_heard p')
    /\ exists sm0, rx_idle sm0
       /\ rx_run sm0 (px_heard p') = Some (rx_sm (w_uart w'), deframe (px_heard p')).
Proof.
  intros [Hr Ep Hbh (sm0 & Hi & Hrun)]. pose proof (at_rest_registered w Hr) as Hg.
  pose proof Hg as (_ & _ & Hcb). destruct Hr as [Hw Hst Hm].
  pose proof (so_rx _ Hw) as [Hz Hp Hrg Hb].
  set (line := rb_contents (rx_ring_buf (w_uart w))) in *. set (heard := px_heard p) in *.
  destruct (rx_run_ok _ _ Hm Hb) as (sm' & ds & E & Hm').
  destruct (rx_run_frames _ _ _ _ Hm Hp Hb E) as [_ Hd].
  destruct (rx_run_deframe (heard ++ line) sm0 Hi) as (sm2 & Hall); [by apply Forall_app_2|].
  pose proof Hall as Hds. rewrite rx_run_app, Hrun in Hds. simpl in Hds. rewrite E in Hds. simpl in Hds.
  injection Hds as <- Hds.
  destruct (refine_frames (heard ++ line) [] ds w Hw Hg Hd) as (w1 & t & E1 & _ & _ & Hu1 & Hf).
  destruct (rx_loop_eq on_fromradio_uart dispatch_natural (S (Z.to_nat RING_BUF_SIZE)) w sm' ds w1 t)
    as (rb & Hrb & E2); [done|change (lget w) with (w_uart w); fold line; unfold zlen in Hrg; lia|done|done|].
  change (lget (Lens := lens_uart) w) with (w_uart w) in E2.
  set (w' := lset _ w1) in E2. exists w', t, (abs_on (heard ++ line) [] w1).
  assert (observe EvRxWork w = Some (NoAnswer, w', t)) as Eo.
  { cbn [observe step]. unfold rx_work_handler. erewrite run_bind by exact E2. simpl. by rewrite app_nil_r. }
  assert (step EvRxWork w = Some (tt, w', t)) as Es by by rewrite observe_step, Eo.
  split; [done|]. split; [|split; [|split]].
  - rewrite (quiet_frames _ _ _ _ _ (quiet_step_event EvRxWork ltac:(done)) Es). split; [done|].
    exists ds. rewrite Ep. fold heard. simpl. fold line. split; [by rewrite <- Hds|exact Hf].
  - unfold abs_on, abs. simpl. by rewrite Hrb, Hu1.
  - by apply Forall_app_2.
  - by exists sm0.
Qed.

Lemma refine_other heard w e :
  sys_ok w -> registered w -> enabled w e -> e <> EvRxWork -> implements heard w e.
Proof.
  intros Hw Hr He Hn.
  destruct e as [c err adv_err|c adv_err|c len off|c len off|c len off|c buf off
    |c buf off|evt| |err| | |].
  - by apply refine_connected.
  - by apply refine_disconnected.
  - by apply refine_read.
  - apply refine_read_num; [done|apply He].
  - apply refine_read_log.
  - apply refine_write; [done|done|apply He].
  - by apply refine_node_reg.
  - apply refine_uart.
  - done.
  - by apply refine_tx.
  - by apply refine_keepalive.
  - by apply refine_leds.
  - by apply refine_leds.
Qed.

Lemma refine_step w p e :
  refines w p -> enabled w e ->
  exists a w' t p', observe e w = Some (a, w', t)
    /\ spec_step p e (mk_output a (uart_frames t)) p' /\ refines w' p'.
Proof.
  intros Hr He. pose proof (rf_rest _ _ Hr) as Hw.
  assert (forall a w' t, observe e w = Some (a, w', t) -> at_rest w') as Hrest.
  { intros a w' t E. destruct (every_step w e Hw He) as (w2 & t2 & E2 & Hw2 & _).
    rewrite observe_step, E in E2. by injection E2 as <- _. }
  assert (e = EvRxWork \/ e <> EvRxWork) as [->|Hn] by (destruct e; auto).
  - destruct (refine_rx w p Hr) as (w' & t & p' & E & Hs & Hp & Hb & Hm).
    exists NoAnswer, w', t, p'. split; [done|]. split; [done|]. split; try done. by eapply Hrest.
  - destruct (refine_other (px_heard p) w e (ar_sys _ Hw) (at_rest_registered _ Hw) He Hn) as (a & w' & t & E & Hs).
    exists a, w', t, (abs (px_heard p) w'). split; [done|]. split; [by rewrite (rf_state _ _ Hr) at 1|].
    destruct (any_step w e (ar_sys _ Hw) He Hn) as (w2 & t2 & E2 & _ & _ & Hk).
    rewrite observe_step, E in E2. injection E2 as <- _. split; [by eapply Hrest|done|apply Hr|].
    simpl. rewrite (k_machine _ _ Hk). apply Hr.
Qed.

Lemma refine_boot env w t :
  fits 32 (be_rand env) -> main env world_boot = Some (None, w, t) ->
  exists p, spec_init p /\ refines w p.
Proof.
  intros Hr E. pose proof (boot_sys env w t Hr E) as Hw.
  assert (at_boot world_boot) as Hb by by split_and!.
  rewrite (main_eq env world_boot Hb) in E.
  destruct (boot_error env) as [e|]; [repeat case_decide; done|].
  destruct (boot_session world_boot (be_rand env) Hb Hr) as (w' & E' & _ & Hup & Hbl & Hu & Hx).
  rewrite E' in E. simpl in E. injection E as <- _.
  destruct Hx as (_ & _ & Hi & Hf & _ & Hn & r & Hq & Hd).
  change (w_ble w' = ble_boot <| toradio_handler_set := true |>) in Hbl.
  change (w_upstream w' = up_fetching (upstream_boot <| s_serve_cb := true |>) (be_rand env)) in Hup.
  change (w_uart w' = uart_boot <| fromradio_cb_set := true |> <| tx_msgq := tx_msgq (w_uart w') |>) in Hu.
  change (frames_of (w_cache w') = []) in Hf. change (rx_idle (rx_sm (w_uart w'))) in Hi.
  change (nonce_ok (s_nonce (w_upstream w'))) in Hn.
  change (mq_contents (tx_msgq (w_uart w')) = [mk_tx_entry r (zlen r)]) in Hq.
  exists (abs [] w'). split.
  - exists (s_nonce (w_upstream w')), r. split; [done|]. split; [done|]. split.
    { pose proof (so_world _ (ar_sys _ Hw)) as (_ & _ & _ & [_ Hen _] & _).
      change (Forall entry_ok (mq_contents (tx_msgq (w_uart w')))) in Hen.
      rewrite Hq in Hen. by apply Forall_cons in Hen as [[_ ?] _]. }
    apply abs_eq; try (by rewrite Hup); try (by rewrite Hq); try (by rewrite Hf); try by rewrite Hu.
    + by rewrite Hbl.
    + rewrite Hu. simpl. by rewrite rb_empty_ok.
  - split; [done|done|apply Forall_nil_2|]. by exists (rx_sm (w_uart w')).
Qed.

(** Runs of the program, with what is seen of them. *)
Inductive observed : world -> list (event * output) -> world -> Prop :=
  | ob_nil w : observed w [] w
  | ob_cons w e a w1 t es w2 :
      enabled w e -> observe e w = Some (a, w1, t) -> observed w1 es w2 ->
      observed w ((e, mk_output a (uart_frames t)) :: es) w2.

(** Events, run with what is seen of them; [None] if one is not enabled. *)
Fixpoint run_observed (evs : list event) w : option (list (event * output) * world) :=
  match evs with
  | [] => Some ([], w)
  | e :: evs =>
      if decide (enabled w e) then
        match observe e w with
        | Some (a, w1, t) =>
            r ← run_observed evs w1; Some ((e, mk_output a (uart_frames t)) :: r.1, r.2)
        | None => None
        end
      else None
  end.
Lemma run_observed_ok evs w es w' : run_observed evs w = Some (es, w') -> observed w es w'.
Proof.
  revert w es. induction evs as [|e evs IH]; intros w es; simpl; [intros [= <- <-]; constructor|].
  case_decide as He; [|done]. destruct (observe e w) as [[[a w1] t]|] eqn:E; [|done].
  destruct (run_observed evs w1) as [[es1 w2]|] eqn:Er; [|done]. intros [= <- <-].
  econstructor; [done|done|by apply IH].
Qed.

Lemma refine_run w p es w' :
  refines w p -> observed w es w' -> exists p', spec_run p es p' /\ refines w' p'.
Proof.
  intros Hr Ho. revert p Hr. induction Ho as [w|w e a w1 t es w2 He E _ IH]; intros p Hr.
  { exists p. split; [constructor|done]. }
  destruct (refine_step w p e Hr He) as (a' & w1' & t' & p1 & E' & Hs & Hr1).
  rewrite E in E'. injection E' as <- <- <-. destruct (IH p1 Hr1) as (p2 & Hrun & Hr2).
  exists p2. split; [by econstructor|done].
Qed.

(** C1: the program implements its specification.  Whatever the surroundings do
    after a successful boot, in whatever order, the run with all its answers
    and all frames sent is one that ProxySpec allows, the variables hold at its
    end what ProxySpec says, and no event is refused: the next one runs too,
    along a step of the specification. *)
Theorem proxy_refines env w t es w' :
  fits 32 (be_rand env) -> main env world_boot = Some (None, w, t) -> observed w es w' ->
  exists p p', spec_init p /\ spec_run p es p' /\ p' = abs (px_heard p') w'
    /\ forall e, enabled w' e -> exists a w2 t2 p2, observe e w' = Some (a, w2, t2)
       /\ spec_step p' e (mk_output a (uart_frames t2)) p2 /\ p2 = abs (px_heard p2) w2.
Proof.
  intros Hrand E Ho. destruct (refine_boot env w t Hrand E) as (p & Hp & Hr).
  destruct (refine_run w p es w' Hr Ho) as (p' & Hrun & Hr').
  exists p, p'. split_and!; [done|done|apply Hr'|]. intros e He.
  destruct (refine_step w' p' e Hr' He) as (a & w2 & t2 & p2 & E2 & Hs & Hr2).
  exists a, w2, t2, p2. split_and!; [done|done|apply Hr2].
Qed.
End Refinement.

(** ** The property at a concrete input *)

Module Demo.
#[local] Existing Instances demo_nanopb demo_nanopb_ok list_ring list_ring_ok list_msgq
  list_msgq_ok list_gatt_read list_gatt_read_ok.

Lemma w0_main : exists t, main Main.Demo.env_ok world_boot = Some (None, System.Demo.w0, t).
Proof. eexists. vm_compute. reflexivity. Qed.

(** Phone 11 asks and waits, the node's burst completes its replay, the phone
    reads its first frame and sends a packet, and both messages go out. *)
Definition evs : list event :=
  System.Demo.evs_live ++ [EvReadFromRadio 11 512 0; EvWriteToRadio 11 [1; 5] 0; EvTxWork rc_ok;
    EvUart UART_TX_DONE; EvTxWork rc_ok].
Definition run : list (event * output) * world :=
  default ([], world_boot) (run_observed evs System.Demo.w0).
Lemma run_ok : run_observed evs System.Demo.w0 = Some run.
Proof. vm_compute. reflexivity. Qed.
Lemma run_observed_w0 : observed System.Demo.w0 run.1 run.2.
Proof. apply (run_observed_ok evs). rewrite run_ok. by destruct run. Qed.

Lemma proxy_refines_witness :
  exists p p', spec_init p /\ spec_run p run.1 p' /\ px_phase p' = UPSTREAM_LIVE.
Proof.
  destruct w0_main as [t E].
  destruct (proxy_refines Main.Demo.env_ok System.Demo.w0 t run.1 run.2 ltac:(by_eval) E run_observed_w0)
    as (p & p' & Hp & Hr & Ep & _).
  exists p, p'. split; [exact Hp|]. split; [exact Hr|].
  rewrite Ep. unfold abs. cbn [px_phase]. vm_compute. reflexivity.
Defined.
End Demo.
