(* ===== verification/Spans.v ===== *)
(** * Spans: a schedule of the threads, with what is seen of it

    [span cf ds cf'] is a schedule from [cf] to [cf'].  Its log [ds] tells the
    events, with what the surroundings see of their handlers, and of the steps
    of the threads the bytes the receiver took, the frames sent and the [desk],
    what the router can look up, at the moment of the step. *)

From stdpp Require Import prelude.
From S2P Require Import Prelude Tasks ProxyProtocol Nanopb ConfigCache Zephyr UartMeshtastic.
From S2P Require Import ProtoHandler RouteTrace UpstreamSession BleGatt BleReplay Router World Main System Threads Schedule Receiver ProxySpec Refine.

Local Open Scope Z_scope.

(** Whether the answer to the proxy's own heartbeat is expected, and who sits in
    which slot, under which identifier. *)
Record desk := mk_desk { dk_awaited : bool; dk_phones : list (bt_conn * proxy_id) }.

Inductive did :=
  | DidEvent (e : event) (o : output)
  | DidThread (bs : list Z) (wire : list (list Z)) (t : desk).

Definition events_of (ds : list did) : list (event * output) :=
  omap (fun d => match d with DidEvent e o => Some (e, o) | DidThread _ _ _ => None end) ds.
Definition bytes_of (ds : list did) : list Z :=
  mjoin ((fun d => match d with DidEvent _ _ => [] | DidThread bs _ _ => bs end) <$> ds).
Definition wire_of (ds : list did) : list (list Z) :=
  mjoin ((fun d => match d with DidEvent _ o => o_wire o | DidThread _ wire _ => wire end) <$> ds).

Section Spans.
Context `{NanopbOk, GattReadOk, !RingBuf RING_BUF_SIZE, !RingBufOk RING_BUF_SIZE}.
Context `{!MsgQ tx_entry TX_QUEUE_DEPTH, !MsgQOk tx_entry TX_QUEUE_DEPTH}.

Definition desk_of (w : world) : desk :=
  mk_desk (s_keepalive_pending (w_upstream w)) ((fun pc => (conn pc, pc_proxy_id pc)) <$> conns (w_ble w)).

Inductive span : config -> list did -> config -> Prop :=
  | sp_nil cf : span cf [] cf
  | sp_event cf e a t cf1 ds cf' :
      cstep cf (Some e) t cf1 -> observe e (cf_world cf) = Some (a, cf_world cf1, t) -> span cf1 ds cf' ->
      span cf (DidEvent e (mk_output a (uart_frames t)) :: ds) cf'
  | sp_thread cf t cf1 ds cf' :
      cstep cf None t cf1 -> span cf1 ds cf' ->
      span cf (DidThread (taken (cf_world cf) (cf_world cf1)) (uart_frames t) (desk_of (cf_world cf)) :: ds) cf'.

(** Every schedule has such a log. *)
Lemma sched_span cf cf' : rtc sched cf cf' -> exists ds, span cf ds cf'.
Proof.
  induction 1 as [cf|cf cf1 cf' (l & t & Hs) _ [ds Hd]]; [exists []; constructor|]. destruct l as [e|].
  - inversion Hs as [w q m e' w' t' H1' H2' He E| | | | | | | |]; subst.
    rewrite observe_step in E. destruct (observe e w) as [[[a w2] t2]|] eqn:Eo; [|done]. injection E as <- <-.
    eexists. by eapply sp_event.
  - eexists. by eapply sp_thread.
Qed.

(** Running a schedule. *)
Fixpoint run_span (chs : list choice) (cf : config) : option (list did * config) :=
  match chs with
  | [] => Some ([], cf)
  | ch :: chs =>
      match choose_out ch cf with
      | Some (Some e, t, cf1) =>
          match observe e (cf_world cf) with
          | Some (a, _, _) =>
              r ← run_span chs cf1; Some (DidEvent e (mk_output a (uart_frames t)) :: r.1, r.2)
          | None => None
          end
      | Some (None, t, cf1) =>
          r ← run_span chs cf1;
          Some (DidThread (taken (cf_world cf) (cf_world cf1)) (uart_frames t) (desk_of (cf_world cf)) :: r.1, r.2)
      | None => None
      end
  end.

Lemma run_span_ok chs cf ds cf' : run_span chs cf = Some (ds, cf') -> span cf ds cf'.
Proof.
  revert cf ds. induction chs as [|ch chs IH]; intros cf ds; simpl; [intros [= <- <-]; constructor|].
  destruct (choose_out ch cf) as [[[[e|] t] cf1]|] eqn:E; [| |done]; apply choose_out_step in E.
  - destruct (observe e (cf_world cf)) as [[[a w1] t1]|] eqn:Eo; [|done].
    destruct (run_span chs cf1) as [[ds1 cf2]|] eqn:Er; [|done]. intros [= <- <-].
    inversion E as [w q m e' w' t' H1' H2' He Es| | | | | | | |]; subst. simpl in Eo.
    rewrite observe_step, Eo in Es. injection Es as -> ->. by eapply sp_event, IH.
  - destruct (run_span chs cf1) as [[ds1 cf2]|] eqn:Er; [|done]. intros [= <- <-]. by eapply sp_thread, IH.
Qed.

(** An event of a span, as a step of the abstract proxy. *)
Lemma event_implements cf e a t cf1 :
  config_ok cf -> s_state (w_upstream (cf_world cf)) <> UPSTREAM_BOOT -> cstep cf (Some e) t cf1 ->
  observe e (cf_world cf) = Some (a, cf_world cf1, t) ->
  spec_step (abs [] (cf_world cf)) e (mk_output a (uart_frames t)) (abs [] (cf_world cf1)).
Proof.
  intros Hcf Hb Hs Eo. pose proof (co_sys _ Hcf) as Hw.
  inversion Hs as [w q m e' w' t' H1' H2' He E| | | | | | | |]; subst. simpl in *.
  destruct (refine_other [] w e Hw (so_registered _ Hw Hb) He) as (a' & w2 & t2 & E2 & Hst); [by intros ->|].
  rewrite Eo in E2. by injection E2 as <- <- <-.
Qed.
End Spans.
