(* ===== verification/ProxyRuns.v ===== *)
(** * ProxyRuns: whole runs of the proxy, end to end

    Consequences of ProxySpec over runs, and, by the refinement of Refine, of
    the program: what the node receives, and what config the proxy holds, as
    functions of what phones and node sent. *)

From stdpp Require Import prelude gmap.
From S2P Require Import Prelude ProxyProtocol Nanopb ConfigCache Zephyr UartMeshtastic.
From S2P Require Import ProtoHandler RouteTrace UpstreamSession BleGatt BleReplay Router World Main System ProxySpec PhoneMap Refine.

Local Open Scope Z_scope.

(** ** What is sent to the node *)

Section Uplink.
Context `{Nanopb}.

(** The event asks for [d] to be sent. *)
Definition offers (e : event) (d : list Z) : Prop :=
  match e with
  | EvWriteToRadio _ buf off =>
      off = 0 /\ d = buf /\ (classify_toradio buf = PfOther \/ classify_toradio buf = PfMalformed)
  | EvKeepalive => exists n, pb_decode_ToRadio d = Some (msg_heartbeat n)
  | _ => False
  end.

(** [ds] was offered by some of the events [es], in their order, once each. *)
Inductive offered : list event -> list (list Z) -> Prop :=
  | of_nil : offered [] []
  | of_skip e es ds : offered es ds -> offered (e :: es) ds
  | of_take e es d ds : offers e d -> offered es ds -> offered (e :: es) (d :: ds).

Definition short (d : list Z) : Prop := zlen d <= MESHTASTIC_MAX_PAYLOAD.

(** What is on the wire and in the queue after a step. *)
Definition up_effect (p : proxy) (e : event) (o : output) (p' : proxy) : Prop :=
  exists sent ds, o_wire o = frame_of <$> sent /\ sent ++ px_uplink p' = px_uplink p ++ ds
    /\ (ds = [] \/ exists d, ds = [d] /\ offers e d /\ short d).

Lemma up_none p e a p' : px_uplink p' = px_uplink p -> up_effect p e (answers a) p'.
Proof. intros E. exists [], []. split; [done|]. split; [by rewrite app_nil_r|by left]. Qed.

Lemma up_send p e d a p' :
  offers e d -> px_uplink p' = px_uplink (send_up d p) -> up_effect p e (answers a) p'.
Proof.
  intros He E. unfold send_up in E. case_decide as Hd; [|by apply up_none].
  exists [], [d]. split; [done|]. split; [by rewrite E|]. right. exists d.
  split; [done|]. split; [done|apply Hd].
Qed.

Lemma from_node_uplink raw p p' : from_node raw p p' -> px_uplink p' = px_uplink p.
Proof.
  unfold from_node. intros Hf. destruct (classify_fromradio raw) as [|v| |pn pl]; try by subst.
  - case_decide; [by destruct Hf as [[_ (? & -> & _)]|[_ ->]]|]. case_decide; by subst.
  - case_decide; [|by subst]. destruct (proxy_dst pl); [|by subst].
    by destruct Hf as [(_ & ? & ? & _ & _ & ->)|[_ ->]].
Qed.

Lemma from_node_all_uplink ds p p' : from_node_all ds p p' -> px_uplink p' = px_uplink p.
Proof. induction 1 as [|d ds p p1 p2 Hf _ IH]; [done|]. rewrite IH. by eapply from_node_uplink. Qed.

Lemma from_phone_uplink c buf a p p' :
  from_phone c buf p p' -> up_effect p (EvWriteToRadio c buf 0) (answers a) p'.
Proof.
  unfold from_phone. intros Hf. destruct (classify_toradio buf) eqn:Hcl.
  - apply (up_send _ _ buf); [split_and!; by auto|by subst].
  - apply up_none. destruct (px_phones p !! c); [|by subst].
    case_decide; [|by subst]. by destruct Hf as (? & _ & ->).
  - apply up_none. destruct (px_phones p !! c); [|by subst]. by destruct Hf as (? & _ & _ & ->).
  - apply (up_send _ _ buf); [split_and!; by auto|by subst].
Qed.

Context `{GattRead}.

Lemma step_uplink p e o p' : spec_step p e o p' -> up_effect p e o p'.
Proof.
  intros Hs. destruct e as [c err ?|c ?|c len off|c len off|c len off|c buf off
    |c buf off|[]| |err| | |]; cbn [spec_step] in Hs;
    try (destruct Hs as [-> Hs]; apply up_none; by subst).
  - destruct Hs as [-> Hs]. apply up_none. by case_decide; subst.
  - destruct (px_phones p !! c); destruct Hs as [-> Hs]; apply up_none; by subst.
  - case_decide as Ho; destruct Hs as [-> Hs]; [subst off; by apply from_phone_uplink|apply up_none; by subst].
  - case_decide; destruct Hs as [-> Hs]; apply up_none; subst; [|done]. by destruct (px_phones p !! c).
  - destruct Hs as [-> (ds & _ & Hf)]. apply up_none. by apply from_node_all_uplink in Hf.
  - destruct (px_uplink p) as [|d ds] eqn:Hu; [destruct Hs as [-> ->]; by apply up_none|].
    destruct (px_busy p); destruct Hs as [-> ->]; [by apply up_none|].
    exists [d], []. split; [done|]. split; [by rewrite Hu, app_nil_r|by left].
  - destruct Hs as [-> (r & Hd & _ & ->)]. apply (up_send _ _ r); [|done]. by eexists.
Qed.

(** Over a run: [sent] is what went out, the queue holds what is left. *)
Lemma run_uplink p es p' :
  spec_run p es p' -> Forall short (px_uplink p) ->
  exists sent ds, mjoin (o_wire <$> es.*2) = frame_of <$> sent
    /\ sent ++ px_uplink p' = px_uplink p ++ ds /\ offered es.*1 ds /\ Forall short sent.
Proof.
  induction 1 as [p|p e o p1 es p2 Hs _ IH]; intros Hu.
  { exists [], []. split; [done|]. split; [by rewrite app_nil_r|]. split; constructor. }
  destruct (step_uplink _ _ _ _ Hs) as (s1 & d1 & Ew & E1 & Hd).
  assert (Forall short (s1 ++ px_uplink p1)) as Hsh.
  { rewrite E1. apply Forall_app_2; [done|]. destruct Hd as [->|(d & -> & _ & ?)]; [constructor|by apply Forall_singleton]. }
  apply Forall_app in Hsh as [Hs1 Hp1].
  destruct (IH Hp1) as (s2 & d2 & Ew2 & E2 & Ho & Hs2).
  exists (s1 ++ s2), (d1 ++ d2). split_and!.
  - change (mjoin (o_wire <$> ((e, o) :: es).*2)) with (o_wire o ++ mjoin (o_wire <$> es.*2)).
    by rewrite Ew, Ew2, fmap_app.
  - by rewrite <- app_assoc, E2, app_assoc, E1, app_assoc.
  - destruct Hd as [->|(d & -> & Hof & _)]; [by constructor|by apply of_take].
  - by apply Forall_app_2.
Qed.

(** Frames on the line deframe to their payloads; the empty ones are not seen. *)
Lemma deframe_sent sent :
  Forall short sent -> deframe (mjoin (frame_of <$> sent)) = filter (.≠ []) sent.
Proof.
  induction 1 as [|d ds Hd _ IH]; [done|].
  change (mjoin (frame_of <$> d :: ds)) with (frame_of d ++ mjoin (frame_of <$> ds)).
  rewrite filter_cons. destruct d as [|b d].
  - rewrite decide_False by by intros [].
    change (deframe (MESHTASTIC_MAGIC1 :: MESHTASTIC_MAGIC2 :: 0 :: 0 :: mjoin (frame_of <$> ds)) = filter (.≠ []) ds).
    by rewrite deframe_header.
  - rewrite decide_True by done. rewrite deframe_frame; [by rewrite IH|].
    split; [|exact Hd]. rewrite zlen_cons. pose proof (zlen_nonneg d). lia.
Qed.
End Uplink.

(** ** The config, from the bytes of the node *)

Section Config.
Context `{NanopbOk}.

(** [raw] ends the burst of nonce [n]. *)
Definition is_end (n : Z) (raw : list Z) : bool :=
  match pb_decode_FromRadio raw with
  | Some m => bool_decide (fr_which m = FromRadio_config_complete_id_tag /\ fr_config_complete_id m = n)
  | None => false
  end.

(** The frames before the end of the burst, and whether it was reached. *)
Fixpoint burst (n : Z) (ds : list (list Z)) : list (list Z) * bool :=
  match ds with
  | [] => ([], false)
  | d :: ds => if is_end n d then ([], true) else let '(b, e) := burst n ds in (d :: b, e)
  end.

(** What is kept of them: every frame but the packets, while there is room. *)
Definition keep (fs : list frame) (raw : list Z) : list frame :=
  match classify_fromradio raw with RfMeta v => (add_spec fs v raw).2 | _ => fs end.
Definition config_of (ds : list (list Z)) : list frame := foldl keep [] ds.

Lemma config_of_snoc ds d : config_of (ds ++ [d]) = keep (config_of ds) d.
Proof. unfold config_of. by rewrite foldl_app. Qed.

Lemma burst_snoc n ds d :
  burst n (ds ++ [d])
  = if (burst n ds).2 then burst n ds
    else if is_end n d then ((burst n ds).1, true) else ((burst n ds).1 ++ [d], false).
Proof.
  induction ds as [|x ds IH]; simpl; [by destruct (is_end n d)|].
  destruct (is_end n x); [done|]. rewrite IH. destruct (burst n ds) as [b []]; [done|]. by destruct (is_end n d).
Qed.

(** The state of the config once the frames [ds] were heard. *)
Record config_at (n : Z) (ds : list (list Z)) (p : proxy) : Prop := {
  ca_nonce : px_nonce p = n;
  ca_phase : px_phase p = if (burst n ds).2 then UPSTREAM_LIVE else UPSTREAM_FETCHING;
  ca_log : px_log p = config_of (burst n ds).1;
}.

Lemma config_at_same n ds p p' :
  config_at n ds p -> px_nonce p' = px_nonce p -> px_phase p' = px_phase p -> px_log p' = px_log p ->
  config_at n ds p'.
Proof. intros [? ? ?] ???. split; congruence. Qed.

Lemma is_end_ends n raw p : px_nonce p = n -> is_end n raw = true <-> ends_burst raw p.
Proof.
  intros <-. unfold is_end, ends_burst. destruct (pb_decode_FromRadio raw) as [m|].
  - rewrite bool_decide_eq_true. split; [by exists m|]. by intros (m' & [= <-] & ?).
  - split; [done|]. by intros (? & ? & _).
Qed.

(** Only a frame that is no packet ends a burst. *)
Lemma is_end_meta n raw : is_end n raw = true -> exists v, classify_fromradio raw = RfMeta v.
Proof.
  unfold is_end, classify_fromradio. destruct (pb_decode_FromRadio raw) as [m|]; [|done].
  rewrite bool_decide_eq_true. intros [Hw _]. rewrite decide_False; [eauto|]. rewrite Hw.
  pose proof FromRadio_tags_NoDup as Hn. rewrite !NoDup_cons, !not_elem_of_cons in Hn.
  destruct_and!. congruence.
Qed.

(** A frame that changes neither phase nor log, and the config's view of it. *)
Lemma config_at_pass n ds raw p p' :
  config_at n ds p -> px_nonce p' = px_nonce p -> px_phase p' = px_phase p -> px_log p' = px_log p ->
  px_phase p <> UPSTREAM_FETCHING \/ (forall v, classify_fromradio raw <> RfMeta v) ->
  config_at n (ds ++ [raw]) p'.
Proof.
  intros [Hn Hp Hl] En Ep El Hx. split; [congruence|..]; rewrite ?Ep, ?El, ?Hp, ?Hl, burst_snoc;
    destruct (burst n ds) as [b []]; try done; simpl.
  all: destruct Hx as [Hx|Hx]; [by rewrite Hp in Hx|].
  all: destruct (is_end n raw) eqn:He; [apply is_end_meta in He as [v Hv]; by destruct (Hx v)|].
  - done.
  - simpl. rewrite config_of_snoc. unfold keep.
    destruct (classify_fromradio raw) as [|v| |] eqn:Hc; try done. by destruct (Hx v).
Qed.

Lemma config_at_frame n ds raw p p' :
  config_at n ds p -> from_node raw p p' -> config_at n (ds ++ [raw]) p'.
Proof.
  intros Hc Hf. pose proof Hc as [Hn Hp Hl]. unfold from_node in Hf.
  destruct (classify_fromradio raw) as [|v| |pn pl] eqn:Hcl.
  - subst p'. eapply config_at_pass; try done. right. by rewrite Hcl.
  - case_decide as Hph.
    + rewrite Hph in Hp. destruct (burst n ds) as [b [|]] eqn:Hb; [done|]. simpl in Hl.
      destruct Hf as [[He (phones & -> & _)]|[He ->]].
      * apply (is_end_ends n raw p Hn) in He. split; [done|..]; by rewrite burst_snoc, Hb, He.
      * assert (is_end n raw = false) as He'.
        { apply not_true_is_false. by rewrite (is_end_ends n raw p Hn). }
        split; [done|..]; rewrite burst_snoc, Hb, He'; simpl; [done|].
        rewrite config_of_snoc. unfold keep. by rewrite Hcl, Hl.
    + eapply config_at_pass; [done|..|by left]; by case_decide; subst.
  - subst p'. eapply config_at_pass; try done. right. by rewrite Hcl.
  - assert (px_nonce p' = px_nonce p /\ px_phase p' = px_phase p /\ px_log p' = px_log p) as (E1 & E2 & E3).
    { case_decide; [|by subst]. destruct (proxy_dst pl); [|by subst].
      by destruct Hf as [(_ & ? & ? & _ & _ & ->)|[_ ->]]. }
    eapply config_at_pass; try done. right. by rewrite Hcl.
Qed.

Lemma config_at_frames n ds0 ds p p' :
  config_at n ds0 p -> from_node_all ds p p' -> config_at n (ds0 ++ ds) p'.
Proof.
  intros Hc Hf. revert ds0 Hc. induction Hf as [p|d ds p p1 p2 Hf _ IH]; intros ds0 Hc.
  { by rewrite app_nil_r. }
  replace (ds0 ++ d :: ds) with ((ds0 ++ [d]) ++ ds) by by rewrite <- app_assoc.
  apply IH. by eapply config_at_frame.
Qed.

(** The receive events of a run. *)
Definition rx_of (e : event) : option rx_event :=
  match e with
  | EvUart (UART_RX_RDY data) => Some (RxReady data)
  | EvRxWork => Some RxWork
  | _ => None
  end.

Lemma from_node_line raw p p' :
  from_node raw p p' -> px_heard p' = px_heard p /\ px_line p' = px_line p.
Proof.
  unfold from_node. intros Hf. destruct (classify_fromradio raw) as [|v| |pn pl]; try by subst.
  - case_decide; [by destruct Hf as [[_ (? & -> & _)]|[_ ->]]|]. case_decide; by subst.
  - case_decide; [|by subst]. destruct (proxy_dst pl); [|by subst].
    by destruct Hf as [(_ & ? & ? & _ & _ & ->)|[_ ->]].
Qed.
Lemma from_node_all_line ds p p' :
  from_node_all ds p p' -> px_heard p' = px_heard p /\ px_line p' = px_line p.
Proof.
  induction 1 as [|d ds p p1 p2 Hf _ [-> ->]]; [done|]. by apply from_node_line in Hf.
Qed.

Context `{GattRead}.

(** A step that receives nothing. *)
Lemma step_config p e o p' :
  spec_step p e o p' -> rx_of e = None ->
  px_nonce p' = px_nonce p /\ px_phase p' = px_phase p /\ px_log p' = px_log p
  /\ px_heard p' = px_heard p /\ px_line p' = px_line p.
Proof.
  intros Hs He. destruct e as [c err ?|c ?|c len off|c len off|c len off|c buf off
    |c buf off|[]| |err| | |]; try done; cbn [spec_step] in Hs;
    try (destruct Hs as [_ ->]; done).
  - destruct Hs as [_ ->]. by case_decide.
  - destruct (px_phones p !! c); by destruct Hs as [_ ->].
  - case_decide; [|by destruct Hs as [_ ->]]. destruct Hs as [_ Hf]. unfold from_phone, send_up in Hf.
    destruct (classify_toradio buf); try (subst; by case_decide); destruct (px_phones p !! c); try by subst.
    + case_decide; [|by subst]. by destruct Hf as (? & _ & ->).
    + by destruct Hf as (? & _ & _ & ->).
  - case_decide; destruct Hs as [_ ->]; [|done]. by destruct (px_phones p !! c).
  - destruct (px_uplink p); [by destruct Hs as [_ ->]|]. destruct (px_busy p); by destruct Hs as [_ ->].
  - destruct Hs as [_ (r & _ & _ & ->)]. unfold send_up. by case_decide.
Qed.

Lemma run_config n p es p' :
  spec_run p es p' -> config_at n (deframe (px_heard p)) p ->
  config_at n (deframe (px_heard p')) p'
  /\ let r := rx_stream (px_line p) (omap rx_of es.*1) in
     px_heard p' = px_heard p ++ r.1 /\ px_line p' = r.2.
Proof.
  induction 1 as [p|p e o p1 es p2 Hs _ IH]; intros Hc.
  { split; [done|]. simpl. by rewrite app_nil_r. }
  destruct (rx_of e) as [[data|]|] eqn:He.
  - destruct e as [| | | | | | |[]| | | | |]; try done. injection He as ->. destruct Hs as [_ ->].
    apply IH. by eapply config_at_same.
  - destruct e as [| | | | | | |[]| | | | |]; try done. destruct Hs as [_ (ds & Hds & Hf)].
    destruct (from_node_all_line _ _ _ Hf) as [Eh El]. simpl in Eh, El.
    assert (config_at n (deframe (px_heard p1)) p1) as Hc1.
    { rewrite Eh, Hds. eapply config_at_frames; [|exact Hf]. by eapply config_at_same. }
    destruct (IH Hc1) as (Hc2 & Hh & Hl). split; [done|]. rewrite Eh, El in Hh. rewrite El in Hl. simpl in Hh, Hl |- *.
    destruct (rx_stream [] _) as [q r]. simpl in *. by rewrite Hh, <- app_assoc.
  - destruct (step_config _ _ _ _ Hs He) as (En & Ep & El & Eh & Eli). simpl. rewrite He.
    rewrite <- Eh, <- Eli. apply IH. rewrite Eh. by eapply config_at_same.
Qed.
End Config.

(** ** The program *)

Section Program.
Context `{NanopbOk, GattReadOk, !RingBuf RING_BUF_SIZE, !RingBufOk RING_BUF_SIZE}.
Context `{!MsgQ tx_entry TX_QUEUE_DEPTH, !MsgQOk tx_entry TX_QUEUE_DEPTH}.

(** C3: the uplink is exact, end to end.  After a successful boot, whatever
    happens, what the program puts on the serial line is a sequence of frames,
    and a receiver with the same framing decodes it to exactly their non-empty
    payloads.  These, followed by those still queued, are first the proxy's own
    want_config, then packets written by phones and heartbeats, each at most
    once, unchanged, and in the order in which they were offered. *)
Theorem uplink_exact env w t es w' :
  fits 32 (be_rand env) -> main env world_boot = Some (None, w, t) -> observed w es w' ->
  exists r sent ds, pb_decode_ToRadio r = Some (msg_want_config (s_nonce (w_upstream w')))
    /\ mjoin (o_wire <$> es.*2) = frame_of <$> sent
    /\ deframe (mjoin (mjoin (o_wire <$> es.*2))) = filter (.≠ []) sent
    /\ sent ++ (te_payload <$> mq_contents (tx_msgq (w_uart w'))) = r :: ds
    /\ offered es.*1 ds.
Proof.
  intros Hrand E Ho. destruct (refine_boot env w t Hrand E) as (p & Hp & Hr).
  destruct (refine_run w p es w' Hr Ho) as (p' & Hrun & Hr').
  destruct Hp as (n & r & Hn & Hd & Hz & Ep).
  destruct (run_config n p es p' Hrun) as ([En _ _] & _); [by rewrite Ep|].
  destruct (run_uplink p es p' Hrun) as (sent & ds & Ew & Eu & Hof & Hsh).
  { rewrite Ep. by apply Forall_singleton. }
  exists r, sent, ds. rewrite (rf_state _ _ Hr') in En, Eu. simpl in En, Eu. rewrite Ep in Eu.
  split_and!; [by rewrite En|done|by rewrite Ew, deframe_sent|done|done].
Qed.

(** C2: the config is a function of what the node sent.  After a successful boot,
    whatever phones do in between, the session is LIVE exactly if the bytes
    heard contain a frame that ends the burst of the session's nonce, and the
    cache holds exactly the frames before it that are no packets, unchanged and
    in order, as far as there was room. *)
Theorem config_exact env w t es w' :
  fits 32 (be_rand env) -> main env world_boot = Some (None, w, t) -> observed w es w' ->
  let heard := (rx_stream [] (omap rx_of es.*1)).1 in
  let '(ds, complete) := burst (s_nonce (w_upstream w')) (deframe heard) in
  s_state (w_upstream w') = (if complete then UPSTREAM_LIVE else UPSTREAM_FETCHING)
  /\ frames_of (w_cache w') = config_of ds.
Proof.
  intros Hrand E Ho. destruct (refine_boot env w t Hrand E) as (p & Hp & Hr).
  destruct (refine_run w p es w' Hr Ho) as (p' & Hrun & Hr').
  destruct Hp as (n & r & Hn & Hd & Hz & Ep).
  destruct (run_config n p es p' Hrun) as ([En Eph El] & Eh & _); [by rewrite Ep|].
  rewrite Ep in Eh. simpl in Eh. rewrite (rf_state _ _ Hr') in En, Eph, El. simpl in En, Eph, El.
  cbv zeta. rewrite <- Eh, En. by destruct (burst n (deframe (px_heard p'))).
Qed.
End Program.

(** ** The properties at concrete inputs *)

Module Demo.
#[local] Existing Instances demo_nanopb demo_nanopb_ok list_ring list_ring_ok list_msgq
  list_msgq_ok list_gatt_read list_gatt_read_ok.

(** Both messages of the run arrive. *)
Lemma uplink_exact_witness :
  exists sent, mjoin (o_wire <$> Refine.Demo.run.1.*2) = frame_of <$> sent
    /\ filter (.≠ []) sent = [3 :: le32 2; [1; 5]].
Proof.
  destruct Refine.Demo.w0_main as [t E].
  destruct (uplink_exact Main.Demo.env_ok System.Demo.w0 t Refine.Demo.run.1 Refine.Demo.run.2
              ltac:(by_eval) E Refine.Demo.run_observed_w0) as (r & sent & ds & _ & Ew & Ed & _).
  exists sent. split; [exact Ew|]. rewrite <- Ed. vm_compute. reflexivity.
Defined.

Lemma config_exact_witness :
  s_state (w_upstream Refine.Demo.run.2) = UPSTREAM_LIVE
  /\ frames_of (w_cache Refine.Demo.run.2) = config_of [[3; 1; 2]; [4; 8]].
Proof.
  destruct Refine.Demo.w0_main as [t E].
  pose proof (config_exact Main.Demo.env_ok System.Demo.w0 t Refine.Demo.run.1 Refine.Demo.run.2
                ltac:(by_eval) E Refine.Demo.run_observed_w0) as Hc.
  assert (burst (s_nonce (w_upstream Refine.Demo.run.2))
            (deframe (rx_stream [] (omap rx_of Refine.Demo.run.1.*1)).1)
          = ([[3; 1; 2]; [4; 8]], true)) as Eb by (vm_compute; reflexivity).
  cbv zeta in Hc. rewrite Eb in Hc. exact Hc.
Defined.
End Demo.
