(* ===== verification/StaleWait.v ===== *)
(** * StaleWait: a connection that stays in the queue of waiting phones

    The session's queue holds connection objects, not phones: an entry outlives
    the phone that asked.  On the runs of ProxySpec, and by the refinement of
    Refine on those of the program: an entry stays until the burst is complete,
    and then whoever has the connection object is replayed to. *)

From stdpp Require Import prelude gmap.
From S2P Require Import Prelude ProxyProtocol Nanopb ConfigCache Zephyr UartMeshtastic.
From S2P Require Import ProtoHandler RouteTrace UpstreamSession BleGatt BleReplay Router World Main System ProxySpec PhoneMap Refine ProxyRuns.

Local Open Scope Z_scope.

(** ** In the specification *)

Section Spec.
Context `{Nanopb, GattRead}.

(** The phone's nonce and mode; a push changes neither. *)
Definition session_of (ph : phone) : Z * mode := (ph_nonce ph, ph_mode ph).
Lemma session_push data ph : session_of (push data ph) = session_of ph.
Proof. unfold push. by case_decide. Qed.

Lemma to_all_phone c data p ph :
  px_phones p !! c = Some ph ->
  exists ph', px_phones (to_all data p) !! c = Some ph' /\ session_of ph' = session_of ph.
Proof.
  intros Hc. exists (push data ph). split; [|apply session_push].
  change (px_phones (to_all data p)) with (push data <$> px_phones p). by rewrite lookup_fmap, Hc.
Qed.
Lemma put_pushed_phone c c' data p ph ph0 :
  px_phones p !! c = Some ph -> px_phones p !! c' = Some ph0 ->
  exists ph', px_phones (put_phone c' (push data ph0) p) !! c = Some ph' /\ session_of ph' = session_of ph.
Proof.
  intros Hc Hc'. change (px_phones (put_phone c' (push data ph0) p)) with (<[c' := push data ph0]> (px_phones p)).
  destruct (decide (c' = c)) as [->|Hne].
  - rewrite lookup_insert_eq. eexists. split; [done|]. rewrite Hc in Hc'. injection Hc' as <-. apply session_push.
  - exists ph. by rewrite lookup_insert_ne.
Qed.

(** A frame that does not complete the burst. *)
Definition carries_on (c : bt_conn) (p p' : proxy) : Prop :=
  px_phase p' = px_phase p /\ px_waiting p' = px_waiting p
  /\ (px_phase p <> UPSTREAM_FETCHING -> px_log p' = px_log p)
  /\ forall ph, px_phones p !! c = Some ph ->
       exists ph', px_phones p' !! c = Some ph' /\ session_of ph' = session_of ph.

Lemma frame_effect c raw p p' :
  from_node raw p p' -> carries_on c p p' \/ px_phase p = UPSTREAM_FETCHING /\ completed p p'.
Proof.
  unfold from_node. intros Hf.
  assert (forall q, q = to_all raw p -> carries_on c p q) as Hall.
  { intros q ->. split; [done|]. split; [done|]. split; [done|]. intros ph. apply to_all_phone. }
  assert (forall q, px_phase q = px_phase p -> px_waiting q = px_waiting p -> px_phones q = px_phones p ->
    (px_phase p <> UPSTREAM_FETCHING -> px_log q = px_log p) -> carries_on c p q) as Hsame.
  { intros q E1 E2 E3 E4. split; [done|]. split; [done|]. split; [done|]. intros ph Hc. exists ph. by rewrite E3. }
  destruct (classify_fromradio raw) as [|v| |pn pl]; try (by left; apply Hall).
  - case_decide as Hp; [destruct Hf as [[_ Hf]|[_ ->]]; [by right|left; by apply Hsame]|].
    case_decide; left; [subst; by apply Hsame|by apply Hall].
  - left. case_decide; [|by apply Hall]. destruct (proxy_dst pl) as [d|]; [|by apply Hall].
    destruct Hf as [(_ & c' & ph0 & Hc' & _ & ->)|[_ Hf]]; [|by apply Hall].
    split; [done|]. split; [done|]. split; [done|]. intros ph Hc. by eapply put_pushed_phone.
Qed.

(** The phone of [c] is to be replayed to, from the start. *)
Definition replay_due (c : bt_conn) (n : Z) (p : proxy) : Prop :=
  exists ph cc, px_phones p !! c = Some ph /\ ph_nonce ph = n
    /\ pb_decode_FromRadio cc = Some (msg_config_complete n)
    /\ ph_mode ph = Replaying ((segment n (px_log p)).*2 ++ [cc]).

Lemma completed_due c p p' ph :
  completed p p' -> c ∈ px_waiting p -> px_phones p !! c = Some ph -> replay_due c (ph_nonce ph) p'.
Proof.
  intros (phones & -> & Hall) Hin Hc. specialize (Hall c). rewrite Hc in Hall.
  destruct (phones !! c) as [ph'|] eqn:Hc'; [|done]. rewrite decide_True in Hall by done.
  destruct Hall as (cc & Hd & ->). exists (ph <| ph_nonce := ph_nonce ph |>
    <| ph_mode := Replaying ((segment (ph_nonce ph) (px_log p)).*2 ++ [cc]) |>
    <| ph_num := u32 (ph_num ph + 1) |>), cc. by split_and!.
Qed.

Lemma carries_due c n p p' :
  carries_on c p p' -> px_phase p <> UPSTREAM_FETCHING -> replay_due c n p -> replay_due c n p'.
Proof.
  intros (_ & _ & Hl & Hph) Hp (ph & cc & Hc & Hn & Hd & Hm). destruct (Hph ph Hc) as (ph' & Hc' & Hs).
  unfold session_of in Hs. injection Hs as E1 E2. exists ph', cc. rewrite Hl by done.
  split_and!; congruence.
Qed.

Lemma completed_live p p' : completed p p' -> px_phase p' = UPSTREAM_LIVE.
Proof. by intros (phones & -> & _). Qed.

Lemma frames_due c n ds p p' :
  from_node_all ds p p' -> px_phase p = UPSTREAM_LIVE -> replay_due c n p -> replay_due c n p'.
Proof.
  induction 1 as [|d ds p p1 p2 Hf _ IH]; [done|]. intros Hp Hd.
  destruct (frame_effect c _ _ _ Hf) as [Hc|[Hp' _]]; [|congruence].
  apply IH; [by destruct Hc as [-> _]|]. apply (carries_due c n p); [done|by rewrite Hp|done].
Qed.

(** The frames heard at once: the entry stays, or the burst is completed and the
    phone of [c] is replayed to. *)
Lemma frames_serve c ds p p' :
  from_node_all ds p p' -> px_phase p = UPSTREAM_FETCHING -> c ∈ px_waiting p ->
  (px_phase p' = UPSTREAM_FETCHING -> c ∈ px_waiting p')
  /\ (px_phase p' = UPSTREAM_LIVE -> forall ph, px_phones p !! c = Some ph -> replay_due c (ph_nonce ph) p').
Proof.
  induction 1 as [p|d ds p p1 p2 Hf Hfs IH]; intros Hp Hin; [split; [done|by rewrite Hp]|].
  destruct (frame_effect c _ _ _ Hf) as [(Eph & Ew & _ & Hph)|[_ Hd]].
  - rewrite <- Ew in Hin. destruct (IH ltac:(congruence) Hin) as [IH1 IH2]. split; [done|].
    intros Hl ph Hc. destruct (Hph ph Hc) as (ph1 & Hc1 & Hs). unfold session_of in Hs. injection Hs as <- _.
    by apply IH2.
  - pose proof (completed_live _ _ Hd) as Hl1. split.
    + intros Hp2. exfalso. clear -Hfs Hl1 Hp2. revert Hl1. induction Hfs as [|d ds p p1 p2 Hf _ IH]; [congruence|].
      intros Hl. apply IH; [done|]. destruct (frame_effect NULL _ _ _ Hf) as [(-> & _)|[? _]]; congruence.
    + intros _ ph Hc. eapply frames_due; [exact Hfs|done|]. by eapply completed_due.
Qed.

(** A step that receives nothing loses no entry. *)
Lemma step_queue c p e o p' :
  spec_step p e o p' -> rx_of e = None -> c ∈ px_waiting p -> c ∈ px_waiting p'.
Proof.
  intros Hs He Hin. destruct e as [c' err ?|c' ?|c' len off|c' len off|c' len off|c' buf off
    |c' buf off|[]| |err| | |]; try done; cbn [spec_step] in Hs;
    try (destruct Hs as [_ ->]; done).
  - destruct Hs as [_ ->]. by case_decide.
  - destruct (px_phones p !! c'); by destruct Hs as [_ ->].
  - case_decide; [|by destruct Hs as [_ ->]]. destruct Hs as [_ Hf]. unfold from_phone, send_up in Hf.
    destruct (classify_toradio buf); try (subst; by case_decide); destruct (px_phones p !! c'); try by subst.
    + case_decide; [by destruct Hf as (? & _ & ->)|]. subst. simpl. unfold park_spec.
      case_decide; [done|]. apply elem_of_app. by left.
    + by destruct Hf as (? & _ & _ & ->).
  - case_decide; destruct Hs as [_ ->]; [|done]. by destruct (px_phones p !! c').
  - destruct (px_uplink p); [by destruct Hs as [_ ->]|]. destruct (px_busy p); by destruct Hs as [_ ->].
  - destruct Hs as [_ (r & _ & _ & ->)]. unfold send_up. by case_decide.
Qed.

(** Nothing brings a session back to fetching. *)
Lemma step_fetching `{!NanopbOk} p e o p' :
  spec_step p e o p' -> px_phase p' = UPSTREAM_FETCHING -> px_phase p = UPSTREAM_FETCHING.
Proof.
  intros Hs Hp. destruct (rx_of e) as [[data|]|] eqn:He.
  - destruct e as [| | | | | | |[]| | | | |]; try done. by destruct Hs as [_ ->].
  - destruct e as [| | | | | | |[]| | | | |]; try done. destruct Hs as [_ (ds & _ & Hf)].
    change (px_phase p) with (px_phase (p <| px_heard := px_heard p ++ px_line p |> <| px_line := [] |>)).
    revert Hp. induction Hf as [|d ds q p1 p2 Hf _ IH]; [done|]. intros Hp. specialize (IH Hp).
    destruct (frame_effect NULL _ _ _ Hf) as [(Eph & _)|[? _]]; congruence.
  - destruct (step_config _ _ _ _ Hs He) as (_ & Eph & _). congruence.
Qed.

(** While the session fetches, the entry stays, whatever happens. *)
Lemma step_waiting `{!NanopbOk} c p e o p' :
  spec_step p e o p' -> px_phase p' = UPSTREAM_FETCHING -> c ∈ px_waiting p -> c ∈ px_waiting p'.
Proof.
  intros Hs Hp Hin. pose proof (step_fetching _ _ _ _ Hs Hp) as Hp0. destruct (rx_of e) as [[data|]|] eqn:He.
  - destruct e as [| | | | | | |[]| | | | |]; try done. by destruct Hs as [_ ->].
  - destruct e as [| | | | | | |[]| | | | |]; try done. destruct Hs as [_ (ds & _ & Hf)].
    by apply (frames_serve c ds _ p' Hf).
  - by eapply step_queue.
Qed.
Lemma run_fetching `{!NanopbOk} p es p' :
  spec_run p es p' -> px_phase p' = UPSTREAM_FETCHING -> px_phase p = UPSTREAM_FETCHING.
Proof. induction 1 as [p|p e o p1 es p2 Hs _ IH]; [done|]. intros Hp. by eapply step_fetching, IH. Qed.
Lemma run_waiting `{!NanopbOk} c p es p' :
  spec_run p es p' -> px_phase p' = UPSTREAM_FETCHING -> c ∈ px_waiting p -> c ∈ px_waiting p'.
Proof.
  induction 1 as [p|p e o p1 es p2 Hs Hr IH]; [done|]. intros Hp Hin. apply IH; [done|].
  eapply step_waiting; [exact Hs|by eapply run_fetching|done].
Qed.
End Spec.

(** ** The program *)

Section Program.
Context `{NanopbOk, GattReadOk, !RingBuf RING_BUF_SIZE, !RingBufOk RING_BUF_SIZE}.
Context `{!MsgQ tx_entry TX_QUEUE_DEPTH, !MsgQOk tx_entry TX_QUEUE_DEPTH}.

(** The phone under [c] is in a replay of the config, from the start, that is
    closed with the nonce [n]. *)
Definition replayed_whole (c : bt_conn) (n : Z) (w : world) : Prop :=
  exists j pc cc, conns (w_ble w) !! j = Some pc /\ conn pc = c
    /\ pc_state pc = PHONE_REPLAYING /\ pc_nonce pc = n
    /\ pb_decode_FromRadio cc = Some (msg_config_complete n)
    /\ to_read (w_cache w) pc = (segment n (frames_of (w_cache w))).*2 ++ [cc].

(** C39: a waiting phone that goes is not taken out of the queue, and the next
    phone under its connection object gets its replay.  After a successful boot
    let a connection object be in the queue, and let anything happen while the
    burst is still being fetched: the phone disconnects, others come and go,
    packets arrive.  The object is still in the queue; and when the burst is
    completed, every phone that then has the object, also one that connected
    since and never asked, is put into a replay of the cached config from the
    start, with the nonce in its slot, which is 0 for a phone that never asked. *)
Theorem stale_waiting_phone_replayed env w0 t es1 w1 es2 w2 c :
  fits 32 (be_rand env) -> main env world_boot = Some (None, w0, t) ->
  observed w0 es1 w1 -> c ∈ pending (w_upstream w1) ->
  observed w1 es2 w2 -> s_state (w_upstream w2) = UPSTREAM_FETCHING ->
  c ∈ pending (w_upstream w2)
  /\ forall w3 t3 i pc, step EvRxWork w2 = Some (tt, w3, t3) -> s_state (w_upstream w3) = UPSTREAM_LIVE ->
       conns (w_ble w2) !! i = Some pc -> conn pc = c -> c <> NULL -> replayed_whole c (pc_nonce pc) w3.
Proof.
  intros Hrand E Ho1 Hin1 Ho2 Hf. destruct (refine_boot env w0 t Hrand E) as (p0 & _ & Hr0).
  destruct (refine_run w0 p0 es1 w1 Hr0 Ho1) as (p1 & _ & Hr1).
  destruct (refine_run w1 p1 es2 w2 Hr1 Ho2) as (p2 & Hrun & Hr2).
  assert (px_phase p2 = UPSTREAM_FETCHING) as Hp2 by by rewrite (rf_state _ _ Hr2).
  assert (c ∈ px_waiting p1) as Hq1 by by rewrite (rf_state _ _ Hr1).
  pose proof (run_waiting c p1 es2 p2 Hrun Hp2 Hq1) as Hq2.
  split; [by rewrite (rf_state _ _ Hr2) in Hq2|]. intros w3 t3 i pc E3 Hl Hi Hc Hn.
  destruct (refine_step w2 p2 EvRxWork Hr2 I) as (a & w3' & t3' & p3 & E3' & Hs & Hr3).
  rewrite observe_step, E3' in E3. injection E3 as -> _.
  destruct Hs as [_ (ds & _ & Hfr)].
  assert (px_phase p3 = UPSTREAM_LIVE) as Hp3 by by rewrite (rf_state _ _ Hr3).
  destruct (frames_serve c ds _ p3 Hfr Hp2 Hq2) as [_ Hserve].
  pose proof (so_world _ (ar_sys _ (rf_rest _ _ Hr2))) as (Hb2 & _).
  pose proof (so_world _ (ar_sys _ (rf_rest _ _ Hr3))) as (Hb3 & _).
  destruct (Hserve Hp3 (phone_of (w_cache w2) pc)) as (ph & cc & Hph & Hnn & Hd & Hm).
  { change (px_phones p2 !! c = Some (phone_of (w_cache w2) pc)). rewrite (rf_state _ _ Hr2), <- Hc.
    apply (abs_phone w2 i pc Hb2 Hi). by rewrite Hc. }
  rewrite (rf_state _ _ Hr3) in Hph, Hm. apply phones_lookup in Hph as (_ & j & pc' & Hj & Ec & ->); [|apply Hb3].
  exists j, pc', cc. simpl in Hnn, Hm, Hd. unfold mode_of in Hm.
  destruct (pc_state pc') eqn:Es; try done. injection Hm as Hm. by split_and!.
Qed.
End Program.

(** ** At a concrete input *)

Module Demo.
#[local] Existing Instances demo_nanopb demo_nanopb_ok list_ring list_ring_ok list_msgq
  list_msgq_ok list_gatt_read list_gatt_read_ok.

(** Phone 11 asks and goes; another phone connects under its object, and has
    written nothing when the burst arrives. *)
Definition ask : list event := [EvConnected 11 0 rc_ok; EvWriteToRadio 11 (3 :: le32 69420) 0].
Definition swap : list event :=
  [EvDisconnected 11 rc_ok; EvConnected 11 0 rc_ok; EvUart (UART_RX_RDY System.Demo.burst)].
Definition asked : list (event * output) * world := default ([], world_boot) (run_observed ask System.Demo.w0).
Definition swapped : list (event * output) * world := default ([], world_boot) (run_observed swap asked.2).
Lemma asked_ok : observed System.Demo.w0 asked.1 asked.2.
Proof. apply (run_observed_ok ask). vm_compute. reflexivity. Qed.
Lemma swapped_ok : observed asked.2 swapped.1 swapped.2.
Proof. apply (run_observed_ok swap). vm_compute. reflexivity. Qed.
Definition newcomer : proxy_conn := default conn_boot (conns (w_ble swapped.2) !! 0%nat).

Lemma stale_waiting_phone_replayed_witness :
  exists w3 t3 j pc', step EvRxWork swapped.2 = Some (tt, w3, t3)
    /\ conns (w_ble w3) !! j = Some pc' /\ conn pc' = 11 /\ pc_state pc' = PHONE_REPLAYING /\ pc_nonce pc' = 0.
Proof.
  destruct Refine.Demo.w0_main as [t E].
  destruct (stale_waiting_phone_replayed Main.Demo.env_ok System.Demo.w0 t asked.1 asked.2 swapped.1 swapped.2 11
    ltac:(by_eval) E asked_ok ltac:(by_eval) swapped_ok ltac:(vm_compute; reflexivity)) as [_ Hserve].
  assert ((fun r => s_state (w_upstream r.1.2)) <$> step EvRxWork swapped.2 = Some UPSTREAM_LIVE) as El
    by (vm_compute; reflexivity).
  destruct (step EvRxWork swapped.2) as [[[[] w3] t3]|]; [|discriminate]. injection El as Hl.
  destruct (Hserve w3 t3 0%nat newcomer eq_refl Hl ltac:(vm_compute; reflexivity) ltac:(vm_compute; reflexivity) ltac:(done))
    as (j & pc' & cc & Hj & Hc & Hs & Hn & _).
  exists w3, t3, j, pc'. split; [reflexivity|]. split; [exact Hj|]. split; [exact Hc|]. split; [exact Hs|].
  rewrite Hn. vm_compute. reflexivity.
Defined.
End Demo.
