(* ===== verification/Sending.v ===== *)
(** * Sending: what goes to the node, in every interleaving

    The transmitter takes a payload out of the message queue and hands its frame
    to the driver in one section, and the phones' writes and the keepalive add to
    the queue, each in one section.  So the queue stays a queue whatever runs in
    between: [sends] says so of every section of the work queue, [up_effect] of
    ProxyRuns of every event. *)

From stdpp Require Import prelude.
From S2P Require Import Prelude Tracks Tasks ProxyProtocol Nanopb ConfigCache Zephyr UartMeshtastic.
From S2P Require Import ProtoHandler RouteTrace UpstreamSession BleGatt BleReplay Router World Main System Calls Threads WorkQueue BootThread Schedule ProxySpec PhoneMap Refine Spans ProxyRuns.

Local Open Scope Z_scope.

(** ** The sections of the work queue *)

Section Sections.
Context `{NanopbOk, GattReadOk, !RingBuf RING_BUF_SIZE, !RingBufOk RING_BUF_SIZE}.
Context `{!MsgQ tx_entry TX_QUEUE_DEPTH, !MsgQOk tx_entry TX_QUEUE_DEPTH}.

(** The payloads that wait. *)
Definition queued (u : uart) : list (list Z) := te_payload <$> mq_contents (tx_msgq u).

(** The frames sent are those of the payloads that leave the queue. *)
Definition sends (u : uart) (t : list io) (u' : uart) : Prop :=
  uart_tx_ok u -> uart_tx_ok u'
  /\ exists sent, uart_frames t = frame_of <$> sent /\ sent ++ queued u' = queued u.

Definition not_boot (st st' : upstream_state) : Prop := st <> UPSTREAM_BOOT -> st' <> UPSTREAM_BOOT.
Lemma not_boot_refl st : not_boot st st.
Proof. intros Hs. exact Hs. Qed.
#[local] Hint Resolve not_boot_refl : core.
Definition uplink_part (w : world) : upstream_state * uart := (s_state (w_upstream w), w_uart w).
Definition sending (x : upstream_state * uart) (t : list io) (y : upstream_state * uart) : Prop :=
  not_boot x.1 y.1 /\ sends x.2 t y.2.

Lemma uart_frames_app t t' : uart_frames (t ++ t') = uart_frames t ++ uart_frames t'.
Proof. apply omap_app. Qed.
Lemma uart_frames_off t : Forall off_wire t -> uart_frames t = [].
Proof. induction 1 as [|e t He _ IH]; [done|]. unfold uart_frames in *. by destruct e. Qed.

(** The queue is as it was. *)
Lemma sends_none u t u' :
  Forall off_wire t -> tx_msgq u' = tx_msgq u -> tx_frame_buf u' = tx_frame_buf u -> sends u t u'.
Proof.
  intros Ht Eq Eb [Hb Hq Hd]. split; [split; by rewrite ?Eb, ?Eq|].
  exists []. rewrite uart_frames_off by done. split; [done|]. unfold queued. by rewrite Eq.
Qed.
Lemma sends_app u t u1 t' u' : sends u t u1 -> sends u1 t' u' -> sends u (t ++ t') u'.
Proof.
  intros H1' H2' Hu. destruct (H1' Hu) as (Hu1 & s1 & E1 & Q1). destruct (H2' Hu1) as (Hu' & s2 & E2 & Q2).
  split; [done|]. exists (s1 ++ s2). rewrite uart_frames_app, E1, E2, fmap_app. split; [done|].
  by rewrite <- app_assoc, Q2.
Qed.

Lemma sends_refl u : sends u [] u.
Proof. apply sends_none; [apply Forall_nil_2|done..]. Qed.

#[export] Instance sends_tracking : Tracking sends.
Proof. split; [apply sends_refl|apply sends_app]. Qed.
#[export] Instance sending_tracking : Tracking sending.
Proof.
  split; [intros x; split; [done|apply sends_refl]|].
  intros x t y t' z [Hx Hs] [Hy Hs']. split; [by intros H1'; apply Hy, Hx|by eapply sends_app].
Qed.

#[local] Abbreviation wsends := (tracks uplink_part sending).
#[local] Abbreviation all_send := (traced (fun w t w' => sending (uplink_part w) t (uplink_part w'))).

Lemma sends_zoom_ble {A} (m : M ble A) : emits off_wire m -> wsends (zoom m).
Proof.
  intros Hm w a w' t E. pose proof (emits_zoom off_wire m Hm _ _ _ _ E) as Ht. unfold zoom in E.
  destruct (m (lget w)) as [[[b s] u]|]; [|done]. injection E as _ <- _. split; [done|by apply sends_none].
Qed.
Lemma sends_zoom_cache {A} (m : M cache A) : emits off_wire m -> wsends (zoom m).
Proof.
  intros Hm w a w' t E. pose proof (emits_zoom off_wire m Hm _ _ _ _ E) as Ht. unfold zoom in E.
  destruct (m (lget w)) as [[[b s] u]|]; [|done]. injection E as _ <- _. split; [done|by apply sends_none].
Qed.
Lemma sends_upstream_modify f :
  (forall u, not_boot (s_state u) (s_state (f u))) -> wsends (zoom (modify (S := upstream) f)).
Proof.
  intros Hf w a w' t E. rewrite zoom_modify_eq in E. injection E as _ <- <-. split; [apply Hf|apply sends_refl].
Qed.
Lemma sends_upstream_gets {A} (f : upstream -> A) : wsends (zoom (gets f)).
Proof. intros w a w' t E. destruct w. injection E as _ <- <-. split; [done|apply sends_refl]. Qed.
Lemma sends_zoom_uart {A} (m : M uart A) : tracks id sends m -> wsends (zoom m).
Proof.
  intros Hm w a w' t. unfold zoom. destruct (m (lget w)) as [[[b s] u]|] eqn:E; [|done]. intros [= _ <- <-].
  split; [done|]. exact (Hm _ _ _ _ E).
Qed.
Lemma sends_uart_modify f :
  (forall u, tx_msgq (f u) = tx_msgq u) -> (forall u, tx_frame_buf (f u) = tx_frame_buf u) ->
  tracks id sends (modify f).
Proof. intros Hq Hb. apply tracks_modify. intros u. apply sends_none; [apply Forall_nil_2|apply Hq|apply Hb]. Qed.
Lemma sends_emit e : off_wire e -> wsends (emit e).
Proof. intros He. apply tracks_emit. intros x. split; [done|]. apply sends_none; [by repeat constructor|done..]. Qed.

(** The transmitter. *)
Lemma sends_tx_start err : tracks id sends (tx_start err).
Proof.
  intros u r u' t E Hu. destruct (tx_start_ok err u Hu) as (r2 & u2 & t2 & E2 & Hu2 & (sent & Ef & Eq) & _).
  unfold id in *. rewrite E in E2. injection E2 as <- <- <-. split; [done|]. exists (te_payload <$> sent).
  split; [done|]. unfold queued. by rewrite Eq, fmap_app.
Qed.
Lemma sends_tx_abandon : tracks id sends tx_abandon.
Proof.
  intros u [] u' t E. unfold tx_abandon in E. rewrite run_modify in E. injection E as <- <-.
  by apply sends_none; [by repeat constructor|..].
Qed.

(** *** The tasks *)

Lemma sends_act {A} (m : M world A) : wsends m -> all_send (act m).
Proof. intros Hm. apply traced_act. exact Hm. Qed.

Ltac sends_step :=
  match goal with
  | |- tracks _ _ (@zoom _ _ _ lens_ble _) => apply sends_zoom_ble; solve [calls]
  | |- tracks _ _ (@zoom _ _ _ lens_cache _) => apply sends_zoom_cache; solve [calls]
  | |- tracks _ _ (@zoom _ _ _ lens_upstream (gets _)) => apply sends_upstream_gets
  | |- tracks _ _ (@zoom _ _ _ lens_upstream (modify _)) => apply sends_upstream_modify; by intros
  | |- tracks _ _ (@zoom _ _ _ lens_uart _) => apply sends_zoom_uart
  | |- tracks id _ (modify _) => apply sends_uart_modify; by intros
  | |- tracks _ _ (emit _) => apply sends_emit; exact I
  | |- tracks _ _ _ => tracks_step
  | |- traced _ (tbind _ _) => apply traced_bind; [|intros ?]
  | |- traced _ (act _) => apply sends_act
  | |- traced _ (Done _) => apply traced_done
  | |- traced _ (match ?x with _ => _ end) => destruct x
  | |- traced _ _ => solve [eauto with traced nocore]
  end.
Ltac sends := repeat sends_step.

Lemma calls_broadcast_turn i data sent : emits off_wire (broadcast_turn i data sent).
Proof. unfold broadcast_turn. calls. Qed.
#[local] Hint Resolve calls_broadcast_turn : emits.
Lemma sends_broadcast_from slots data sent : all_send (t_broadcast_from slots data sent).
Proof. revert sent. induction slots; intros sent; cbn [t_broadcast_from]; sends. Qed.
#[local] Hint Resolve sends_broadcast_from : traced.
Lemma sends_serve_one c : wsends (serve_one_pending serve_replay c).
Proof. unfold serve_one_pending, serve_replay. sends. Qed.
#[local] Hint Resolve sends_serve_one : tracks.
Lemma sends_serve_loop fuel i : all_send (t_serve_loop fuel i).
Proof. revert i. induction fuel; intros i; cbn [t_serve_loop]; sends. Qed.
#[local] Hint Resolve sends_serve_loop : traced.
Lemma sends_fetch_step raw info : wsends (fetch_step raw info).
Proof. unfold fetch_step, cache_add_frame, cache_mark_ready. cbv zeta. sends. Qed.
Lemma sends_target_step raw info : wsends (target_step raw info).
Proof. unfold target_step. sends. Qed.
Lemma sends_rx_byte_step b : wsends (rx_byte_step b).
Proof. unfold rx_byte_step, rx_process_byte, put_rx. cbv zeta. sends. Qed.
#[local] Hint Resolve sends_fetch_step sends_target_step sends_rx_byte_step : tracks.
Lemma sends_swallow : wsends (zoom upstream_swallow_live_queuestatus).
Proof.
  intros w a w' t E. erewrite zoom_eq in E by apply swallow_eq. injection E as _ <- <-.
  split; [apply not_boot_refl|apply sends_refl].
Qed.
#[local] Hint Resolve sends_swallow : tracks.
Lemma sends_on_fromradio raw : all_send (t_on_fromradio_uart raw).
Proof.
  unfold t_on_fromradio_uart, t_router_dispatch, t_upstream_on_fromradio, t_serve_pending_phones,
    t_broadcast. sends.
Qed.
#[local] Hint Resolve sends_on_fromradio : traced.
Lemma sends_rx_turn : all_send t_rx_turn.
Proof. unfold t_rx_turn, rx_restart. sends. Qed.
#[local] Hint Resolve sends_tx_start sends_tx_abandon : tracks.
Lemma sends_tx_work err : all_send (t_tx_work_handler err).
Proof. unfold t_tx_work_handler. sends. Qed.
End Sections.

(** ** Schedules *)

Section Spans.
Context `{NanopbOk, GattReadOk, !RingBuf RING_BUF_SIZE, !RingBufOk RING_BUF_SIZE}.
Context `{!MsgQ tx_entry TX_QUEUE_DEPTH, !MsgQOk tx_entry TX_QUEUE_DEPTH}.

Abbreviation sections_send := (wq_traced (fun w t w' => sending (uplink_part w) t (uplink_part w'))).

(** After the boot. *)
Record transmitting (cf : config) : Prop := {
  tm_config : config_ok cf;
  tm_wq : sections_send (cf_wq cf);
  tm_main : exists r, cf_main cf = Done r;
  tm_boot : s_state (w_upstream (cf_world cf)) <> UPSTREAM_BOOT;
}.

(** The payloads [sent] went out and [offs] were added. *)
Definition moved (cf : config) (es : list event) (wire : list (list Z)) (cf' : config) : Prop :=
  exists sent offs, wire = frame_of <$> sent
    /\ sent ++ queued (w_uart (cf_world cf')) = queued (w_uart (cf_world cf)) ++ offs
    /\ offered es offs /\ Forall short offs.

Lemma moved_trans cf es wire cf1 es' wire' cf' :
  moved cf es wire cf1 -> moved cf1 es' wire' cf' -> moved cf (es ++ es') (wire ++ wire') cf'.
Proof.
  intros (s1 & o1 & -> & E1 & Ho1 & Hs1) (s2 & o2 & -> & E2 & Ho2 & Hs2). exists (s1 ++ s2), (o1 ++ o2).
  split; [by rewrite fmap_app|]. split; [by rewrite <- app_assoc, E2, app_assoc, E1, app_assoc|].
  split; [|by apply Forall_app_2]. clear -Ho1 Ho2. induction Ho1; simpl; [done|by apply of_skip|by apply of_take].
Qed.

Lemma transmitting_step cf l t cf' : transmitting cf -> cstep cf l t cf' ->
  (l = None -> sending (uplink_part (cf_world cf)) t (uplink_part (cf_world cf')))
  /\ (s_state (w_upstream (cf_world cf')) <> UPSTREAM_BOOT -> transmitting cf').
Proof.
  intros [Hcf Hq [r Hm] Hb] Hs. destruct (cstep_ok _ _ _ _ Hcf Hs) as [Hcf' _].
  destruct (cstep_traced _ (fun w => conj (not_boot_refl _) (sends_refl _)) sends_tx_work sends_rx_turn _ _ _ _ Hq Hs)
    as [Hq' Hm']. rewrite Hm in Hm'. destruct (Hm' (traced_done _ r)) as [_ HP]. split; [exact HP|].
  intros Hb'. split; try done. exists r. by inversion Hs; subst; simpl in *.
Qed.

Lemma thread_moved cf t cf' :
  transmitting cf -> cstep cf None t cf' -> transmitting cf' /\ moved cf [] (uart_frames t) cf'.
Proof.
  intros Ht Hs. destruct (transmitting_step _ _ _ _ Ht Hs) as [HP Ht']. destruct (HP eq_refl) as [Hb Hq].
  split; [apply Ht', Hb, Ht|]. pose proof (so_world _ (co_sys _ (tm_config _ Ht))) as (_ & _ & _ & Hu & _).
  destruct (Hq Hu) as (_ & sent & Ew & Eq). exists sent, []. split; [done|]. split; [by rewrite app_nil_r|].
  split; constructor.
Qed.

Lemma event_moved cf e a t cf' :
  transmitting cf -> cstep cf (Some e) t cf' -> observe e (cf_world cf) = Some (a, cf_world cf', t) ->
  transmitting cf' /\ moved cf [e] (uart_frames t) cf'.
Proof.
  intros Ht Hs Eo. pose proof Ht as [Hcf _ _ Hb].
  pose proof (event_implements cf e a t cf' Hcf Hb Hs Eo) as Hsp. split.
  - apply (transmitting_step _ _ _ _ Ht Hs). pose proof (co_sys _ Hcf) as Hw.
    inversion Hs as [w q m e' w' t' H1' H2' He E| | | | | | | |]; subst; simpl in *.
    destruct (event_step w e Hw H1' He) as (w2 & t2 & E2 & _ & _ & Hk). rewrite E in E2.
    injection E2 as <- <-. by rewrite (k_state _ _ Hk).
  - destruct (step_uplink _ _ _ _ Hsp) as (sent & offs & Ew & Eq & Ho). exists sent, offs.
    split; [exact Ew|]. split; [exact Eq|]. destruct Ho as [->|(d & -> & Hd & Hz)].
    + split; [apply of_skip, of_nil|constructor].
    + split; [by apply of_take, of_nil|by apply Forall_singleton].
Qed.

Lemma span_moved cf ds cf' :
  span cf ds cf' -> transmitting cf -> transmitting cf' /\ moved cf (events_of ds).*1 (wire_of ds) cf'.
Proof.
  induction 1 as [cf|cf e a t cf1 ds cf' Hs Eo _ IH|cf t cf1 ds cf' Hs _ IH]; intros Ht.
  - split; [done|]. exists [], []. split; [done|]. split; [by rewrite app_nil_r|]. split; constructor.
  - destruct (event_moved _ _ _ _ _ Ht Hs Eo) as [Ht1 Hm1]. destruct (IH Ht1) as [Ht' Hm].
    split; [done|]. exact (moved_trans _ _ _ _ _ _ _ Hm1 Hm).
  - destruct (thread_moved _ _ _ Ht Hs) as [Ht1 Hm1]. destruct (IH Ht1) as [Ht' Hm].
    split; [done|]. exact (moved_trans _ _ _ _ _ _ _ Hm1 Hm).
Qed.

Lemma queued_short w : sys_ok w -> Forall short (queued (w_uart w)).
Proof.
  intros Hw. pose proof (so_world _ Hw) as (_ & _ & _ & [_ Hq _] & _). apply Forall_fmap.
  eapply Forall_impl; [exact Hq|]. intros e [He Hl]. unfold compose, short. by rewrite <- He.
Qed.

(** C9: the uplink is exact, in every interleaving.  From any configuration the
    threads reach after the boot, the work queue wherever it is, on any schedule:
    what goes to the serial line is a sequence of frames, and a receiver with the
    same framing decodes it to exactly their non-empty payloads.  These, followed
    by those that are queued at the end, are first those that were queued at the
    beginning, then packets written by phones and heartbeats, each at most once,
    unchanged and in the order in which they were offered, although the writes of
    the phones and the interrupt come in the middle of a transmission. *)
Theorem threads_uplink cf ds cf' :
  creachable cf -> s_state (w_upstream (cf_world cf)) <> UPSTREAM_BOOT -> cf_main cf = Done None ->
  span cf ds cf' ->
  exists sent offs, wire_of ds = frame_of <$> sent
    /\ deframe (mjoin (wire_of ds)) = filter (.≠ []) sent
    /\ sent ++ queued (w_uart (cf_world cf')) = queued (w_uart (cf_world cf)) ++ offs
    /\ offered (events_of ds).*1 offs.
Proof.
  intros Hcf Hb Hm Hs.
  assert (transmitting cf) as Ht.
  { split; [by apply creachable_ok| |by exists None|done].
    by apply (creachable_wq_traced _ (fun w => conj (not_boot_refl _) (sends_refl _)) sends_tx_work sends_rx_turn). }
  destruct (span_moved _ _ _ Hs Ht) as [_ (sent & offs & Ew & Eq & Ho & Hz)].
  exists sent, offs. split; [done|]. split; [|done].
  rewrite Ew. apply deframe_sent. assert (Forall short (sent ++ queued (w_uart (cf_world cf')))) as Hsh.
  { rewrite Eq. apply Forall_app_2; [|done]. apply queued_short, (tm_config _ Ht). }
  by apply Forall_app in Hsh as [? _].
Qed.
End Spans.

(** ** The property at a concrete input *)

Module Demo.
#[local] Existing Instances demo_nanopb demo_nanopb_ok list_ring list_ring_ok list_msgq
  list_msgq_ok list_gatt_read list_gatt_read_ok.
Import Schedule.Demo.

(** The proxy's want_config is being handed to the driver when phone 11 writes a
    packet; a keepalive comes before the interrupt that the driver is done. *)
Definition sending_both : list choice :=
  [ChEvent (EvConnected 11 0 rc_ok); ChTx rc_ok; ChWq; ChEvent (EvWriteToRadio 11 [1; 5] 0); ChWq;
   ChEvent EvKeepalive; ChEvent (EvUart UART_TX_DONE); ChTx rc_ok; ChWq; ChWq].
Definition both : list did * config := default ([], booted) (run_span sending_both booted).
Lemma both_ok : span booted both.1 both.2.
Proof. apply (run_span_ok sending_both). vm_compute. reflexivity. Qed.
Lemma both_wire : deframe (mjoin (wire_of both.1)) = [3 :: le32 2; [1; 5]].
Proof. vm_compute. reflexivity. Qed.
Lemma both_queued :
  queued (w_uart (cf_world booted)) = [3 :: le32 2] /\ queued (w_uart (cf_world both.2)) = [7 :: le32 2].
Proof. vm_compute. by split. Qed.

Lemma threads_uplink_witness :
  exists sent offs, wire_of both.1 = frame_of <$> sent /\ filter (.≠ []) sent = [3 :: le32 2; [1; 5]]
    /\ sent ++ [7 :: le32 2] = (3 :: le32 2) :: offs /\ offered (events_of both.1).*1 offs.
Proof.
  destruct (threads_uplink booted both.1 both.2 booted_reach ltac:(vm_compute; discriminate)
    ltac:(vm_compute; reflexivity) both_ok) as (sent & offs & Ew & Ed & Eq & Ho).
  rewrite both_wire in Ed. destruct both_queued as [E1 E2]. rewrite E1, E2 in Eq.
  exists sent, offs. split; [exact Ew|]. split; [by rewrite Ed|]. split; [exact Eq|exact Ho].
Defined.
End Demo.
