(* ===== verification/Fetch.v ===== *)
(** * Fetch: the config session, in every interleaving

    The burst of the node is handed over frame by frame while phones come, ask
    and read between any two sections of the receiver, the end of the burst and
    the service of the waiting phones included.  The session state and the cache
    are the same function of the frames all the same ([session_at], with [burst]
    and [keep] of ProxyRuns). *)

From stdpp Require Import prelude.
From S2P Require Import Prelude Tracks Tasks ProxyProtocol Nanopb ConfigCache Zephyr UartMeshtastic.
From S2P Require Import ProtoHandler RouteTrace UpstreamSession BleGatt BleReplay Router World Main System Threads WorkQueue BootThread Schedule Receiver ProxySpec PhoneMap Refine Spans ProxyRuns.

Local Open Scope Z_scope.

(** The log [l] with what is kept of the frames [ds] up to the end of the burst. *)
Definition log_after `{Nanopb} (n : Z) (l : list frame) (ds : list (list Z)) : list frame :=
  foldl keep l (burst n ds).1.

(** ** Sections that do not touch the session *)

Section Fetch.
Context `{NanopbOk, GattReadOk, !RingBuf RING_BUF_SIZE, !RingBufOk RING_BUF_SIZE}.
Context `{!MsgQ tx_entry TX_QUEUE_DEPTH, !MsgQOk tx_entry TX_QUEUE_DEPTH}.

Definition session_of (u : upstream) : upstream_state * Z := (s_state u, s_nonce u).
Definition config_part (w : world) : upstream_state * Z * cache * uart :=
  (session_of (w_upstream w), w_cache w, w_uart w).
Definition unmoved {X} (x : X) (t : list io) (x' : X) : Prop := x' = x.

#[export] Instance unmoved_tracking {X} : Tracking (@unmoved X).
Proof. split; unfold unmoved; [done|intros; congruence]. Qed.

#[local] Abbreviation apart := (tracks config_part unmoved).
#[local] Abbreviation apart_task := (traced (fun w _ w' => config_part w' = config_part w)).

Lemma apart_ble {A} (m : M ble A) : apart (zoom m).
Proof.
  intros w a w' t. unfold zoom. destruct (m (lget w)) as [[[b s] u]|]; [|done]. by intros [= _ <- _].
Qed.
Lemma apart_upstream {A} (m : M upstream A) : tracks session_of unmoved m -> apart (zoom m).
Proof.
  intros Hm w a w' t. unfold zoom. destruct (m (lget w)) as [[[b s] u]|] eqn:E; [|done]. intros [= _ <- _].
  unfold unmoved, config_part. specialize (Hm _ _ _ _ E). unfold unmoved in Hm. simpl. by rewrite Hm.
Qed.
Lemma apart_gets {A} (f : upstream -> A) : apart (zoom (gets f)).
Proof. apply apart_upstream, tracks_gets. apply _. Qed.
Lemma apart_modify f : (forall u, session_of (f u) = session_of u) -> apart (zoom (modify f)).
Proof. intros Hf. apply apart_upstream. apply tracks_same; [apply _|done]. Qed.
Lemma apart_emit e : apart (emit e).
Proof. by apply tracks_emit. Qed.

Lemma apart_act {A} (m : M world A) : apart m -> apart_task (act m).
Proof. intros Hm. apply traced_act. intros w a w' t E. by apply (Hm w a w' t). Qed.

Ltac apart_step :=
  match goal with
  | |- tracks _ _ (@zoom _ _ _ lens_ble _) => apply apart_ble
  | |- tracks _ _ (@zoom _ _ _ lens_upstream (gets _)) => apply apart_gets
  | |- tracks _ _ (@zoom _ _ _ lens_upstream (modify _)) => apply apart_modify; done
  | |- tracks _ _ (emit _) => apply apart_emit
  | |- tracks _ _ _ => tracks_step
  | |- traced _ (tbind _ _) => apply traced_bind; [|intros ?]
  | |- traced _ (act _) => apply apart_act
  | |- traced _ (Done _) => apply traced_done
  | |- traced _ (match ?x with _ => _ end) => destruct x
  | |- traced _ _ => solve [eauto with traced nocore]
  end.
Ltac apart := repeat apart_step.

Lemma apart_broadcast_from slots data sent : apart_task (t_broadcast_from slots data sent).
Proof. revert sent. induction slots; intros sent; cbn [t_broadcast_from]; apart. Qed.
#[local] Hint Resolve apart_broadcast_from : traced.
Lemma apart_broadcast data : apart_task (t_broadcast data).
Proof. unfold t_broadcast. apart. Qed.
#[local] Hint Resolve apart_broadcast : traced.

Lemma apart_serve_one c : apart (serve_one_pending serve_replay c).
Proof. unfold serve_one_pending, serve_replay. apart. Qed.
#[local] Hint Resolve apart_serve_one : tracks.
Lemma apart_serve_loop fuel i : apart_task (t_serve_loop fuel i).
Proof. revert i. induction fuel; intros i; cbn [t_serve_loop]; apart. Qed.
#[local] Hint Resolve apart_serve_loop : traced.
Lemma apart_serve : apart_task t_serve_pending_phones.
Proof. unfold t_serve_pending_phones. apart. Qed.

Lemma apart_swallow : apart (zoom upstream_swallow_live_queuestatus).
Proof.
  apply apart_upstream. intros u b u' t E. rewrite swallow_eq in E. by injection E as <- <- <-.
Qed.
#[local] Hint Resolve apart_swallow : tracks.
Lemma apart_target raw info : apart (target_step raw info).
Proof. unfold target_step. apart. Qed.
#[local] Hint Resolve apart_target : tracks.

(** ** The session while frames are handed over *)

(** The nonce of the session, and the log from which we watch. *)
Context (n : Z) (l : list frame).

(** The session has started; while [serving] the waiting phones it is CACHE_READY. *)
Definition started (serving : bool) (w : world) : Prop :=
  s_nonce (w_upstream w) = n /\ s_state (w_upstream w) <> UPSTREAM_BOOT
  /\ (serving = true <-> s_state (w_upstream w) = UPSTREAM_CACHE_READY).

(** The session once the frames [ds] were handed over. *)
Record session_at (ds : list (list Z)) (w : world) : Prop := {
  sa_phase : (burst n ds).2 = true <-> s_state (w_upstream w) <> UPSTREAM_FETCHING;
  sa_log : frames_of (w_cache w) = log_after n l ds;
}.

(** Frames are handed over to the session. *)
Definition told (w : world) (ds : list (list Z)) (w' : world) : Prop :=
  forall ds0, session_at ds0 w -> session_at (ds0 ++ ds) w'.

Lemma started_boot b w : started b w -> s_state (w_upstream w) <> UPSTREAM_BOOT.
Proof. by intros (_ & ? & _). Qed.
Lemma started_uart b w u : started b w -> started b (mk_world (w_cache w) u (w_upstream w) (w_ble w)).
Proof. done. Qed.
Lemma told_nothing w w' :
  s_state (w_upstream w') = s_state (w_upstream w) -> frames_of (w_cache w') = frames_of (w_cache w) ->
  told w [] w'.
Proof. intros Es Ec ds0 [Hp Hl]. rewrite app_nil_r. split; congruence. Qed.
Lemma told_uart (b : bool) w u : started b w -> told w [] (mk_world (w_cache w) u (w_upstream w) (w_ble w)).
Proof. intros _. by apply told_nothing. Qed.

(** The frame does not concern the session. *)
Definition idle_frame (d : list Z) (w : world) : Prop :=
  s_state (w_upstream w) <> UPSTREAM_FETCHING \/ forall v, classify_fromradio d <> RfMeta v.

Lemma told_idle w d w' :
  idle_frame d w -> s_state (w_upstream w') = s_state (w_upstream w) ->
  frames_of (w_cache w') = frames_of (w_cache w) -> told w [d] w'.
Proof.
  intros Hi Es Ec ds0 [Hp Hl].
  assert (burst n (ds0 ++ [d]) = burst n ds0
    \/ burst n (ds0 ++ [d]) = ((burst n ds0).1 ++ [d], false) /\ (burst n ds0).2 = false
       /\ forall v, classify_fromradio d <> RfMeta v) as Hb.
  { rewrite burst_snoc. destruct (burst n ds0).2 eqn:Hc; [by left|]. right.
    destruct Hi as [Hs|Hm]; [apply Hp in Hs; congruence|].
    destruct (is_end n d) eqn:He; [apply is_end_meta in He as [v Hv]; by destruct (Hm v)|done]. }
  unfold log_after in *.
  destruct Hb as [E|(E & Hc & Hm)]; split; unfold log_after; rewrite ?Es, ?Ec, E; try done; simpl; [by rewrite <- Hp, Hc|].
  rewrite foldl_app, <- Hl. simpl. unfold keep. destruct (classify_fromradio d) as [|v| |]; try done. by destruct (Hm v).
Qed.

(** The job that may be left is to serve the waiting phones. *)
Abbreviation hands := (fun (_ : bool) w ds (_ : bool) w' => told w ds w').
Abbreviation good := (Receiver.good false started).
Abbreviation passes := (Receiver.passes false started hands).
Abbreviation recv := (leads good passes).

(** *** Sections *)

Lemma apart_passes y w w' : good y w -> config_part w' = config_part w -> passes y w y w'.
Proof.
  intros Hg [= Es En Ec Eu]. pose proof (gd_known _ _ _ _ Hg) as (Hn & Hb & Hs).
  apply passes_still; [done..|by apply told_nothing; [|rewrite Ec]| |apply Hg].
  split; [congruence|]. by rewrite Es.
Qed.
Lemma recv_apart {A} (p : task world A) y :
  traced (fun w _ w' => config_part w' = config_part w) p -> recv (fun _ y' => y' = y) p y.
Proof. intros Hp. eapply leads_traced; [exact Hp|]. intros w t w' Hg E. by apply apart_passes. Qed.

(** The frame is handed over without effect on the session. *)
Lemma apart_hands d r w w' :
  good (holding false d r) w -> idle_frame d w -> config_part w' = config_part w -> passes (holding false d r) w (handed false r) w'.
Proof.
  intros Hg Hi [= Es En Ec Eu]. pose proof (gd_known _ _ _ _ Hg) as (Hn & Hb & Hs).
  apply passes_hand; [done|by apply told_idle; [..|rewrite Ec]|]. split; [congruence|]. by rewrite Es.
Qed.

(** What the session does with a frame, by what it is to the burst. *)
Lemma action_of_meta w d v :
  classify_fromradio d = RfMeta v -> s_state (w_upstream w) = UPSTREAM_FETCHING -> s_nonce (w_upstream w) = n ->
  up_action_of (w_upstream w) d v = if is_end n d then UpFinish else UpStore.
Proof.
  intros Hcl Hs Hn. pose proof (meta_variant d v Hcl) as Hv.
  pose proof (ends_burst_iff [] [] w d v Hcl Hs Hv) as He. unfold up_action_of. rewrite decide_True by done.
  pose proof (is_end_ends n d (abs_on [] [] w) Hn) as Hi. case_decide; destruct (is_end n d); try done.
  - by apply Hi in He.
  - destruct He. by apply Hi.
Qed.

Lemma action_of_decoded w d info :
  proto_decode_fromradio d = (rc_ok, info) -> s_nonce (w_upstream w) = n ->
  idle_frame d w /\ up_action_of (w_upstream w) d (which_variant info) = UpPass
  \/ s_state (w_upstream w) = UPSTREAM_FETCHING /\ classify_fromradio d = RfMeta (which_variant info)
     /\ up_action_of (w_upstream w) d (which_variant info) = if is_end n d then UpFinish else UpStore.
Proof.
  intros Hd Hn. destruct (decide (s_state (w_upstream w) = UPSTREAM_FETCHING)) as [Hs|Hs].
  2: { left. split; [by left|]. unfold up_action_of. rewrite decide_False; [done|]. by intros []. }
  pose proof (decode_fromradio_classified d) as Hcl. rewrite Hd in Hcl.
  assert (which_variant info = FromRadio_packet_tag -> (forall v, classify_fromradio d <> RfMeta v) ->
    idle_frame d w /\ up_action_of (w_upstream w) d (which_variant info) = UpPass) as Hp.
  { intros Hv Hm. split; [by right|]. unfold up_action_of. rewrite decide_False; [done|]. by intros []. }
  destruct (classify_fromradio d) as [|v| |pn pl] eqn:Hc; [done| | |].
  - right. destruct Hcl as [Hv [= ->]]. split; [done|]. split; [done|]. by apply action_of_meta.
  - left. destruct Hcl as (j & [= <-] & Hv & _). by apply Hp.
  - left. destruct Hcl as (j & [= <-] & Hv & _). by apply Hp.
Qed.

Lemma told_meta w d v w' :
  s_state (w_upstream w) = UPSTREAM_FETCHING -> classify_fromradio d = RfMeta v ->
  (if is_end n d
   then s_state (w_upstream w') <> UPSTREAM_FETCHING /\ frames_of (w_cache w') = frames_of (w_cache w)
   else s_state (w_upstream w') = UPSTREAM_FETCHING
     /\ frames_of (w_cache w') = (add_spec (frames_of (w_cache w)) v d).2) ->
  told w [d] w'.
Proof.
  intros Hs Hcl Hw ds0 [Hp Hl]. assert ((burst n ds0).2 = false) as Hc.
  { apply not_true_is_false. intros Hb. apply Hp in Hb. by destruct Hb. }
  unfold log_after in Hl. split; unfold log_after; rewrite burst_snoc, Hc; destruct (is_end n d); destruct Hw as [Hs' Ec]; simpl; [done|by rewrite Hs'|congruence|].
  rewrite foldl_app, <- Hl, Ec. simpl. unfold keep. by rewrite Hcl.
Qed.

(** [fetch_step] hands the frame over; if it completes the config the waiting
    phones are served next. *)
Lemma recv_fetch_step d info r :
  frame_size_ok d -> bytes_ok d -> proto_decode_fromradio d = (rc_ok, info) ->
  recv (fun x y => y = mk_flight None r (if x is inr _ then true else false))
    (act (fetch_step d info)) (holding false d r).
Proof.
  intros Hz Hb Hd. apply leads_act. intros w x w' t Hg E. eexists. split; [|reflexivity].
  pose proof (gd_known _ _ _ _ Hg) as (Hn & Hnb & Hs).
  destruct (fetch_ok w d info (gd_sys _ _ _ _ Hg) Hz Hb) as (x2 & w2 & t2 & E2 & _ & Hf).
  rewrite E in E2. injection E2 as <- <- _. destruct Hf as (En & Eu & _ & Hf).
  destruct (action_of_decoded w d info Hd Hn) as [[Hi Ea]|(Hst & Hcl & Ea)]; rewrite Ea in Hf.
  - destruct Hf as [-> ->]. by apply passes_hand; [|by apply told_idle|].
  - pose proof (told_meta w d _ w' Hst Hcl) as Ht. destruct (is_end n d); destruct Hf as (-> & Es & Ec).
    + apply passes_hand; [done|apply Ht; by rewrite Es|]. split; [congruence|]. by rewrite Es.
    + apply passes_hand; [done|apply Ht; by rewrite Es|]. split; [congruence|]. by rewrite Es, Hst.
Qed.

(** All phones served, the session goes LIVE. *)
Lemma recv_live r :
  recv (fun _ y => y = handed false r)
    (act (zoom (modify (fun u : upstream => u <| s_state := UPSTREAM_LIVE |>)))) (mk_flight None r true).
Proof.
  apply leads_act. intros w [] w' t Hg E. rewrite zoom_modify_eq in E. injection E as <- _.
  eexists. split; [|reflexivity]. pose proof (gd_known _ _ _ _ Hg) as (Hn & Hb & Hs). simpl in Hs.
  apply passes_still; [done..| |by split|by left].
  intros ds0 [Hp Hl]. rewrite app_nil_r. split; [|done]. rewrite Hp. simpl. rewrite (proj1 Hs eq_refl). by split.
Qed.

Lemma recv_session d info r :
  frame_size_ok d -> bytes_ok d -> proto_decode_fromradio d = (rc_ok, info) ->
  recv (fun _ y => y = handed false r) (t_upstream_on_fromradio d info) (holding false d r).
Proof.
  intros Hz Hb Hd. unfold t_upstream_on_fromradio. eapply leads_bind; [by apply recv_fetch_step|].
  intros [taken|u] y ->; [by constructor|].
  eapply leads_bind; [apply recv_apart, apart_serve|]. intros _ y ->.
  eapply leads_bind; [apply recv_live|]. intros _ y ->. by constructor.
Qed.

(** The dispatch reads the state of the session first. *)
Lemma recv_state d r :
  recv (fun st y => y = if decide (st = UPSTREAM_FETCHING) then holding false d r else handed false r)
    (act (zoom (gets upstream_get_state))) (holding false d r).
Proof.
  apply leads_act. intros w st w' t Hg E. eexists. split; [|reflexivity].
  assert (st = s_state (w_upstream w) /\ w' = w) as [-> ->] by (destruct w; by injection E as <- <- _).
  case_decide as Hs; [by apply apart_passes|]. apply apart_hands; [done|by left|done].
Qed.

Lemma fetch_dispatch d info r :
  frame_size_ok d -> bytes_ok d -> proto_decode_fromradio d = (rc_ok, info) ->
  recv (fun _ y => y = handed false r) (t_router_dispatch d info) (holding false d r).
Proof.
  intros Hz Hb Hd. unfold t_router_dispatch. eapply leads_bind; [apply recv_state|]. intros st y ->.
  eapply (leads_bind _ _ (fun _ y => y = handed false r)).
  { case_decide; [by apply recv_session|by constructor]. }
  intros taken y ->. apply recv_apart. apart.
Qed.

(** A frame that does not decode goes to all phones. *)
Lemma recv_to_all d r :
  (forall v, classify_fromradio d <> RfMeta v) ->
  recv (fun _ y => y = handed false r) (t_broadcast d) (holding false d r).
Proof.
  intros Hm. unfold t_broadcast.
  eapply (leads_bind _ _ (fun _ y => y = handed false r)); [|intros ? y ->; by constructor].
  cbn [seq t_broadcast_from Z.to_nat].
  change (seq 0 (Z.to_nat MAX_BLE_CONNECTIONS)) with (0%nat :: seq 1 5). cbn [t_broadcast_from].
  eapply (leads_bind _ _ (fun _ y => y = handed false r)); [|intros ? y ->; apply recv_apart; apart].
  apply leads_act. intros w k w' t Hg E. eexists. split; [|reflexivity].
  apply apart_hands; [done|by right|]. by apply (apart_ble _ _ _ _ _ E).
Qed.

Lemma fetch_on_fromradio d r :
  frame_size_ok d -> bytes_ok d -> recv (fun _ y => y = handed false r) (t_on_fromradio_uart d) (holding false d r).
Proof.
  intros Hz Hb. unfold t_on_fromradio_uart. destruct (proto_decode_fromradio d) as [err info] eqn:E.
  case_decide as He; [|subst err; by apply fetch_dispatch].
  apply recv_to_all. intros v Hv. pose proof (decode_fromradio_classified d) as Hcl.
  rewrite Hv, E in Hcl. by destruct Hcl as [_ [= -> _]].
Qed.

(** ** Steps *)

Abbreviation in_hand := (Receiver.in_hand false started hands).

Lemma event_told y cf e a t cf1 :
  in_hand y cf -> cstep cf (Some e) t cf1 -> observe e (cf_world cf) = Some (a, cf_world cf1, t) ->
  in_hand y cf1 /\ account y (cf_world cf) [] [] y (cf_world cf1) /\ told (cf_world cf) [] (cf_world cf1).
Proof.
  intros Hy Hs Eo. pose proof Hy as [Hcf Hg _ _]. pose proof (gd_known _ _ _ _ Hg) as HJ.
  pose proof (event_implements cf e a t cf1 Hcf (started_boot _ _ HJ) Hs Eo) as Hsp.
  assert (s_nonce (w_upstream (cf_world cf1)) = s_nonce (w_upstream (cf_world cf))
    /\ s_state (w_upstream (cf_world cf1)) = s_state (w_upstream (cf_world cf))
    /\ frames_of (w_cache (cf_world cf1)) = frames_of (w_cache (cf_world cf))) as (En & Es & Ec).
  { destruct (rx_of e) as [[data|]|] eqn:He.
    - destruct e as [| | | | | | |[]| | | | |]; try done. destruct Hsp as [_ Hp].
      split_and!; [apply (f_equal px_nonce) in Hp|apply (f_equal px_phase) in Hp|apply (f_equal px_log) in Hp]; exact Hp.
    - destruct e as [| | | | | | |[]| | | | |]; try done. inversion Hs; subst. done.
    - destruct (step_config _ _ _ _ Hsp He) as (En & Ep & El & _). by split_and!. }
  assert (started (fl_job y) (cf_world cf1)) as HJ1.
  { destruct HJ as (Hn & Hb & Hsv). unfold started. by rewrite En, Es. }
  destruct (event_account false started hands _ _ e t _ Hy Hs HJ1) as [Hy1 Ha].
  split; [done|]. split; [done|]. by apply told_nothing.
Qed.

Lemma span_told y cf ds cf' :
  span cf ds cf' -> in_hand y cf ->
  exists y' fs, in_hand y' cf' /\ account y (cf_world cf) (bytes_of ds) fs y' (cf_world cf')
    /\ told (cf_world cf) fs (cf_world cf').
Proof.
  intros Hs. revert y. induction Hs as [cf|cf e a t cf1 ds cf' Hs Eo _ IH|cf t cf1 ds cf' Hs _ IH]; intros y Hy.
  - exists y, []. split; [done|]. split; [apply account_refl|by apply told_nothing].
  - destruct (event_told y cf e a t cf1 Hy Hs Eo) as (Hy1 & Ha1 & Ht1).
    destruct (IH y Hy1) as (y' & fs & Hy' & Ha & Ht). exists y', fs. split; [done|]. split.
    + change (bytes_of (DidEvent e ?o :: ds)) with ([] ++ bytes_of ds).
      change fs with ([] ++ fs). by eapply account_trans.
    + intros ds0 H0'. apply Ht. specialize (Ht1 ds0 H0'). by rewrite app_nil_r in Ht1.
  - destruct (thread_account false started hands started_boot started_uart told_uart fetch_on_fromradio y cf t cf1 Hy Hs)
      as (y1 & fs1 & Hy1 & Ha1 & Ht1).
    destruct (IH y1 Hy1) as (y' & fs & Hy' & Ha & Ht). exists y', (fs1 ++ fs). split; [done|]. split.
    + change (bytes_of (DidThread ?bs ?o ?t :: ds)) with (bs ++ bytes_of ds). by eapply account_trans.
    + intros ds0 H0'. rewrite app_assoc. by apply Ht, Ht1.
Qed.
End Fetch.

Section Properties.
Context `{NanopbOk, GattReadOk, !RingBuf RING_BUF_SIZE, !RingBufOk RING_BUF_SIZE}.
Context `{!MsgQ tx_entry TX_QUEUE_DEPTH, !MsgQOk tx_entry TX_QUEUE_DEPTH}.

(** C8: the config is a function of what the node sent, in every interleaving.
    From any configuration the threads reach with the session FETCHING, [main] in
    its loop and the work queue idle, on any schedule: of the frames the machine
    makes of the bytes the receiver takes those up to the end of the burst of the
    session's nonce are appended to the log of the cache, packets excepted,
    unchanged and in order, as far as there is room, and the later ones change
    nothing, wherever phones come, ask and read in between.  The session is
    FETCHING as long as the burst is not complete; then the cache is published,
    and the session is LIVE once the work queue is idle.  At most one frame is
    still in the receiver's hands, none once it is idle. *)
Theorem threads_config cf ds cf' :
  creachable cf -> s_state (w_upstream (cf_world cf)) = UPSTREAM_FETCHING -> cf_main cf = Done None ->
  cf_wq cf = WqIdle -> span cf ds cf' ->
  let u := w_upstream (cf_world cf) in
  let u' := w_upstream (cf_world cf') in
  exists sm' fs rest, rx_run (rx_sm (w_uart (cf_world cf))) (bytes_of ds) = Some (sm', fs ++ rest)
    /\ (length rest <= 1)%nat /\ (cf_wq cf' = WqIdle -> rest = [])
    /\ s_nonce u' = s_nonce u
    /\ frames_of (w_cache (cf_world cf')) = log_after (s_nonce u) (frames_of (w_cache (cf_world cf))) fs
    /\ if (burst (s_nonce u) fs).2 then published (s_state u') /\ (cf_wq cf' = WqIdle -> s_state u' = UPSTREAM_LIVE)
       else s_state u' = UPSTREAM_FETCHING.
Proof.
  intros Hcf Hf Hm Hq Hs u u'. apply creachable_ok in Hcf.
  set (n := s_nonce u). set (l := frames_of (w_cache (cf_world cf))).
  assert (in_hand false (started n) (fun _ w fs _ w1 => told n l w fs w1) (grounded false) cf) as Hy.
  { apply in_hand_idle with None; [done..|]. split; [done|]. rewrite Hf. by split. }
  destruct (span_told n l (grounded false) cf ds cf' Hs Hy) as (y' & fs & Hy' & Ha & Ht).
  destruct (account_rest (grounded false) _ _ _ _ _ eq_refl eq_refl Ha) as [Hr Hle].
  destruct (gd_known _ _ _ _ (ih_good _ _ _ _ _ Hy')) as (Hn' & Hb' & Hsv).
  destruct (Ht []) as [Hp Hl]; [split; [by rewrite Hf|done]|].
  exists (machine y' (cf_world cf')), fs, (option_list (fl_frame y')).
  split; [exact Hr|]. split; [exact Hle|].
  split; [intros Hq'; by rewrite (in_hand_at_idle _ _ _ _ _ Hy' Hq')|]. split; [exact Hn'|].
  change ([] ++ fs) with fs in Hp, Hl. split; [exact Hl|]. fold u' in Hp, Hb', Hsv.
  destruct (burst n fs).2.
  - assert (s_state u' <> UPSTREAM_FETCHING) as Hne by by apply Hp.
    split; [unfold published; destruct (s_state u'); auto; done|].
    intros Hq'. rewrite (in_hand_at_idle _ _ _ _ _ Hy' Hq') in Hsv. simpl in Hsv.
    destruct (s_state u'); try done. by destruct Hsv as [_ Hsv]; specialize (Hsv eq_refl).
  - destruct (decide (s_state u' = UPSTREAM_FETCHING)) as [|Hne]; [done|]. by apply Hp in Hne.
Qed.
End Properties.

(** ** The property at a concrete input *)

Module Demo.
#[local] Existing Instances demo_nanopb demo_nanopb_ok list_ring list_ring_ok list_msgq
  list_msgq_ok list_gatt_read list_gatt_read_ok.
Import Schedule.Demo.

(** Phone 11 connects and asks while the burst comes in. *)
Definition arriving : list choice :=
  [ChEvent (EvUart (UART_RX_RDY System.Demo.burst)); ChRx] ++ replicate 20 ChWq ++ ask11 ++ replicate 41 ChWq.
Definition fetched_run : list did * config := default ([], booted) (run_span arriving booted).
Lemma fetched_run_ok : span booted fetched_run.1 fetched_run.2.
Proof. apply (run_span_ok arriving). vm_compute. reflexivity. Qed.
Lemma fetched_run_idle : cf_wq fetched_run.2 = WqIdle.
Proof. vm_compute. reflexivity. Qed.
Lemma fetched_run_frames :
  (snd <$> rx_run (rx_sm (w_uart (cf_world booted))) (bytes_of fetched_run.1))
  = Some [[3; 1; 2]; [4; 8]; 7 :: le32 2].
Proof. vm_compute. reflexivity. Qed.

Lemma threads_config_witness :
  s_state (w_upstream (cf_world fetched_run.2)) = UPSTREAM_LIVE
  /\ frames_of (w_cache (cf_world fetched_run.2)) = [(3, [3; 1; 2]); (4, [4; 8])].
Proof.
  destruct (threads_config booted fetched_run.1 fetched_run.2 booted_reach ltac:(vm_compute; reflexivity)
    ltac:(vm_compute; reflexivity) ltac:(vm_compute; reflexivity) fetched_run_ok)
    as (sm' & fs & rest & Hrun & _ & Hrest & _ & Hl & Hc).
  specialize (Hrest fetched_run_idle). rewrite Hrest, app_nil_r in Hrun.
  pose proof fetched_run_frames as Hfr. rewrite Hrun in Hfr. injection Hfr as Hfr. rewrite Hfr in Hl, Hc.
  split; [exact (proj2 Hc fetched_run_idle)|]. rewrite Hl. vm_compute. reflexivity.
Defined.
End Demo.
