(* ===== verification/Downlink.v ===== *)
(** * Downlink: what a phone gets, over a whole run

    While the session is LIVE a phone's request changes it as [own_step] says and
    no other request touches it ([spec_own], [spec_other]).  So, from the
    refinement of Refine: outside replays the packets for a connected
    phone go through a [mailbox], a bounded queue that takes each frame of the
    node meant for it, and each reply to its own heartbeats, in the order of
    arrival while there is room, and that its fresh reads empty from the front. *)

From stdpp Require Import prelude gmap.
From S2P Require Import Prelude ProxyProtocol Nanopb ConfigCache Zephyr UartMeshtastic.
From S2P Require Import ProtoHandler RouteTrace UpstreamSession BleGatt BleReplay Router World Main System ProxySpec PhoneMap Refine ProxyRuns.

Local Open Scope Z_scope.

(** ** Mailboxes *)

(** What happens to a mailbox: the node sends a frame, the phone is answered,
    the phone reads a value of at most the length given. *)
Inductive post :=
  | PostFrame (d : list Z)
  | PostReply (r : list Z)
  | PostRead (len : Z) (v : list Z).

Definition post_frames (h : list post) : list (list Z) :=
  omap (fun x => match x with PostFrame d => Some d | _ => None end) h.
Definition post_replies (h : list post) : list (list Z) :=
  omap (fun x => match x with PostReply r => Some r | _ => None end) h.
Definition post_reads (h : list post) : list (Z * list Z) :=
  omap (fun x => match x with PostRead len v => Some (len, v) | _ => None end) h.

Definition accept (d : list Z) (q : list (list Z)) : list (list Z) :=
  if decide (zlen d <= FROMRADIO_MAX_PKT_SIZE /\ zlen q < FROMRADIO_QUEUE_DEPTH) then q ++ [d] else q.

Section Mailbox.
Context `{Nanopb}.

(** A frame that not every phone gets: an answer to a heartbeat, or a packet of
    the proxy's port. *)
Definition not_for_all (d : list Z) : Prop :=
  match classify_fromradio d with
  | RfMeta v => v = FromRadio_queueStatus_tag
  | RfData pn _ => pn = PROXY_PORTNUM
  | _ => False
  end.

Inductive mailbox : list (list Z) -> list post -> list (list Z) -> Prop :=
  | mb_nil q : mailbox q [] q
  | mb_frame d q h q' : mailbox (accept d q) h q' -> mailbox q (PostFrame d :: h) q'
  | mb_passed d q h q' : not_for_all d -> mailbox q h q' -> mailbox q (PostFrame d :: h) q'
  | mb_reply r q h q' :
      pb_decode_FromRadio r = Some msg_queue_status ->
      mailbox (accept r q) h q' -> mailbox q (PostReply r :: h) q'
  | mb_read len q h q' :
      mailbox (drop 1 q) h q' ->
      mailbox q (PostRead len (take (Z.to_nat len) (default [] (q !! 0%nat))) :: h) q'.

Lemma mailbox_app q h q1 h' q' : mailbox q h q1 -> mailbox q1 h' q' -> mailbox q (h ++ h') q'.
Proof.
  induction 1; intros; simpl; [done|apply mb_frame|apply mb_passed|apply mb_reply|apply mb_read]; auto.
Qed.
End Mailbox.

Lemma push_accept d ph :
  ph_mode (push d ph) = ph_mode ph /\ ph_queue (push d ph) = accept d (ph_queue ph).
Proof. unfold push, accept. by case_decide. Qed.

(** ** The mailbox of a phone *)

Section Downlink.
Context `{NanopbOk, GattReadOk}.

(** A fresh read of FROMRADIO by [c]: the length asked and the value got. *)
Definition fetch_of (c : bt_conn) (x : event * output) : option (Z * list Z) :=
  match x.1, o_answer x.2 with
  | EvReadFromRadio c' len off, ReadAnswer (att_ok v) =>
      if decide (c' = c /\ off = 0) then Some (len, v) else None
  | _, _ => None
  end.
Definition fetches (c : bt_conn) (es : list (event * output)) : list (Z * list Z) := omap (fetch_of c) es.

(** The phone stays connected and does not ask for the config. *)
Definition stays (c : bt_conn) (e : event) : Prop :=
  match e with
  | EvConnected c' _ _ | EvDisconnected c' _ => c' <> c
  | EvWriteToRadio c' buf off => c' = c -> off = 0 -> forall n, classify_toradio buf <> PfWantConfig n
  | _ => True
  end.

(** A heartbeat of the phone. *)
Definition beats (c : bt_conn) (e : event) : nat :=
  match e with
  | EvWriteToRadio c' buf off =>
      if decide (c' = c /\ off = 0 /\ classify_toradio buf = PfHeartbeat) then 1 else 0
  | _ => 0
  end.

(** Not in a replay. *)
Definition calm (ph : phone) : Prop := match ph_mode ph with Replaying _ => False | _ => True end.

Lemma from_node_phone c raw p p' ph :
  from_node raw p p' -> px_phase p = UPSTREAM_LIVE -> px_phones p !! c = Some ph ->
  px_phase p' = UPSTREAM_LIVE
  /\ exists ph', px_phones p' !! c = Some ph' /\ (ph' = push raw ph \/ ph' = ph /\ not_for_all raw).
Proof.
  intros Hf Hl Hc. unfold from_node in Hf.
  assert (p' = to_all raw p -> px_phase p' = UPSTREAM_LIVE
    /\ exists ph', px_phones p' !! c = Some ph' /\ (ph' = push raw ph \/ ph' = ph /\ not_for_all raw)) as Hall.
  { intros ->. split; [done|]. eexists. split; [|by left]. simpl. by rewrite lookup_fmap, Hc. }
  unfold not_for_all in *. destruct (classify_fromradio raw) as [|v| |pn pl]; [by auto| |by auto|].
  - rewrite decide_False in Hf by by rewrite Hl. case_decide as Hd; [|by auto]. subst. destruct Hd.
    split; [done|]. exists ph. auto.
  - case_decide; [|by auto]. destruct (proxy_dst pl) as [d|]; [|by auto].
    destruct Hf as [(_ & c' & ph' & Hc' & _ & ->)|[_ Hf]]; [|by auto]. split; [done|].
    simpl. destruct (decide (c' = c)) as [->|Hne].
    + rewrite lookup_insert_eq. rewrite Hc in Hc'. injection Hc' as <-. eauto.
    + rewrite lookup_insert_ne by done. eauto.
Qed.

Lemma from_node_all_phone c ds p p' ph :
  from_node_all ds p p' -> px_phase p = UPSTREAM_LIVE -> px_phones p !! c = Some ph -> calm ph ->
  px_phase p' = UPSTREAM_LIVE
  /\ exists ph', px_phones p' !! c = Some ph' /\ calm ph'
     /\ mailbox (ph_queue ph) (PostFrame <$> ds) (ph_queue ph').
Proof.
  intros Hf. revert ph. induction Hf as [p|d ds p p1 p2 Hf _ IH]; intros ph Hl Hc Hq.
  { split; [done|]. exists ph. split_and!; try done. constructor. }
  destruct (from_node_phone c d p p1 ph Hf Hl Hc) as (Hl1 & ph1 & Hc1 & Hp).
  destruct (push_accept d ph) as [Em Eq].
  destruct (IH ph1 Hl1 Hc1) as (Hl2 & ph2 & Hc2 & Hq2 & Hm).
  { destruct Hp as [->|[-> _]]; [|done]. unfold calm. by rewrite Em. }
  split; [done|]. exists ph2. split_and!; [done|done|]. rewrite fmap_cons.
  destruct Hp as [->|[-> Hd]]; [apply mb_frame; by rewrite <- Eq|by apply mb_passed].
Qed.

(** The phone's mailbox in a step in which the node sends [new]. *)
Definition down_effect (c : bt_conn) (x : event * output) (new : list (list Z)) (ph ph' : phone) : Prop :=
  exists h, mailbox (ph_queue ph) h (ph_queue ph') /\ post_frames h = new
    /\ post_reads h = option_list (fetch_of c x) /\ length (post_replies h) = beats c x.1.

Lemma down_none c x ph ph' :
  fetch_of c x = None -> beats c x.1 = 0%nat -> ph_queue ph' = ph_queue ph -> down_effect c x [] ph ph'.
Proof. intros Hf Hb E. exists []. rewrite Hf, Hb, E. split_and!; try done. constructor. Qed.

Lemma put_phone_other c c' ph p : c' <> c -> px_phones (put_phone c' ph p) !! c = px_phones p !! c.
Proof. intros. by apply lookup_insert_ne. Qed.
Lemma put_phone_same c ph p : px_phones (put_phone c ph p) !! c = Some ph.
Proof. apply lookup_insert_eq. Qed.

Lemma send_up_rest d p :
  px_phones (send_up d p) = px_phones p /\ px_phase (send_up d p) = px_phase p
  /\ px_heard (send_up d p) = px_heard p.
Proof. unfold send_up. by case_decide. Qed.

(** A fresh read of a phone that is not in a replay. *)
Lemma fetch_calm ph :
  calm ph -> calm (fetch ph) /\ ph_staged (fetch ph) = default [] (ph_queue ph !! 0%nat)
  /\ ph_queue (fetch ph) = drop 1 (ph_queue ph).
Proof.
  unfold calm, fetch. intros Hq. destruct (ph_mode ph) eqn:Em; try done;
    destruct (ph_queue ph) eqn:Eq; simpl; rewrite ?Em, ?Eq; done.
Qed.

Lemma from_phone_heard c buf p p' : from_phone c buf p p' -> px_heard p' = px_heard p.
Proof.
  intros Hf. exact (proj1 (proj2 (proj2 (proj2
    (step_config p (EvWriteToRadio c buf 0) (answers (WriteAnswer (att_ok (zlen buf)))) p'
       (conj eq_refl Hf) eq_refl))))).
Qed.

(** A write of another phone. *)
Lemma from_phone_other c c' buf p p' :
  from_phone c' buf p p' -> c' <> c ->
  px_heard p' = px_heard p /\ px_phones p' !! c = px_phones p !! c /\ px_phase p' = px_phase p.
Proof.
  intros Hf Hne. pose proof (from_phone_heard _ _ _ _ Hf) as Eh. split; [done|]. unfold from_phone in Hf.
  destruct (classify_toradio buf).
  - subst. unfold send_up. by case_decide.
  - destruct (px_phones p !! c'); [|by subst]. case_decide.
    + destruct Hf as (? & _ & ->). by rewrite put_phone_other.
    + subst. by rewrite put_phone_other.
  - destruct (px_phones p !! c'); [|by subst]. destruct Hf as (? & _ & _ & ->). by rewrite put_phone_other.
  - subst. unfold send_up. by case_decide.
Qed.

Lemma no_news (h h' : list Z) new : deframe h' = deframe h ++ new -> h' = h -> new = [].
Proof. intros Hd ->. apply (app_inv_head (deframe h)). by rewrite app_nil_r. Qed.

Lemma post_frames_all ds :
  post_frames (PostFrame <$> ds) = ds /\ post_reads (PostFrame <$> ds) = [] /\ post_replies (PostFrame <$> ds) = [].
Proof.
  unfold post_frames, post_reads, post_replies.
  induction ds as [|d ds (IH1 & IH2 & IH3)]; [done|]. rewrite !fmap_cons. split_and!; [|done..]. cbn [omap list_omap]. by f_equal.
Qed.

(** A read of the phone itself that starts a packet. *)
Lemma own_read_downlink c len ph :
  calm ph -> 0 <= len ->
  calm (fetch ph)
  /\ down_effect c (EvReadFromRadio c len 0, answers (ReadAnswer (read_value len 0 (ph_staged (fetch ph))))) []
       ph (fetch ph).
Proof.
  intros Hq Hlen. destruct (fetch_calm ph Hq) as (Hq' & Hv & Hr). split; [done|].
  exists [PostRead len (take (Z.to_nat len) (default [] (ph_queue ph !! 0%nat)))]. split_and!; [|done| |done].
  - rewrite Hr. apply mb_read, mb_nil.
  - unfold fetch_of. simpl. rewrite read_value_fresh by done. by rewrite decide_True, Hv.
Qed.

(** ** The phone's own requests *)

(** The phone that makes a request of the GATT server. *)
Definition request (e : event) : option bt_conn :=
  match e with
  | EvReadFromRadio c _ _ | EvReadFromNum c _ _ | EvReadLogRadio c _ _ | EvWriteToRadio c _ _
  | EvWriteNodeReg c _ _ => Some c
  | _ => None
  end.

(** The phone comes or goes. *)
Definition connects (c : bt_conn) (e : event) : Prop :=
  match e with EvConnected c' _ _ | EvDisconnected c' _ => c' = c | _ => False end.

(** A request of the phone while the session is LIVE and the config is [fs]. *)
Definition own_step (fs : list frame) (e : event) (o : output) (ph ph' : phone) : Prop :=
  match e with
  | EvReadFromRadio _ len offset =>
      ph' = (if decide (offset = 0) then fetch ph else ph)
      /\ o = answers (ReadAnswer (read_value len offset (ph_staged ph')))
  | EvReadFromNum _ len offset =>
      ph' = ph /\ o = answers (ReadAnswer (bt_gatt_attr_read len offset (le32 (ph_num ph))))
  | EvReadLogRadio _ _ _ => ph' = ph /\ o = answers (ReadAnswer (att_ok []))
  | EvWriteToRadio _ buf offset =>
      if decide (offset = 0) then
        o = answers (WriteAnswer (att_ok (zlen buf)))
        /\ match classify_toradio buf with
           | PfWantConfig n => replayed fs n ph ph'
           | PfHeartbeat => exists r, pb_decode_FromRadio r = Some msg_queue_status /\ ph' = push r ph
           | PfOther | PfMalformed => ph' = ph
           end
      else ph' = ph /\ o = answers (WriteAnswer (att_error BT_ATT_ERR_INVALID_OFFSET))
  | EvWriteNodeReg _ buf offset =>
      if decide (offset = 0 /\ zlen buf = PROXY_ID_SIZE)
      then ph' = ph <| ph_id := mk_proxy_id buf |> /\ o = answers (WriteAnswer (att_ok (zlen buf)))
      else ph' = ph /\ o = answers (WriteAnswer (att_error BT_ATT_ERR_INVALID_ATTRIBUTE_LEN))
  | _ => False
  end.

(** A step of the abstract proxy, for the phone whose request it is. *)
Lemma spec_own c e p o p' ph :
  spec_step p e o p' -> request e = Some c -> px_phase p = UPSTREAM_LIVE -> px_phones p !! c = Some ph ->
  exists ph', px_phones p' !! c = Some ph' /\ own_step (px_log p) e o ph ph'.
Proof.
  intros Hs Hr Hl Hc. destruct e as [| |c' len off|c' len off|c' len off|c' buf off|c' buf off| | | | | |]; try done;
    injection Hr as ->; cbn [spec_step] in Hs; unfold own_step; rewrite ?Hc in Hs.
  - destruct Hs as [-> ->]. eexists. split; [apply put_phone_same|done].
  - destruct Hs as [-> ->]. by exists ph.
  - destruct Hs as [-> ->]. by exists ph.
  - case_decide; destruct Hs as [-> Hs]; [|subst; by exists ph]. unfold from_phone in Hs. rewrite ?Hc in Hs.
    destruct (classify_toradio buf) as [|n| |].
    + subst. exists ph. by rewrite (proj1 (send_up_rest buf p)).
    + rewrite decide_True in Hs by by right. destruct Hs as (ph' & Hrp & ->). exists ph'.
      split; [apply put_phone_same|done].
    + destruct Hs as (r & Hd & _ & ->). eexists. split; [apply put_phone_same|]. split; [done|by exists r].
    + subst. exists ph. by rewrite (proj1 (send_up_rest buf p)).
  - case_decide; destruct Hs as [-> ->]; [|by exists ph]. eexists. split; [apply put_phone_same|done].
Qed.

(** And for any other. *)
Lemma spec_other c e p o p' :
  spec_step p e o p' -> e <> EvRxWork -> request e <> Some c -> ~ connects c e ->
  px_phones p' !! c = px_phones p !! c.
Proof.
  intros Hs H1' Hr Hn. assert (forall c', Some c' <> Some c -> c' <> c) as Hne by congruence.
  destruct e as [c' err ?|c' ?|c' len off|c' len off|c' len off|c' buf off|c' buf off|evt| |err| | |];
    cbn [spec_step request connects] in *; try done; try (by destruct Hs as [_ ->]).
  - destruct Hs as [_ ->]. case_decide; [by apply put_phone_other|done].
  - destruct Hs as [_ ->]. by apply lookup_delete_ne.
  - destruct (px_phones p !! c'); destruct Hs as [_ ->]; [|done]. apply put_phone_other. auto.
  - case_decide; destruct Hs as [_ Hs]; [|by subst].
    destruct (from_phone_other c c' buf p p' Hs) as (_ & Ec & _); auto.
  - case_decide; destruct Hs as [_ ->]; [|done]. destruct (px_phones p !! c'); [|done]. apply put_phone_other. auto.
  - by destruct evt; destruct Hs as [_ ->].
  - destruct (px_uplink p); [by destruct Hs as [_ ->]|]. by destruct (px_busy p); destruct Hs as [_ ->].
  - destruct Hs as [_ (r & _ & _ & ->)]. simpl. by rewrite (proj1 (send_up_rest r p)).
Qed.
(** A read does not ask for a negative length. *)
Definition asks (e : event) : Prop := match e with EvReadFromRadio _ len _ => 0 <= len | _ => True end.

Lemma own_downlink c fs e o ph ph' :
  own_step fs e o ph ph' -> request e = Some c -> stays c e -> asks e -> calm ph ->
  calm ph' /\ down_effect c (e, o) [] ph ph'.
Proof.
  intros Ho Hr Hst Hlen Hq.
  assert (fetch_of c (e, o) = None -> beats c e = 0%nat -> ph_mode ph' = ph_mode ph -> ph_queue ph' = ph_queue ph ->
    calm ph' /\ down_effect c (e, o) [] ph ph') as Hsame.
  { intros Hf Hb Em Eq. split; [unfold calm; by rewrite Em|by apply down_none]. }
  destruct e as [| |c' len off|c' len off|c' len off|c' buf off|c' buf off| | | | | |]; try done;
    injection Hr as ->; unfold own_step in Ho; simpl in Hst, Hlen.
  - destruct Ho as [-> ->]. case_decide as Hoff; [subst off; by apply own_read_downlink|].
    apply Hsame; try done. unfold fetch_of. simpl.
    destruct (read_value _ _ _); [|done]. rewrite decide_False; [done|]. by intros [_ ?].
  - destruct Ho as [-> ->]. by apply Hsame.
  - destruct Ho as [-> ->]. by apply Hsame.
  - case_decide as Hoff; destruct Ho as [Ho Hp].
    + subst off o. assert (classify_toradio buf <> PfHeartbeat -> ph' = ph ->
        calm ph' /\ down_effect c (EvWriteToRadio c buf 0, answers (WriteAnswer (att_ok (zlen buf)))) [] ph ph') as Hup.
      { intros Hn ->. apply Hsame; try done. simpl. rewrite decide_False; [done|]. by intros (_ & _ & ?). }
      destruct (classify_toradio buf) as [|n| |] eqn:Hcl; [by apply Hup| | |by apply Hup].
      { by destruct (Hst eq_refl eq_refl n). }
      destruct Hp as (r & Hd & ->). destruct (push_accept r ph) as [Em Eq].
      split; [unfold calm; by rewrite Em|]. exists [PostReply r]. split_and!; [|done|done|simpl; by rewrite decide_True].
      apply mb_reply; [done|]. rewrite Eq. constructor.
    + subst. apply Hsame; try done. simpl. rewrite decide_False; [done|]. by intros (_ & ? & _).
  - case_decide; destruct Ho as [-> ->]; by apply Hsame.
Qed.

(** What is no request of [c] does not move its mailbox. *)
Lemma not_own c e o : request e <> Some c -> fetch_of c (e, o) = None /\ beats c e = 0%nat.
Proof.
  intros Hr. unfold fetch_of. destruct e as [| |c' len off| | |c' buf off| | | | | | |]; try done; simpl in *.
  - split; [|done]. destruct (o_answer o) as [|[]|]; try done. rewrite decide_False; [done|]. intros [-> _]. by destruct Hr.
  - split; [done|]. rewrite decide_False; [done|]. intros [-> _]. by destruct Hr.
Qed.

(** The node's frames. *)
Lemma frames_downlink c p o p' ph new :
  spec_step p EvRxWork o p' -> px_phase p = UPSTREAM_LIVE -> px_phones p !! c = Some ph -> calm ph ->
  deframe (px_heard p') = deframe (px_heard p) ++ new ->
  px_phase p' = UPSTREAM_LIVE /\ exists ph', px_phones p' !! c = Some ph' /\ calm ph'
    /\ down_effect c (EvRxWork, o) new ph ph'.
Proof.
  intros [-> (ds & Hds & Hf)] Hl Hc Hq Hnew.
  destruct (from_node_all_line _ _ _ Hf) as [Eh _]. simpl in Eh. rewrite Eh, Hds in Hnew.
  apply app_inv_head in Hnew as ->.
  destruct (from_node_all_phone c _ _ _ ph Hf Hl Hc Hq) as (Hl' & ph' & Hc' & Hq' & Hm).
  split; [done|]. exists ph'. split_and!; [done|done|]. destruct (post_frames_all new) as (E1 & E2 & E3).
  exists (PostFrame <$> new). by rewrite E3.
Qed.

(** A step that hears nothing keeps the phase. *)
Lemma deaf_step p e o p' :
  spec_step p e o p' -> e <> EvRxWork -> px_phase p' = px_phase p /\ px_heard p' = px_heard p.
Proof.
  intros Hs He. destruct (rx_of e) as [[data|]|] eqn:Hr.
  - destruct e as [| | | | | | |[]| | | | |]; try done. by destruct Hs as [_ ->].
  - by destruct e as [| | | | | | |[]| | | | |].
  - by destruct (step_config _ _ _ _ Hs Hr) as (_ & ? & _ & ? & _).
Qed.

(** Each step, for a phone that is not in a replay, once the config is there. *)
Lemma step_downlink c p e o p' ph new :
  spec_step p e o p' -> stays c e -> px_phase p = UPSTREAM_LIVE -> px_phones p !! c = Some ph -> calm ph ->
  asks e -> deframe (px_heard p') = deframe (px_heard p) ++ new ->
  px_phase p' = UPSTREAM_LIVE /\ exists ph', px_phones p' !! c = Some ph' /\ calm ph'
    /\ down_effect c (e, o) new ph ph'.
Proof.
  intros Hs Hst Hl Hc Hq Hlen Hnew.
  assert (e = EvRxWork \/ e <> EvRxWork) as [->|He] by (destruct e; auto); [by apply (frames_downlink c p)|].
  destruct (deaf_step _ _ _ _ Hs He) as [Ep Eh]. pose proof (no_news _ _ _ Hnew Eh) as ->. split; [congruence|].
  destruct (decide (request e = Some c)) as [Hr|Hr].
  - destruct (spec_own c e p o p' ph Hs Hr Hl Hc) as (ph' & Hc' & Ho). exists ph'. split; [done|].
    by eapply own_downlink.
  - exists ph. rewrite (spec_other c e p o p' Hs He Hr); [|by intros Hce; destruct e]. split; [done|]. split; [done|].
    destruct (not_own c e o Hr). by apply down_none.
Qed.

(** The frames heard in a step. *)
Lemma step_heard p e o p' :
  spec_step p e o p' -> exists new, deframe (px_heard p') = deframe (px_heard p) ++ new.
Proof.
  intros Hs. destruct (rx_of e) as [[data|]|] eqn:He.
  - destruct e as [| | | | | | |[]| | | | |]; try done. destruct Hs as [_ ->]. exists []. by rewrite app_nil_r.
  - destruct e as [| | | | | | |[]| | | | |]; try done. destruct Hs as [_ (ds & Hds & Hf)].
    destruct (from_node_all_line _ _ _ Hf) as [-> _]. by exists ds.
  - destruct (step_config _ _ _ _ Hs He) as (_ & _ & _ & -> & _). exists []. by rewrite app_nil_r.
Qed.

End Downlink.

(** ** The program *)

Section Program.
Context `{NanopbOk, GattReadOk, !RingBuf RING_BUF_SIZE, !RingBufOk RING_BUF_SIZE}.
Context `{!MsgQ tx_entry TX_QUEUE_DEPTH, !MsgQOk tx_entry TX_QUEUE_DEPTH}.

(** A run of the program is one of the specification. *)
Lemma spec_run_app p es1 p1 es2 p2 :
  spec_run p es1 p1 -> spec_run p1 es2 p2 -> spec_run p (es1 ++ es2) p2.
Proof. induction 1; intros; simpl; [done|]. econstructor; [done|]. auto. Qed.

Lemma down_run c w p es w' ph :
  observed w es w' -> refines w p -> Forall (stays c) es.*1 ->
  px_phase p = UPSTREAM_LIVE -> px_phones p !! c = Some ph -> calm ph ->
  exists p' ph' h, spec_run p es p' /\ refines w' p' /\ px_phones p' !! c = Some ph'
    /\ mailbox (ph_queue ph) h (ph_queue ph') /\ post_reads h = fetches c es
    /\ length (post_replies h) = sum_list (beats c <$> es.*1)
    /\ deframe (px_heard p') = deframe (px_heard p) ++ post_frames h.
Proof.
  intros Ho. revert p ph. induction Ho as [w|w e a w1 t es w2 He E _ IH]; intros p ph Hr Hst Hl Hc Hq.
  { exists p, ph, []. rewrite app_nil_r. split_and!; try done; constructor. }
  apply Forall_cons in Hst as [Hst Hsts].
  destruct (refine_step w p e Hr He) as (a' & w1' & t' & p1 & E' & Hs & Hr1).
  rewrite E in E'. injection E' as <- <- <-. destruct (step_heard _ _ _ _ Hs) as [new Hnew].
  destruct (step_downlink c p e _ p1 ph new Hs Hst Hl Hc Hq)
    as (Hl1 & ph1 & Hc1 & Hq1 & h1 & Hm1 & <- & Hv1 & Hb1);
    [by destruct e; try done; destruct He as (_ & ? & _)|done|].
  destruct (IH p1 ph1 Hr1 Hsts Hl1 Hc1 Hq1) as (p2 & ph2 & h2 & Hrun & Hr2 & Hc2 & Hm2 & Hv2 & Hb2 & Hn2).
  exists p2, ph2, (h1 ++ h2). unfold post_reads, post_replies, post_frames in *. split_and!; try done.
  - by econstructor.
  - by eapply mailbox_app.
  - unfold fetches. rewrite omap_app, Hv1, Hv2. simpl. by destruct (fetch_of c _).
  - rewrite omap_app, length_app. simpl in *. by rewrite Hb1, Hb2.
  - by rewrite Hn2, Hnew, omap_app, app_assoc.
Qed.

(** C4: the downlink is exact, end to end.  Once the session is LIVE take a
    connected phone that is not in a replay, and any run in which it stays
    connected and does not ask for the config.  Its packet queue is a mailbox:
    into it go all frames the node sends during the run, in their order, unless
    there is no room, and but for those that are the answer to a heartbeat or
    for another phone; with a reply to each of its own heartbeats; and its
    fresh reads return exactly what is at the front, cut only to the length it
    asks for, or the empty value when there is nothing. *)
Theorem downlink_exact env w0 t0 es0 w es w' i pc :
  fits 32 (be_rand env) -> main env world_boot = Some (None, w0, t0) -> observed w0 es0 w ->
  s_state (w_upstream w) = UPSTREAM_LIVE -> conns (w_ble w) !! i = Some pc -> conn pc <> NULL ->
  pc_state pc <> PHONE_REPLAYING ->
  observed w es w' -> Forall (stays (conn pc)) es.*1 ->
  let heard := fun es => deframe (rx_stream [] (omap rx_of es.*1)).1 in
  exists j pc' h, conns (w_ble w') !! j = Some pc' /\ conn pc' = conn pc
    /\ mailbox (pkts pc) h (pkts pc') /\ heard (es0 ++ es) = heard es0 ++ post_frames h
    /\ post_reads h = fetches (conn pc) es
    /\ length (post_replies h) = sum_list (beats (conn pc) <$> es.*1).
Proof.
  intros Hrand E Ho0 Hl Hi Hn Hst Ho Hs. cbv zeta.
  destruct (refine_boot env w0 t0 Hrand E) as (p0 & (n & r & _ & _ & _ & Ep0) & Hr0).
  destruct (refine_run w0 p0 es0 w Hr0 Ho0) as (p & Hrun0 & Hr).
  destruct (run_config n p0 es0 p Hrun0) as (Hcfg & Eh & _); [by rewrite Ep0|].
  rewrite Ep0 in Eh. simpl in Eh.
  pose proof (rf_state _ _ Hr) as Ep. pose proof (so_world _ (ar_sys _ (rf_rest _ _ Hr))) as (Hb & _).
  assert (px_phones p !! conn pc = Some (phone_of (w_cache w) pc)) as Hc by (rewrite Ep; by apply (abs_phone w i)).
  destruct (down_run (conn pc) w p es w' (phone_of (w_cache w) pc) Ho Hr Hs)
    as (p' & ph' & h & Hrun & Hr' & Hc' & Hm & Hv & Hrep & Hnew).
  - by rewrite Ep.
  - done.
  - unfold calm, phone_of, mode_of. simpl. by destruct (pc_state pc).
  - rewrite (rf_state _ _ Hr') in Hc'. simpl in Hc'.
    pose proof (so_world _ (ar_sys _ (rf_rest _ _ Hr'))) as (Hb' & _).
    apply phones_lookup in Hc' as (_ & j & pc' & Hj & Hcn & ->); [|apply Hb'].
    exists j, pc', h. split_and!; try done.
    destruct (run_config n p0 (es0 ++ es) p') as (_ & Eh' & _); [by eapply spec_run_app|by rewrite Ep0|].
    rewrite Ep0 in Eh'. simpl in Eh'. by rewrite <- Eh, <- Eh'.
Qed.
End Program.

(** ** The property at a concrete input *)

Module Demo.
#[local] Existing Instances demo_nanopb demo_nanopb_ok list_ring list_ring_ok list_msgq
  list_msgq_ok list_gatt_read list_gatt_read_ok.

(** Phone 11 reads its replay to the end; then the node sends two packets, of
    which it reads one. *)
Definition replay_evs : list event :=
  System.Demo.evs_live ++ replicate 4 (EvReadFromRadio 11 512 0).
Definition evs : list event :=
  [EvUart (UART_RX_RDY (frame_of [4; 9] ++ frame_of [4; 10])); EvRxWork; EvReadFromRadio 11 512 0].
Definition run0 : list (event * output) * world :=
  default ([], world_boot) (run_observed replay_evs System.Demo.w0).
Definition run1 : list (event * output) * world :=
  default ([], world_boot) (run_observed evs run0.2).
Lemma run0_ok : run_observed replay_evs System.Demo.w0 = Some run0.
Proof. vm_compute. reflexivity. Qed.
Lemma run1_ok : run_observed evs run0.2 = Some run1.
Proof. vm_compute. reflexivity. Qed.
Lemma observed0 : observed System.Demo.w0 run0.1 run0.2.
Proof. apply (run_observed_ok replay_evs). rewrite run0_ok. by destruct run0. Qed.
Lemma observed1 : observed run0.2 run1.1 run1.2.
Proof. apply (run_observed_ok evs). rewrite run1_ok. by destruct run1. Qed.

Definition slot : proxy_conn := default conn_boot (conns (w_ble run0.2) !! 0%nat).
Lemma slot_at : conns (w_ble run0.2) !! 0%nat = Some slot.
Proof. vm_compute. reflexivity. Qed.
Lemma slot_fields : conn slot = 11 /\ pc_state slot = PHONE_ACTIVE /\ pkts slot = []
  /\ s_state (w_upstream run0.2) = UPSTREAM_LIVE.
Proof. vm_compute. by split_and!. Qed.

Lemma run1_fetches : run1.1.*1 = evs /\ fetches 11 run1.1 = [(512, [4; 9])].
Proof. vm_compute. by split. Qed.

Lemma downlink_exact_witness :
  exists pc' h, conn pc' = 11 /\ mailbox [] h (pkts pc') /\ post_reads h = [(512, [4; 9])].
Proof.
  assert (fits 32 (be_rand Main.Demo.env_ok)) as Hb by by_eval.
  destruct Refine.Demo.w0_main as [t E]. destruct slot_fields as (Hc & Hs & Hp & Hl).
  destruct run1_fetches as [He Hf].
  assert (Forall (stays (conn slot)) run1.1.*1) as Hst.
  { rewrite He. repeat (apply Forall_cons_2; [exact I|]). apply Forall_nil_2. }
  destruct (downlink_exact Main.Demo.env_ok System.Demo.w0 t run0.1 run0.2 run1.1 run1.2 0 slot
    Hb E observed0 Hl slot_at ltac:(by rewrite Hc) ltac:(by rewrite Hs) observed1 Hst)
    as (j & pc' & h & _ & Hc' & Hm & _ & Hv & _).
  rewrite Hc in Hc', Hv. rewrite Hf in Hv. rewrite Hp in Hm.
  exists pc', h. split; [exact Hc'|]. split; [exact Hm|exact Hv].
Defined.
End Demo.
