(* ===== verification/Deliver.v ===== *)
(** * Deliver: what a phone sees, in every interleaving

    Once the session is LIVE a phone sees its part of the abstract proxy
    ([sees]) also when its requests fall between any two sections of the receiver
    and of a broadcast: every request is answered by [own_step]; every frame the
    receiver hands over is routed ([destination_of]), by what the router can look
    up at that step, and is pushed to the phone if it is for all or for this
    phone, and not if it is for another or for nobody; and nothing else changes.
    So its packet queue is the [mailbox] of Downlink. *)

From stdpp Require Import prelude gmap.
From S2P Require Import Prelude Tasks ProxyProtocol Nanopb ConfigCache Zephyr UartMeshtastic.
From S2P Require Import ProtoHandler RouteTrace UpstreamSession BleGatt BleReplay Router World Main System Calls Threads WorkQueue BootThread Schedule Receiver Told ProxySpec PhoneMap Refine Spans ProxyRuns Downlink.

Local Open Scope Z_scope.

(** ** Where a frame goes *)

Inductive destination :=
  | ToAll
  | ToPhone (c : bt_conn)
  | ToNobody.

(** The first connected phone that registered [id]; the zero identifier is
    nobody's. *)
Definition holder (id : proxy_id) (t : desk) : option bt_conn :=
  if decide (id = zero_id) then None
  else (fun x => x.2.1) <$> list_find (fun x : bt_conn * proxy_id => x.1 <> NULL /\ x.2 = id) (dk_phones t).

Section Destination.
Context `{Nanopb}.

(** While the session is LIVE: the answer to the proxy's own heartbeat is for
    nobody, a packet of the proxy's port for the phone it names, if it sits
    there, and anything else for all. *)
Definition destination_of (t : desk) (d : list Z) : destination :=
  match classify_fromradio d with
  | RfMeta v => if decide (v = FromRadio_queueStatus_tag /\ dk_awaited t = true) then ToNobody else ToAll
  | RfData pn pl =>
      if decide (pn = PROXY_PORTNUM) then
        match (id ← proxy_dst pl; holder id t) with Some c => ToPhone c | None => ToAll end
      else ToAll
  | RfMalformed | RfEncrypted => ToAll
  end.

Lemma destination_not_all t d : destination_of t d <> ToAll -> not_for_all d.
Proof.
  unfold destination_of, not_for_all. destruct (classify_fromradio d) as [|v| |pn pl]; [done| |done|].
  - case_decide as Hv; [|done]. by destruct Hv.
  - by case_decide.
Qed.
End Destination.

(** ** What a phone sees *)

(** A frame of the node is routed, or, being for all, pushed to the phone when
    the broadcast comes to its slot; the phone makes a request and is answered. *)
Inductive seen :=
  | SeenRouted (d : list Z) (to : destination)
  | SeenPushed
  | SeenOwn (e : event) (o : output).

Definition seen_frames (h : list seen) : list (list Z) :=
  omap (fun x => match x with SeenRouted d _ => Some d | _ => None end) h.
Definition seen_own (h : list seen) : list (event * output) :=
  omap (fun x => match x with SeenOwn e o => Some (e, o) | _ => None end) h.

Section Sees.
Context `{NanopbOk, GattReadOk}.

(** What the phone [c] sees in one entry of the log of a schedule: of an event
    its own request, of the step of a thread frames that are routed by the desk
    of that step, and pushes. *)
Definition glimpse (c : bt_conn) (x : did) (h : list seen) : Prop :=
  match x with
  | DidEvent e o => h = if decide (request e = Some c) then [SeenOwn e o] else []
  | DidThread _ _ t =>
      Forall (fun y => match y with
                       | SeenRouted d to => to = destination_of t d
                       | SeenPushed => True
                       | SeenOwn _ _ => False
                       end) h
  end.

(** [sees c fs j ph h j' ph'] : the phone [c] goes from [ph] to [ph'].  [j] is the
    frame that was routed to all and is still to be pushed to it. *)
Inductive sees (c : bt_conn) (fs : list frame) :
    option (list Z) -> phone -> list seen -> option (list Z) -> phone -> Prop :=
  | se_nil j ph : sees c fs j ph [] j ph
  | se_all d ph h j' ph' :
      sees c fs (Some d) ph h j' ph' -> sees c fs None ph (SeenRouted d ToAll :: h) j' ph'
  | se_pushed d ph h j' ph' :
      sees c fs None (push d ph) h j' ph' -> sees c fs (Some d) ph (SeenPushed :: h) j' ph'
  | se_mine d ph h j' ph' :
      sees c fs None (push d ph) h j' ph' -> sees c fs None ph (SeenRouted d (ToPhone c) :: h) j' ph'
  | se_other d to ph h j' ph' :
      to <> ToAll -> to <> ToPhone c ->
      sees c fs None ph h j' ph' -> sees c fs None ph (SeenRouted d to :: h) j' ph'
  | se_own j e o ph ph1 h j' ph' :
      own_step fs e o ph ph1 -> sees c fs j ph1 h j' ph' -> sees c fs j ph (SeenOwn e o :: h) j' ph'.

Lemma sees_app c fs j ph h j1 ph1 h' j' ph' :
  sees c fs j ph h j1 ph1 -> sees c fs j1 ph1 h' j' ph' -> sees c fs j ph (h ++ h') j' ph'.
Proof.
  induction 1; intros; simpl; [done|apply se_all|apply se_pushed|apply se_mine|apply se_other|eapply se_own]; eauto.
Qed.

Lemma seen_app h h' :
  seen_frames (h ++ h') = seen_frames h ++ seen_frames h' /\ seen_own (h ++ h') = seen_own h ++ seen_own h'.
Proof. split; apply omap_app. Qed.

(** The phone's own requests in a log. *)
Definition own_requests (c : bt_conn) (ds : list did) : list (event * output) :=
  filter (fun x => request x.1 = Some c) (events_of ds).

Lemma glimpse_thread_own c bs wire t h : glimpse c (DidThread bs wire t) h -> seen_own h = [].
Proof. unfold glimpse. induction 1 as [|[]]; try done. Qed.
Lemma glimpses_own c ds hs : Forall2 (glimpse c) ds hs -> seen_own (mjoin hs) = own_requests c ds.
Proof.
  induction 1 as [|x h ds hs Hx _ IH]; [done|]. change (mjoin (h :: hs)) with (h ++ mjoin hs).
  rewrite (proj2 (seen_app _ _)), IH. destruct x as [e o|bs wire t]; [|by rewrite (glimpse_thread_own _ _ _ _ _ Hx)].
  unfold own_requests. change (events_of (DidEvent e o :: ds)) with ((e, o) :: events_of ds). simpl in Hx. subst h.
  destruct (decide (request e = Some c)); [by rewrite filter_cons_True|by rewrite filter_cons_False].
Qed.

(** A frame that is not for all is one that not every phone gets. *)
Definition routed_well (x : seen) : Prop :=
  match x with SeenRouted d to => to <> ToAll -> not_for_all d | _ => True end.
Lemma glimpses_well c ds hs : Forall2 (glimpse c) ds hs -> Forall routed_well (mjoin hs).
Proof.
  induction 1 as [|x h ds hs Hx _ IH]; [by apply Forall_nil|]. apply Forall_app. split; [|done].
  destruct x as [e o|bs wire t]; simpl in Hx; [subst h; case_decide; by repeat constructor|].
  eapply Forall_impl; [exact Hx|]. intros [d to| |]; try done. simpl. intros ->. apply destination_not_all.
Qed.
End Sees.

(** ** The phone's slot *)

(** No reference to a connection is taken or dropped. *)
Definition no_ref (e : io) : Prop :=
  match e with IoConnRef _ | IoConnUnref _ => False | _ => True end.

Section Slot.
Context `{NanopbOk, GattReadOk, !RingBuf RING_BUF_SIZE, !RingBufOk RING_BUF_SIZE}.
Context `{!MsgQ tx_entry TX_QUEUE_DEPTH, !MsgQOk tx_entry TX_QUEUE_DEPTH}.

Lemma calls_skip_loop P fuel i n : emits P (skip_loop (W := world) fuel i n).
Proof. induction fuel; simpl; calls. Qed.
#[local] Hint Resolve calls_skip_loop : emits.

Lemma calls_request c e : request e = Some c -> emits no_ref (step e).
Proof.
  destruct e; try done; intros _; unfold step, fromradio_read, stage_replay, fromnum_read, logradio_read, toradio_write,
    node_reg_write, on_toradio_ble, ble_gatt_park_pending, upstream_on_pending_phone, upstream_keepalive_reschedule,
    serve_one_pending, serve_replay, ble_gatt_replay_cached_burst, ble_gatt_reply_queuestatus, ble_gatt_enqueue_fromradio,
    uart_meshtastic_tx; calls.
Qed.

Context (c : bt_conn) (i : nat) (k : cache) (Hnull : c <> NULL).

(** The session is LIVE with the config [k], and the phone sits in its slot. *)
Definition seated (j : option (list Z)) (w : world) : Prop :=
  s_state (w_upstream w) = UPSTREAM_LIVE /\ w_cache w = k /\ conn <$> conns (w_ble w) !! i = Some c.

(** Frames are routed by what the router can look up in [w]; [j] is one that was
    routed to all and is still to be pushed to this phone. *)
Definition shown (j : option (list Z)) (w : world) (ds : list (list Z)) (j' : option (list Z)) (w' : world) : Prop :=
  forall pc, conns (w_ble w) !! i = Some pc -> exists pc' h, conns (w_ble w') !! i = Some pc'
    /\ glimpse c (DidThread [] [] (desk_of w)) h /\ seen_frames h = ds
    /\ sees c (frames_of k) j (phone_of k pc) h j' (phone_of k pc').

Lemma seated_boot b w : seated b w -> s_state (w_upstream w) <> UPSTREAM_BOOT.
Proof. by intros (-> & _). Qed.
Lemma seated_uart b w u : seated b w -> seated b (mk_world (w_cache w) u (w_upstream w) (w_ble w)).
Proof. done. Qed.
Lemma shown_none j w w' : conns (w_ble w') !! i = conns (w_ble w) !! i -> shown j w [] j w'.
Proof. intros E pc Hi. exists pc, []. rewrite E. split; [done|]. split; [by apply Forall_nil|split; [done|constructor]]. Qed.
Lemma shown_uart j w u : seated j w -> shown j w [] j (mk_world (w_cache w) u (w_upstream w) (w_ble w)).
Proof. intros _. by apply shown_none. Qed.

Lemma seated_kept j j' w w' a : seated j w -> live_kept a w w' -> a <> Some c -> seated j' w'.
Proof.
  intros (Hl & Hk & Hc) Hlk Ha. destruct (Hlk Hl) as (Ek & Hl' & Ho). split; [done|]. split; [congruence|].
  destruct (conns (w_ble w) !! i) as [pc|] eqn:Hi; [|done]. injection Hc as Hc.
  destruct (Ho i pc Hi) as (pc' & -> & Hc' & _); [by rewrite Hc|by rewrite Hc|]. simpl. by rewrite Hc', Hc.
Qed.
Lemma seated_after j j' w w' : seated j w -> after w w' -> seated j' w'.
Proof. intros Hs (_ & _ & Hk & _). by apply (seated_kept j j' w w' None). Qed.

Abbreviation good := (Receiver.good None seated).
Abbreviation passes := (Receiver.passes None seated shown).
Abbreviation recv := (leads good passes).

Lemma good_slot y w : good y w -> exists pc, conns (w_ble w) !! i = Some pc /\ conn pc = c.
Proof.
  intros Hg. destruct (gd_known _ _ _ _ Hg) as (_ & _ & Hc). destruct (conns (w_ble w) !! i) as [pc|]; [|done].
  injection Hc as Hc. by exists pc.
Qed.
Lemma good_range y w : good y w -> (i < Z.to_nat MAX_BLE_CONNECTIONS)%nat.
Proof.
  intros Hg. destruct (good_slot _ _ Hg) as (pc & Hi & _).
  pose proof (so_world _ (gd_sys _ _ _ _ Hg)) as (Hb & _). change (ble_wf (w_ble w)) in Hb.
  rewrite <- (bw_size _ Hb). by eapply lookup_lt_Some.
Qed.

(** *** Deliveries *)

(** The frame is one for all, or was routed to all. *)
Definition owed (d : list Z) (r : bool) (y : flight (option (list Z))) : Prop :=
  y = holding None d r /\ (forall t, destination_of t d = ToAll) \/ y = mk_flight None r (Some d).

Lemma slot_deliver y d w w' pc :
  good y w -> delivered i d w w' -> conns (w_ble w) !! i = Some pc ->
  conns (w_ble w') !! i = Some (deliver d pc) /\ phone_of k (deliver d pc) = push d (phone_of k pc).
Proof.
  intros Hg (q & Hq & _ & ->) Hi. pose proof (so_world _ (gd_sys _ _ _ _ Hg)) as (Hb & _).
  rewrite Hi in Hq. injection Hq as <-.
  split; [apply list_lookup_insert_eq; by eapply lookup_lt_Some|]. apply phone_deliver. by eapply ble_wf_slot.
Qed.

(** The broadcast comes to the phone's slot. *)
Lemma passes_deliver d r y w w' :
  owed d r y -> good y w -> after w w' -> delivered i d w w' -> passes y w (handed None r) w'.
Proof.
  intros Hy Hg Ha Hd. pose proof Hd as (q0 & _ & _ & Ew). assert (w_uart w' = w_uart w) as Eu by by rewrite Ew.
  assert (seated None w') as HJ by (eapply seated_after; [apply Hg|done]).
  assert (forall h j, glimpse c (DidThread [] [] (desk_of w)) h ->
    (forall ph, sees c (frames_of k) j ph h None (push d ph)) -> shown j w (seen_frames h) None w') as Hsh.
  { intros h j Hgl Hse pc Hi. destruct (slot_deliver _ _ _ _ _ Hg Hd Hi) as [Hi' Eq].
    exists (deliver d pc), h. split; [done|]. split; [done|]. split; [done|]. rewrite Eq. apply Hse. }
  destruct Hy as [[-> Hall]| ->].
  - apply passes_hand; [done| |done]. apply (Hsh [SeenRouted d ToAll; SeenPushed]).
    { repeat apply Forall_cons_2; [by rewrite Hall|done|by apply Forall_nil]. }
    intros ph. apply se_all, se_pushed, se_nil.
  - apply passes_still; [done..| |done|by left]. apply (Hsh [SeenPushed]).
    { repeat apply Forall_cons_2; [done|by apply Forall_nil]. }
    intros ph. apply se_pushed, se_nil.
Qed.

(** The frame is routed where the desk says. *)
Lemma passes_routed d r w w' to j' :
  to = destination_of (desk_of w) d -> good (holding None d r) w -> after w w' -> w_uart w' = w_uart w ->
  (forall pc, conns (w_ble w) !! i = Some pc -> exists pc', conns (w_ble w') !! i = Some pc'
     /\ sees c (frames_of k) None (phone_of k pc) [SeenRouted d to] j' (phone_of k pc')) ->
  passes (holding None d r) w (mk_flight None r j') w'.
Proof.
  intros Hto Hg Ha Eu Hs. apply passes_hand; [done| |eapply seated_after; [apply Hg|done]].
  intros pc Hi. destruct (Hs pc Hi) as (pc' & Hi' & Hse). exists pc', [SeenRouted d to].
  split; [done|]. split; [by apply Forall_cons_2; [|apply Forall_nil]|by split].
Qed.
Lemma passes_to_all d r w :
  destination_of (desk_of w) d = ToAll -> good (holding None d r) w ->
  passes (holding None d r) w (mk_flight None r (Some d)) w.
Proof.
  intros Hd Hg. eapply passes_routed; [by symmetry|done|by apply after_refl, Hg|done|].
  intros pc Hi. exists pc. split; [done|]. apply se_all, se_nil.
Qed.
Lemma passes_mine d r w w' :
  destination_of (desk_of w) d = ToPhone c -> good (holding None d r) w -> after w w' -> delivered i d w w' ->
  passes (holding None d r) w (handed None r) w'.
Proof.
  intros Hd Hg Ha Hdl. pose proof Hdl as (q0 & _ & _ & Ew).
  eapply passes_routed; [by symmetry|done|done|by rewrite Ew|].
  intros pc Hi. destruct (slot_deliver _ _ _ _ _ Hg Hdl Hi) as [Hi' Eq].
  exists (deliver d pc). split; [done|]. rewrite Eq. apply se_mine, se_nil.
Qed.
Lemma passes_other d r w w' :
  destination_of (desk_of w) d <> ToAll -> destination_of (desk_of w) d <> ToPhone c ->
  good (holding None d r) w -> after w w' -> w_uart w' = w_uart w ->
  conns (w_ble w') !! i = conns (w_ble w) !! i -> passes (holding None d r) w (handed None r) w'.
Proof.
  intros H1' H2' Hg Ha Eu Ec. eapply passes_routed; [reflexivity|done..|].
  intros pc Hi. exists pc. rewrite Ec. split; [done|]. apply se_other; [done|done|apply se_nil].
Qed.
(** The phone does not take part. *)
Lemma passes_calm y w w' :
  good y w -> after w w' -> w_uart w' = w_uart w -> conns (w_ble w') !! i = conns (w_ble w) !! i ->
  passes y w y w'.
Proof.
  intros Hg Ha Eu Ec. apply passes_still; try done; [by apply shown_none|by eapply seated_after; [apply Hg|]|apply Hg].
Qed.

Lemma delivered_other j d w w' :
  delivered j d w w' -> j <> i ->
  w_uart w' = w_uart w /\ conns (w_ble w') !! i = conns (w_ble w) !! i.
Proof. intros (pc & _ & _ & ->) Hj. split; [done|]. by apply list_lookup_insert_ne. Qed.

Definition in_range (j : nat) : Prop := (j < Z.to_nat MAX_BLE_CONNECTIONS)%nat.

Lemma turn_passes w j data sent n w' t y :
  good y w -> in_range j -> zoom (broadcast_turn j data sent) w = Some (n, w', t) ->
  after w w' /\ if decide (j = i) then delivered i data w w' else passes y w y w'.
Proof.
  intros Hg Hj E. destruct (after_broadcast_turn w j data sent (gd_sys _ _ _ _ Hg) Hj) as (n2 & w2 & t2 & E2 & Ha & Hd).
  rewrite E in E2. injection E2 as <- <- <-. split; [done|]. case_decide as Hji.
  - subst j. destruct Hd as [[_ Hn]|]; [|done]. destruct (good_slot _ _ Hg) as (pc & Hi & Hc).
    rewrite Hi in Hn. simpl in Hn. congruence.
  - destruct Hd as [[-> _]|Hd]; [by apply passes_calm|]. destruct (delivered_other _ _ _ _ Hd Hji).
    by apply passes_calm.
Qed.

Lemma recv_broadcast_others slots data sent y :
  i ∉ slots -> Forall in_range slots -> recv (fun _ y' => y' = y) (t_broadcast_from slots data sent) y.
Proof.
  revert sent. induction slots as [|j slots IH]; intros sent Hi Hr; cbn [t_broadcast_from]; [by constructor|].
  apply not_elem_of_cons in Hi as [Hj Hi]. apply Forall_cons in Hr as [Hrj Hr].
  eapply (leads_bind _ _ (fun _ y' => y' = y)); [|intros n ? ->; by apply IH].
  apply leads_act. intros w n w' t Hg E. exists y. split; [|done].
  destruct (turn_passes w j data sent n w' t y Hg Hrj E) as [_ Hp]. by rewrite decide_False in Hp.
Qed.

Lemma recv_broadcast_from slots data sent r y :
  owed data r y -> NoDup slots -> i ∈ slots -> Forall in_range slots ->
  recv (fun _ y' => y' = handed None r) (t_broadcast_from slots data sent) y.
Proof.
  intros Hy. revert sent. induction slots as [|j slots IH]; intros sent Hd Hi Hr; [by apply not_elem_of_nil in Hi|].
  cbn [t_broadcast_from]. apply NoDup_cons in Hd as [Hj Hd]. apply Forall_cons in Hr as [Hrj Hr].
  eapply (leads_bind _ _ (fun _ y' => y' = if decide (j = i) then handed None r else y)).
  - apply leads_act. intros w n w' t Hg E. eexists. split; [|done].
    destruct (turn_passes w j data sent n w' t _ Hg Hrj E) as [Ha Hp].
    case_decide; [by eapply passes_deliver|done].
  - intros n y' ->. case_decide as Hji; [rewrite Hji in Hj; by apply recv_broadcast_others|].
    apply IH; try done. apply elem_of_cons in Hi as [E|]; [by destruct Hji|done].
Qed.

(** The phone's slot is one of the six. *)
Lemma recv_broadcast data r y :
  in_range i -> owed data r y -> recv (fun _ y' => y' = handed None r) (t_broadcast data) y.
Proof.
  intros Hi Hy. unfold t_broadcast.
  eapply (leads_bind _ _ (fun _ y' => y' = handed None r)); [|intros ? ? ->; by constructor].
  apply recv_broadcast_from; [done|apply NoDup_seq|apply elem_of_seq; unfold in_range in Hi; lia|].
  apply Forall_seq. unfold in_range. lia.
Qed.

(** *** The dispatch of a frame *)

Lemma recv_read {A} (f : upstream -> A) (Q : A -> Prop) y :
  (forall w, good y w -> Q (f (w_upstream w))) ->
  recv (fun a y' => Q a /\ y' = y) (act (zoom (gets f))) y.
Proof.
  intros HQ. apply leads_act. intros w a w' t Hg E. exists y.
  assert (zoom (gets f) w = Some (f (w_upstream w), w, [])) as E' by by destruct w.
  rewrite E in E'. injection E' as -> -> _. split; [|by split; [apply HQ|]].
  eapply passes_refl; [apply shown_uart|exact Hg].
Qed.

(** The answer to the proxy's own heartbeat is swallowed. *)
Lemma recv_swallow data r v :
  classify_fromradio data = RfMeta v ->
  recv (fun (b : bool) y' => if b then y' = handed None r else owed data r y')
    (act (if decide (v = FromRadio_queueStatus_tag) then zoom upstream_swallow_live_queuestatus else ret false))
    (holding None data r).
Proof.
  intros Hv. apply leads_act. intros w b w' t Hg. case_decide as Hq.
  - assert (destination_of (desk_of w) data = if s_keepalive_pending (w_upstream w) then ToNobody else ToAll) as Ed.
    { unfold destination_of. rewrite Hv. simpl. destruct (s_keepalive_pending _); [by rewrite decide_True|].
      rewrite decide_False; [done|]. by intros []. }
    erewrite zoom_eq by apply swallow_eq. intros [= <- <- _].
    pose proof (gd_known _ _ _ _ Hg) as HJ. destruct (s_keepalive_pending (w_upstream w)) eqn:Ep.
    + exists (handed None r). split; [|done].
      apply passes_hand; [done| |done]. intros pc Hi. exists pc, [SeenRouted data ToNobody]. split; [done|].
      split; [by apply Forall_cons_2; [|apply Forall_nil]|]. split; [done|]. apply se_other; [done|done|apply se_nil].
    + exists (mk_flight None r (Some data)). split; [|by right]. apply passes_hand; [done| |done].
      intros pc Hi. exists pc, [SeenRouted data ToAll]. split; [done|].
      split; [by apply Forall_cons_2; [|apply Forall_nil]|]. split; [done|]. apply se_all, se_nil.
  - intros [= <- <- _]. exists (holding None data r). split; [eapply passes_refl; [apply shown_uart|exact Hg]|].
    left. split; [done|]. intros t'. unfold destination_of. rewrite Hv, decide_False; [done|]. by intros [].
Qed.

(** A packet of the proxy's port goes to the phone it names. *)
Lemma holder_owner id w : holder id (desk_of w) = (fun x : nat * proxy_conn => conn x.2) <$> owner id (w_ble w).
Proof.
  unfold holder, owner. case_decide; [done|]. simpl. rewrite list_find_fmap.
  change (list_find (_ ∘ _) (conns (w_ble w)))
    with (list_find (fun pc => conn pc <> NULL /\ pc_proxy_id pc = id) (conns (w_ble w))).
  by destruct (list_find _ (conns (w_ble w))) as [[j pc]|].
Qed.
Lemma recv_target data info r p :
  classify_fromradio data = RfData PROXY_PORTNUM p -> zlen p < 65536 -> bytes_ok p ->
  payload_len info = zlen p -> mem_read (payload_bytes info) 0 (payload_len info) = Some p ->
  recv (fun (b : bool) y' => if b then owed data r y' else y' = handed None r)
    (act (target_step data info)) (holding None data r).
Proof.
  intros Hcl Hpz Hpb Hpl Hpm. apply leads_act. intros w b w' t Hg E.
  destruct (target_ok data info p w (gd_sys _ _ _ _ Hg) Hpb Hpz Hpl Hpm) as (b2 & w2 & t2 & E2 & Ha & Hb).
  rewrite E in E2. injection E2 as <- <- _.
  assert (destination_of (desk_of w) data = match (id ← proxy_dst p; owner id (w_ble w)) with
            | Some (_, pc) => ToPhone (conn pc) | None => ToAll end) as Ed.
  { unfold destination_of. rewrite Hcl, decide_True by done. destruct (proxy_dst p) as [id|]; simpl; [|done].
    rewrite holder_owner. by destruct (owner id (w_ble w)) as [[]|]. }
  assert (forall j q, (id ← proxy_dst p; owner id (w_ble w)) = Some (j, q) -> conns (w_ble w) !! j = Some q) as Ho.
  { intros j q. destruct (proxy_dst p) as [id|]; simpl; [|done]. unfold owner. case_decide; [done|].
    by intros (Hj & _)%list_find_Some. }
  destruct (id ← proxy_dst p; owner id (w_ble w)) as [[j q]|].
  - destruct Hb as [-> Hb]. exists (handed None r). split; [|done].
    pose proof Hb as (q' & Hq & Hn & _). rewrite (Ho j q eq_refl) in Hq. injection Hq as <-.
    destruct (decide (j = i)) as [->|Hji].
    + eapply passes_mine; try done. rewrite Ed. f_equal. destruct (good_slot _ _ Hg) as (pc & Hi & Hc).
      rewrite (Ho i q eq_refl) in Hi. by injection Hi as ->.
    + destruct (delivered_other _ _ _ _ Hb Hji). eapply passes_other; try done; rewrite Ed; [done|]. intros [= Hc].
      destruct (good_slot _ _ Hg) as (pc & Hi & Hc').
      pose proof (so_world _ (gd_sys _ _ _ _ Hg)) as (Hbw & _). change (ble_wf (w_ble w)) in Hbw.
      apply Hji. eapply (bw_distinct _ Hbw); [exact (Ho j q eq_refl)|exact Hi|congruence|done].
  - destruct Hb as [-> ->]. exists (mk_flight None r (Some data)). split; [by apply passes_to_all|by right].
Qed.
(** What the dispatcher knows of a frame. *)
Lemma recv_dispatch data info r :
  in_range i -> proto_decode_fromradio data = (rc_ok, info) ->
  recv (fun _ y' => y' = handed None r) (t_router_dispatch data info) (holding None data r).
Proof.
  intros Hr E. unfold t_router_dispatch.
  eapply leads_bind; [apply (recv_read _ (fun st => st = UPSTREAM_LIVE)); intros w Hg; apply (gd_known _ _ _ _ Hg)|].
  intros st y [-> ->]. rewrite decide_False by done.
  eapply (leads_bind _ _ (fun b y => b = false /\ y = holding None data r)); [by constructor|].
  intros taken y [-> ->]. pose proof (decode_fromradio_classified data) as Hcl.
  assert ((forall t, destination_of t data = ToAll) ->
    recv (fun _ y' => y' = handed None r) (t_broadcast data) (holding None data r)) as Hall.
  { intros Hd. apply recv_broadcast; [done|by left]. }
  unfold destination_of in Hall. destruct (classify_fromradio data) as [|v| |pn p] eqn:Ec.
  - by rewrite E in Hcl.
  - destruct Hcl as [Hv Hcl]. rewrite E in Hcl. injection Hcl as ->. simpl. rewrite decide_True by done.
    eapply leads_bind; [by apply recv_swallow|]. intros b y Hy. destruct b; [subst; by constructor|by apply recv_broadcast].
  - destruct Hcl as (j & Hcl & Hv & Hd & _). rewrite E in Hcl. injection Hcl as <-.
    rewrite decide_False by (intros Hn; by apply Hn). rewrite Hd. by apply Hall.
  - destruct Hcl as (j & Hcl & Hv & Hd & Hpn & Hpm & Hpl & Hpb). rewrite E in Hcl. injection Hcl as <-.
    rewrite decide_False by (intros Hn; by apply Hn). rewrite Hd, Hpn. simpl.
    case_decide as Hp; [subst pn|by apply Hall].
    pose proof (decode_fromradio_payload _ _ E) as (_ & _ & Hz).
    eapply leads_bind; [eapply (recv_target _ _ _ p); try done; [congruence|lia]|].
    intros b y Hy. destruct b; [by apply recv_broadcast|subst; by constructor].
Qed.

Lemma recv_on_fromradio data r :
  in_range i -> recv (fun _ y' => y' = handed None r) (t_on_fromradio_uart data) (holding None data r).
Proof.
  intros Hi. unfold t_on_fromradio_uart. destruct (proto_decode_fromradio data) as [err info] eqn:E.
  case_decide as He; [|subst err; by apply recv_dispatch].
  apply recv_broadcast; [done|]. left. split; [done|]. intros t.
  pose proof (decode_fromradio_classified data) as Hcl. unfold destination_of.
  destruct (classify_fromradio data) as [|v| |pn p]; [done|..]; exfalso; apply He.
  - destruct Hcl as [_ Hcl]. rewrite E in Hcl. by injection Hcl.
  - destruct Hcl as (j & Hcl & _). rewrite E in Hcl. by injection Hcl.
  - destruct Hcl as (j & Hcl & _). rewrite E in Hcl. by injection Hcl.
Qed.

(** ** Steps *)

Abbreviation in_hand := (Receiver.in_hand None seated shown).

(** A step of a thread. *)
Lemma thread_shown y cf t cf1 :
  in_hand y cf -> cstep cf None t cf1 ->
  exists y1 ds, in_hand y1 cf1
    /\ account y (cf_world cf) (taken (cf_world cf) (cf_world cf1)) ds y1 (cf_world cf1)
    /\ shown (fl_job y) (cf_world cf) ds (fl_job y1) (cf_world cf1).
Proof.
  intros Hy. pose proof (good_range _ _ (ih_good _ _ _ _ _ Hy)) as Hr.
  apply (thread_account None seated shown seated_boot seated_uart shown_uart); [|done].
  intros d r _ _. by apply recv_on_fromradio.
Qed.

(** An event: a request of the phone is answered, any other leaves it alone. *)
Lemma event_shown y cf e a t cf1 pc :
  in_hand y cf -> cstep cf (Some e) t cf1 -> observe e (cf_world cf) = Some (a, cf_world cf1, t) ->
  ~ connects c e -> conns (w_ble (cf_world cf)) !! i = Some pc ->
  in_hand y cf1 /\ account y (cf_world cf) [] [] y (cf_world cf1)
  /\ exists pc', conns (w_ble (cf_world cf1)) !! i = Some pc'
     /\ sees c (frames_of k) (fl_job y) (phone_of k pc)
          (if decide (request e = Some c) then [SeenOwn e (mk_output a (uart_frames t))] else [])
          (fl_job y) (phone_of k pc').
Proof.
  intros Hy Hs Eo Hn Hi. pose proof Hy as [Hcf Hg _ _]. pose proof (gd_known _ _ _ _ Hg) as HJ.
  pose proof HJ as (Hl & Hk & Hc). rewrite Hi in Hc. injection Hc as Hc.
  destruct (cstep_ok _ _ _ _ Hcf Hs) as [Hcf1 Hlk]. simpl in Hlk. destruct (Hlk Hl) as (Hk1 & Hl1 & _).
  pose proof (event_implements cf e a t cf1 Hcf (seated_boot _ _ HJ) Hs Eo) as Hsp.
  assert (conn pc <> NULL) as Hpn by by rewrite Hc.
  inversion Hs as [w q m e' w' t' Hone _ He E| | | | | | | |]; subst; simpl in *.
  assert (seated (fl_job y) w' /\ exists pc', conns (w_ble w') !! i = Some pc' /\ conn pc' = conn pc) as [HJ1 (pc1 & Hi1 & Hc1)].
  { destruct (decide (request e = Some c)) as [Hrq|Hrq].
    - pose proof (so_world _ (co_sys _ Hcf)) as (Hb & _). change (ble_wf (w_ble w)) in Hb.
      destruct (event_tells w e w' t Hone He E (bw_distinct _ Hb)) as [_ Htl].
      destruct (tl_notes _ _ _ Htl i pc Hi Hpn) as (pc' & Hi' & Hc' & _).
      { eapply Forall_impl; [exact (calls_request _ e Hrq w _ _ _ E)|]. by intros []. }
      change (conns (w_ble w') !! i = Some pc') in Hi'. split; [|by exists pc'].
      split; [done|]. split; [congruence|]. rewrite Hi'. simpl. by rewrite Hc', Hc.
    - assert (seated (fl_job y) w') as HJ1.
      { eapply seated_kept; [exact HJ|exact Hlk|]. intros Ha. destruct e; simpl in *; try done;
          injection Ha as ->; by first [destruct Hrq|destruct Hn]. }
      split; [done|]. destruct HJ1 as (_ & _ & Hc1). destruct (conns (w_ble w') !! i) as [pc'|]; [|done].
      injection Hc1 as Hc1. exists pc'. by rewrite Hc1. }
  destruct (event_account None seated shown _ _ e t _ Hy Hs HJ1) as [Hy1 Ha]. split; [done|]. split; [done|].
  exists pc1. split; [done|].
  pose proof (so_world _ (co_sys _ Hcf)) as (Hb & _). change (ble_wf (w_ble w)) in Hb.
  pose proof (so_world _ (co_sys _ Hcf1)) as (Hb1 & _). change (ble_wf (w_ble w')) in Hb1.
  pose proof (abs_phone w i pc Hb Hi Hpn) as Hph. pose proof (abs_phone w' i pc1 Hb1 Hi1) as Hph1.
  rewrite Hc1 in Hph1. specialize (Hph1 Hpn). rewrite Hc in Hph, Hph1. rewrite Hk1 in Hph1. rewrite Hk in Hph, Hph1, Hk1.
  assert (px_phones (abs [] w) !! c = Some (phone_of k pc)) as Hpx by (simpl; by rewrite Hk).
  case_decide as Hrq.
  - destruct (spec_own _ _ _ _ _ _ Hsp Hrq Hl Hpx) as (ph' & Hph' & Ho).
    change (phones_of (w_cache w') (conns (w_ble w')) !! c = Some ph') in Hph'. rewrite Hk1, Hph1 in Hph'.
    injection Hph' as <-. change (px_log (abs [] w)) with (frames_of (w_cache w)) in Ho. rewrite Hk in Ho.
    eapply se_own; [exact Ho|constructor].
  - pose proof (spec_other c _ _ _ _ Hsp ltac:(by intros ->) Hrq Hn) as Eq.
    change (phones_of (w_cache w') (conns (w_ble w')) !! c = phones_of (w_cache w) (conns (w_ble w)) !! c) in Eq.
    rewrite Hk1, Hk, Hph, Hph1 in Eq. apply (inj Some) in Eq as ->. constructor.
Qed.

Lemma span_shown y cf ds cf' pc :
  span cf ds cf' -> in_hand y cf -> Forall (fun x => ~ connects c x.1) (events_of ds) ->
  conns (w_ble (cf_world cf)) !! i = Some pc ->
  exists y' pc' hs, in_hand y' cf' /\ conns (w_ble (cf_world cf')) !! i = Some pc'
    /\ account y (cf_world cf) (bytes_of ds) (seen_frames (mjoin hs)) y' (cf_world cf')
    /\ Forall2 (glimpse c) ds hs
    /\ sees c (frames_of k) (fl_job y) (phone_of k pc) (mjoin hs) (fl_job y') (phone_of k pc').
Proof.
  intros Hs. revert y pc. induction Hs as [cf|cf e a t cf1 ds cf' Hs Eo _ IH|cf t cf1 ds cf' Hs _ IH];
    intros y pc Hy Hn Hi.
  - exists y, pc, []. split; [done|]. split; [done|]. split; [apply account_refl|]. split; [done|constructor].
  - apply Forall_cons in Hn as [Hne Hn].
    destruct (event_shown y cf e a t cf1 pc Hy Hs Eo Hne Hi) as (Hy1 & Ha1 & pc1 & Hi1 & Hse1).
    destruct (IH y pc1 Hy1 Hn Hi1) as (y' & pc' & hs & Hy' & Hi' & Ha & Hgl & Hse).
    set (h := if decide (request e = Some c) then _ else _) in Hse1.
    exists y', pc', (h :: hs). change (mjoin (h :: hs)) with (h ++ mjoin hs).
    split; [done|]. split; [done|]. split; [|split; [by constructor|by eapply sees_app]].
    rewrite (proj1 (seen_app _ _)). change (bytes_of (DidEvent e ?o :: ds)) with ([] ++ bytes_of ds).
    eapply account_trans; [|exact Ha]. unfold h. by case_decide.
  - destruct (thread_shown y cf t cf1 Hy Hs) as (y1 & fs & Hy1 & Ha1 & Hs1).
    destruct (Hs1 pc Hi) as (pc1 & h & Hi1 & Hgl1 & <- & Hse1).
    destruct (IH y1 pc1 Hy1 Hn Hi1) as (y' & pc' & hs & Hy' & Hi' & Ha & Hgl & Hse).
    exists y', pc', (h :: hs). change (mjoin (h :: hs)) with (h ++ mjoin hs).
    split; [done|]. split; [done|]. split; [|split; [by constructor|by eapply sees_app]].
    rewrite (proj1 (seen_app _ _)). change (bytes_of (DidThread ?bs ?o ?t :: ds)) with (bs ++ bytes_of ds).
    by eapply account_trans.
Qed.
End Slot.

(** ** The mailbox *)

Section Mailbox.
Context `{NanopbOk, GattReadOk}.

(** What [sees] says of the packet queue. *)
Lemma sees_mailbox c fs j ph h j' ph' :
  sees c fs j ph h j' ph' -> calm ph -> Forall routed_well h ->
  Forall (fun x => request x.1 = Some c /\ stays c x.1 /\ asks x.1) (seen_own h) ->
  exists p, mailbox (ph_queue ph) p (ph_queue ph')
    /\ post_frames p ++ option_list j' = option_list j ++ seen_frames h
    /\ post_reads p = fetches c (seen_own h) /\ length (post_replies p) = sum_list (beats c <$> (seen_own h).*1).
Proof.
  induction 1 as [j ph|d ph h j' ph' _ IH|d ph h j' ph' _ IH|d ph h j' ph' _ IH|d to ph h j' ph' Hto _ _ IH
    |j e o ph ph1 h j' ph' Ho _ IH]; intros Hq Hw Hf.
  - exists []. rewrite app_nil_r. split; [constructor|done].
  - apply Forall_cons in Hw as [_ Hw]. by destruct (IH Hq Hw Hf) as (p & Hm & Ef & Er); exists p.
  - apply Forall_cons in Hw as [_ Hw]. destruct (push_accept d ph) as [Em Eq].
    destruct IH as (p & Hm & Ef & Er); [unfold calm; by rewrite Em|done..|].
    exists (PostFrame d :: p). split; [apply mb_frame; by rewrite <- Eq|]. split; [|exact Er].
    change (post_frames (PostFrame d :: p)) with (d :: post_frames p). simpl. by rewrite Ef.
  - apply Forall_cons in Hw as [_ Hw]. destruct (push_accept d ph) as [Em Eq].
    destruct IH as (p & Hm & Ef & Er); [unfold calm; by rewrite Em|done..|].
    exists (PostFrame d :: p). split; [apply mb_frame; by rewrite <- Eq|]. split; [|exact Er].
    change (post_frames (PostFrame d :: p)) with (d :: post_frames p). simpl. by rewrite Ef.
  - apply Forall_cons in Hw as [Hd Hw]. destruct (IH Hq Hw Hf) as (p & Hm & Ef & Er).
    exists (PostFrame d :: p). split; [apply mb_passed; [by apply Hd|done]|]. split; [|exact Er].
    change (post_frames (PostFrame d :: p)) with (d :: post_frames p). simpl. by rewrite Ef.
  - apply Forall_cons in Hw as [_ Hw]. apply Forall_cons in Hf as [(Hr & Hst & Ha) Hf].
    destruct (own_downlink c fs e o ph ph1 Ho Hr Hst Ha Hq) as (Hq1 & p1 & Hm1 & Ef1 & Er1 & El1).
    destruct (IH Hq1 Hw Hf) as (p & Hm & Ef & Er & El). exists (p1 ++ p).
    unfold post_frames, post_reads, post_replies in *. rewrite !omap_app, Ef1, Er1, length_app, El1, Er, El.
    split; [by eapply mailbox_app|]. split; [exact Ef|]. split; [|done].
    unfold fetches. simpl. by destruct (fetch_of c _).
Qed.
End Mailbox.

Section Properties.
Context `{NanopbOk, GattReadOk, !RingBuf RING_BUF_SIZE, !RingBufOk RING_BUF_SIZE}.
Context `{!MsgQ tx_entry TX_QUEUE_DEPTH, !MsgQOk tx_entry TX_QUEUE_DEPTH}.

Lemma span_asks cf ds cf' : span cf ds cf' -> Forall (fun x => asks x.1) (events_of ds).
Proof.
  induction 1 as [|cf e a t cf1 ds cf' Hs _ _ IH|cf t cf1 ds cf' _ _ IH]; [by apply Forall_nil| |exact IH].
  apply Forall_cons. split; [|exact IH]. inversion Hs as [w q m e' w' t' Hone _ He E| | | | | | | |]; subst.
  destruct e; try done. by destruct He as (_ & ? & _).
Qed.

(** One frame at a time. *)
Lemma single_length (y : flight (option (list Z))) :
  single None y -> (length (option_list (fl_job y) ++ option_list (fl_frame y)) <= 1)%nat.
Proof. intros [->| ->]; [rewrite app_nil_r; by destruct (fl_job y); simpl; lia|by destruct (fl_frame y); simpl; lia]. Qed.

(** At rest, LIVE. *)
Lemma resting c i k cf :
  creachable cf -> s_state (w_upstream (cf_world cf)) = UPSTREAM_LIVE -> cf_main cf = Done None ->
  cf_wq cf = WqIdle -> conn <$> conns (w_ble (cf_world cf)) !! i = Some c -> k = w_cache (cf_world cf) ->
  in_hand None (seated c i k) (shown c i k) (grounded None) cf.
Proof.
  intros Hcf Hl Hm Hq Hi ->. apply in_hand_idle with None; try done. by apply creachable_ok.
Qed.

(** C6: a phone sees its part of the abstract proxy, in every interleaving.
    From any configuration the threads reach with the session LIVE, [main] in its
    loop and the work queue idle, take a connected phone and any schedule during
    which it stays connected, its requests falling between any two sections of
    the receiver and of a broadcast.  Step by step along the schedule: each of its
    requests, a want_config with the replay it starts and every read of it
    included, is answered as the abstract proxy would; each frame the machine
    makes of the bytes the receiver takes is routed, in the order of the line, by
    what the router can look up at that step: the answer to the proxy's own
    heartbeat goes to nobody, a packet of the proxy's port to the first connected
    phone that registered its destination, and anything else to all; a frame for
    this phone is pushed to its queue at once, one for all before the next is
    routed, one for another or for nobody not at all; nothing else touches the
    phone.  (A push is dropped, as in C32, if the queue is full.)  At most one
    frame is in the receiver's hands, not routed or not pushed yet, and none once
    the work queue is idle. *)
Theorem threads_phone cf c ds cf' i pc :
  creachable cf -> s_state (w_upstream (cf_world cf)) = UPSTREAM_LIVE -> cf_main cf = Done None ->
  cf_wq cf = WqIdle -> conns (w_ble (cf_world cf)) !! i = Some pc -> conn pc = c -> c <> NULL ->
  span cf ds cf' -> Forall (fun x => ~ connects c x.1) (events_of ds) ->
  exists pc' hs j sm' rest, conns (w_ble (cf_world cf')) !! i = Some pc' /\ conn pc' = c
    /\ Forall2 (glimpse c) ds hs
    /\ sees c (frames_of (w_cache (cf_world cf))) None (phone_of (w_cache (cf_world cf)) pc) (mjoin hs)
         j (phone_of (w_cache (cf_world cf)) pc')
    /\ rx_run (rx_sm (w_uart (cf_world cf))) (bytes_of ds) = Some (sm', seen_frames (mjoin hs) ++ rest)
    /\ (length (option_list j ++ rest) <= 1)%nat /\ (cf_wq cf' = WqIdle -> j = None /\ rest = []).
Proof.
  intros Hcf Hl Hm Hq Hi Hc Hn Hs Hds.
  pose proof (resting c i _ cf Hcf Hl Hm Hq ltac:(by rewrite Hi; simpl; rewrite Hc) eq_refl) as Hh.
  destruct (span_shown c i _ Hn (grounded None) cf ds cf' pc Hs Hh Hds Hi) as (y' & pc' & hs & Hy' & Hi' & Ha & Hgl & Hse).
  destruct (account_rest (grounded None) _ _ _ _ _ eq_refl eq_refl Ha) as [Hr _].
  destruct (gd_known _ _ _ _ (ih_good _ _ _ _ _ Hy')) as (_ & _ & Hc'). rewrite Hi' in Hc'. injection Hc' as Hc'.
  exists pc', hs, (fl_job y'), (machine y' (cf_world cf')), (option_list (fl_frame y')). split_and!; try done.
  - by apply single_length, (ih_good _ _ _ _ _ Hy').
  - intros Hq'. by rewrite (in_hand_at_idle _ _ _ _ _ Hy' Hq').
Qed.

(** C7: the downlink is exact, in every interleaving: if that phone is not in a
    replay and does not ask for the config, its packet queue is a mailbox.  Into
    it go the frames the machine makes of the bytes the receiver takes, in their
    order, while there is room, but for those that not every phone gets, and the
    replies to its own heartbeats, and its fresh reads return exactly what is at
    the front. *)
Theorem threads_downlink cf c ds cf' i pc :
  creachable cf -> s_state (w_upstream (cf_world cf)) = UPSTREAM_LIVE -> cf_main cf = Done None ->
  cf_wq cf = WqIdle -> conns (w_ble (cf_world cf)) !! i = Some pc -> conn pc = c -> c <> NULL ->
  pc_state pc <> PHONE_REPLAYING -> span cf ds cf' -> Forall (stays c) (events_of ds).*1 ->
  exists pc' h sm' rest, conns (w_ble (cf_world cf')) !! i = Some pc' /\ conn pc' = c
    /\ mailbox (pkts pc) h (pkts pc')
    /\ rx_run (rx_sm (w_uart (cf_world cf))) (bytes_of ds) = Some (sm', post_frames h ++ rest)
    /\ (length rest <= 1)%nat /\ (cf_wq cf' = WqIdle -> rest = [])
    /\ post_reads h = fetches c (own_requests c ds)
    /\ length (post_replies h) = sum_list (beats c <$> (own_requests c ds).*1).
Proof.
  intros Hcf Hl Hm Hq Hi Hc Hn Hp Hs Hst.
  pose proof (resting c i _ cf Hcf Hl Hm Hq ltac:(by rewrite Hi; simpl; rewrite Hc) eq_refl) as Hh.
  destruct (span_shown c i _ Hn (grounded None) cf ds cf' pc Hs Hh) as (y' & pc' & hs & Hy' & Hi' & Ha & Hgl & Hse); [|done|].
  { apply (Forall_fmap fst (stays c)) in Hst. eapply Forall_impl; [exact Hst|]. intros [e o] He Hce. by destruct e. }
  destruct (account_rest (grounded None) _ _ _ _ _ eq_refl eq_refl Ha) as [Hr _].
  destruct (gd_known _ _ _ _ (ih_good _ _ _ _ _ Hy')) as (_ & _ & Hc'). rewrite Hi' in Hc'. injection Hc' as Hc'.
  pose proof (glimpses_own _ _ _ Hgl) as Ho.
  destruct (sees_mailbox c _ _ _ _ _ _ Hse) as (p & Hm' & Ef & Er & El).
  { unfold calm, phone_of, mode_of. simpl. by destruct (pc_state pc). }
  { by eapply glimpses_well. }
  { rewrite Ho. apply Forall_forall. intros [e o] [Hreq Hin]%list_elem_of_filter.
    split; [done|]. pose proof (span_asks _ _ _ Hs) as Has. apply (Forall_fmap fst (stays c)) in Hst.
    rewrite Forall_forall in Hst, Has. split; [by apply (Hst (e, o))|by apply (Has (e, o))]. }
  rewrite Ho in Er, El. simpl in Ef. rewrite <- Ef, <- app_assoc in Hr.
  exists pc', p, (machine y' (cf_world cf')), (option_list (fl_job y') ++ option_list (fl_frame y')). split_and!; try done.
  - by apply single_length, (ih_good _ _ _ _ _ Hy').
  - intros Hq'. by rewrite (in_hand_at_idle _ _ _ _ _ Hy' Hq').
Qed.
End Properties.

(** ** The properties at a concrete input *)

Module Demo.
#[local] Existing Instances demo_nanopb demo_nanopb_ok list_ring list_ring_ok list_msgq
  list_msgq_ok list_gatt_read list_gatt_read_ok.
Import Schedule.Demo.

(** Phone 11 has read its replay. *)
Definition read11 : choice := ChEvent (EvReadFromRadio 11 512 0).
Definition calm11 : config := default served (run_schedule (replicate 4 read11) served).
Lemma calm11_run : run_schedule (replicate 4 read11) served = Some calm11.
Proof. vm_compute. reflexivity. Qed.
Lemma calm11_reach : creachable calm11.
Proof. exact (run_schedule_reach _ _ _ served_reach calm11_run). Qed.
Definition calm_slot : proxy_conn := default conn_boot (conns (w_ble (cf_world calm11)) !! 0%nat).
Lemma calm_slot_at : conns (w_ble (cf_world calm11)) !! 0%nat = Some calm_slot.
Proof. vm_compute. reflexivity. Qed.
Lemma calm_slot_state : conn calm_slot = 11 /\ pc_state calm_slot = PHONE_ACTIVE /\ pkts calm_slot = [].
Proof. vm_compute. by split_and!. Qed.

(** Two packets come; in the middle of the broadcast of the first the phone
    makes requests, and once more when the work queue is idle. *)
Definition meanwhile (chs : list choice) : list choice :=
  [ChEvent (EvUart (UART_RX_RDY (frame_of [4; 9] ++ frame_of [4; 10]))); ChRx] ++ replicate 14 ChWq ++ chs
  ++ replicate 30 ChWq ++ [read11].

(** It reads. *)
Definition reading : list did * config := default ([], calm11) (run_span (meanwhile [read11]) calm11).
Lemma reading_ok : span calm11 reading.1 reading.2.
Proof. apply (run_span_ok (meanwhile [read11])). vm_compute. reflexivity. Qed.
Lemma reading_idle : cf_wq reading.2 = WqIdle.
Proof. vm_compute. reflexivity. Qed.
Lemma reading_stays : Forall (stays 11) (events_of reading.1).*1.
Proof.
  assert ((events_of reading.1).*1 = [EvUart (UART_RX_RDY (frame_of [4; 9] ++ frame_of [4; 10]));
    EvReadFromRadio 11 512 0; EvReadFromRadio 11 512 0]) as -> by (vm_compute; reflexivity).
  repeat (apply Forall_cons_2; [exact I|]). apply Forall_nil_2.
Qed.
Lemma reading_log :
  fetches 11 (own_requests 11 reading.1) = [(512, [4; 9]); (512, [4; 10])]
  /\ (snd <$> rx_run (rx_sm (w_uart (cf_world calm11))) (bytes_of reading.1)) = Some [[4; 9]; [4; 10]].
Proof. vm_compute. by split_and!. Qed.

Lemma threads_downlink_witness :
  exists pc' h, conn pc' = 11 /\ mailbox [] h (pkts pc') /\ post_frames h = [[4; 9]; [4; 10]]
    /\ post_reads h = [(512, [4; 9]); (512, [4; 10])].
Proof.
  destruct calm_slot_state as (Hc & Hs & Hp). destruct reading_log as (Hf & Hr).
  destruct (threads_downlink calm11 11 reading.1 reading.2 0 calm_slot calm11_reach
    ltac:(vm_compute; reflexivity) ltac:(vm_compute; reflexivity) ltac:(vm_compute; reflexivity)
    calm_slot_at Hc ltac:(done) ltac:(by rewrite Hs) reading_ok reading_stays)
    as (pc' & h & sm' & rest & _ & Hc' & Hm & Hrun & _ & Hrest & Hv & _).
  specialize (Hrest reading_idle). rewrite Hrest, app_nil_r in Hrun. rewrite Hrun in Hr. injection Hr as Hr.
  rewrite Hf in Hv. rewrite Hp in Hm. exists pc', h. split; [exact Hc'|]. split; [exact Hm|].
  split; [exact Hr|exact Hv].
Defined.

(** In the middle of a broadcast it registers, asks for the config again and
    reads; a packet for the identifier it registered follows. *)
Definition addressed : list Z := [2; 9; 9; 4; 0; 1; 1; 5; 5; 5; 5; 1; 2; 3; 4; 65].
Definition asking_chs : list choice :=
  [ChEvent (EvUart (UART_RX_RDY (frame_of [4; 9] ++ frame_of addressed))); ChRx] ++ replicate 14 ChWq
  ++ [ChEvent (EvWriteNodeReg 11 [1; 2; 3; 4] 0); ChEvent (EvWriteToRadio 11 (3 :: le32 69420) 0); read11]
  ++ replicate 52 ChWq ++ replicate 5 read11.
Definition asking : list did * config := default ([], calm11) (run_span asking_chs calm11).
Lemma asking_ok : span calm11 asking.1 asking.2.
Proof. apply (run_span_ok asking_chs). vm_compute. reflexivity. Qed.
Lemma asking_idle : cf_wq asking.2 = WqIdle.
Proof. vm_compute. reflexivity. Qed.
Definition asked : list (event * output) :=
  [(EvWriteNodeReg 11 [1; 2; 3; 4] 0, answers (WriteAnswer (att_ok 4)));
   (EvWriteToRadio 11 (3 :: le32 69420) 0, answers (WriteAnswer (att_ok 5)));
   (EvReadFromRadio 11 512 0, answers (ReadAnswer (att_ok [3; 1; 2])));
   (EvReadFromRadio 11 512 0, answers (ReadAnswer (att_ok [4; 8])));
   (EvReadFromRadio 11 512 0, answers (ReadAnswer (att_ok (7 :: le32 69420))));
   (EvReadFromRadio 11 512 0, answers (ReadAnswer (att_ok [])));
   (EvReadFromRadio 11 512 0, answers (ReadAnswer (att_ok [4; 9])));
   (EvReadFromRadio 11 512 0, answers (ReadAnswer (att_ok addressed)))].
Lemma asking_log :
  events_of asking.1 = (EvUart (UART_RX_RDY (frame_of [4; 9] ++ frame_of addressed)), silent) :: asked
  /\ own_requests 11 asking.1 = asked
  /\ (snd <$> rx_run (rx_sm (w_uart (cf_world calm11))) (bytes_of asking.1)) = Some [[4; 9]; addressed].
Proof. vm_compute. by split_and!. Qed.
Lemma asking_connected : Forall (fun x => ~ connects 11 x.1) (events_of asking.1).
Proof. rewrite (proj1 asking_log). repeat (apply Forall_cons_2; [by intros []|]). apply Forall_nil_2. Qed.

(** Where the second frame goes before and after it registers. *)
Example addressed_to :
  destination_of (desk_of (cf_world calm11)) addressed = ToAll
  /\ destination_of (desk_of (cf_world asking.2)) addressed = ToPhone 11.
Proof. vm_compute. by split. Qed.

Lemma threads_phone_witness :
  exists pc' hs, conn pc' = 11 /\ Forall2 (glimpse 11) asking.1 hs
    /\ seen_frames (mjoin hs) = [[4; 9]; addressed] /\ seen_own (mjoin hs) = asked
    /\ sees 11 (frames_of (w_cache (cf_world calm11))) None (phone_of (w_cache (cf_world calm11)) calm_slot)
         (mjoin hs) None (phone_of (w_cache (cf_world calm11)) pc').
Proof.
  destruct calm_slot_state as (Hc & _ & _). destruct asking_log as (_ & Ho & Hr).
  destruct (threads_phone calm11 11 asking.1 asking.2 0 calm_slot calm11_reach
    ltac:(vm_compute; reflexivity) ltac:(vm_compute; reflexivity) ltac:(vm_compute; reflexivity)
    calm_slot_at Hc ltac:(done) asking_ok asking_connected)
    as (pc' & hs & j & sm' & rest & _ & Hc' & Hgl & Hse & Hrun & _ & Hrest).
  destruct (Hrest asking_idle) as [-> ->]. rewrite app_nil_r in Hrun. rewrite Hrun in Hr. injection Hr as Hr.
  exists pc', hs. split; [exact Hc'|]. split; [exact Hgl|]. split; [exact Hr|]. split; [|exact Hse].
  rewrite (glimpses_own _ _ _ Hgl). exact Ho.
Defined.
End Demo.
